(** * efivarfs backend of libefivar: a shallow embedding of [src/efivarfs.c]

    The C functions talk to the kernel through system calls and to the C
    library through stdio and the allocator.  Each of them is embedded as a
    program of the small monad [prog]: a finite tree whose nodes are the
    calls the function issues, in source order, and whose branches are
    indexed by the reply of the environment.  [errno] is a cell of the
    interpreter; [exit(1)] is an outcome of its own.

    Two environments interpret the programs:
    - an arbitrary deterministic environment ([handler]), for the
      properties that hold in every execution;
    - [posix], a small file system with inodes, a descriptor table and
      the per-inode attribute flags, for the properties about contents. *)

From Stdlib Require Import ZArith List String Ascii Bool Lia.
From Stdlib Require Import Strings.Byte.
Import ListNotations.

Local Open Scope string_scope.
Local Open Scope list_scope.
Local Open Scope Z_scope.

Set Implicit Arguments.

(** ** Constants of the system headers (Linux values) *)

Definition O_RDONLY : Z := 0.
Definition O_WRONLY : Z := 1.
Definition O_CREAT  : Z := 64.
Definition O_EXCL   : Z := 128.
Definition O_TRUNC  : Z := 512.
Definition O_APPEND : Z := 1024.

Definition EPERM     : Z := 1.
Definition ENOENT    : Z := 2.
Definition EBADF     : Z := 9.
Definition EACCES    : Z := 13.
Definition EEXIST    : Z := 17.
Definition EINVAL    : Z := 22.
Definition ENOTTY    : Z := 25.
Definition EOVERFLOW : Z := 75.

Definition FS_IMMUTABLE_FL : Z := 16.
Definition EFI_VARIABLE_APPEND_WRITE : Z := 64.

Definition PATH_MAX : Z := 4096.
(** [(size_t)-1] on an LP64 target. *)
Definition SIZE_MAX : Z := 2 ^ 64 - 1.
(** [sizeof (uint32_t)], the size of the attribute word. *)
Definition sizeof_attributes : Z := 4.

Definition size_t (z : Z) : Z := z mod 2 ^ 64.

(** ** Bytes and the attribute word

    The attribute word is copied in and out of the file with [memcpy] and
    [read], so it is stored in the byte order of the machine; the model is
    little-endian. *)

Definition byte_of_Z (z : Z) : byte :=
  match Byte.of_N (Z.to_N (z mod 256)) with
  | Some b => b
  | None => x00
  end.

Definition Z_of_byte (b : byte) : Z := Z.of_N (Byte.to_N b).

Definition encode_u32 (a : Z) : list byte :=
  [ byte_of_Z a; byte_of_Z (Z.shiftr a 8);
    byte_of_Z (Z.shiftr a 16); byte_of_Z (Z.shiftr a 24) ].

Fixpoint decode_le (bs : list byte) : Z :=
  match bs with
  | [] => 0
  | b :: bs' => Z_of_byte b + 256 * decode_le bs'
  end.

(** [read(fd, &obj, n)] into an object that held [old]: the first bytes of
    the object are replaced by the bytes delivered, the rest stays. *)
Definition store_bytes (delivered old : list byte) : list byte :=
  firstn (List.length old) delivered ++ skipn (List.length delivered) old.

(** The C string at the start of some bytes: the bytes before the first
    NUL (all of them when there is none). *)
Fixpoint cstring (buf : list byte) : list byte :=
  match buf with
  | [] => []
  | b :: buf' => if Byte.eqb b x00 then [] else b :: cstring buf'
  end.

Definition string_of_bytes (bs : list byte) : string :=
  string_of_list_ascii (map ascii_of_byte bs).

Definition bytes_of_string (s : string) : list byte :=
  map byte_of_ascii (list_ascii_of_string s).

Definition strlen (s : string) : Z := Z.of_nat (String.length s).

(** ** GUIDs and variable paths *)

Record efi_guid_t := EFI_GUID {
  guid_a : Z;          (* uint32_t *)
  guid_b : Z;          (* uint16_t *)
  guid_c : Z;          (* uint16_t *)
  guid_d : Z;          (* uint16_t *)
  guid_e : list Z      (* uint8_t [6] *)
}.

Definition hex_digit (z : Z) : ascii :=
  let d := z mod 16 in
  if d <? 10 then ascii_of_nat (Z.to_nat (48 + d))
  else ascii_of_nat (Z.to_nat (87 + d)).

Fixpoint hex_digits (n : nat) (z : Z) : string :=
  match n with
  | O => EmptyString
  | S n' => (hex_digits n' (z / 16) ++ String (hex_digit z) EmptyString)%string
  end.

(** Modelled from the spec: the [GUID_FORMAT] macro of the library headers
    is the canonical text of the identifier, 8-4-4-4-12 hexadecimal
    digits. *)
Definition guid_text (g : efi_guid_t) : string :=
  (hex_digits 8 (guid_a g) ++ "-" ++ hex_digits 4 (guid_b g) ++ "-" ++
   hex_digits 4 (guid_c g) ++ "-" ++ hex_digits 4 (guid_d g) ++ "-" ++
   String.concat EmptyString (map (hex_digits 2) (guid_e g)))%string.

Definition GUID_FILE_STORE_VARS : efi_guid_t :=
  EFI_GUID 0xB2AC5FC9 0x92B7 0x4ACD 0xAEAC [0x11; 0xE8; 0x18; 0xC3; 0x13; 0x0C].

Definition NAME_RTSV : string := "RTStorageVolatile".

Definition esp_paths : list string := [ "/boot/efi/"; "/boot/"; "/efi/" ].

Definition default_efivarfs_path : string := "/sys/firmware/efi/efivars/".

(** The file of a variable: [<root><name>-<guid>], the text that
    [make_efivarfs_path] formats. *)
Definition var_path (root : string) (guid : efi_guid_t) (name : string)
  : string :=
  (root ++ name ++ "-" ++ guid_text guid)%string.

(** ** Calls to the environment *)

Inductive syscall : Type :=
| Asprintf (text : string)
| Malloc (size : Z)
| Free
| Open (path : string) (flags mode : Z)
| Close (fd : Z)
| Read (fd : Z) (count : Z)
| ReadFile (fd : Z)
| Write (fd : Z) (buf : list byte) (count : Z)
| Fstat (fd : Z)
| Stat (path : string)
| IoctlGetFlags (fd : Z)
| IoctlSetFlags (fd : Z) (flags : Z)
| Unlink (path : string)
| Chmod (path : string) (mode : Z)
| Geteuid
| Usleep (usec : Z)
| Fopen (path : string) (mode : string)
| Fread (stream : Z) (count : Z)
| Fwrite (stream : Z) (buf : list byte)
| Fclose (stream : Z)
| Fprintf (msg : string)
| EfiError (msg : string)
| OobRead (count : Z).

(** What a call hands back: the return value, the value it leaves in
    [errno] if it touches it, and the out-parameters some calls fill. *)
Record reply := Reply {
  rv : Z;
  r_errno : option Z;
  r_data : list byte;
  r_dev : Z;
  r_ino : Z;
  r_size : Z;
  r_flags : Z
}.

Definition ok (v : Z) : reply := Reply v None [] 0 0 0 0.
Definition fail (e : Z) : reply := Reply (-1) (Some e) [] 0 0 0 0.

Definition event : Type := (syscall * reply)%type.

(** ** Programs *)

Inductive prog (A : Type) : Type :=
| Ret (a : A)
| Sys (c : syscall) (k : reply -> prog A)
| Log (msg : string) (k : prog A)
| GetErrno (k : Z -> prog A)
| SetErrno (e : Z) (k : prog A)
| Exit (code : Z)
| Spin.

Arguments Ret {A} a.
Arguments Sys {A} c k.
Arguments Log {A} msg k.
Arguments GetErrno {A} k.
Arguments SetErrno {A} e k.
Arguments Exit {A} code.
Arguments Spin {A}.

Fixpoint bind {A B} (p : prog A) (f : A -> prog B) : prog B :=
  match p with
  | Ret a => f a
  | Sys c k => Sys c (fun r => bind (k r) f)
  | Log msg k => Log msg (bind k f)
  | GetErrno k => GetErrno (fun e => bind (k e) f)
  | SetErrno e k => SetErrno e (bind k f)
  | Exit code => Exit code
  | Spin => Spin
  end.

Declare Scope prog_scope.
Delimit Scope prog_scope with prog.
Notation "x <- p ;; q" := (bind p (fun x => q))
  (at level 61, p at next level, right associativity) : prog_scope.
Notation "' pat <- p ;; q" :=
  (bind p (fun x => match x with pat => q end))
  (at level 61, pat pattern, p at next level, right associativity)
  : prog_scope.
Notation "p ;; q" := (bind p (fun _ => q))
  (at level 61, right associativity) : prog_scope.
Local Open Scope prog_scope.

Definition sys (c : syscall) : prog reply := Sys c (fun r => Ret r).
Definition efi_error (msg : string) : prog unit := Log msg (Ret tt).
Definition get_errno : prog Z := GetErrno (fun e => Ret e).
Definition set_errno (e : Z) : prog unit := SetErrno e (Ret tt).

(** How a run ends: the function returns, the process exits, or the run is
    still inside a loop when the fuel of the model is spent. *)
Inductive outcome (A : Type) : Type :=
| Returned (a : A)
| Exited (code : Z)
| OutOfFuel.

Arguments Returned {A} a.
Arguments Exited {A} code.
Arguments OutOfFuel {A}.

Record result (S A : Type) := Result {
  res_out : outcome A;
  res_errno : Z;
  res_env : S;
  res_trace : list event
}.

Definition handler (S : Type) : Type := S -> syscall -> reply * S.

Definition new_errno (old : Z) (r : reply) : Z :=
  match r_errno r with
  | Some e => e
  | None => old
  end.

Definition no_reply : reply := ok 0.

Definition traced {S A} (ev : event) (r : result S A) : result S A :=
  Result (res_out r) (res_errno r) (res_env r) (ev :: res_trace r).

Fixpoint run {S A} (h : handler S) (p : prog A) (errno : Z) (s : S)
  : result S A :=
  match p with
  | Ret a => Result (Returned a) errno s []
  | Sys c k =>
      let (r, s') := h s c in
      traced (c, r) (run h (k r) (new_errno errno r) s')
  | Log msg k => traced (EfiError msg, no_reply) (run h k errno s)
  | GetErrno k => run h (k errno) errno s
  | SetErrno e k => run h k e s
  | Exit code => Result (Exited code) errno s []
  | Spin => Result OutOfFuel errno s []
  end.

Definition when (b : bool) (p : prog unit) : prog unit :=
  if b then p else Ret tt.

Definition fprintf (msg : string) : prog unit := sys (Fprintf msg);; Ret tt.
Definition free : prog unit := sys Free;; Ret tt.

(** [x != 0] as C reads an integer in a condition. *)
Definition nonzero (z : Z) : bool := negb (z =? 0).

Fixpoint resize (n : nat) (bs : list byte) : list byte :=
  match n with
  | O => []
  | S n' =>
      match bs with
      | [] => x00 :: resize n' []
      | b :: bs' => b :: resize n' bs'
      end
  end.

(** [memcpy(dst, src, n)] reads [n] bytes starting at [src].  [src] is the
    object the pointer designates; when [n] exceeds its size the copy runs
    past its end, and what lies there is up to the environment. *)
Definition memcpy_from (src : list byte) (n : Z) : prog (list byte) :=
  let have := Z.of_nat (List.length src) in
  if n <=? have then Ret (firstn (Z.to_nat n) src)
  else
    r <- sys (OobRead (n - have));;
    Ret (src ++ resize (Z.to_nat (n - have)) (r_data r)).

(** Reading the C string held in a character array, as [snprintf] does
    for [%s]: the bytes before the first NUL.  When the array holds no NUL
    the read runs past its end, by one byte at least, and goes on to the
    first NUL of what the environment keeps there. *)
Definition read_cstring (buf : list byte) : prog (list byte) :=
  if existsb (Byte.eqb x00) buf then Ret (cstring buf)
  else
    r <- sys (OobRead 1);;
    Ret (buf ++ cstring (r_data r)).

(** ** The backend

    [efivarfs_path] is the mount root, resolved once when the library is
    loaded ([init_efivarfs_path]) and cached for the life of the process. *)

Section Backend.

Variable efivarfs_path : string.

Definition make_efivarfs_path (guid : efi_guid_t) (name : string)
  : prog (Z * string) :=
  let text := var_path efivarfs_path guid name in
  r <- sys (Asprintf text);;
  Ret (rv r, text).

(** *** ImmutabilityGuard *)

Definition efivarfs_set_fd_immutable (fd : Z) (immutable : bool) : prog Z :=
  g <- sys (IoctlGetFlags fd);;
  let rc := rv g in
  let flags := r_flags g in
  if rc <? 0 then
    e <- get_errno;;
    if e =? ENOTTY then Ret 0
    else efi_error "ioctl(%d, FS_IOC_GETFLAGS) failed";; Ret rc
  else if (immutable && negb (nonzero (Z.land flags FS_IMMUTABLE_FL)))
          || (negb immutable && nonzero (Z.land flags FS_IMMUTABLE_FL)) then
    let flags' := if immutable then Z.lor flags FS_IMMUTABLE_FL
                  else Z.land flags (Z.lnot FS_IMMUTABLE_FL) in
    s <- sys (IoctlSetFlags fd flags');;
    when (rv s <? 0) (efi_error "ioctl(%d, FS_IOC_SETFLAGS) failed");;
    Ret (rv s)
  else Ret rc.

(** Returns the status and the value left in [*orig_attrs]. *)
Definition efivarfs_make_fd_mutable (fd : Z) : prog (Z * Z) :=
  g <- sys (IoctlGetFlags fd);;
  if rv g =? -1 then Ret (-1, 0)
  else
    let orig_attrs := r_flags g in
    if Z.land orig_attrs FS_IMMUTABLE_FL =? 0 then Ret (0, orig_attrs)
    else
      let mutable_attrs := Z.land orig_attrs (Z.lnot FS_IMMUTABLE_FL) in
      s <- sys (IoctlSetFlags fd mutable_attrs);;
      if rv s =? -1 then Ret (-1, orig_attrs)
      else Ret (0, orig_attrs).

Definition efivarfs_set_immutable (path : string) (immutable : bool)
  : prog Z :=
  o <- sys (Open path O_RDONLY 0);;
  let fd := rv o in
  if fd <? 0 then
    e <- get_errno;;
    if e =? ENOTTY then efi_error "open(%s, O_RDONLY) failed";; Ret 0
    else Ret fd
  else
    rc <- efivarfs_set_fd_immutable fd immutable;;
    error <- get_errno;;
    sys (Close fd);;
    set_errno error;;
    when (rc <? 0)
      (efi_error "efivarfs_set_fd_immutable(%d, %d) on %s failed");;
    Ret rc.

(** *** VariableReader *)

(** The outputs of a get: the status, and what was stored through the
    three out-pointers (left alone when the call fails). *)
Record get_out := GetOut {
  g_ret : Z;
  g_attributes : Z;
  g_data : list byte;
  g_data_size : Z
}.

Definition get_failed : get_out := GetOut (-1) 0 [] 0.

(** Cleanup of [efivarfs_get_variable] at its [err] label. *)
Definition get_cleanup (fd : Z) (path_set : bool) (out : get_out)
  : prog get_out :=
  errno_value <- get_errno;;
  when (fd >=? 0) (sys (Close fd);; Ret tt);;
  when path_set free;;
  set_errno errno_value;;
  Ret out.

(** Modelled from the spec: [read_file] is the read helper of the
    library's utility header; it reads the rest of the file whatever its
    size and pads the buffer it returns with one NUL byte.  It is the call
    [ReadFile]: a negative [rv] is failure, and [r_data] is the buffer
    returned, of [*bufsize] bytes. *)
Definition read_file (fd : Z) : prog (Z * list byte * Z) :=
  r <- sys (ReadFile fd);;
  Ret (rv r, r_data r, Z.of_nat (List.length (r_data r))).

Definition efivarfs_get_variable (guid : efi_guid_t) (name : string)
  : prog get_out :=
  u <- sys Geteuid;;
  let ratelimit := if rv u =? 0 then 0 else 10000 in
  '(rc, path) <- make_efivarfs_path guid name;;
  if rc <? 0 then
    efi_error "make_efivarfs_path failed";;
    get_cleanup (-1) false get_failed
  else
    o <- sys (Open path O_RDONLY 0);;
    let fd := rv o in
    if fd <? 0 then
      efi_error "open(%s)";;
      get_cleanup fd true get_failed
    else
      sys (Usleep ratelimit);;
      a <- sys (Read fd sizeof_attributes);;
      let ret_attributes :=
        decode_le (store_bytes (firstn (Z.to_nat (rv a)) (r_data a))
                               (encode_u32 0)) in
      if rv a <? 0 then
        efi_error "read failed";;
        get_cleanup fd true get_failed
      else
        sys (Usleep ratelimit);;
        '(rc, ret_data, size) <- read_file fd;;
        if rc <? 0 then
          efi_error "read_file failed";;
          get_cleanup fd true get_failed
        else
          get_cleanup fd true
            (GetOut 0 ret_attributes ret_data (size_t (size - 1))).

(** Modelled from the spec: [efi_get_variable] is the entry point of the
    dispatcher; with this backend selected it hands the call to the
    backend's [get_variable] operation. *)
Definition efi_get_variable (guid : efi_guid_t) (name : string)
  : prog get_out :=
  out <- efivarfs_get_variable guid name;;
  when (g_ret out <? 0) (efi_error "ops->get_variable failed");;
  Ret out.

(** *** PersistenceSync *)

Fixpoint get_esp_filepath_from (paths : list string) (filename : string)
  (sz : Z) : prog (Z * string) :=
  match paths with
  | [] => Ret (-1, EmptyString)
  | esp :: paths' =>
      let filepath := (esp ++ filename)%string in
      let rc := strlen filepath in
      if rc >=? sz then
        fprintf "Error: Filepath too big. Max allowed %ld";;
        Ret (-1, EmptyString)
      else
        s <- sys (Stat filepath);;
        if rv s =? 0 then Ret (0, filepath)
        else get_esp_filepath_from paths' filename sz
  end.

Definition get_esp_filepath (filename : string) (sz : Z)
  : prog (Z * string) :=
  get_esp_filepath_from esp_paths filename sz.

(** Returns the status and the content of the caller's [filename] array,
    which held [filename] on entry. *)
Definition get_esp_filename (filename : list byte) (sz : Z)
  : prog (Z * list byte) :=
  out <- efi_get_variable GUID_FILE_STORE_VARS NAME_RTSV;;
  let rc := g_ret out in
  if rc <? 0 then Ret (rc, filename)
  else if g_data_size out >? sz then
    fprintf "Error: Filename too big. Max allowed %ld";;
    free;;
    Ret (-1, filename)
  else
    copied <- memcpy_from (g_data out) sz;;
    free;;
    Ret (0, store_bytes copied filename).

(** The inner loop of [write_file]: push [bytes_read] bytes of [buffer]
    to the output stream, resuming after each partial [fwrite].  Returns
    the [fail] flag. *)
Fixpoint write_chunk (fuel : nat) (output_file : Z) (filepath : string)
  (buffer : list byte) (bytes_read total_written : Z) : prog bool :=
  if total_written <? bytes_read then
    match fuel with
    | O => Spin
    | S fuel' =>
        w <- sys (Fwrite output_file
                    (firstn (Z.to_nat (bytes_read - total_written))
                            (skipn (Z.to_nat total_written) buffer)));;
        let written := size_t (rv w) in
        if written =? 0 then
          fprintf "Error: Could not write data to ESP '%s' file";;
          Ret true
        else
          write_chunk fuel' output_file filepath buffer bytes_read
                      (size_t (total_written + written))
    end
  else Ret false.

(** The outer loop of [write_file]: one [fread] of at most 1024 bytes per
    turn, until a read delivers nothing. *)
Fixpoint copy_loop (fuel : nat) (var2file output_file : Z)
  (filepath : string) (buffer : list byte) : prog bool :=
  match fuel with
  | O => Spin
  | S fuel' =>
      r <- sys (Fread var2file 1024);;
      let bytes_read := size_t (rv r) in
      if bytes_read >? 0 then
        let buffer' := store_bytes (r_data r) buffer in
        failed <- write_chunk fuel output_file filepath buffer' bytes_read 0;;
        if failed : bool then Ret true
        else copy_loop fuel' var2file output_file filepath buffer'
      else Ret false
  end.

(** The [err] label of [write_file]. *)
Definition write_file_cleanup (var2file output_file : Z) (failed : bool)
  : prog unit :=
  free;;
  when (nonzero var2file) (sys (Fclose var2file);; Ret tt);;
  when (nonzero output_file) (sys (Fclose output_file);; Ret tt);;
  if failed then Exit 1 else Ret tt.

Definition write_file (fuel : nat) (filepath : string) : prog unit :=
  let buffer := repeat x00 1024 in
  '(rc, path) <- make_efivarfs_path GUID_FILE_STORE_VARS "VarToFile";;
  if rc <? 0 then
    efi_error "make_efivarfs_path failed";;
    Exit 1
  else
    v <- sys (Fopen path "rb");;
    let var2file := rv v in
    if var2file =? 0 then
      fprintf "Error: Could not open file '%s'";;
      write_file_cleanup var2file 0 false
    else
      o <- sys (Fopen filepath "wb");;
      let output_file := rv o in
      if output_file =? 0 then
        fprintf "Error: Could not open file '%s'";;
        write_file_cleanup var2file output_file false
      else
        h <- sys (Fread var2file 4);;
        if size_t (rv h) <? 4 then
          fprintf
            "Error: Could not skip first 4 bytes or '%s' file is too small";;
          write_file_cleanup var2file output_file true
        else
          failed <- copy_loop fuel var2file output_file filepath
                      (store_bytes (firstn 4 (r_data h)) buffer);;
          write_file_cleanup var2file output_file failed.

(** [filename] is the array of [PATH_MAX / 4] bytes; [snprintf] in
    [get_esp_filepath] and the last [fprintf] read the name out of it as a
    C string.  Nothing writes to the array after [get_esp_filename], so the
    name is read once here and handed on as a string. *)
Definition efi_update_var_file (fuel : nat) : prog unit :=
  let filename := repeat x00 (Z.to_nat (PATH_MAX / 4)) in
  '(rc, filename) <- get_esp_filename filename (PATH_MAX / 4);;
  if rc <? 0 then Ret tt
  else
    name <- read_cstring filename;;
    let name := string_of_bytes name in
    '(rc, filepath) <- get_esp_filepath name PATH_MAX;;
    if rc =? 0 then write_file fuel filepath
    else
      fprintf
        "Error: '%s' file not found in ESP partition. EFI variable changes won't persist reboots".

(** *** VariableWriter *)

Definition efivarfs_del_variable (fuel : nat) (guid : efi_guid_t)
  (name : string) : prog Z :=
  '(rc, path) <- make_efivarfs_path guid name;;
  if rc <? 0 then
    efi_error "make_efivarfs_path failed";;
    Ret (-1)
  else
    efivarfs_set_immutable path false;;
    u <- sys (Unlink path);;
    let rc := rv u in
    when (rc <? 0) (efi_error "unlink failed");;
    efi_update_var_file fuel;;
    errno_value <- get_errno;;
    free;;
    set_errno errno_value;;
    Ret rc.

(** The locals of [efivarfs_set_variable] that its [err] label reads. *)
Record set_locals := SetLocals {
  l_ret : Z;
  l_rfd : Z;
  l_wfd : Z;
  l_restore_immutable_fd : Z;
  l_orig_attrs : Z
}.

(** From the write-only [open] to the end of the body; [rfd_dev] and
    [rfd_ino] are the fields of [rfd_stat]. *)
Definition set_write_phase (fuel : nat) (path : string) (data : list byte)
  (data_size attributes mode alloc_size : Z)
  (rfd rfd_dev rfd_ino restore_immutable_fd orig_attrs : Z)
  : prog set_locals :=
  let open_wflags := O_WRONLY in
  let open_wflags :=
    if nonzero (Z.land attributes EFI_VARIABLE_APPEND_WRITE)
    then Z.lor open_wflags O_APPEND else open_wflags in
  let open_wflags :=
    if rfd =? -1 then Z.lor open_wflags (Z.lor O_CREAT O_EXCL)
    else open_wflags in
  w <- sys (Open path open_wflags mode);;
  let wfd := rv w in
  if wfd =? -1 then
    efi_error "failed to %s %s for %s";;
    Ret (SetLocals (-1) rfd wfd restore_immutable_fd orig_attrs)
  else
    '(proceed, restore_immutable_fd, orig_attrs) <-
      (if rfd =? -1 then
         '(rc, orig_attrs) <- efivarfs_make_fd_mutable wfd;;
         if (rc =? 0) && nonzero (Z.land orig_attrs FS_IMMUTABLE_FL)
         then Ret (true, wfd, orig_attrs)
         else Ret (true, restore_immutable_fd, orig_attrs)
       else
         st <- sys (Fstat wfd);;
         if rv st =? -1 then
           efi_error "fstat() failed on w/o fd %d";;
           Ret (false, restore_immutable_fd, orig_attrs)
         else if negb (rfd_dev =? r_dev st) || negb (rfd_ino =? r_ino st) then
           set_errno EINVAL;;
           efi_error "r/o fd %d and w/o fd %d refer to different files";;
           Ret (false, restore_immutable_fd, orig_attrs)
         else Ret (true, restore_immutable_fd, orig_attrs));;
    if proceed : bool then
      payload <- memcpy_from data data_size;;
      let buf := encode_u32 attributes ++ payload in
      wr <- sys (Write wfd buf alloc_size);;
      if rv wr =? -1 then
        efi_error "writing to fd %d failed";;
        Ret (SetLocals (-1) rfd wfd restore_immutable_fd orig_attrs)
      else
        efi_update_var_file fuel;;
        Ret (SetLocals 0 rfd wfd restore_immutable_fd orig_attrs)
    else Ret (SetLocals (-1) rfd wfd restore_immutable_fd orig_attrs).

(** The body of [efivarfs_set_variable] from [malloc] to the [err] label. *)
Definition set_body (fuel : nat) (path : string) (data : list byte)
  (data_size attributes mode alloc_size : Z) : prog set_locals :=
  b <- sys (Malloc alloc_size);;
  if rv b =? 0 then
    efi_error "malloc(%zu) failed";;
    Ret (SetLocals (-1) (-1) (-1) (-1) 0)
  else
    r <- sys (Open path O_RDONLY 0);;
    let rfd := rv r in
    if negb (rfd =? -1) then
      st <- sys (Fstat rfd);;
      if rv st =? -1 then
        efi_error "fstat() failed on r/o fd %d";;
        Ret (SetLocals (-1) rfd (-1) (-1) 0)
      else
        '(rc, orig_attrs) <- efivarfs_make_fd_mutable rfd;;
        let restore_immutable_fd :=
          if (rc =? 0) && nonzero (Z.land orig_attrs FS_IMMUTABLE_FL)
          then rfd else -1 in
        set_write_phase fuel path data data_size attributes mode alloc_size
          rfd (r_dev st) (r_ino st) restore_immutable_fd orig_attrs
    else
      set_write_phase fuel path data data_size attributes mode alloc_size
        rfd 0 0 (-1) 0.

(** The [err] label of [efivarfs_set_variable]. *)
Definition set_cleanup (path : string) (l : set_locals) : prog Z :=
  save_errno <- get_errno;;
  (if (l_ret l =? -1) && (l_rfd l =? -1) && negb (l_wfd l =? -1) then
     u <- sys (Unlink path);;
     when (rv u =? -1) (efi_error "failed to unlink %s")
   else Ret tt);;
  sys (IoctlSetFlags (l_restore_immutable_fd l) (l_orig_attrs l));;
  when (l_wfd l >=? 0) (sys (Close (l_wfd l));; Ret tt);;
  when (l_rfd l >=? 0) (sys (Close (l_rfd l));; Ret tt);;
  free;;
  free;;
  set_errno save_errno;;
  Ret (l_ret l).

Definition efivarfs_set_variable (fuel : nat) (guid : efi_guid_t)
  (name : string) (data : list byte) (data_size attributes mode : Z)
  : prog Z :=
  if strlen name >? 1024 then
    set_errno EINVAL;;
    efi_error "name too long (%zu of 1024)";;
    Ret (-1)
  else if data_size >? SIZE_MAX - sizeof_attributes then
    set_errno EOVERFLOW;;
    efi_error "data_size too large (%zu)";;
    Ret (-1)
  else
    '(rc, path) <- make_efivarfs_path guid name;;
    if rc <? 0 then
      efi_error "make_efivarfs_path failed";;
      Ret (-1)
    else
      let alloc_size := sizeof_attributes + data_size in
      l <- set_body fuel path data data_size attributes mode alloc_size;;
      set_cleanup path l.

Definition efivarfs_append_variable (fuel : nat) (guid : efi_guid_t)
  (name : string) (data : list byte) (data_size attributes : Z) : prog Z :=
  let attributes := Z.lor attributes EFI_VARIABLE_APPEND_WRITE in
  rc <- efivarfs_set_variable fuel guid name data data_size attributes 0;;
  when (rc <? 0) (efi_error "efivarfs_set_variable failed");;
  Ret rc.

(** *** PermissionManager *)

Definition efivarfs_chmod_variable (guid : efi_guid_t) (name : string)
  (mode : Z) : prog Z :=
  '(rc, path) <- make_efivarfs_path guid name;;
  if rc <? 0 then
    efi_error "make_efivarfs_path failed";;
    Ret (-1)
  else
    c <- sys (Chmod path mode);;
    saved_errno <- get_errno;;
    when (rv c <? 0) (efi_error "chmod(%s,0%o) failed");;
    free;;
    set_errno saved_errno;;
    Ret (-1).

End Backend.

(** ** A file system to run the programs on

    [posix] is the environment of a single process on a POSIX file system:
    inodes are numbered by their position in [fs_inodes], descriptors by
    their position in [fs_fds] (a closed descriptor leaves a hole), a
    [FILE *] is its descriptor plus one, so that it is never [NULL].
    An unlinked inode loses its path and stays reachable through the
    descriptors that are open on it.  Access checks by mode bits are not
    part of the model, and no other process touches the files. *)

Record inode := Inode {
  i_path : option string;
  i_data : list byte;
  i_flags : Z;
  i_mode : Z
}.

Record ofd := Ofd {
  o_ino : nat;
  o_pos : nat;
  o_write : bool;
  o_append : bool
}.

Record fs := Fs {
  fs_inodes : list inode;
  fs_fds : list (option ofd);
  fs_euid : Z;
  (** whether the file system implements the attribute-flag ioctls *)
  fs_has_flags : bool;
  (** the flags a file carries when it is created: efivarfs marks the
      files of protected variables immutable at once *)
  fs_create_flags : Z;
  (** the bytes lying past the end of an object, on the heap or on the
      stack *)
  fs_beyond : list byte
}.

Definition has_flag (flags f : Z) : bool := nonzero (Z.land flags f).

Definition immutable (i : inode) : bool := has_flag (i_flags i) FS_IMMUTABLE_FL.

Definition is_path (path : string) (i : inode) : bool :=
  match i_path i with
  | Some p => String.eqb p path
  | None => false
  end.

Fixpoint find_path (path : string) (l : list inode) : option nat :=
  match l with
  | [] => None
  | i :: l' =>
      if is_path path i then Some O
      else option_map S (find_path path l')
  end.

Fixpoint update {A} (l : list A) (n : nat) (x : A) : list A :=
  match l, n with
  | [], _ => []
  | _ :: l', O => x :: l'
  | y :: l', S n' => y :: update l' n' x
  end.

Definition set_inodes (s : fs) (l : list inode) : fs :=
  Fs l (fs_fds s) (fs_euid s) (fs_has_flags s) (fs_create_flags s)
     (fs_beyond s).

Definition set_fds (s : fs) (l : list (option ofd)) : fs :=
  Fs (fs_inodes s) l (fs_euid s) (fs_has_flags s) (fs_create_flags s)
     (fs_beyond s).

Definition fd_lookup (s : fs) (fd : Z) : option ofd :=
  if fd <? 0 then None
  else match nth_error (fs_fds s) (Z.to_nat fd) with
       | Some (Some o) => Some o
       | _ => None
       end.

(** The open description behind [fd] together with its inode. *)
Definition fd_inode (s : fs) (fd : Z) : option (ofd * inode) :=
  match fd_lookup s fd with
  | Some o =>
      match nth_error (fs_inodes s) (o_ino o) with
      | Some i => Some (o, i)
      | None => None
      end
  | None => None
  end.

Definition path_inode (s : fs) (path : string) : option (nat * inode) :=
  match find_path path (fs_inodes s) with
  | Some n =>
      match nth_error (fs_inodes s) n with
      | Some i => Some (n, i)
      | None => None
      end
  | None => None
  end.

Definition new_fd (s : fs) (o : ofd) : reply * fs :=
  (ok (Z.of_nat (List.length (fs_fds s))), set_fds s (fs_fds s ++ [Some o])).

Definition posix_open (s : fs) (path : string) (flags mode : Z)
  : reply * fs :=
  let wr := has_flag flags O_WRONLY in
  match path_inode s path with
  | Some (n, i) =>
      if has_flag flags O_CREAT && has_flag flags O_EXCL then (fail EEXIST, s)
      else if wr && immutable i then (fail EPERM, s)
      else
        let s1 :=
          if wr && has_flag flags O_TRUNC
          then set_inodes s
                 (update (fs_inodes s) n
                    (Inode (i_path i) [] (i_flags i) (i_mode i)))
          else s in
        new_fd s1 (Ofd n 0 wr (has_flag flags O_APPEND))
  | None =>
      if has_flag flags O_CREAT then
        let n := List.length (fs_inodes s) in
        let i := Inode (Some path) [] (fs_create_flags s) mode in
        new_fd (set_inodes s (fs_inodes s ++ [i]))
               (Ofd n 0 wr (has_flag flags O_APPEND))
      else (fail ENOENT, s)
  end.

Definition posix_close (s : fs) (fd : Z) : reply * fs :=
  match fd_lookup s fd with
  | Some _ => (ok 0, set_fds s (update (fs_fds s) (Z.to_nat fd) None))
  | None => (fail EBADF, s)
  end.

Definition set_pos (s : fs) (fd : Z) (o : ofd) (pos : nat) : fs :=
  set_fds s (update (fs_fds s) (Z.to_nat fd)
               (Some (Ofd (o_ino o) pos (o_write o) (o_append o)))).

Definition posix_read (s : fs) (fd : Z) (count : Z) : reply * fs :=
  match fd_inode s fd with
  | Some (o, i) =>
      if o_write o then (fail EBADF, s)
      else
        let got := firstn (Z.to_nat count) (skipn (o_pos o) (i_data i)) in
        (Reply (Z.of_nat (List.length got)) None got 0 0 0 0,
         set_pos s fd o (o_pos o + List.length got))
  | None => (fail EBADF, s)
  end.

(** Modelled from the spec: what [read_file] does on a descriptor: it
    delivers everything from the current offset to the end of the file,
    followed by one NUL byte. *)
Definition posix_read_file (s : fs) (fd : Z) : reply * fs :=
  match fd_inode s fd with
  | Some (o, i) =>
      if o_write o then (fail EBADF, s)
      else
        let got := skipn (o_pos o) (i_data i) in
        (Reply 0 None (got ++ [x00]) 0 0 0 0,
         set_pos s fd o (o_pos o + List.length got))
  | None => (fail EBADF, s)
  end.

(** Writing [bs] at offset [pos]: a gap before [pos] reads as zeros, and
    what the file held after the written range stays. *)
Definition overwrite (old : list byte) (pos : nat) (bs : list byte)
  : list byte :=
  resize pos old ++ bs ++ skipn (pos + List.length bs) old.

Definition posix_write (s : fs) (fd : Z) (buf : list byte) (count : Z)
  : reply * fs :=
  match fd_inode s fd with
  | Some (o, i) =>
      if negb (o_write o) then (fail EBADF, s)
      else if immutable i then (fail EPERM, s)
      else
        let bs := firstn (Z.to_nat count) buf in
        let pos := if o_append o then List.length (i_data i) else o_pos o in
        let data := overwrite (i_data i) pos bs in
        let s1 := set_inodes s
                    (update (fs_inodes s) (o_ino o)
                       (Inode (i_path i) data (i_flags i) (i_mode i))) in
        (ok (Z.of_nat (List.length bs)),
         set_pos s1 fd o (pos + List.length bs))
  | None => (fail EBADF, s)
  end.

Definition posix_fstat (s : fs) (fd : Z) : reply * fs :=
  match fd_inode s fd with
  | Some (o, i) =>
      (Reply 0 None [] 0 (Z.of_nat (o_ino o))
             (Z.of_nat (List.length (i_data i))) 0, s)
  | None => (fail EBADF, s)
  end.

Definition posix_stat (s : fs) (path : string) : reply * fs :=
  match path_inode s path with
  | Some (n, i) =>
      (Reply 0 None [] 0 (Z.of_nat n) (Z.of_nat (List.length (i_data i))) 0, s)
  | None => (fail ENOENT, s)
  end.

Definition posix_getflags (s : fs) (fd : Z) : reply * fs :=
  match fd_inode s fd with
  | Some (o, i) =>
      if fs_has_flags s then (Reply 0 None [] 0 0 0 (i_flags i), s)
      else (fail ENOTTY, s)
  | None => (fail EBADF, s)
  end.

Definition posix_setflags (s : fs) (fd : Z) (flags : Z) : reply * fs :=
  match fd_inode s fd with
  | Some (o, i) =>
      if fs_has_flags s then
        (ok 0, set_inodes s
                 (update (fs_inodes s) (o_ino o)
                    (Inode (i_path i) (i_data i) flags (i_mode i))))
      else (fail ENOTTY, s)
  | None => (fail EBADF, s)
  end.

Definition posix_unlink (s : fs) (path : string) : reply * fs :=
  match path_inode s path with
  | Some (n, i) =>
      if immutable i then (fail EPERM, s)
      else (ok 0, set_inodes s
                    (update (fs_inodes s) n
                       (Inode None (i_data i) (i_flags i) (i_mode i))))
  | None => (fail ENOENT, s)
  end.

Definition posix_chmod (s : fs) (path : string) (mode : Z) : reply * fs :=
  match path_inode s path with
  | Some (n, i) =>
      if immutable i then (fail EPERM, s)
      else (ok 0, set_inodes s
                    (update (fs_inodes s) n
                       (Inode (i_path i) (i_data i) (i_flags i) mode)))
  | None => (fail ENOENT, s)
  end.

(** A stream is [NULL] when the open behind it fails; [fread] and [fwrite]
    return the count of bytes moved, 0 when the descriptor refuses. *)
Definition posix_fopen (s : fs) (path mode : string) : reply * fs :=
  let flags := if String.eqb mode "rb" then O_RDONLY
               else Z.lor O_WRONLY (Z.lor O_CREAT O_TRUNC) in
  let (r, s') := posix_open s path flags 438 in
  if rv r <? 0 then (Reply 0 (r_errno r) [] 0 0 0 0, s')
  else (ok (rv r + 1), s').

Definition posix_fread (s : fs) (stream count : Z) : reply * fs :=
  let (r, s') := posix_read s (stream - 1) count in
  if rv r <? 0 then (Reply 0 (r_errno r) [] 0 0 0 0, s')
  else (r, s').

Definition posix_fwrite (s : fs) (stream : Z) (buf : list byte)
  : reply * fs :=
  let (r, s') := posix_write s (stream - 1) buf (Z.of_nat (List.length buf)) in
  if rv r <? 0 then (Reply 0 (r_errno r) [] 0 0 0 0, s')
  else (r, s').

Definition posix : handler fs := fun s c =>
  match c with
  | Asprintf text => (ok (strlen text), s)
  | Malloc _ => (ok 1, s)
  | Free => (ok 0, s)
  | Open path flags mode => posix_open s path flags mode
  | Close fd => posix_close s fd
  | Read fd count => posix_read s fd count
  | ReadFile fd => posix_read_file s fd
  | Write fd buf count => posix_write s fd buf count
  | Fstat fd => posix_fstat s fd
  | Stat path => posix_stat s path
  | IoctlGetFlags fd => posix_getflags s fd
  | IoctlSetFlags fd flags => posix_setflags s fd flags
  | Unlink path => posix_unlink s path
  | Chmod path mode => posix_chmod s path mode
  | Geteuid => (ok (fs_euid s), s)
  | Usleep _ => (ok 0, s)
  | Fopen path mode => posix_fopen s path mode
  | Fread stream count => posix_fread s stream count
  | Fwrite stream buf => posix_fwrite s stream buf
  | Fclose stream => posix_close s (stream - 1)
  | Fprintf _ => (ok 0, s)
  | EfiError _ => (ok 0, s)
  | OobRead _ => (Reply 0 None (fs_beyond s) 0 0 0 0, s)
  end.

(** ** Observations on traces *)

(** The syscalls that touch a file (open, create or write it). *)
Definition touches_files (c : syscall) : bool :=
  match c with
  | Open _ _ _ | Write _ _ _ | Fopen _ _ | Fwrite _ _ | Unlink _
  | Chmod _ _ | IoctlSetFlags _ _ => true
  | _ => false
  end.

Definition is_write (ev : event) : bool :=
  match fst ev with
  | Write _ _ _ | Fwrite _ _ => true
  | _ => false
  end.

Definition is_unlink (ev : event) : bool :=
  match fst ev with
  | Unlink _ => true
  | _ => false
  end.

Definition is_fstat (ev : event) : bool :=
  match fst ev with
  | Fstat _ => true
  | _ => false
  end.

Definition is_open (ev : event) : bool :=
  match fst ev with
  | Open _ _ _ => true
  | _ => false
  end.

Definition is_ioctl (ev : event) : bool :=
  match fst ev with
  | IoctlGetFlags _ | IoctlSetFlags _ _ => true
  | _ => false
  end.

Definition fstats (tr : list event) : list event := filter is_fstat tr.
Definition opens (tr : list event) : list event := filter is_open tr.
Definition ioctls (tr : list event) : list event := filter is_ioctl tr.
Definition writes (tr : list event) : list event := filter is_write tr.
Definition unlinks (tr : list event) : list event := filter is_unlink tr.



(** The value of [errno] after the calls of [tr], from [e]. *)
Definition errno_after (e : Z) (tr : list event) : Z :=
  fold_left (fun e ev => new_errno e (snd ev)) tr e.


(** The payload a get hands back: [g_data_size] bytes at [g_data]. *)
Definition g_payload (out : get_out) : list byte :=
  firstn (Z.to_nat (g_data_size out)) (g_data out).

(** ** A kernel that refuses calls and cuts transfers short

    [posix] lets every caller in and moves every byte it is asked to
    move.  The kernel below serves the calls as [posix] does, but follows
    a schedule of faults, one entry for each call it receives.  It may
    refuse a call (no permission, whatever the mode bits and the caller;
    no space or no memory left; an interrupted call), and then changes
    nothing; and it may move fewer bytes than a [read], a [write], an
    [fread] or an [fwrite] asks for.  Past the end of the schedule no
    fault occurs.  [free], [geteuid], [usleep], the diagnostics and
    [fclose], which releases its stream whatever becomes of it, are always
    served. *)
Inductive fault :=
| Obliging
| Short (n : nat)
| Refuse (errno : Z).

(** The calls that may be refused. *)
Definition refusable (c : syscall) : bool :=
  match c with
  | Free | Geteuid | Usleep _ | Fclose _ | Fprintf _ | EfiError _
  | OobRead _ => false
  | _ => true
  end.

(** What a refused call answers: a null pointer from [malloc] and
    [fopen], no item from [fread] and [fwrite], -1 from the others, and
    the reason in [errno]. *)
Definition refusal (e : Z) (c : syscall) : reply :=
  match c with
  | Malloc _ | Fopen _ _ | Fread _ _ | Fwrite _ _ =>
      Reply 0 (Some e) [] 0 0 0 0
  | _ => fail e
  end.

(** The call, moving [n] bytes at most. *)
Definition shorten (n : nat) (c : syscall) : syscall :=
  match c with
  | Read fd count => Read fd (Z.min count (Z.of_nat n))
  | Write fd buf count => Write fd buf (Z.min count (Z.of_nat n))
  | Fread stream count => Fread stream (Z.min count (Z.of_nat n))
  | Fwrite stream buf => Fwrite stream (firstn n buf)
  | _ => c
  end.

Definition serve (f : fault) (s : fs) (c : syscall) : reply * fs :=
  match f with
  | Obliging => posix s c
  | Short n => posix s (shorten n c)
  | Refuse e => if refusable c then (refusal e c, s) else posix s c
  end.

Definition kernel : handler (list fault * fs) := fun st c =>
  let (r, s') := serve (hd Obliging (fst st)) (snd st) c in
  (r, (tl (fst st), s')).

(** How the kernel can have served the call [c] in the file system [s]:
    in full, cut short, or not at all. *)
Inductive served (s : fs) (c : syscall) (r : reply) (s' : fs) : Prop :=
| served_whole : posix s c = (r, s') -> served s c r s'
| served_short n : posix s (shorten n c) = (r, s') -> served s c r s'
| served_not e : refusable c = true -> r = refusal e c -> s' = s ->
                 served s c r s'.

(** The [write] moved every byte it was asked to move. *)
Definition full_write (ev : event) : bool :=
  match fst ev with
  | Write _ _ count => rv (snd ev) =? count
  | _ => true
  end.

(** The [read] delivered every byte it was asked for. *)
Definition full_read (ev : event) : bool :=
  match fst ev with
  | Read _ count => rv (snd ev) =? count
  | _ => true
  end.

(** The calls the kernel serves as [posix] does, whatever the schedule. *)
Definition calm (c : syscall) : bool := negb (refusable c).

(** The file a stream is opened on for writing lies directly under a
    mount point of the boot partition: its path is the mount point
    followed by a name without [/].  The file system compares paths as
    they are spelled and has no links; for such a path that is also how
    the kernel resolves it. *)
Definition plain_output (ev : event) : Prop :=
  match fst ev with
  | Fopen fp mode =>
      mode = "wb" ->
      exists esp f, In esp esp_paths /\ fp = (esp ++ f)%string /\
                    ~ In "/"%char (list_ascii_of_string f)
  | _ => True
  end.

(** ** Example environments *)

(** An environment that answers from a script, call after call. *)
Definition scripted : handler (list reply) := fun s _ =>
  match s with
  | r :: s' => (r, s')
  | [] => (ok 0, [])
  end.

(** [posix] with another process in the picture: before the call number
    [n] of the program is served, [adversary n] acts on the file system. *)
Definition interleaved (adversary : nat -> fs -> fs) : handler (nat * fs) :=
  fun '(n, s) c =>
    let (r, s') := posix (adversary n s) c in
    (r, (S n, s')).

(** The adversary of the race: at step [k] it renames a new file
    over [path]. *)
Definition replace_file (k : nat) (path : string) (data : list byte)
  (n : nat) (s : fs) : fs :=
  if Nat.eqb n k then
    let s1 := snd (posix_unlink s path) in
    set_inodes s1 (fs_inodes s1 ++ [Inode (Some path) data 0 420])
  else s.

Definition zero_guid : efi_guid_t := EFI_GUID 0 0 0 0 [0; 0; 0; 0; 0; 0].

Definition test_path : string :=
  var_path default_efivarfs_path zero_guid "TestVar".

Definition empty_fs : fs := Fs [] [None; None; None] 0 true 0 [].

(** A file system holding the variable [TestVar], attributes 7 and
    payload 01 02 03. *)
Definition testvar_fs : fs :=
  Fs [Inode (Some test_path) [x07; x00; x00; x00; x01; x02; x03] 0 384]
     [None; None; None] 0 true 0 [].


(** ** Runs, and what a program can issue *)

Definition then_run {S A B} (r : result S A)
  (k : A -> Z -> S -> result S B) : result S B :=
  match res_out r with
  | Returned a =>
      let r' := k a (res_errno r) (res_env r) in
      Result (res_out r') (res_errno r') (res_env r')
             (res_trace r ++ res_trace r')
  | Exited code => Result (Exited code) (res_errno r) (res_env r) (res_trace r)
  | OutOfFuel => Result OutOfFuel (res_errno r) (res_env r) (res_trace r)
  end.

Fixpoint issues_only {A} (P : syscall -> bool) (p : prog A) : Prop :=
  match p with
  | Ret _ => True
  | Sys c k => P c = true /\ forall r, issues_only P (k r)
  | Log msg k => P (EfiError msg) = true /\ issues_only P k
  | GetErrno k => forall e, issues_only P (k e)
  | SetErrno _ k => issues_only P k
  | Exit _ => True
  | Spin => True
  end.

(** The calls PersistenceSync can issue. *)
Definition sync_call (c : syscall) : bool :=
  match c with
  | Geteuid | Asprintf _ | Usleep _ | Read _ _ | ReadFile _ | Close _
  | Free | EfiError _ | Fprintf _ | OobRead _ | Stat _ | Fopen _ _
  | Fread _ _ | Fwrite _ _ | Fclose _ => true
  | Open _ flags _ => flags =? O_RDONLY
  | _ => false
  end.

Definition wp {S A} (h : handler S) (p : prog A) (e : Z) (s : S)
  (Q : result S A -> Prop) : Prop :=
  Q (run h p e s).

(** The result of a sequence from the result of its first part. *)
Definition after {S A} (tr : list event) (r : result S A) : result S A :=
  Result (res_out r) (res_errno r) (res_env r) (tr ++ res_trace r).

(** The shapes of the flag ioctls of a set that returns: none, the
    restore alone, the query and the restore, or the query, the clearing
    and the restore. *)
Definition set_ioctl_shape (io : list event) : Prop :=
  match io with
  | [] => True
  | [(IoctlSetFlags fd o, _)] => fd = -1 /\ o = 0
  | [(IoctlGetFlags fd, g); (IoctlSetFlags fd' o', _)] =>
      fd' = -1 /\
      (rv g = -1 /\ o' = 0 \/
       rv g <> -1 /\ has_flag (r_flags g) FS_IMMUTABLE_FL = false
       /\ o' = r_flags g)
  | [(IoctlGetFlags fd, g); (IoctlSetFlags fd1 cleared, c);
     (IoctlSetFlags fd' o', _)] =>
      fd1 = fd /\ cleared = Z.land (r_flags g) (Z.lnot FS_IMMUTABLE_FL) /\
      rv g <> -1 /\ has_flag (r_flags g) FS_IMMUTABLE_FL = true /\
      o' = r_flags g /\ fd' = (if rv c =? -1 then -1 else fd)
  | _ => False
  end.



(** An [open] that may create a file passes mode 0. *)
Definition creates_with_mode_0 (ev : event) : Prop :=
  match fst ev with
  | Open _ flags mode => has_flag flags O_CREAT = true -> mode = 0
  | _ => True
  end.

(** ** Facts about the file system *)

(** [path] names the inode [n], whose content is [d]. *)
Definition holds (s : fs) (path : string) (n : nat) (d : list byte) : Prop :=
  find_path path (fs_inodes s) = Some n /\
  exists i, nth_error (fs_inodes s) n = Some i /\ i_data i = d.

(** [fd] is open for writing on the inode [n], at offset 0. *)
Definition writes_to (s : fs) (fd : Z) (n : nat) (app : bool) : Prop :=
  exists o, fd_lookup s fd = Some o /\ o_ino o = n /\ o_write o = true /\
            o_append o = app /\ o_pos o = O.

(** [fd] is open for reading on the inode [n], at offset [pos]. *)
Definition reads_from (s : fs) (fd : Z) (n : nat) (pos : nat) : Prop :=
  exists o, fd_lookup s fd = Some o /\ o_ino o = n /\ o_write o = false /\
            o_pos o = pos.

(** The calls that leave the path and the content of every file alone. *)
Definition keeps_data (c : syscall) : bool :=
  match c with
  | Write _ _ _ | Fwrite _ _ | Unlink _ => false
  | Open _ flags _ => negb (has_flag flags O_TRUNC)
  | Fopen _ mode => String.eqb mode "rb"
  | _ => true
  end.

(** The calls that leave the descriptor table alone. *)
Definition keeps_fds (c : syscall) : bool :=
  match c with
  | Asprintf _ | Malloc _ | Free | Fstat _ | Stat _ | IoctlGetFlags _
  | IoctlSetFlags _ _ | Unlink _ | Chmod _ _ | Geteuid | Usleep _
  | Fprintf _ | EfiError _ | OobRead _ => true
  | _ => false
  end.

(** No call changes the parameters of the file system. *)
Definition same_config (s s' : fs) : Prop :=
  fs_euid s' = fs_euid s /\ fs_has_flags s' = fs_has_flags s /\
  fs_create_flags s' = fs_create_flags s /\ fs_beyond s' = fs_beyond s.

(** The calls of the reading half of PersistenceSync. *)
Definition reader_call (c : syscall) : bool :=
  match c with
  | Geteuid | Asprintf _ | Usleep _ | Read _ _ | ReadFile _ | Close _
  | Free | EfiError _ | Fprintf _ | OobRead _ | Stat _ => true
  | Open _ flags _ => flags =? O_RDONLY
  | _ => false
  end.

(** The descriptor [fd] is open on another inode than [n]. *)
Definition elsewhere (n : nat) (s : fs) (fd : Z) : Prop :=
  exists o, fd_lookup s fd = Some o /\ o_ino o <> n.

(** What the copy loops keep: the file of [path], and the output stream
    on another inode. *)
Definition copy_inv (path : string) (n : nat) (d : list byte) (out : Z)
  (s : fs) : Prop :=
  holds s path n d /\ elsewhere n s (out - 1).

(** [path] is not a file of a boot-partition mount point. *)
Definition not_under_esp (path : string) : Prop :=
  forall esp f, In esp esp_paths -> path <> (esp ++ f)%string.

(** ** More example environments *)

Definition rtsv_path : string :=
  var_path default_efivarfs_path GUID_FILE_STORE_VARS NAME_RTSV.

Definition var2file_path : string :=
  var_path default_efivarfs_path GUID_FILE_STORE_VARS "VarToFile".

(** A file system with the persistence feature: the reserved variable
    names the file [vars.bin], which exists on the ESP with stale content,
    and [VarToFile] holds [payload] after its attribute word. *)
Definition esp_fs (var_flags : Z) (var2file : list byte) : fs :=
  Fs [ Inode (Some test_path) [x07; x00; x00; x00; x01; x02; x03]
         var_flags 384;
       Inode (Some rtsv_path)
         ([x07; x00; x00; x00] ++ bytes_of_string "vars.bin") 0 384;
       Inode (Some var2file_path) var2file 0 384;
       Inode (Some "/boot/efi/vars.bin") (bytes_of_string "OLD") 0 420 ]
     [None; None; None] 0 true 0 [].

(** A name that fills the array of [efi_update_var_file]: 1024 bytes,
    none of them NUL. *)
Definition long_name : list byte := repeat x41 1024.

(** A file system whose reserved variable holds [long_name]; in memory
    the bytes [BC] and a NUL lie behind the objects. *)
Definition long_name_fs : fs :=
  Fs [ Inode (Some rtsv_path) ([x07; x00; x00; x00] ++ long_name) 0 384;
       Inode (Some var2file_path) [x07; x00; x00; x00; x4e; x45; x57] 0 384 ]
     [None; None; None] 0 true 0 [x42; x43; x00].

(** The paths handed to [stat], in order. *)
Definition stat_paths (tr : list event) : list string :=
  flat_map (fun ev => match fst ev with Stat p => [p] | _ => [] end) tr.

Definition file_data (s : fs) (path : string) : option (list byte) :=
  option_map (fun p => i_data (snd p)) (path_inode s path).

Definition file_flags (s : fs) (path : string) : option Z :=
  option_map (fun p => i_flags (snd p)) (path_inode s path).

Definition file_mode (s : fs) (path : string) : option Z :=
  option_map (fun p => i_mode (snd p)) (path_inode s path).

Definition short_fs : fs :=
  Fs [Inode (Some test_path) [x07; x00] 0 384] [None; None; None] 0 true 0 [].

(** The race: another process renames a new file over the variable
    between the two opens of set. *)
Definition race_start : nat * fs := (O, testvar_fs).

Definition race_env : handler (nat * fs) :=
  interleaved (replace_file 5 test_path [x2a]).

(** [TestVar] with the immutable flag on its file. *)
Definition immutable_fs : fs :=
  Fs [Inode (Some test_path) [x07; x00; x00; x00; x01; x02; x03]
        FS_IMMUTABLE_FL 384]
     [None; None; None] 0 true 0 [].

(** ** The query operations of the backend *)

Section Queries.

Variable efivarfs_path : string.

(** The [err] label of [efivarfs_get_variable_size]. *)
Definition size_cleanup (path_set : bool) (out : Z * option Z)
  : prog (Z * option Z) :=
  errno_value <- get_errno;;
  when path_set free;;
  set_errno errno_value;;
  Ret out.

(** Returns the status and the value stored through [size], if any.
    [st_size] is signed and [sizeof (uint32_t)] is a [size_t], so the
    difference is taken in [size_t]. *)
Definition efivarfs_get_variable_size (guid : efi_guid_t) (name : string)
  : prog (Z * option Z) :=
  '(rc, path) <- make_efivarfs_path efivarfs_path guid name;;
  if rc <? 0 then
    efi_error "make_efivarfs_path failed";;
    size_cleanup false (-1, None)
  else
    st <- sys (Stat path);;
    if rv st <? 0 then
      efi_error "stat(%s) failed";;
      size_cleanup true (-1, None)
    else
      size_cleanup true (0, Some (size_t (r_size st - sizeof_attributes))).

(** Returns the status and the value stored through [attributes], if any.
    [data] is the buffer a successful get allocated. *)
Definition efivarfs_get_variable_attributes (guid : efi_guid_t)
  (name : string) : prog (Z * option Z) :=
  out <- efi_get_variable efivarfs_path guid name;;
  let ret := g_ret out in
  if ret <? 0 then
    efi_error "efi_get_variable failed";;
    Ret (ret, None)
  else
    free;;
    Ret (ret, Some (g_attributes out)).

End Queries.

(** ** More observations on traces *)

Definition is_read_call (c : syscall) : bool :=
  match c with
  | Read _ _ | ReadFile _ => true
  | _ => false
  end.

(** Every read of the trace comes right after a [usleep] of [d]
    microseconds. *)
Fixpoint reads_delayed (d : Z) (tr : list event) : bool :=
  match tr with
  | [] => true
  | (c, _) :: tr' =>
      match c with
      | Usleep d' =>
          match tr' with
          | (c', _) :: tr'' =>
              if is_read_call c' then (d' =? d) && reads_delayed d tr''
              else reads_delayed d tr'
          | [] => true
          end
      | _ => negb (is_read_call c) && reads_delayed d tr'
      end
  end.

(** ** More facts about the file system *)

(** The names of the files, inode by inode. *)
Definition names (s : fs) : list (option string) := map i_path (fs_inodes s).

(** The calls that neither give a name to a file nor take one away. *)
Definition keeps_names (c : syscall) : bool :=
  match c with
  | Unlink _ => false
  | Open _ flags _ => negb (has_flag flags O_CREAT)
  | Fopen _ mode => String.eqb mode "rb"
  | _ => true
  end.

(** The calls of the copy loops of [write_file] and of its cleanup. *)
Definition copy_call (c : syscall) : bool :=
  match c with
  | Fread _ _ | Fwrite _ _ | Fclose _ | Fprintf _ | Free => true
  | _ => false
  end.

Definition exists_path (s : fs) (path : string) : bool :=
  match path_inode s path with
  | Some _ => true
  | None => false
  end.

(** [s0] is [s] with one more descriptor, [fd], open for reading. *)
Definition borrowed (s s0 : fs) (fd : Z) : Prop :=
  fd = Z.of_nat (List.length (fs_fds s)) /\
  exists o i,
    s0 = set_fds s (fs_fds s ++ [Some o]) /\
    nth_error (fs_inodes s) (o_ino o) = Some i /\ o_write o = false.

(** [s] after a descriptor was opened and closed again. *)
Definition used_fd (s : fs) : fs := set_fds s (fs_fds s ++ [None]).

(** The paths in use. *)
Definition file_names (s : fs) : list string :=
  flat_map (fun o => match o with Some p => [p] | None => [] end) (names s).

(** No two files have the same path. *)
Definition well_formed (s : fs) : Prop := NoDup (file_names s).

(** The stream [v] reads the inode [n], whose content is [d], at offset
    [pos]. *)
Definition in_file (s : fs) (v : Z) (n : nat) (d : list byte) (pos : nat)
  : Prop :=
  exists o i,
    fd_lookup s (v - 1) = Some o /\ o_ino o = n /\ o_write o = false /\
    o_pos o = pos /\
    nth_error (fs_inodes s) n = Some i /\ i_data i = d.

(** The stream [out] writes the inode [n] at its end; the inode holds [d]
    and is not immutable. *)
Definition out_file (s : fs) (out : Z) (n : nat) (d : list byte) : Prop :=
  exists o i,
    fd_lookup s (out - 1) = Some o /\ o_ino o = n /\ o_write o = true /\
    o_append o = false /\ o_pos o = List.length d /\
    nth_error (fs_inodes s) n = Some i /\ i_data i = d /\
    immutable i = false.

(** The bytes the [fwrite] calls of a trace got across: of each buffer,
    as many bytes as the call reports. *)
Definition accepted (tr : list event) : list byte :=
  flat_map (fun ev =>
              match fst ev with
              | Fwrite _ buf => firstn (Z.to_nat (rv (snd ev))) buf
              | _ => []
              end) tr.

(** [fwrite] on [out] reports no more bytes than it was given. *)
Definition fwrite_sane S (h : handler S) (out : Z) : Prop :=
  forall s buf r s',
    h s (Fwrite out buf) = (r, s') ->
    0 <= rv r <= Z.of_nat (List.length buf).

(** ** Environments for the further properties *)

(** An environment whose [fwrite] takes one byte at a time. *)
Definition short_writer : handler unit := fun s c =>
  match c with
  | Fwrite _ buf => (ok (Z.min 1 (Z.of_nat (List.length buf))), s)
  | _ => (ok 0, s)
  end.

(** The replies to a set that creates the file and whose [write] fails. *)
Definition failing_write : list reply :=
  [ ok 10; ok 1; fail ENOENT; ok 5; ok 0; fail 5 ].

(** [TestVar] on a file system without the flag ioctls. *)
Definition plain_fs : fs :=
  Fs [Inode (Some test_path) [x07; x00; x00; x00; x01; x02; x03] 0 384]
     [None; None; None] 0 false 0 [].

(** [immutable_fs] with the variable file open on descriptor 3. *)
Definition opened_fs : fs :=
  set_fds immutable_fs [None; None; None; Some (Ofd 0 0 false false)].

(** ** Paths, flags, modes and descriptors *)

(** Path, flags and mode of a file. *)
Definition meta (i : inode) : option string * Z * Z :=
  (i_path i, i_flags i, i_mode i).

Definition metas (s : fs) : list (option string * Z * Z) :=
  map meta (fs_inodes s).

(** The calls of the copy loops of [write_file], on the streams
    [var2file] and [output_file]. *)
Definition loop_call (var2file output_file : Z) (c : syscall) : bool :=
  match c with
  | Fread f _ => f =? var2file
  | Fwrite f _ => f =? output_file
  | Fprintf _ => true
  | _ => false
  end.

(** The calls that change neither path, flags nor mode of a file. *)
Definition keeps_metas (c : syscall) : bool :=
  match c with
  | IoctlSetFlags _ _ | Chmod _ _ => false
  | _ => keeps_names c
  end.

(** The state of [write_file] while it copies: the files have the paths,
    flags and modes [m], and the two streams are the last two descriptors,
    after [fds]. *)
Definition copying (fds : list (option ofd))
  (m : list (option string * Z * Z)) (s : fs) : Prop :=
  metas s = m /\ exists ov oo, fs_fds s = fds ++ [Some ov; Some oo].

(** The descriptors of [s], followed by closed ones. *)
Definition no_leak (s s' : fs) : Prop :=
  exists k, fs_fds s' = fs_fds s ++ repeat None k.

(** The calls that leave the file system alone. *)
Definition plain_call (c : syscall) : bool :=
  match c with
  | Asprintf _ | Malloc _ | Free | Geteuid | Usleep _ | Fprintf _
  | EfiError _ | OobRead _ | Stat _ => true
  | _ => false
  end.

(** The file system while set runs on the variable file [path], the inode
    [n]: the files have the paths, flags and modes [ms], but for the flags
    [fl] that the inode [n] has at the moment; the descriptors are those
    of [fds], then those of set, [t], then closed ones, [u]. *)
Definition set_state (path : string) (n : nat) (md fl : Z)
  (ms : list (option string * Z * Z)) (fds t u : list (option ofd))
  (hf : bool) (s : fs) : Prop :=
  find_path path (fs_inodes s) = Some n /\
  (n < List.length ms)%nat /\
  metas s = update ms n (Some path, fl, md) /\
  fs_fds s = fds ++ t ++ u /\
  fs_has_flags s = hf.

(** [TestVar] and another variable, [Other], whose file is immutable. *)
Definition other_path : string :=
  var_path default_efivarfs_path zero_guid "Other".

Definition two_vars_fs : fs :=
  Fs [Inode (Some test_path) [x07; x00; x00; x00; x01; x02; x03] 0 384;
      Inode (Some other_path) [x07; x00; x00; x00; x2a] FS_IMMUTABLE_FL 420]
     [None; None; None] 0 true 0 [].

(** ** The mount root and the probe

    [get_efivarfs_path] and [efivarfs_probe] ask the C library for the
    environment and for memory, and the kernel for the file system at a
    path: what they are answered is the [host].  Between calls the library
    keeps the static pointer [efivarfs_path] and its error log. *)

Definition EFIVARFS_MAGIC : Z := 0xde5e81e4.

Record host := Host {
  (** [secure_getenv("EFIVARFS_PATH")] *)
  h_secure_getenv : option string;
  (** [getenv("EFIVARFS_PATH")] *)
  h_getenv : option string;
  (** whether [strdup] finds memory *)
  h_strdup : bool;
  (** [statfs]: the [f_type] of the file system at a path, when the call
      succeeds *)
  h_statfs : string -> option Z
}.

Record library := Library {
  (** the static [efivarfs_path], [None] for [NULL] *)
  lib_path : option string;
  (** the messages of [efi_error], the last one first *)
  lib_errors : list string
}.

Definition get_efivarfs_path (h : host) (l : library)
  : outcome string * library :=
  match lib_path l with
  | Some path => (Returned path, l)
  | None =>
      let source := match h_secure_getenv h with
                    | Some value => value
                    | None => default_efivarfs_path
                    end in
      if h_strdup h
      then (Returned source, Library (Some source) (lib_errors l))
      else (Exited 1, l)
  end.

(** [f_type] and [magic] are two objects of one integer type, which the
    constant fits: [memcmp] finds them equal when the values are. *)
Definition efivarfs_probe (h : host) (l : library) : outcome Z * library :=
  match get_efivarfs_path h l with
  | (Returned path, l) =>
      match h_statfs h path with
      | Some f_type =>
          if f_type =? EFIVARFS_MAGIC then (Returned 1, l)
          else
            let errors := "bad fs type for %s" :: lib_errors l in
            match h_getenv h with
            | Some tmp =>
                if String.eqb tmp path
                then (Returned 1, Library (lib_path l) [])
                else (Returned 0, Library (lib_path l) errors)
            | None => (Returned 0, Library (lib_path l) errors)
            end
      | None =>
          (Returned 0,
           Library (lib_path l) ("statfs(%s) failed" :: lib_errors l))
      end
  | (Exited code, l) => (Exited code, l)
  | (OutOfFuel, l) => (OutOfFuel, l)
  end.

(** A process that runs in secure mode, with [EFIVARFS_PATH] set to the
    default path and a file system of another type mounted there. *)
Definition secure_host : host :=
  Host None (Some default_efivarfs_path) true (fun _ => Some 0x01021994).

(** * Proofs *)

Arguments Z.add _ _ : simpl never.
Arguments Z.sub _ _ : simpl never.
Arguments Z.mul _ _ : simpl never.
Arguments Z.div _ _ : simpl never.
Arguments Z.modulo _ _ : simpl never.
Arguments Z.pow _ _ : simpl never.
Arguments Z.land _ _ : simpl never.
Arguments Z.lor _ _ : simpl never.
Arguments Z.lnot _ : simpl never.
Arguments Z.shiftr _ _ : simpl never.
Arguments Z.eqb _ _ : simpl never.
Arguments Z.ltb _ _ : simpl never.
Arguments Z.leb _ _ : simpl never.
Arguments Z.gtb _ _ : simpl never.
Arguments Z.geb _ _ : simpl never.
Arguments Z.of_nat _ : simpl never.
Arguments Z.to_nat _ : simpl never.
Arguments var_path _ _ _ : simpl never.

(** ** Running programs *)

Lemma then_run_traced S A B (ev : event) (r : result S A)
  (k : A -> Z -> S -> result S B) :
  then_run (traced ev r) k = traced ev (then_run r k).
Proof.
  unfold then_run, traced; simpl.
  destruct (res_out r); reflexivity.
Qed.

Lemma run_bind S A B (h : handler S) (p : prog A) (f : A -> prog B) e s :
  run h (bind p f) e s = then_run (run h p e s) (fun a => run h (f a)).
Proof.
  revert e s.
  induction p as [a | c k IH | msg k IH | k IH | e' k IH | code | ];
    intros e s; simpl.
  - unfold then_run; simpl. destruct (run h (f a) e s); reflexivity.
  - destruct (h s c) as [r s']. rewrite IH. symmetry. apply then_run_traced.
  - rewrite IH. symmetry. apply then_run_traced.
  - apply IH.
  - apply IH.
  - reflexivity.
  - reflexivity.
Qed.



(** ** Calls a program can issue *)

Lemma issues_only_bind A B (P : syscall -> bool) (p : prog A)
  (f : A -> prog B) :
  issues_only P p -> (forall a, issues_only P (f a)) ->
  issues_only P (bind p f).
Proof.
  intros Hp Hf.
  induction p as [a | c k IH | msg k IH | k IH | e' k IH | code | ];
    simpl in *; auto.
  - destruct Hp as [Hc Hk]. split; auto.
  - destruct Hp as [Hc Hk]. split; auto.
Qed.

Lemma issues_only_run S A (h : handler S) (P : syscall -> bool) (p : prog A) :
  issues_only P p ->
  forall e s, Forall (fun ev => P (fst ev) = true) (res_trace (run h p e s)).
Proof.
  induction p as [a | c k IH | msg k IH | k IH | e' k IH | code | ];
    simpl; intros Hp e s; auto.
  - destruct Hp as [Hc Hk]. destruct (h s c) as [r s']. simpl.
    constructor; auto.
  - destruct Hp as [Hc Hk]. constructor; auto.
Qed.

Ltac issues :=
  repeat first
    [ progress (simpl; intros)
    | match goal with
      | |- True => exact I
      | |- _ /\ _ => split
      | |- _ = _ => reflexivity
      | |- issues_only _ (bind _ _) => apply issues_only_bind
      | |- issues_only _ (memcpy_from _ _) => unfold memcpy_from
      | |- issues_only _ (when ?b _) => destruct b; unfold when
      | |- issues_only _ (if ?b then _ else _) => destruct b
      | |- issues_only _ (match ?x with _ => _ end) => destruct x
      | |- issues_only _ (let '(_, _) := ?x in _) => destruct x
      end ].

Lemma get_issues root guid name :
  issues_only sync_call (efivarfs_get_variable root guid name).
Proof. unfold efivarfs_get_variable, get_cleanup. issues. Qed.

Lemma write_chunk_issues fuel out fp buffer n t :
  issues_only sync_call (write_chunk fuel out fp buffer n t).
Proof.
  revert t. induction fuel as [|fuel IH]; intros t; simpl.
  - destruct (t <? n); simpl; auto.
  - destruct (t <? n); simpl; auto. split; auto. intros r.
    destruct (size_t (rv r) =? 0); simpl; auto.
Qed.

Lemma copy_loop_issues fuel v o fp buffer :
  issues_only sync_call (copy_loop fuel v o fp buffer).
Proof.
  revert buffer. induction fuel as [|fuel IH]; intros buffer.
  - exact I.
  - cbn [copy_loop]. apply issues_only_bind.
    + simpl; auto.
    + intros r. destruct (size_t (rv r) >? 0); [|exact I].
      apply issues_only_bind. apply write_chunk_issues.
      intros []; [exact I | apply IH].
Qed.

Lemma sync_issues root fuel :
  issues_only sync_call (efi_update_var_file root fuel).
Proof.
  unfold efi_update_var_file, get_esp_filename, efi_get_variable.
  apply issues_only_bind.
  - apply issues_only_bind.
    + apply issues_only_bind. apply get_issues. issues.
    + intros out. issues.
  - intros [rc filename].
    destruct (rc <? 0); [exact I|].
    apply issues_only_bind; [unfold read_cstring; issues|]. intros name.
    apply issues_only_bind.
    + unfold get_esp_filepath.
      generalize (string_of_bytes name), esp_paths.
      intros fname paths. induction paths as [|p paths IH]; simpl; auto.
      destruct (_ >=? _); simpl; auto.
      split; auto. intros r. destruct (rv r =? 0); simpl; auto.
    + intros [rc' filepath].
      destruct (rc' =? 0); [|issues].
      unfold write_file, write_file_cleanup. simpl. split; auto. intros r.
      destruct (rv r <? 0); simpl; auto.
      split; auto. intros v. destruct (rv v =? 0); simpl.
      { issues. }
      split; auto. intros o. destruct (rv o =? 0); simpl.
      { issues. }
      split; auto. intros hd. destruct (size_t (rv hd) <? 4); simpl.
      { issues. }
      apply issues_only_bind. apply copy_loop_issues.
      intros failed. issues.
Qed.


(** ** Stepping through a program

    [wp h p e s Q]: the run of [p] from [errno = e] and environment [s]
    satisfies [Q].  The rules below follow the syntax of the programs, one
    call at a time, and leave the continuation untouched. *)

Lemma wp_ret S A (h : handler S) (a : A) e s (Q : result S A -> Prop) :
  Q (Result (Returned a) e s []) -> wp h (Ret a) e s Q.
Proof. exact (fun H => H). Qed.

Lemma wp_exit S A (h : handler S) code e s (Q : result S A -> Prop) :
  Q (Result (Exited code) e s []) -> wp h (Exit code) e s Q.
Proof. exact (fun H => H). Qed.

Lemma wp_bind_ret S A B (h : handler S) (a : A) (f : A -> prog B) e s Q :
  wp h (f a) e s Q -> wp h (bind (Ret a) f) e s Q.
Proof. exact (fun H => H). Qed.

Lemma wp_bind_sys S A (h : handler S) c (f : reply -> prog A) e s Q :
  (forall r s', h s c = (r, s') ->
     wp h (f r) (new_errno e r) s' (fun res => Q (traced (c, r) res))) ->
  wp h (bind (sys c) f) e s Q.
Proof.
  unfold wp; simpl. intros H. destruct (h s c) as [r s'] eqn:E.
  apply (H r s' eq_refl).
Qed.

Lemma wp_sys S (h : handler S) c e s Q :
  (forall r s', h s c = (r, s') ->
     Q (Result (Returned r) (new_errno e r) s' [(c, r)])) ->
  wp h (sys c) e s Q.
Proof.
  unfold wp; simpl. intros H. destruct (h s c) as [r s'] eqn:E.
  apply (H r s' eq_refl).
Qed.

Lemma wp_bind_log S A (h : handler S) msg (f : unit -> prog A) e s Q :
  wp h (f tt) e s (fun res => Q (traced (EfiError msg, no_reply) res)) ->
  wp h (bind (efi_error msg) f) e s Q.
Proof. exact (fun H => H). Qed.

Lemma wp_bind_get_errno S A (h : handler S) (f : Z -> prog A) e s Q :
  wp h (f e) e s Q -> wp h (bind get_errno f) e s Q.
Proof. exact (fun H => H). Qed.

Lemma wp_bind_set_errno S A (h : handler S) e' (f : unit -> prog A) e s Q :
  wp h (f tt) e' s Q -> wp h (bind (set_errno e') f) e s Q.
Proof. exact (fun H => H). Qed.

Lemma wp_bind S A B (h : handler S) (p : prog A) (f : A -> prog B) e s Q :
  wp h p e s (fun r =>
    match res_out r with
    | Returned a =>
        wp h (f a) (res_errno r) (res_env r)
           (fun r' => Q (after (res_trace r) r'))
    | Exited code =>
        Q (Result (Exited code) (res_errno r) (res_env r) (res_trace r))
    | OutOfFuel =>
        Q (Result OutOfFuel (res_errno r) (res_env r) (res_trace r))
    end) ->
  wp h (bind p f) e s Q.
Proof.
  unfold wp. rewrite run_bind. unfold then_run, after.
  destruct (res_out (run h p e s)); auto.
Qed.

Lemma wp_bind_assoc S A B C (h : handler S) (p : prog A) (f : A -> prog B)
  (g : B -> prog C) e s Q :
  wp h (bind p (fun x => bind (f x) g)) e s Q ->
  wp h (bind (bind p f) g) e s Q.
Proof.
  unfold wp. intros H.
  replace (run h (bind (bind p f) g) e s)
    with (run h (bind p (fun x => bind (f x) g)) e s); [exact H|].
  clear H. revert e s.
  induction p as [a | c k IH | msg k IH | k IH | e' k IH | code | ];
    intros e s; simpl; auto.
  - destruct (h s c) as [r s']. rewrite IH. reflexivity.
  - rewrite IH. reflexivity.
Qed.

Ltac split_atom b :=
  lazymatch b with
  | negb ?x => split_atom x
  | andb ?x _ => split_atom x
  | orb ?x _ => split_atom x
  | _ =>
      match goal with
      | H : b = _ |- _ => rewrite H
      | _ => first [ change b with true | change b with false ]
      | _ => let B := fresh "B" in destruct b eqn:B
      end
  end.

Ltac wp_sync h := fail.

Ltac wp_step h :=
  cbv beta iota zeta;
  cbn [negb andb orb l_ret l_rfd l_wfd l_restore_immutable_fd l_orig_attrs
       g_ret g_attributes g_data g_data_size fst snd];
  lazymatch goal with
  | |- wp _ (bind (bind _ _) _) _ _ _ => apply wp_bind_assoc
  | |- wp _ (bind (sys _) _) _ _ _ =>
      apply wp_bind_sys; let E := fresh "E" in intros ? ? E
  | |- wp _ (bind (efi_error _) _) _ _ _ => apply wp_bind_log
  | |- wp _ (bind get_errno _) _ _ _ => apply wp_bind_get_errno
  | |- wp _ (bind (set_errno _) _) _ _ _ => apply wp_bind_set_errno
  | |- wp _ (bind (Ret _) _) _ _ _ => apply wp_bind_ret
  | |- wp _ (bind (when _ _) _) _ _ _ => unfold when at 1
  | |- wp _ (bind (if ?b then _ else _) _) _ _ _ => split_atom b
  | |- wp _ (if ?b then _ else _) _ _ _ => split_atom b
  | |- wp _ (bind (efi_update_var_file _ _) _) _ _ _ => wp_sync h
  | |- wp _ (sys _) _ _ _ =>
      apply wp_sys; let E := fresh "E" in intros ? ? E
  end.

Ltac wp_leaf :=
  lazymatch goal with
  | |- wp _ (Ret _) _ _ _ => apply wp_ret
  | |- wp _ (Exit _) _ _ _ => apply wp_exit
  end;
  cbv beta;
  cbn [traced after res_out res_errno res_env res_trace app].

Ltac wp_run h := repeat wp_step h; try wp_leaf.

Lemma wp_sync_rule S A (h : handler S) root fuel (f : unit -> prog A) e s Q :
  (forall o e' s' tr,
      Forall (fun ev => sync_call (fst ev) = true) tr ->
      match o with
      | Returned a =>
          wp h (f a) e' s' (fun r' => Q (after tr r'))
      | Exited code => Q (Result (Exited code) e' s' tr)
      | OutOfFuel => Q (Result OutOfFuel e' s' tr)
      end) ->
  wp h (bind (efi_update_var_file root fuel) f) e s Q.
Proof.
  intros H. apply wp_bind. unfold wp at 1.
  pose proof (@issues_only_run _ _ h sync_call _ (sync_issues root fuel) e s)
    as Hs.
  destruct (run h (efi_update_var_file root fuel) e s) as [o e' s' tr].
  specialize (H o e' s' tr Hs). simpl in *. destruct o; exact H.
Qed.

Ltac wp_sync h ::=
  apply wp_sync_rule;
  let o := fresh "o" in
  let Hs := fresh "Hsync" in
  intros o ? ? ? Hs; destruct o as [[]| |].


Ltac wp_start res :=
  pattern res; subst res;
  lazymatch goal with
  | |- ?Q (run ?h ?p ?e ?s) =>
      let post := fresh "post" in
      set (post := Q); change (wp h p e s post)
  end.

Ltac wp_finish :=
  try match goal with post := _ |- _ => subst post end;
  cbv beta;
  cbn [traced after res_out res_errno res_env res_trace app
       l_ret l_rfd l_wfd l_restore_immutable_fd l_orig_attrs
       g_ret g_attributes g_data g_data_size].

Ltac wp_all h := repeat wp_step h; try wp_leaf; wp_finish.

Ltac set_paths h :=
  unfold efivarfs_set_variable, make_efivarfs_path, set_body, set_cleanup,
    set_write_phase, efivarfs_make_fd_mutable, memcpy_from, free;
  wp_all h.

Ltac boolfacts :=
  unfold has_flag, nonzero in *;
  repeat match goal with
  | H : negb _ = true |- _ => apply negb_true_iff in H
  | H : negb _ = false |- _ => apply negb_false_iff in H
  | H : (_ =? _) = true |- _ => apply Z.eqb_eq in H
  | H : (_ =? _) = false |- _ => apply Z.eqb_neq in H
  | H : (_ <? _) = true |- _ => apply Z.ltb_lt in H
  | H : (_ <? _) = false |- _ => apply Z.ltb_ge in H
  | H : (_ >=? _) = true |- _ => rewrite Z.geb_leb in H; apply Z.leb_le in H
  | H : (_ >=? _) = false |- _ => rewrite Z.geb_leb in H; apply Z.leb_gt in H
  | H : (_ >? _) = true |- _ => rewrite Z.gtb_ltb in H; apply Z.ltb_lt in H
  | H : (_ >? _) = false |- _ => rewrite Z.gtb_ltb in H; apply Z.ltb_ge in H
  | H : (_ <=? _) = true |- _ => apply Z.leb_le in H
  | H : (_ <=? _) = false |- _ => apply Z.leb_gt in H
  end.

(** ** Properties that hold in every environment *)

(** C7: chmod returns -1 in every execution, whatever the environment
    answers to its calls, the mode change included. *)
Theorem chmod_always_fails S (h : handler S) root guid name mode e s :
  res_out (run h (efivarfs_chmod_variable root guid name mode) e s)
  = Returned (-1).
Proof.
  change (wp h (efivarfs_chmod_variable root guid name mode) e s
            (fun res => res_out res = Returned (-1))).
  unfold efivarfs_chmod_variable, make_efivarfs_path, free, when.
  wp_all h; reflexivity.
Qed.

(** C8: a name longer than 1024 bytes, or a data size above SIZE_MAX minus
    the 4 bytes of the attribute word, makes set return -1 with errno
    EINVAL for the name, checked first, and EOVERFLOW for the size; the
    environment is left as it was, and the trace holds the error log
    alone: no call was issued. *)
Theorem set_validates_first S (h : handler S) root fuel guid name data
  data_size attributes mode e s :
  strlen name > 1024 \/ data_size > SIZE_MAX - sizeof_attributes ->
  let res := run h (efivarfs_set_variable root fuel guid name data data_size
                      attributes mode) e s in
  res_out res = Returned (-1) /\
  res_errno res = (if strlen name >? 1024 then EINVAL else EOVERFLOW) /\
  res_env res = s /\
  exists msg, res_trace res = [(EfiError msg, no_reply)].
Proof.
  intros H. unfold efivarfs_set_variable.
  destruct (strlen name >? 1024) eqn:N; simpl.
  - split; [reflexivity|]. split; [reflexivity|]. split; [reflexivity|].
    eexists; reflexivity.
  - destruct (data_size >? SIZE_MAX - sizeof_attributes) eqn:D; simpl.
    + split; [reflexivity|]. split; [reflexivity|]. split; [reflexivity|].
      eexists; reflexivity.
    + exfalso. rewrite Z.gtb_ltb in N, D. apply Z.ltb_ge in N, D. lia.
Qed.

Lemma filter_sync_nil (f : event -> bool) (tr : list event) :
  (forall ev, sync_call (fst ev) = true -> f ev = false) ->
  Forall (fun ev => sync_call (fst ev) = true) tr -> filter f tr = [].
Proof.
  intros Hf. induction 1 as [|ev tr Hc _ IH]; simpl; auto.
  rewrite (Hf ev Hc). exact IH.
Qed.

Lemma fstats_sync tr :
  Forall (fun ev => sync_call (fst ev) = true) tr -> fstats tr = [].
Proof.
  apply filter_sync_nil.
  intros [c r] H; destruct c; simpl in *; try reflexivity; discriminate H.
Qed.

Lemma ioctls_sync tr :
  Forall (fun ev => sync_call (fst ev) = true) tr -> ioctls tr = [].
Proof.
  apply filter_sync_nil.
  intros [c r] H; destruct c; simpl in *; try reflexivity; discriminate H.
Qed.

Ltac sync_filter :=
  repeat match goal with
  | H : Forall (fun ev => sync_call (fst ev) = true) ?tr |- _ =>
      pose proof (fstats_sync H); pose proof (ioctls_sync H); clear H
  end.

(** C2: in every execution of set whose read-only open succeeded, the
    first fstat is on the descriptor of that open; when it succeeded, the
    next open is the write open of the same path, and when that succeeded
    too, set issues a second fstat, on the write descriptor, and no other.
    When the second fstat succeeds and the device or inode numbers of the
    two differ, set returns -1 with errno EINVAL, opens nothing more and
    issues no write and no unlink; when both agree, the first write is the
    write of the buffer to the write descriptor. *)
Theorem set_race_aborts S (h : handler S) root fuel guid name data data_size
  attributes mode e s ro more :
  let res := run h (efivarfs_set_variable root fuel guid name data data_size
                      attributes mode) e s in
  let path := var_path root guid name in
  let tr := res_trace res in
  opens tr = (Open path O_RDONLY 0, ro) :: more ->
  rv ro <> -1 ->
  exists sr,
    hd_error (fstats tr) = Some (Fstat (rv ro), sr) /\
    (rv sr <> -1 ->
     exists flags wo more',
       more = (Open path flags mode, wo) :: more' /\
       (rv wo <> -1 ->
        exists sw,
          fstats tr = [(Fstat (rv ro), sr); (Fstat (rv wo), sw)] /\
          (rv sw <> -1 ->
           (r_dev sr <> r_dev sw \/ r_ino sr <> r_ino sw ->
            res_out res = Returned (-1) /\ res_errno res = EINVAL /\
            writes tr = [] /\ unlinks tr = [] /\ more' = []) /\
           (r_dev sr = r_dev sw -> r_ino sr = r_ino sw ->
            exists buf wr morew,
              writes tr
              = (Write (rv wo) buf (sizeof_attributes + data_size), wr)
                  :: morew)))).
Proof.
  intros res path tr. subst tr path. wp_start res.
  set_paths h.
  all: sync_filter.
  all: unfold fstats, opens, writes, unlinks in *;
       cbn [filter is_fstat is_open is_write is_unlink fst];
       rewrite ?filter_app;
       cbn [filter is_fstat is_open is_write is_unlink fst app].
  all: repeat match goal with H : filter is_fstat _ = [] |- _ =>
         rewrite H; clear H end; cbn [app].
  all: intros Hop; try discriminate Hop.
  all: injection Hop as <- <-; intros Hro.
  all: boolfacts; try congruence.
  all: eexists; (split; [reflexivity|]); intros Hsr;
       try (exfalso; congruence).
  all: do 3 eexists; (split; [reflexivity|]); intros Hwo;
       try (exfalso; congruence).
  all: eexists; (split; [reflexivity|]); intros Hsw;
       try (exfalso; congruence).
  all: split; [intros Hd; try (exfalso; destruct Hd; congruence)
              |intros Hdev Hino; try (exfalso; congruence)].
  all: try (repeat split; reflexivity).
  all: try (do 3 eexists; reflexivity).
Qed.

Lemma set_ioctls S (h : handler S) root fuel guid name data data_size
  attributes mode e s ret :
  let res := run h (efivarfs_set_variable root fuel guid name data data_size
                      attributes mode) e s in
  res_out res = Returned ret ->
  set_ioctl_shape (ioctls (res_trace res)).
Proof.
  intros res. wp_start res.
  set_paths h.
  all: sync_filter.
  all: intros Hout; try discriminate Hout.
  all: unfold ioctls in *; cbn [filter is_ioctl fst]; rewrite ?filter_app;
       cbn [filter is_ioctl fst app].
  all: repeat match goal with H : filter is_ioctl _ = [] |- _ =>
         rewrite H; clear H end; cbn [app set_ioctl_shape].
  all: try exact I.
  all: unfold has_flag, nonzero in *.
  all: repeat match goal with H : (_ =? _) = _ |- _ => rewrite H in * end;
       cbn [negb] in *.
  all: try discriminate.
  all: boolfacts.
  all: repeat split; try reflexivity; try assumption.
  all: try (left; split; [assumption | reflexivity]).
  all: try (right; split; [assumption|]; split; reflexivity).
Qed.

Lemma filter_singleton A (f : A -> bool) (l : list A) (x : A) :
  filter f l = [x] ->
  exists mid tail, l = mid ++ x :: tail /\ filter f mid = [] /\
                   filter f tail = [].
Proof.
  induction l as [|y l IH]; simpl; intros H; [discriminate|].
  destruct (f y) eqn:Fy.
  - injection H as -> Hl. exists [], l. auto.
  - destruct (IH H) as (mid & tail & -> & Hm & Ht).
    exists (y :: mid), tail. simpl. rewrite Fy. auto.
Qed.

Lemma shape_after_clearing (P Q : list event) fd g c :
  set_ioctl_shape
    (P ++ (IoctlGetFlags fd, g)
       :: (IoctlSetFlags fd (Z.land (r_flags g) (Z.lnot FS_IMMUTABLE_FL)), c)
       :: Q) ->
  rv g <> -1 -> has_flag (r_flags g) FS_IMMUTABLE_FL = true -> rv c <> -1 ->
  exists r, Q = [(IoctlSetFlags fd (r_flags g), r)].
Proof.
  intros Hshape Hg Himm Hc.
  destruct P as [|[cx rx] P].
  - cbn [app] in Hshape.
    destruct Q as [|[cy ry] Q]; simpl in Hshape.
    + destruct Hshape as (_ & [[Hr _] | (_ & Hf & _)]); congruence.
    + destruct cy; try contradiction.
      destruct Q; [|contradiction].
      destruct Hshape as (_ & _ & _ & _ & -> & ->).
      apply Z.eqb_neq in Hc. rewrite Hc. eauto.
  - exfalso. destruct cx; simpl in Hshape; try contradiction.
    + destruct P as [|[cy ry] P]; simpl in Hshape; [contradiction|].
      destruct cy; simpl in Hshape; try contradiction.
      destruct P as [|[cz rz] P]; simpl in Hshape; [contradiction|].
      destruct cz; simpl in Hshape; try contradiction;
        destruct P; simpl in Hshape; contradiction.
    + destruct P as [|[cy ry] P]; simpl in Hshape; contradiction.
Qed.

(** C3 (as amended): in every execution of set that returns, whatever the
    returned value, if the immutable flag was cleared on a descriptor (the
    flags were read, the flag was there, the clearing ioctl succeeded),
    then a later ioctl sets the recorded original flags on that
    descriptor, and no flag ioctl follows it. *)
Theorem set_restores_cleared_flags S (h : handler S) root fuel guid name
  data data_size attributes mode e s ret pre fd g c post :
  let res := run h (efivarfs_set_variable root fuel guid name data data_size
                      attributes mode) e s in
  res_out res = Returned ret ->
  res_trace res =
    pre ++ (IoctlGetFlags fd, g)
        :: (IoctlSetFlags fd (Z.land (r_flags g) (Z.lnot FS_IMMUTABLE_FL)), c)
        :: post ->
  rv g <> -1 -> has_flag (r_flags g) FS_IMMUTABLE_FL = true -> rv c <> -1 ->
  exists mid r tail,
    post = mid ++ (IoctlSetFlags fd (r_flags g), r) :: tail /\
    ioctls tail = [].
Proof.
  intros res Hout Htr Hg Himm Hc.
  pose proof (set_ioctls h root fuel guid name data data_size attributes
                mode e s Hout) as Hshape.
  fold res in Hshape. rewrite Htr in Hshape.
  unfold ioctls in Hshape. rewrite filter_app in Hshape.
  destruct (shape_after_clearing _ _ _ _ _ Hshape Hg Himm Hc) as (r & Hpost).
  destruct (filter_singleton _ _ Hpost) as (mid & tail & -> & _ & Ht).
  exists mid, r, tail. auto.
Qed.





Lemma land_lor_same a b : Z.land (Z.lor a b) b = b.
Proof.
  apply Z.bits_inj'. intros n Hn.
  rewrite Z.land_spec, Z.lor_spec.
  destruct (Z.testbit a n), (Z.testbit b n); reflexivity.
Qed.

Lemma sync_creates_nothing tr :
  Forall (fun ev => sync_call (fst ev) = true) tr ->
  Forall creates_with_mode_0 tr.
Proof.
  apply Forall_impl. intros [c r] H. unfold creates_with_mode_0.
  destruct c; simpl in *; try exact I.
  apply Z.eqb_eq in H. subst flags. intros F. discriminate F.
Qed.

Ltac all_events :=
  repeat first
    [ apply Forall_nil
    | apply sync_creates_nothing; assumption
    | apply Forall_cons; [ unfold creates_with_mode_0; cbn [fst]; auto |]
    | apply Forall_app; split; [ apply sync_creates_nothing; assumption |] ].

(** C9: when the read-only open of append fails, its next open is the
    creating one (O_WRONLY, O_APPEND, O_CREAT, O_EXCL) with mode 0, and
    every open of the call that may create a file passes mode 0. *)
Theorem append_creates_with_mode_0 S (h : handler S) root fuel guid name
  data data_size attributes e s ro rest :
  let res := run h (efivarfs_append_variable root fuel guid name data
                      data_size attributes) e s in
  opens (res_trace res)
    = (Open (var_path root guid name) O_RDONLY 0, ro) :: rest ->
  rv ro = -1 ->
  (exists wo rest',
     rest = (Open (var_path root guid name)
               (Z.lor (Z.lor O_WRONLY O_APPEND) (Z.lor O_CREAT O_EXCL)) 0, wo)
            :: rest') /\
  Forall creates_with_mode_0 (res_trace res).
Proof.
  intros res. wp_start res.
  unfold efivarfs_append_variable.
  set_paths h.
  all: rewrite ?(land_lor_same attributes EFI_VARIABLE_APPEND_WRITE);
       change (nonzero EFI_VARIABLE_APPEND_WRITE) with true; cbv iota.
  all: unfold opens; cbn [filter is_open fst]; rewrite ?filter_app;
       cbn [filter is_open fst app].
  all: intros Ho Hro; try discriminate Ho.
  all: injection Ho as <- <-.
  all: boolfacts; try congruence.
  all: split; [do 2 eexists; reflexivity | all_events].
Qed.

(** ** Executions on the example file systems *)

(** C5: on a variable file of two bytes, the read of the attribute word
    returns 2, fewer than 4, and get still returns 0, with the attribute
    word 7 and no data. *)
Lemma get_accepts_short_read :
  let res := run posix
               (efivarfs_get_variable default_efivarfs_path zero_guid "TestVar")
               0 short_fs in
  res_out res = Returned (GetOut 0 7 [x00] 0) /\
  map (fun ev => rv (snd ev))
      (filter (fun ev => match fst ev with Read _ _ => true | _ => false end)
              (res_trace res)) = [2].
Proof. vm_compute. split; reflexivity. Qed.

(** C6: deleting a variable that has no file returns -1, and the
    persistence sync runs all the same: the file on the boot partition,
    which held [OLD], holds the content of [VarToFile] afterwards. *)
Lemma del_missing_rewrites_esp_file :
  let s := esp_fs 0 ([x07; x00; x00; x00] ++ bytes_of_string "NEW") in
  let res := run posix
               (efivarfs_del_variable default_efivarfs_path 8 zero_guid "Nope")
               0 s in
  file_data s (var_path default_efivarfs_path zero_guid "Nope") = None /\
  res_out res = Returned (-1) /\
  file_data s "/boot/efi/vars.bin" = Some (bytes_of_string "OLD") /\
  file_data (res_env res) "/boot/efi/vars.bin" = Some (bytes_of_string "NEW").
Proof. vm_compute. repeat split; reflexivity. Qed.

(** C3, counterexample: the variable file is immutable and [VarToFile]
    holds two bytes.  set clears the flag, writes, and the persistence
    sync ends the process with exit(1): no ioctl restores the flags, and
    the file is left without the immutable flag. *)
Lemma set_exit_skips_restore :
  let s := esp_fs FS_IMMUTABLE_FL [x07; x00] in
  let res := run posix
               (efivarfs_set_variable default_efivarfs_path 8 zero_guid
                  "TestVar" [x09] 1 7 384) 0 s in
  res_out res = Exited 1 /\
  ioctls (res_trace res) =
    [ (IoctlGetFlags 3, Reply 0 None [] 0 0 0 FS_IMMUTABLE_FL);
      (IoctlSetFlags 3 (Z.land FS_IMMUTABLE_FL (Z.lnot FS_IMMUTABLE_FL)),
       ok 0) ] /\
  file_flags s test_path = Some FS_IMMUTABLE_FL /\
  file_flags (res_env res) test_path = Some 0.
Proof. vm_compute. repeat split; reflexivity. Qed.

(** C1, counterexample: with the append attribute (bit 0x40) on a variable
    that exists, set succeeds and the file is opened with O_APPEND: the
    get that follows returns the old attribute word 7, and as data the old
    payload followed by the whole written buffer. *)
Lemma set_append_bit_breaks_round_trip :
  let set := run posix
               (efivarfs_set_variable default_efivarfs_path 8 zero_guid
                  "TestVar" [x09] 1 71 384) 0 testvar_fs in
  let get := run posix
               (efivarfs_get_variable default_efivarfs_path zero_guid "TestVar")
               (res_errno set) (res_env set) in
  res_out set = Returned 0 /\
  exists out,
    res_out get = Returned out /\ g_ret out = 0 /\
    g_attributes out = 7 /\
    g_payload out = [x01; x02; x03; x47; x00; x00; x00; x09] /\
    (g_attributes out, g_payload out) <> (71, [x09]).
Proof.
  vm_compute. split; [reflexivity|].
  eexists. split; [reflexivity|]. repeat split; try reflexivity.
  discriminate.
Qed.

Unset Implicit Arguments.

(** ** The file system: what a call keeps *)

Lemma find_path_nth path l n :
  find_path path l = Some n ->
  exists i, nth_error l n = Some i /\ is_path path i = true.
Proof.
  revert n. induction l as [|x l IH]; intros n; simpl; [discriminate|].
  destruct (is_path path x) eqn:P.
  - intros H; injection H as <-. simpl. eauto.
  - destruct (find_path path l) as [m|]; simpl; [|discriminate].
    intros H; injection H as <-. simpl. apply IH. reflexivity.
Qed.

Lemma find_path_app path l l' n :
  find_path path l = Some n -> find_path path (l ++ l') = Some n.
Proof.
  revert n. induction l as [|x l IH]; intros n; simpl; [discriminate|].
  destruct (is_path path x); auto.
  destruct (find_path path l) as [m|]; simpl; [|discriminate].
  rewrite (IH m eq_refl). auto.
Qed.

Lemma find_path_app_new path l x :
  find_path path l = None -> is_path path x = true ->
  find_path path (l ++ [x]) = Some (List.length l).
Proof.
  intros Hl Hx. induction l as [|y l IH]; simpl in *.
  - rewrite Hx. reflexivity.
  - destruct (is_path path y); [discriminate|].
    destruct (find_path path l); [discriminate|].
    rewrite IH; reflexivity.
Qed.

Lemma find_path_update path l m x y :
  nth_error l m = Some y -> i_path x = i_path y ->
  find_path path (update l m x) = find_path path l.
Proof.
  revert m. induction l as [|z l IH]; intros m; simpl.
  - destruct m; discriminate.
  - destruct m as [|m]; simpl.
    + intros H Hp; injection H as ->. unfold is_path. rewrite Hp. reflexivity.
    + intros H Hp. rewrite (IH m H Hp). reflexivity.
Qed.

Lemma nth_error_update_same A (l : list A) n x y :
  nth_error l n = Some y -> nth_error (update l n x) n = Some x.
Proof.
  revert n. induction l as [|z l IH]; intros [|n]; simpl; try discriminate;
    auto.
Qed.

Lemma nth_error_update_other A (l : list A) n m x :
  n <> m -> nth_error (update l n x) m = nth_error l m.
Proof.
  revert n m. induction l as [|z l IH]; intros [|n] [|m] H; simpl; auto;
    try congruence.
Qed.

Lemma length_update A (l : list A) n x :
  List.length (update l n x) = List.length l.
Proof.
  revert n. induction l as [|z l IH]; intros [|n]; simpl; auto.
Qed.

Lemma nth_error_snoc A (l : list A) x :
  nth_error (l ++ [x]) (List.length l) = Some x.
Proof. induction l; simpl; auto. Qed.

Lemma nth_error_app_old A (l l' : list A) n y :
  nth_error l n = Some y -> nth_error (l ++ l') n = Some y.
Proof.
  revert n. induction l as [|z l IH]; intros [|n]; simpl; try discriminate;
    auto.
Qed.

Lemma is_path_inj p q i :
  is_path p i = true -> is_path q i = true -> p = q.
Proof.
  unfold is_path. destruct (i_path i); [|discriminate].
  intros H1 H2. apply String.eqb_eq in H1, H2. congruence.
Qed.

(** Two paths that resolve to the same inode are the same path. *)
Lemma find_path_inj p q l n :
  find_path p l = Some n -> find_path q l = Some n -> p = q.
Proof.
  intros Hp Hq.
  destruct (find_path_nth _ _ _ Hp) as (i & Hi & Pi).
  destruct (find_path_nth _ _ _ Hq) as (j & Hj & Pj).
  rewrite Hi in Hj. injection Hj as <-. eapply is_path_inj; eauto.
Qed.

Lemma holds_file_data s path n d :
  holds s path n d -> file_data s path = Some d.
Proof.
  intros [Hf (i & Hi & Hd)]. unfold file_data, path_inode.
  rewrite Hf, Hi. simpl. congruence.
Qed.

Lemma file_data_holds s path d :
  file_data s path = Some d -> exists n, holds s path n d.
Proof.
  unfold file_data, path_inode, holds.
  destruct (find_path path (fs_inodes s)) as [n|] eqn:F; [|discriminate].
  destruct (nth_error (fs_inodes s) n) as [i|] eqn:I; [|discriminate].
  simpl. intros H; injection H as <-. eauto.
Qed.

Lemma file_data_none s path :
  file_data s path = None -> path_inode s path = None.
Proof.
  unfold file_data. destruct (path_inode s path); [discriminate|auto].
Qed.

(** Updating an inode other than through its data and path. *)
Lemma holds_update s path n d m x y :
  holds s path n d ->
  nth_error (fs_inodes s) m = Some y ->
  i_path x = i_path y -> (m = n -> i_data x = d) ->
  holds (set_inodes s (update (fs_inodes s) m x)) path n d.
Proof.
  intros [Hf (i & Hi & Hd)] Hy Hp Hx. split; simpl.
  - erewrite find_path_update by eauto. exact Hf.
  - destruct (Nat.eq_dec m n) as [->|Ne].
    + exists x. erewrite nth_error_update_same by eauto. auto.
    + exists i. rewrite nth_error_update_other; auto.
Qed.

Lemma holds_set_fds s path n d l :
  holds s path n d -> holds (set_fds s l) path n d.
Proof. exact (fun H => H). Qed.

Lemma holds_new_inode s path n d x :
  holds s path n d -> holds (set_inodes s (fs_inodes s ++ [x])) path n d.
Proof.
  intros [Hf (i & Hi & Hd)]. split; simpl.
  - apply find_path_app; auto.
  - exists i. split; auto. apply nth_error_app_old; auto.
Qed.

Lemma fd_inode_some s fd o i :
  fd_inode s fd = Some (o, i) ->
  fd_lookup s fd = Some o /\ nth_error (fs_inodes s) (o_ino o) = Some i.
Proof.
  unfold fd_inode. destruct (fd_lookup s fd) as [o'|]; [|discriminate].
  destruct (nth_error (fs_inodes s) (o_ino o')) as [i'|] eqn:I;
    [|discriminate].
  intros H; injection H as <- <-. auto.
Qed.

Lemma posix_open_keeps s path flags mode r s' p n d :
  has_flag flags O_TRUNC = false ->
  posix_open s path flags mode = (r, s') ->
  holds s p n d -> holds s' p n d.
Proof.
  intros T E H. unfold posix_open in E. rewrite T in E.
  rewrite andb_false_r in E. unfold new_fd in E.
  destruct (path_inode s path) as [[m i]|].
  - destruct (has_flag flags O_CREAT && has_flag flags O_EXCL);
      [injection E as <- <-; auto|].
    destruct (has_flag flags O_WRONLY && immutable i);
      injection E as <- <-; auto.
  - destruct (has_flag flags O_CREAT); injection E as <- <-; auto.
    apply holds_set_fds. apply holds_new_inode. auto.
Qed.

Lemma posix_keeps_data c s r s' p n d :
  keeps_data c = true -> posix s c = (r, s') ->
  holds s p n d -> holds s' p n d.
Proof.
  intros K E H. destruct c; simpl in K, E; try discriminate K;
    try (injection E as <- <-; exact H).
  - (* Open *)
    apply negb_true_iff in K. eapply posix_open_keeps; eauto.
  - (* Close *)
    unfold posix_close in E. destruct (fd_lookup s fd);
      injection E as <- <-; auto.
  - (* Read *)
    unfold posix_read in E. destruct (fd_inode s fd) as [[o i]|];
      [destruct (o_write o)|]; injection E as <- <-; auto.
  - (* ReadFile *)
    unfold posix_read_file in E. destruct (fd_inode s fd) as [[o i]|];
      [destruct (o_write o)|]; injection E as <- <-; auto.
  - (* Fstat *)
    unfold posix_fstat in E. destruct (fd_inode s fd) as [[o i]|];
      injection E as <- <-; auto.
  - (* Stat *)
    unfold posix_stat in E. destruct (path_inode s path) as [[m i]|];
      injection E as <- <-; auto.
  - (* IoctlGetFlags *)
    unfold posix_getflags in E. destruct (fd_inode s fd) as [[o i]|];
      [destruct (fs_has_flags s)|]; injection E as <- <-; auto.
  - (* IoctlSetFlags *)
    unfold posix_setflags in E.
    destruct (fd_inode s fd) as [[o i]|] eqn:F;
      [destruct (fs_has_flags s)|]; injection E as <- <-; auto.
    apply fd_inode_some in F. destruct F as [_ Hi].
    eapply holds_update; eauto. simpl. intros Hm. rewrite Hm in Hi.
    destruct H as [_ (j & Hj & Hd)]. congruence.
  - (* Chmod *)
    unfold posix_chmod, path_inode in E.
    destruct (find_path path (fs_inodes s)) as [m|];
      [|injection E as <- <-; auto].
    destruct (nth_error (fs_inodes s) m) as [i|] eqn:Hi;
      [|injection E as <- <-; auto].
    destruct (immutable i); injection E as <- <-; auto.
    eapply holds_update; eauto. simpl. intros ->.
    destruct H as [_ (j & Hj & Hd)]. congruence.
  - (* Fopen *)
    unfold posix_fopen in E. rewrite K in E.
    destruct (posix_open s path O_RDONLY 438) as [r0 s0] eqn:O.
    assert (holds s0 p n d)
      by (eapply posix_open_keeps with (flags := O_RDONLY);
          [reflexivity | exact O | exact H]).
    destruct (rv r0 <? 0); injection E as <- <-; auto.
  - (* Fread *)
    unfold posix_fread, posix_read in E.
    destruct (fd_inode s (stream - 1)) as [[o i]|];
      [destruct (o_write o)|]; simpl in E;
      try (injection E as <- <-; auto).
    destruct (_ <? 0); injection E as <- <-; auto.
  - (* Fclose *)
    unfold posix_close in E. destruct (fd_lookup s (stream - 1));
      injection E as <- <-; auto.
Qed.

Lemma posix_keeps_fds c s r s' :
  keeps_fds c = true -> posix s c = (r, s') -> fs_fds s' = fs_fds s.
Proof.
  intros K E. destruct c; simpl in K, E; try discriminate K;
    try (injection E as <- <-; reflexivity).
  - unfold posix_fstat in E. destruct (fd_inode s fd) as [[o i]|];
      injection E as <- <-; auto.
  - unfold posix_stat in E. destruct (path_inode s path) as [[m i]|];
      injection E as <- <-; auto.
  - unfold posix_getflags in E. destruct (fd_inode s fd) as [[o i]|];
      [destruct (fs_has_flags s)|]; injection E as <- <-; auto.
  - unfold posix_setflags in E. destruct (fd_inode s fd) as [[o i]|];
      [destruct (fs_has_flags s)|]; injection E as <- <-; auto.
  - unfold posix_unlink in E. destruct (path_inode s path) as [[m i]|];
      [destruct (immutable i)|]; injection E as <- <-; auto.
  - unfold posix_chmod in E. destruct (path_inode s path) as [[m i]|];
      [destruct (immutable i)|]; injection E as <- <-; auto.
Qed.

Lemma path_inode_none s path :
  path_inode s path = None -> find_path path (fs_inodes s) = None.
Proof.
  unfold path_inode.
  destruct (find_path path (fs_inodes s)) as [n|] eqn:F; auto.
  destruct (find_path_nth _ _ _ F) as (i & Hi & _). rewrite Hi. discriminate.
Qed.

Lemma holds_path_inode s path n d :
  holds s path n d ->
  exists i, path_inode s path = Some (n, i) /\ i_data i = d.
Proof.
  intros [Hf (i & Hi & Hd)]. exists i. unfold path_inode.
  rewrite Hf, Hi. auto.
Qed.

Lemma fd_lookup_new_fd s l o :
  fd_lookup (set_fds s (l ++ [Some o])) (Z.of_nat (List.length l)) = Some o.
Proof.
  unfold fd_lookup. simpl.
  destruct (Z.of_nat (List.length l) <? 0) eqn:N.
  - apply Z.ltb_lt in N. lia.
  - rewrite Nat2Z.id, nth_error_snoc. reflexivity.
Qed.

Lemma fd_lookup_fds s s' fd :
  fs_fds s' = fs_fds s -> fd_lookup s' fd = fd_lookup s fd.
Proof. unfold fd_lookup. intros ->. reflexivity. Qed.

Lemma writes_to_fds s s' fd n app :
  fs_fds s' = fs_fds s -> writes_to s fd n app -> writes_to s' fd n app.
Proof.
  intros E (o & H). exists o. rewrite (fd_lookup_fds _ _ _ E). exact H.
Qed.

Lemma reads_from_fds s s' fd n pos :
  fs_fds s' = fs_fds s -> reads_from s fd n pos -> reads_from s' fd n pos.
Proof.
  intros E (o & H). exists o. rewrite (fd_lookup_fds _ _ _ E). exact H.
Qed.

(** Opening a path that names no file, with [O_CREAT]. *)
Lemma posix_open_creates s path flags mode r s' :
  path_inode s path = None -> has_flag flags O_CREAT = true ->
  posix_open s path flags mode = (r, s') ->
  rv r = Z.of_nat (List.length (fs_fds s)) /\
  holds s' path (List.length (fs_inodes s)) [] /\
  (has_flag flags O_WRONLY = true ->
   writes_to s' (rv r) (List.length (fs_inodes s)) (has_flag flags O_APPEND)).
Proof.
  intros Hn Hc E. unfold posix_open in E. rewrite Hn, Hc in E.
  unfold new_fd in E. injection E as <- <-. simpl.
  split; [reflexivity|]. split.
  - split; simpl.
    + apply find_path_app_new.
      * apply path_inode_none; auto.
      * unfold is_path. simpl. apply String.eqb_refl.
    + eexists. rewrite nth_error_snoc. split; reflexivity.
  - intros Hw. eexists. rewrite fd_lookup_new_fd. rewrite Hw.
    repeat split; reflexivity.
Qed.

Lemma posix_open_absent s path flags mode :
  path_inode s path = None -> has_flag flags O_CREAT = false ->
  posix_open s path flags mode = (fail ENOENT, s).
Proof.
  intros Hn Hc. unfold posix_open. rewrite Hn, Hc. reflexivity.
Qed.

(** Opening a path that names a file, without [O_CREAT] or [O_TRUNC]. *)
Lemma posix_open_existing s path flags mode r s' n d :
  holds s path n d ->
  has_flag flags O_CREAT = false -> has_flag flags O_TRUNC = false ->
  posix_open s path flags mode = (r, s') ->
  rv r = -1 /\ has_flag flags O_WRONLY = true \/
  rv r = Z.of_nat (List.length (fs_fds s)) /\
  fs_inodes s' = fs_inodes s /\
  fd_lookup s' (rv r)
    = Some (Ofd n 0 (has_flag flags O_WRONLY) (has_flag flags O_APPEND)).
Proof.
  intros H Hc Ht E. destruct (holds_path_inode _ _ _ _ H) as (i & Hi & _).
  unfold posix_open in E. rewrite Hi, Hc, Ht in E.
  rewrite andb_false_r in E. simpl in E.
  destruct (has_flag flags O_WRONLY) eqn:W; simpl in E.
  - destruct (immutable i).
    + injection E as <- <-. left. auto.
    + unfold new_fd in E. injection E as <- <-. right. simpl.
      rewrite fd_lookup_new_fd. auto.
  - unfold new_fd in E. injection E as <- <-. right. simpl.
    rewrite fd_lookup_new_fd. auto.
Qed.

Lemma resize_length_same (l : list byte) : resize (List.length l) l = l.
Proof. induction l; simpl; congruence. Qed.

Lemma overwrite_append d bs : overwrite d (List.length d) bs = d ++ bs.
Proof.
  unfold overwrite. rewrite resize_length_same.
  rewrite skipn_all2 by lia. rewrite app_nil_r. reflexivity.
Qed.

Lemma overwrite_start d bs :
  (List.length d <= List.length bs)%nat -> overwrite d 0 bs = bs.
Proof.
  intros H. unfold overwrite. simpl.
  rewrite skipn_all2 by lia. apply app_nil_r.
Qed.

Lemma fd_lookup_set_pos s fd o pos :
  fd_lookup s fd = Some o ->
  fd_lookup (set_pos s fd o pos) fd
    = Some (Ofd (o_ino o) pos (o_write o) (o_append o)).
Proof.
  unfold fd_lookup, set_pos. simpl.
  destruct (fd <? 0); [discriminate|].
  destruct (nth_error (fs_fds s) (Z.to_nat fd)) as [[o'|]|] eqn:N;
    try discriminate.
  intros _. erewrite nth_error_update_same by eauto. reflexivity.
Qed.

(** A [write] through a descriptor opened on the file of [path]. *)
Lemma posix_write_spec s fd buf count r s' path n d app :
  holds s path n d -> writes_to s fd n app ->
  posix_write s fd buf count = (r, s') ->
  rv r = -1 \/
  rv r <> -1 /\
  holds s' path n
    (overwrite d (if app then List.length d else O)
       (firstn (Z.to_nat count) buf)).
Proof.
  intros H (o & Ho & Hn & Hw & Ha & Hp) E.
  destruct H as [Hf (i & Hi & Hd)]. subst n app d.
  unfold posix_write, fd_inode in E. rewrite Ho, Hi, Hw in E.
  simpl in E. destruct (immutable i).
  - injection E as <- <-. left. reflexivity.
  - injection E as <- <-. right. split.
    + simpl. lia.
    + rewrite Hp. split; simpl.
      * erewrite find_path_update; [exact Hf | exact Hi | reflexivity].
      * eexists. rewrite (nth_error_update_same _ _ _ _ i Hi).
        split; reflexivity.
Qed.

Lemma posix_read_spec s fd count r s' path n d pos :
  holds s path n d -> reads_from s fd n pos ->
  posix_read s fd count = (r, s') ->
  let got := firstn (Z.to_nat count) (skipn pos d) in
  r = Reply (Z.of_nat (List.length got)) None got 0 0 0 0 /\
  holds s' path n d /\
  reads_from s' fd n (pos + List.length got).
Proof.
  intros H (o & Ho & Hn & Hw & Hp) E got.
  destruct H as [Hf (i & Hi & Hd)]. subst n pos d.
  unfold posix_read, fd_inode in E. rewrite Ho, Hi, Hw in E.
  fold got in E. injection E as <- <-.
  split; [reflexivity|]. split.
  - split; simpl; eauto.
  - eexists. rewrite (fd_lookup_set_pos _ _ _ _ Ho). simpl. auto.
Qed.

Lemma posix_read_file_spec s fd r s' path n d pos :
  holds s path n d -> reads_from s fd n pos ->
  posix_read_file s fd = (r, s') ->
  r = Reply 0 None (skipn pos d ++ [x00]) 0 0 0 0 /\ holds s' path n d.
Proof.
  intros H (o & Ho & Hn & Hw & Hp) E.
  destruct H as [Hf (i & Hi & Hd)]. subst n pos d.
  unfold posix_read_file, fd_inode in E. rewrite Ho, Hi, Hw in E.
  injection E as <- <-.
  split; [reflexivity|]. split; simpl; eauto.
Qed.

(** ** Stepping on [posix] *)

Ltac absurd_branch :=
  try (exfalso; unfold strlen in *; cbn [rv ok fail] in *; boolfacts; lia).

(** One call whose reply does not depend on the files. *)
Ltac px_plain :=
  lazymatch goal with
  | |- wp _ (bind (sys _) _) _ _ _ => apply wp_bind_sys
  | |- wp _ (sys _) _ _ _ => apply wp_sys
  end;
  let r := fresh "r" in
  let s' := fresh "s" in
  let E := fresh "E" in
  intros r s' E; cbn [posix] in E; injection E as <- <-;
  cbn [new_errno r_errno ok rv].

(** One call that keeps the files: the facts about them carry over. *)
Ltac px_keep :=
  lazymatch goal with
  | |- wp _ (bind (sys _) _) _ _ _ => apply wp_bind_sys
  | |- wp _ (sys _) _ _ _ => apply wp_sys
  end;
  let r := fresh "r" in
  let s' := fresh "s" in
  let E := fresh "E" in
  intros r s' E;
  repeat match goal with
  | H : holds ?s _ _ _ |- _ =>
      lazymatch type of E with
      | posix s ?c = _ =>
          apply (posix_keeps_data c _ _ _ _ _ _ eq_refl E) in H
      end
  end.

Ltac px_branch :=
  cbv beta iota zeta;
  cbn [negb andb orb l_ret l_rfd l_wfd l_restore_immutable_fd l_orig_attrs
       g_ret g_attributes g_data g_data_size fst snd rv ok fail
       r_data r_flags r_dev r_ino r_errno new_errno];
  lazymatch goal with
  | |- wp _ (bind (bind _ _) _) _ _ _ => apply wp_bind_assoc
  | |- wp _ (bind (efi_error _) _) _ _ _ => apply wp_bind_log
  | |- wp _ (bind get_errno _) _ _ _ => apply wp_bind_get_errno
  | |- wp _ (bind (set_errno _) _) _ _ _ => apply wp_bind_set_errno
  | |- wp _ (bind (Ret _) _) _ _ _ => apply wp_bind_ret
  | |- wp _ (bind (when _ _) _) _ _ _ => unfold when at 1
  | |- wp _ (bind (if ?b then _ else _) _) _ _ _ =>
      split_atom b; absurd_branch
  | |- wp _ (if ?b then _ else _) _ _ _ => split_atom b; absurd_branch
  end.

Lemma store_word (hdr : list byte) :
  List.length hdr = 4%nat ->
  store_bytes hdr (encode_u32 0) = hdr.
Proof.
  intros H. do 5 (destruct hdr as [|? hdr]; try discriminate H).
  reflexivity.
Qed.

(** What [get] hands back from a file holding a 4-byte word and a
    payload. *)
Lemma get_reads_file root guid name e s n hdr payload :
  holds s (var_path root guid name) n (hdr ++ payload) ->
  List.length hdr = 4%nat ->
  let res := run posix (efivarfs_get_variable root guid name) e s in
  res_out res =
    Returned (GetOut 0 (decode_le hdr) (payload ++ [x00])
                (size_t (Z.of_nat (List.length (payload ++ [x00])) - 1))) /\
  holds (res_env res) (var_path root guid name) n (hdr ++ payload).
Proof.
  intros H Hh res. wp_start res.
  unfold efivarfs_get_variable, make_efivarfs_path, get_cleanup, read_file,
    free.
  px_plain. repeat px_branch. px_plain. repeat px_branch.
  (* open *)
  apply wp_bind_sys; intros r s0 E. cbn [posix] in E.
  destruct (posix_open_existing _ _ O_RDONLY _ _ _ _ _ H eq_refl eq_refl E)
    as [[_ W] | (Hr & Hi & Hfd)]; [discriminate W|].
  assert (H0 : holds s0 (var_path root guid name) n (hdr ++ payload))
    by (eapply posix_open_keeps; [| exact E | exact H]; reflexivity).
  assert (R0 : reads_from s0 (rv r) n 0) by (eexists; eauto).
  clear E Hfd Hi H. repeat px_branch.
  (* usleep *)
  apply wp_bind_sys; intros r1 s1 E. cbn [posix] in E.
  injection E as <- <-.
  repeat px_branch.
  (* read *)
  apply wp_bind_sys; intros r2 s2 E. cbn [posix] in E.
  destruct (posix_read_spec _ _ _ _ _ _ _ _ _ H0 R0 E) as (-> & H2 & R2).
  clear E. cbn [skipn] in *. unfold sizeof_attributes in *.
  rewrite firstn_app, Hh in *. cbn [Nat.sub firstn Z.to_nat] in *.
  replace (Z.to_nat 4) with 4%nat in * by reflexivity.
  rewrite <- Hh, firstn_all, Nat.sub_diag in *. cbn [firstn] in *.
  rewrite app_nil_r in *.
  repeat px_branch.
  (* usleep *)
  apply wp_bind_sys; intros r3 s3 E. cbn [posix] in E.
  injection E as <- <-.
  repeat px_branch.
  (* read_file *)
  apply wp_bind_sys; intros r4 s4 E. cbn [posix] in E.
  destruct (posix_read_file_spec _ _ _ _ _ _ _ _ H2 R2 E) as (-> & H4).
  clear E.
  rewrite Nat.add_0_l, skipn_app, skipn_all, Nat.sub_diag in *.
  cbn [skipn app] in *.
  repeat px_branch.
  (* close, free *)
  px_keep. repeat px_branch. px_keep. repeat px_branch.
  wp_leaf. wp_finish. split; [|assumption].
  rewrite Nat2Z.id, firstn_all.
  rewrite store_word by assumption. reflexivity.
Qed.

Lemma wp_bind_known S A B (h : handler S) (p : prog A) (f : A -> prog B)
  e s (Q : result S B -> Prop) a :
  res_out (run h p e s) = Returned a ->
  wp h (f a) (res_errno (run h p e s)) (res_env (run h p e s))
     (fun r' => Q (after (res_trace (run h p e s)) r')) ->
  wp h (bind p f) e s Q.
Proof.
  intros Ho H. apply wp_bind. unfold wp at 1. rewrite Ho. exact H.
Qed.

Lemma resize_length n l : List.length (resize n l) = n.
Proof.
  revert l. induction n as [|n IH]; intros l; simpl; auto.
  destruct l; simpl; rewrite IH; reflexivity.
Qed.

Lemma resize_firstn n (l l' : list byte) :
  (n <= List.length l)%nat -> resize n (l ++ l') = firstn n l.
Proof.
  revert l. induction n as [|n IH]; intros l H; simpl; auto.
  destruct l as [|b l]; simpl in *; [lia|].
  rewrite IH by lia. reflexivity.
Qed.

Lemma resize_app n (l l' : list byte) :
  (List.length l <= n)%nat ->
  resize n (l ++ l') = l ++ resize (n - List.length l) l'.
Proof.
  revert n. induction l as [|b l IH]; intros n H; simpl.
  - rewrite Nat.sub_0_r. reflexivity.
  - destruct n as [|n]; simpl in *; [lia|].
    rewrite IH by lia. reflexivity.
Qed.

Lemma store_bytes_full (copied old : list byte) :
  List.length copied = List.length old -> store_bytes copied old = copied.
Proof.
  intros H. unfold store_bytes. rewrite <- H, firstn_all, H.
  rewrite skipn_all. apply app_nil_r.
Qed.

Lemma size_t_small z : 0 <= z <= SIZE_MAX -> size_t z = z.
Proof.
  intros H. unfold size_t, SIZE_MAX in *. apply Z.mod_small. lia.
Qed.

Lemma same_config_refl s : same_config s s.
Proof. repeat split. Qed.

Lemma posix_open_config s path flags mode r s' :
  posix_open s path flags mode = (r, s') -> same_config s s'.
Proof.
  unfold posix_open, new_fd. intros E.
  destruct (path_inode s path) as [[m i]|].
  - destruct (_ && _); [injection E as <- <-; apply same_config_refl|].
    destruct (_ && _); [injection E as <- <-; apply same_config_refl|].
    destruct (_ && _); injection E as <- <-; repeat split.
  - destruct (has_flag flags O_CREAT); injection E as <- <-; repeat split.
Qed.

Lemma posix_read_config s fd count r s' :
  posix_read s fd count = (r, s') -> same_config s s'.
Proof.
  unfold posix_read. intros E.
  destruct (fd_inode s fd) as [[o i]|]; [destruct (o_write o)|];
    injection E as <- <-; repeat split.
Qed.

Lemma posix_write_config s fd buf count r s' :
  posix_write s fd buf count = (r, s') -> same_config s s'.
Proof.
  unfold posix_write. intros E.
  destruct (fd_inode s fd) as [[o i]|];
    [destruct (negb (o_write o)); [|destruct (immutable i)]|];
    injection E as <- <-; repeat split.
Qed.

Lemma posix_close_config s fd r s' :
  posix_close s fd = (r, s') -> same_config s s'.
Proof.
  unfold posix_close. intros E.
  destruct (fd_lookup s fd); injection E as <- <-; repeat split.
Qed.

Lemma posix_config c s r s' : posix s c = (r, s') -> same_config s s'.
Proof.
  intros E. destruct c; simpl in E;
    try (injection E as <- <-; apply same_config_refl).
  - eapply posix_open_config; eauto.
  - eapply posix_close_config; eauto.
  - eapply posix_read_config; eauto.
  - unfold posix_read_file in E.
    destruct (fd_inode s fd) as [[o i]|]; [destruct (o_write o)|];
      injection E as <- <-; repeat split.
  - eapply posix_write_config; eauto.
  - unfold posix_fstat in E. destruct (fd_inode s fd) as [[o i]|];
      injection E as <- <-; repeat split.
  - unfold posix_stat in E. destruct (path_inode s path) as [[m i]|];
      injection E as <- <-; repeat split.
  - unfold posix_getflags in E. destruct (fd_inode s fd) as [[o i]|];
      [destruct (fs_has_flags s)|]; injection E as <- <-; repeat split.
  - unfold posix_setflags in E. destruct (fd_inode s fd) as [[o i]|];
      [destruct (fs_has_flags s)|]; injection E as <- <-; repeat split.
  - unfold posix_unlink in E. destruct (path_inode s path) as [[m i]|];
      [destruct (immutable i)|]; injection E as <- <-; repeat split.
  - unfold posix_chmod in E. destruct (path_inode s path) as [[m i]|];
      [destruct (immutable i)|]; injection E as <- <-; repeat split.
  - unfold posix_fopen in E.
    destruct (posix_open s path _ 438) as [r0 s0] eqn:O.
    apply posix_open_config in O.
    destruct (rv r0 <? 0); injection E as <- <-; exact O.
  - unfold posix_fread in E.
    destruct (posix_read s (stream - 1) count) as [r0 s0] eqn:O.
    apply posix_read_config in O.
    destruct (rv r0 <? 0); injection E as <- <-; exact O.
  - unfold posix_fwrite in E.
    destruct (posix_write s (stream - 1) buf _) as [r0 s0] eqn:O.
    apply posix_write_config in O.
    destruct (rv r0 <? 0); injection E as <- <-; exact O.
  - eapply posix_close_config; eauto.
Qed.

Lemma run_config A (p : prog A) e s :
  same_config s (res_env (run posix p e s)).
Proof.
  revert e s.
  induction p as [a | c k IH | msg k IH | k IH | e' k IH | code | ];
    intros e s; simpl; try apply same_config_refl; auto.
  destruct (posix s c) as [r s'] eqn:E. simpl.
  apply posix_config in E. specialize (IH r (new_errno e r) s').
  unfold same_config in *. intuition congruence.
Qed.

Lemma resize_terminated (bs tail : list byte) n :
  (List.length bs < n)%nat ->
  existsb (Byte.eqb x00) (resize n (bs ++ x00 :: tail)) = true.
Proof.
  revert n. induction bs as [|b bs IH]; intros n Hlen.
  - destruct n; [simpl in Hlen; lia|]. reflexivity.
  - destruct n; [simpl in Hlen; lia|].
    cbn [app resize existsb]. rewrite IH by (simpl in Hlen; lia).
    apply orb_true_r.
Qed.

(** The name is read inside the array when the array holds a NUL. *)
Lemma read_cstring_terminated S (h : handler S) buf e s :
  existsb (Byte.eqb x00) buf = true ->
  run h (read_cstring buf) e s = Result (Returned (cstring buf)) e s [].
Proof. intros H. unfold read_cstring. rewrite H. reflexivity. Qed.

Lemma cstring_resize_pad (bs tail : list byte) n :
  (List.length bs < n)%nat ->
  cstring (resize n (bs ++ x00 :: tail)) = cstring bs.
Proof.
  revert n. induction bs as [|b bs IH]; intros n Hlen.
  - destruct n; [simpl in Hlen; lia|]. reflexivity.
  - destruct n; [simpl in Hlen; lia|].
    cbn [app resize cstring].
    destruct (Byte.eqb b x00); [reflexivity|].
    rewrite IH by (simpl in Hlen; lia). reflexivity.
Qed.

Lemma cstring_without_nul (bs : list byte) :
  existsb (Byte.eqb x00) bs = false -> cstring bs = bs.
Proof.
  induction bs as [|b bs IH]; [reflexivity|].
  cbn [existsb cstring]. intros H. apply orb_false_elim in H as [Hb Hbs].
  destruct (Byte.eqb b x00) eqn:E.
  - apply Byte.byte_dec_bl in E. subst b. discriminate Hb.
  - rewrite IH by exact Hbs. reflexivity.
Qed.

(** C10: get_esp_filename, reading the reserved variable whose payload fits
    the buffer of [sz] bytes, copies exactly [sz] bytes: the payload, then
    its terminator and what lies beyond it in memory when the payload is
    shorter than [sz] (a read past the end of the object is recorded as
    soon as more than the terminator is needed); the copy is the payload
    itself when its length is [sz].  The name then read from the array is,
    for a payload shorter than [sz], the payload up to its first NUL, read
    inside the array (the payload itself when it holds no NUL); for a
    payload of [sz] bytes without a NUL the array is unterminated, the read
    runs past its end, and the name is the payload followed by what lies
    there up to the first NUL. *)
Theorem esp_filename_copies_sz_bytes root e s n hdr payload filename sz :
  holds s (var_path root GUID_FILE_STORE_VARS NAME_RTSV) n (hdr ++ payload) ->
  List.length hdr = 4%nat ->
  Z.of_nat (List.length payload) <= sz <= SIZE_MAX - 1 ->
  List.length filename = Z.to_nat sz ->
  let res := run posix (get_esp_filename root filename sz) e s in
  let len := List.length payload in
  exists copied,
    res_out res = Returned (0, copied) /\
    List.length copied = Z.to_nat sz /\
    copied = resize (Z.to_nat sz) (payload ++ x00 :: fs_beyond s) /\
    (Z.of_nat len < sz ->
     copied = payload ++ resize (Z.to_nat sz - len) (x00 :: fs_beyond s) /\
     (Z.of_nat len + 1 < sz ->
      In (OobRead (sz - (Z.of_nat len + 1))) (map fst (res_trace res)))) /\
    (Z.of_nat len = sz -> copied = payload) /\
    let name := run posix (read_cstring copied) (res_errno res) (res_env res) in
    (Z.of_nat len < sz ->
     res_out name = Returned (cstring payload) /\ res_trace name = []) /\
    (existsb (Byte.eqb x00) payload = false ->
     (Z.of_nat len < sz -> res_out name = Returned payload) /\
     (Z.of_nat len = sz ->
      res_out name = Returned (payload ++ cstring (fs_beyond s)) /\
      map fst (res_trace name) = [OobRead 1])).
Proof.
  intros H Hh Hsz Hf res len.
  destruct (get_reads_file root GUID_FILE_STORE_VARS NAME_RTSV e s n hdr
              payload H Hh) as [Hout Hs].
  pose proof (run_config _ (efivarfs_get_variable root GUID_FILE_STORE_VARS
                              NAME_RTSV) e s) as (_ & _ & _ & Hbeyond).
  remember (run posix
              (efivarfs_get_variable root GUID_FILE_STORE_VARS NAME_RTSV) e s)
    as g eqn:Hg.
  assert (Hlen : size_t (Z.of_nat (List.length (payload ++ [x00])) - 1)
                 = Z.of_nat len).
  { rewrite length_app. simpl. fold len.
    replace (Z.of_nat (len + 1) - 1) with (Z.of_nat len) by lia.
    apply size_t_small. lia. }
  rewrite Hlen in Hout.
  exists (resize (Z.to_nat sz) (payload ++ x00 :: fs_beyond s)).
  assert (Hrun :
    res_out res
      = Returned (0, resize (Z.to_nat sz) (payload ++ x00 :: fs_beyond s)) /\
    (Z.of_nat len + 1 < sz ->
     In (OobRead (sz - (Z.of_nat len + 1))) (map fst (res_trace res)))).
  { wp_start res.
    unfold get_esp_filename, efi_get_variable, memcpy_from, free.
    apply wp_bind_assoc.
    eapply wp_bind_known; [rewrite <- Hg; exact Hout|]. rewrite <- Hg.
    repeat px_branch.
    all: rewrite length_app in B0; cbn [List.length] in B0; fold len in B0.
    - (* the object is long enough for the copy *)
      px_plain. repeat px_branch. wp_leaf. wp_finish.
      split; [|intros; boolfacts; lia].
      boolfacts.
      rewrite store_bytes_full
        by (rewrite length_firstn, length_app; cbn [List.length]; lia).
      change (payload ++ x00 :: fs_beyond s)
        with (payload ++ [x00] ++ fs_beyond s).
      rewrite app_assoc, resize_firstn
        by (rewrite length_app; cbn [List.length]; lia).
      reflexivity.
    - (* the copy runs past the object *)
      px_plain. repeat px_branch.
      px_plain. repeat px_branch. wp_leaf. wp_finish.
      cbn [r_data]. rewrite Hbeyond.
      boolfacts. rewrite !length_app. cbn [List.length]. fold len.
      split.
      + rewrite store_bytes_full
          by (rewrite length_app, length_app, resize_length;
              cbn [List.length]; lia).
        change (payload ++ x00 :: fs_beyond s)
          with (payload ++ [x00] ++ fs_beyond s).
        rewrite app_assoc, resize_app
          by (rewrite length_app; cbn [List.length]; lia).
        rewrite length_app. cbn [List.length]. fold len.
        do 3 f_equal. f_equal. lia.
      + intros _. rewrite map_app. apply in_or_app. right.
        left. cbn [fst]. f_equal. lia. }
  destruct Hrun as [Hres Hoob].
  split; [exact Hres|]. split; [apply resize_length|].
  split; [reflexivity|].
  assert (Hfull : Z.of_nat len = sz ->
                  resize (Z.to_nat sz) (payload ++ x00 :: fs_beyond s)
                  = payload).
  { intros Heq. rewrite resize_firstn by lia.
    rewrite firstn_all2 by lia. reflexivity. }
  split; [|split; [exact Hfull|]].
  { intros Hlt. split; [|exact Hoob]. apply resize_app. lia. }
  assert (Hin : Z.of_nat len < sz ->
    run posix
      (read_cstring (resize (Z.to_nat sz) (payload ++ x00 :: fs_beyond s)))
      (res_errno res) (res_env res)
    = Result (Returned (cstring payload)) (res_errno res) (res_env res) []).
  { intros Hlt. rewrite read_cstring_terminated
      by (apply resize_terminated; fold len; lia).
    rewrite cstring_resize_pad by (fold len; lia). reflexivity. }
  cbv zeta. split.
  - intros Hlt. rewrite (Hin Hlt). split; reflexivity.
  - intros Hnul. split.
    + intros Hlt. rewrite (Hin Hlt), cstring_without_nul by exact Hnul.
      reflexivity.
    + intros Heq. rewrite (Hfull Heq). unfold read_cstring. rewrite Hnul.
      pose proof (run_config _
                    (get_esp_filename root filename sz) e s)
        as (_ & _ & _ & Hb).
      fold res in Hb.
      cbn [bind sys run posix traced new_errno r_errno r_data res_out
           res_trace map fst].
      rewrite Hb. split; reflexivity.
Qed.

(** ** PersistenceSync leaves the other files alone *)

Lemma issues_only_weaken A (P Q : syscall -> bool) (p : prog A) :
  (forall c, P c = true -> Q c = true) ->
  issues_only P p -> issues_only Q p.
Proof.
  intros PQ.
  induction p as [a | c k IH | msg k IH | k IH | e' k IH | code | ];
    simpl; auto.
  - intros [Hc Hk]. split; auto.
  - intros [Hc Hk]. split; auto.
Qed.

Lemma run_keeps_data A (p : prog A) path n d :
  issues_only keeps_data p ->
  forall e s, holds s path n d -> holds (res_env (run posix p e s)) path n d.
Proof.
  induction p as [a | c k IH | msg k IH | k IH | e' k IH | code | ];
    simpl; intros Hp e s H; auto.
  - destruct Hp as [Hc Hk]. destruct (posix s c) as [r s'] eqn:E. simpl.
    apply IH; auto. eapply posix_keeps_data; eauto.
  - destruct Hp as [_ Hk]. simpl. apply IH; auto.
Qed.

Lemma reader_keeps_data c : reader_call c = true -> keeps_data c = true.
Proof.
  destruct c; simpl; try discriminate; auto.
  intros H. apply Z.eqb_eq in H. subst. reflexivity.
Qed.

Lemma esp_filename_reads root filename sz :
  issues_only reader_call (get_esp_filename root filename sz).
Proof.
  unfold get_esp_filename, efi_get_variable, efivarfs_get_variable,
    get_cleanup.
  issues.
Qed.

Lemma esp_filepath_reads paths filename sz :
  issues_only reader_call (get_esp_filepath_from paths filename sz).
Proof.
  induction paths as [|p paths IH]; simpl; auto.
  destruct (_ >=? _); simpl; auto.
  split; auto. intros r. destruct (rv r =? 0); simpl; auto.
Qed.

(** A path found on the ESP is one of the mount points followed by the
    file name. *)
Lemma esp_filepath_found paths filename sz e s filepath :
  res_out (run posix (get_esp_filepath_from paths filename sz) e s)
    = Returned (0, filepath) ->
  exists esp, In esp paths /\ filepath = (esp ++ filename)%string.
Proof.
  revert e s. induction paths as [|p paths IH]; intros e s; simpl.
  - intros H. discriminate H.
  - destruct (_ >=? _); unfold fprintf; simpl.
    + intros H. discriminate H.
    + destruct (posix_stat s _) as [r s']. simpl.
      destruct (rv r =? 0); simpl.
      * intros H. injection H as <-. eauto.
      * intros H. destruct (IH _ _ H) as (esp & Hin & ->). eauto.
Qed.

Section Frame.

Variables (path : string) (n : nat) (d : list byte).

Lemma posix_write_elsewhere s fd buf count r s' :
  holds s path n d -> elsewhere n s fd ->
  posix_write s fd buf count = (r, s') ->
  holds s' path n d /\ elsewhere n s' fd.
Proof.
  intros H (o & Ho & Hn) E. unfold posix_write, fd_inode in E.
  rewrite Ho in E.
  destruct (nth_error (fs_inodes s) (o_ino o)) as [i|] eqn:Hi;
    [|injection E as <- <-; split; [auto | exists o; auto]].
  destruct (negb (o_write o));
    [injection E as <- <-; split; [auto | exists o; auto]|].
  destruct (immutable i);
    [injection E as <- <-; split; [auto | exists o; auto]|].
  injection E as <- <-. split.
  - unfold set_pos. apply holds_set_fds.
    eapply holds_update;
      [exact H | exact Hi | reflexivity | intros Heq; contradiction].
  - eexists. rewrite fd_lookup_set_pos.
    + split; [reflexivity | exact Hn].
    + exact Ho.
Qed.

Lemma posix_read_elsewhere s fd fd' count r s' :
  elsewhere n s fd' -> posix_read s fd count = (r, s') -> elsewhere n s' fd'.
Proof.
  intros (o & Ho & Hn) E. unfold posix_read in E.
  destruct (fd_inode s fd) as [[o1 i1]|] eqn:F;
    [|injection E as <- <-; exists o; auto].
  destruct (o_write o1); [injection E as <- <-; exists o; auto|].
  injection E as <- <-.
  apply fd_inode_some in F. destruct F as [F _].
  destruct (Z.eq_dec fd fd') as [->|Ne].
  - rewrite Ho in F. injection F as <-.
    eexists. rewrite fd_lookup_set_pos by exact Ho. split; [reflexivity|auto].
  - exists o. split; [|exact Hn].
    unfold fd_lookup, set_pos in *. simpl.
    destruct (fd' <? 0) eqn:N'; [discriminate|].
    destruct (fd <? 0) eqn:N; [discriminate|].
    rewrite nth_error_update_other; [exact Ho|].
    apply Z.ltb_ge in N, N'. intros Heq. apply Ne.
    apply Z2Nat.inj; auto.
Qed.


Lemma posix_fopen_wb s fp r s' :
  holds s path n d -> fp <> path ->
  posix_fopen s fp "wb" = (r, s') ->
  holds s' path n d /\ (rv r <> 0 -> elsewhere n s' (rv r - 1)).
Proof.
  intros H Hne E. unfold posix_fopen in E.
  change (String.eqb "wb" "rb") with false in E. cbv iota in E.
  destruct (posix_open s fp (Z.lor O_WRONLY (Z.lor O_CREAT O_TRUNC)) 438)
    as [r0 s0] eqn:O.
  assert (Hopen : holds s0 path n d /\
                  ((rv r0 <? 0) = false -> elsewhere n s0 (rv r0))).
  { clear E. unfold posix_open in O.
    change (has_flag (Z.lor O_WRONLY (Z.lor O_CREAT O_TRUNC)) O_WRONLY)
      with true in O.
    change (has_flag (Z.lor O_WRONLY (Z.lor O_CREAT O_TRUNC)) O_CREAT)
      with true in O.
    change (has_flag (Z.lor O_WRONLY (Z.lor O_CREAT O_TRUNC)) O_EXCL)
      with false in O.
    change (has_flag (Z.lor O_WRONLY (Z.lor O_CREAT O_TRUNC)) O_TRUNC)
      with true in O.
    change (has_flag (Z.lor O_WRONLY (Z.lor O_CREAT O_TRUNC)) O_APPEND)
      with false in O.
    cbn [andb] in O. unfold path_inode, new_fd in O.
    destruct (find_path fp (fs_inodes s)) as [m|] eqn:F.
    - destruct (nth_error (fs_inodes s) m) as [i|] eqn:Hi.
      + assert (m <> n).
        { intros ->. destruct H as [Hf _].
          apply Hne. eapply find_path_inj; eauto. }
        destruct (immutable i); injection O as <- <-.
        * split; [exact H | intros N; discriminate N].
        * split.
          -- apply holds_set_fds. eapply holds_update;
               [exact H | exact Hi | reflexivity | intros; contradiction].
          -- intros _. eexists. cbn [rv ok].
             rewrite fd_lookup_new_fd. split; [reflexivity | assumption].
      + destruct (find_path_nth _ _ _ F) as (i & Hi' & _). congruence.
    - injection O as <- <-. split.
      + apply holds_set_fds. apply holds_new_inode. exact H.
      + intros _. eexists. cbn [rv ok].
        rewrite fd_lookup_new_fd. split; [reflexivity|]. cbn [o_ino].
        destruct H as [_ (i & Hi & _)].
        assert (n < List.length (fs_inodes s))%nat
          by (apply nth_error_Some; congruence).
        lia. }
  destruct Hopen as [H0 E0].
  destruct (rv r0 <? 0) eqn:N; injection E as <- <-.
  - split; [exact H0 | intros X; exfalso; apply X; reflexivity].
  - split; [exact H0|]. intros _. cbn [rv ok].
    replace (rv r0 + 1 - 1) with (rv r0) by lia. auto.
Qed.

Lemma posix_fwrite_inv out s buf r s' :
  copy_inv path n d out s -> posix_fwrite s out buf = (r, s') -> copy_inv path n d out s'.
Proof.
  intros [H J] E. unfold posix_fwrite in E.
  destruct (posix_write s (out - 1) buf _) as [r0 s0] eqn:W.
  destruct (posix_write_elsewhere _ _ _ _ _ _ H J W) as [H0 J0].
  destruct (rv r0 <? 0); injection E as <- <-; split; auto.
Qed.

Lemma posix_fread_inv out s v count r s' :
  copy_inv path n d out s -> posix_fread s v count = (r, s') -> copy_inv path n d out s'.
Proof.
  intros [H J] E. split.
  - eapply (posix_keeps_data (Fread v count)); [reflexivity | exact E | exact H].
  - unfold posix_fread in E.
    destruct (posix_read s (v - 1) count) as [r0 s0] eqn:R.
    pose proof (posix_read_elsewhere _ _ _ _ _ _ J R) as J0.
    destruct (rv r0 <? 0); injection E as <- <-; auto.
Qed.

Lemma write_chunk_inv fuel out fp buffer bytes_read total e s :
  copy_inv path n d out s ->
  copy_inv path n d out
    (res_env (run posix (write_chunk fuel out fp buffer bytes_read total)
                e s)).
Proof.
  revert total e s. induction fuel as [|fuel IH]; intros total e s I.
  - simpl. destruct (total <? bytes_read); exact I.
  - cbn [write_chunk]. destruct (total <? bytes_read); [|exact I].
    cbn [bind sys run posix].
    destruct (posix_fwrite s out _) as [r s'] eqn:W.
    pose proof (posix_fwrite_inv _ _ _ _ _ I W) as I'.
    cbn [traced res_env].
    destruct (size_t (rv r) =? 0).
    + exact I'.
    + apply IH. exact I'.
Qed.

Lemma copy_loop_inv fuel v out fp buffer e s :
  copy_inv path n d out s ->
  copy_inv path n d out (res_env (run posix (copy_loop fuel v out fp buffer) e s)).
Proof.
  revert buffer e s. induction fuel as [|fuel IH]; intros buffer e s I.
  - exact I.
  - cbn [copy_loop]. cbn [bind sys run posix].
    destruct (posix_fread s v 1024) as [r s'] eqn:R.
    pose proof (posix_fread_inv _ _ _ _ _ _ I R) as I'.
    cbn [traced res_env].
    destruct (size_t (rv r) >? 0); [|exact I'].
    rewrite run_bind. unfold then_run.
    pose proof (write_chunk_inv (S fuel) out fp
                  (store_bytes (r_data r) buffer) (size_t (rv r)) 0
                  (new_errno e r) s' I') as I2.
    destruct (run posix (write_chunk (S fuel) out fp _ _ 0) _ s')
      as [o e2 s2 tr2].
    cbn [res_out res_env res_errno res_trace] in *.
    destruct o as [[|]| |]; cbn [res_env]; auto.
Qed.

End Frame.

Ltac px_easy := first [ px_plain | px_keep ].

Ltac px_leaf :=
  first [ wp_leaf | idtac ]; wp_finish.

Lemma write_file_keeps root fuel fp e s path n d :
  fp <> path -> holds s path n d ->
  holds (res_env (run posix (write_file root fuel fp) e s)) path n d.
Proof.
  intros Hne H.
  change (wp posix (write_file root fuel fp) e s
            (fun res => holds (res_env res) path n d)).
  unfold write_file, make_efivarfs_path, write_file_cleanup, fprintf, free.
  repeat px_branch. px_plain. repeat px_branch.
  (* fopen(path, "rb") *)
  px_keep. repeat px_branch.
  { (* no source: diagnose, clean up *)
    repeat (first [ px_branch | px_easy ]). unfold nonzero.
    repeat (first [ px_branch | px_easy ]).
    px_leaf. assumption. }
  (* fopen(filepath, "wb") *)
  apply wp_bind_sys; intros o s1 E1. cbn [posix] in E1.
  destruct (posix_fopen_wb path n d _ _ _ _ H Hne E1) as [H1 J1].
  clear E1 H. repeat px_branch.
  { repeat (first [ px_branch | px_easy ]). unfold nonzero.
    repeat (first [ px_branch | px_easy ]).
    all: px_leaf; assumption. }
  assert (I1 : copy_inv path n d (rv o) s1).
  { split; [exact H1|]. apply J1. boolfacts. assumption. }
  clear H1 J1.
  (* fread of the attribute word *)
  apply wp_bind_sys; intros hd s2 E2. cbn [posix] in E2.
  pose proof (posix_fread_inv path n d _ _ _ _ _ _ I1 E2) as I2.
  clear E2 I1. repeat px_branch.
  { destruct I2 as [H2 _].
    repeat (first [ px_branch | px_easy ]). unfold nonzero.
    repeat (first [ px_branch | px_easy ]).
    all: px_leaf; assumption. }
  (* the copy *)
  apply wp_bind. unfold wp at 1.
  match goal with
  | |- context [run posix (copy_loop ?f ?v ?w ?p ?b) ?e' ?s'] =>
      pose proof (copy_loop_inv path n d f v w p b e' s' I2) as [H3 _];
      destruct (run posix (copy_loop f v w p b) e' s') as [out e3 s3 tr3]
  end.
  cbn [res_out res_env res_errno res_trace] in *.
  destruct out as [failed| |]; try assumption.
  repeat (first [ px_branch | px_easy ]). unfold nonzero.
  repeat (first [ px_branch | px_easy ]).
  all: px_leaf; assumption.
Qed.

(** The name is read without a change to the file system. *)
Lemma read_cstring_posix buf e s :
  exists name tr,
    run posix (read_cstring buf) e s = Result (Returned name) e s tr.
Proof.
  unfold read_cstring. destruct (existsb _ buf).
  - do 2 eexists. reflexivity.
  - cbn [bind sys run posix traced new_errno r_errno r_data].
    do 2 eexists. reflexivity.
Qed.

Lemma sync_keeps_file root fuel e s path n d :
  not_under_esp path -> holds s path n d ->
  holds (res_env (run posix (efi_update_var_file root fuel) e s)) path n d.
Proof.
  intros Hesp H. unfold efi_update_var_file.
  rewrite run_bind. unfold then_run.
  pose proof (run_keeps_data _
                (get_esp_filename root (repeat x00 (Z.to_nat (PATH_MAX / 4)))
                   (PATH_MAX / 4)) path n d
                (issues_only_weaken _ _ _ _ reader_keeps_data
                   (esp_filename_reads root _ _)) e s H) as H1.
  destruct (run posix (get_esp_filename root _ _) e s) as [o1 e1 s1 tr1].
  cbn [res_out res_env res_errno res_trace] in *.
  destruct o1 as [[rc filename]| |]; cbn [res_env]; try assumption.
  destruct (rc <? 0); [cbn [run res_env]; assumption|].
  rewrite run_bind. unfold then_run.
  destruct (read_cstring_posix filename e1 s1) as (name & trn & ->).
  cbn [res_out res_env res_errno res_trace].
  rewrite run_bind. unfold then_run, get_esp_filepath.
  pose proof (run_keeps_data _
                (get_esp_filepath_from esp_paths
                   (string_of_bytes name) PATH_MAX) path n d
                (issues_only_weaken _ _ _ _ reader_keeps_data
                   (esp_filepath_reads _ _ _)) e1 s1 H1) as H2.
  pose proof (esp_filepath_found esp_paths
                (string_of_bytes name) PATH_MAX e1 s1) as Hfp.
  destruct (run posix (get_esp_filepath_from esp_paths _ PATH_MAX) e1 s1)
    as [o2 e2 s2 tr2].
  cbn [res_out res_env res_errno res_trace] in *.
  destruct o2 as [[rc' filepath]| |]; cbn [res_env]; try assumption.
  destruct (rc' =? 0) eqn:R.
  - apply Z.eqb_eq in R. subst rc'.
    destruct (Hfp filepath eq_refl) as (esp & Hin & ->).
    apply write_file_keeps; [|assumption].
    intros Heq. symmetry in Heq. revert Heq. apply Hesp. assumption.
  - unfold fprintf. cbn [bind sys run posix traced res_env]. assumption.
Qed.

Lemma encode_u32_length a : List.length (encode_u32 a) = 4%nat.
Proof. reflexivity. Qed.

Ltac set_fails :=
  wp_finish; let X := fresh in intros X; exfalso;
  first [ discriminate X | injection X; intros; lia ].

Lemma cleanup_returns S (h : handler S) path l e s :
  res_out (run h (set_cleanup path l) e s) = Returned (l_ret l).
Proof.
  change (wp h (set_cleanup path l) e s
            (fun res => res_out res = Returned (l_ret l))).
  unfold set_cleanup, free.
  repeat wp_step h. all: wp_leaf; reflexivity.
Qed.

Lemma res_out_traced S A ev (r : result S A) :
  res_out (traced ev r) = res_out r.
Proof. reflexivity. Qed.

Lemma res_out_after S A tr (r : result S A) :
  res_out (after tr r) = res_out r.
Proof. reflexivity. Qed.

Lemma wp_conseq S A (h : handler S) (p : prog A) e s (Q Q' : _ -> Prop) :
  (forall r, Q r -> Q' r) -> wp h p e s Q -> wp h p e s Q'.
Proof. unfold wp. auto. Qed.

Ltac px_open :=
  lazymatch goal with
  | |- wp posix (bind (sys (Open ?p ?fl ?m)) _) _ ?s _ =>
      let r := fresh "r" in
      let s' := fresh "s" in
      let E := fresh "E" in
      apply wp_bind_sys; intros r s' E; cbn [posix] in E;
      lazymatch goal with
      | Habs : path_inode s p = None |- _ =>
          first
            [ rewrite (posix_open_absent s p fl m Habs eq_refl) in E;
              injection E as <- <-
            | let Hr := fresh "Hr" in
              let H := fresh "H" in
              let W := fresh "W" in
              destruct (posix_open_creates s p fl m r s' Habs eq_refl E)
                as (Hr & H & W);
              specialize (W eq_refl);
              let a := eval vm_compute in (has_flag fl O_APPEND) in
              change (has_flag fl O_APPEND) with a in W;
              clear E Habs ]
      | H : holds s p ?n ?d |- _ =>
          let Hr := fresh "Hr" in
          let Hi := fresh "Hi" in
          let Hfd := fresh "Hfd" in
          let H' := fresh "H" in
          let W := fresh "W" in
          pose proof (posix_open_keeps s p fl m r s' p n d eq_refl E H)
            as H';
          destruct (posix_open_existing s p fl m r s' n d H eq_refl eq_refl E)
            as [[Hr W] | (Hr & Hi & Hfd)];
          [ try discriminate W
          | let a := eval vm_compute in (has_flag fl O_APPEND) in
            try (assert (W : writes_to s' (rv r) n a)
                   by (eexists; split; [exact Hfd | repeat split])) ];
          clear E H
      end
  end.

(** ** The attribute word *)

Lemma Z_of_byte_of_Z z : Z_of_byte (byte_of_Z z) = z mod 256.
Proof.
  unfold Z_of_byte, byte_of_Z.
  assert (Hr : 0 <= z mod 256 < 256) by (apply Z.mod_pos_bound; lia).
  destruct (Byte.of_N (Z.to_N (z mod 256))) as [b|] eqn:E.
  - apply Byte.to_of_N in E. rewrite E. apply Z2N.id. lia.
  - apply Byte.of_N_None_iff in E. lia.
Qed.

Lemma decode_encode_u32 a : 0 <= a < 2 ^ 32 -> decode_le (encode_u32 a) = a.
Proof.
  intros H. unfold encode_u32. cbn [decode_le].
  rewrite !Z_of_byte_of_Z, !Z.shiftr_div_pow2 by lia.
  change (2 ^ 8) with 256. change (2 ^ 16) with 65536.
  change (2 ^ 24) with 16777216. change (2 ^ 32) with 4294967296 in H.
  Z.div_mod_to_equations. lia.
Qed.

Lemma set_success_size S (h : handler S) root fuel guid name data data_size
  attributes mode e s :
  res_out (run h (efivarfs_set_variable root fuel guid name data data_size
                    attributes mode) e s) = Returned 0 ->
  data_size <= SIZE_MAX - sizeof_attributes.
Proof.
  unfold efivarfs_set_variable.
  destruct (strlen name >? 1024); [intros X; discriminate X|].
  destruct (data_size >? SIZE_MAX - sizeof_attributes) eqn:D;
    [intros X; discriminate X|].
  intros _. rewrite Z.gtb_ltb in D. apply Z.ltb_ge in D. exact D.
Qed.

(** ** Stepping on [kernel] *)

Lemma kernel_served fl s c r st' :
  kernel (fl, s) c = (r, st') ->
  exists s', st' = (tl fl, s') /\ served s c r s'.
Proof.
  unfold kernel. cbn [fst snd].
  destruct (serve (hd Obliging fl) s c) as [r0 s0] eqn:E.
  intros X. injection X as <- <-. exists s0. split; [reflexivity|].
  unfold serve in E. destruct (hd Obliging fl) as [|k|e0].
  - apply served_whole. exact E.
  - eapply served_short. exact E.
  - destruct (refusable c) eqn:R.
    + injection E as <- <-. eapply served_not; eauto.
    + apply served_whole. exact E.
Qed.

Lemma wp_bind_kernel A c (f : reply -> prog A) e fl s Q :
  (forall r s', served s c r s' ->
     wp kernel (f r) (new_errno e r) (tl fl, s')
        (fun res => Q (traced (c, r) res))) ->
  wp kernel (bind (sys c) f) e (fl, s) Q.
Proof.
  intros H. apply wp_bind_sys. intros r st' E.
  destruct (kernel_served _ _ _ _ _ E) as (s' & -> & Hs).
  apply H. exact Hs.
Qed.

Lemma wp_kernel_sys c e fl s Q :
  (forall r s', served s c r s' ->
     Q (Result (Returned r) (new_errno e r) (tl fl, s') [(c, r)])) ->
  wp kernel (sys c) e (fl, s) Q.
Proof.
  intros H. apply wp_sys. intros r st' E.
  destruct (kernel_served _ _ _ _ _ E) as (s' & -> & Hs).
  apply H. exact Hs.
Qed.

Lemma shorten_keeps_data k c : keeps_data (shorten k c) = keeps_data c.
Proof. destruct c; reflexivity. Qed.

Lemma served_keeps_data c s r s' p n d :
  keeps_data c = true -> served s c r s' ->
  holds s p n d -> holds s' p n d.
Proof.
  intros K [E | k E | e0 _ _ ->] H.
  - eapply posix_keeps_data; eauto.
  - eapply posix_keeps_data; [|exact E|exact H].
    rewrite shorten_keeps_data. exact K.
  - exact H.
Qed.

Lemma served_keeps_fds c s r s' :
  keeps_fds c = true -> served s c r s' -> fs_fds s' = fs_fds s.
Proof.
  intros K [E | k E | e0 _ _ ->].
  - eapply posix_keeps_fds; eauto.
  - eapply posix_keeps_fds; [|exact E].
    destruct c; try discriminate K; exact K.
  - reflexivity.
Qed.

(** A call that cannot be cut is served as by [posix], or refused. *)
Lemma served_uncut c s r s' :
  (forall k, shorten k c = c) -> served s c r s' ->
  posix s c = (r, s') \/
  exists e, refusable c = true /\ r = refusal e c /\ s' = s.
Proof.
  intros U [E | k E | e0 R -> ->].
  - left. exact E.
  - left. rewrite U in E. exact E.
  - right. exists e0. auto.
Qed.

(** A call the kernel cannot refuse or cut is served as by [posix]. *)
Lemma served_calm c s r s' :
  calm c = true -> served s c r s' -> posix s c = (r, s').
Proof.
  unfold calm. intros K [E | k E | e0 R _ _].
  - exact E.
  - destruct c; try discriminate K; exact E.
  - rewrite R in K. discriminate K.
Qed.

(** With an empty schedule the kernel is [posix]. *)
Lemma kernel_quiet_run A (p : prog A) e s :
  run kernel p e ([], s)
  = Result (res_out (run posix p e s)) (res_errno (run posix p e s))
           ([], res_env (run posix p e s)) (res_trace (run posix p e s)).
Proof.
  revert e s.
  induction p as [a | c k IH | msg k IH | k IH | e' k IH | code | ];
    intros e s; cbn [run]; try reflexivity; auto.
  - unfold kernel at 1. cbn [fst snd hd tl serve].
    destruct (posix s c) as [r s']. rewrite IH. reflexivity.
  - rewrite IH. reflexivity.
Qed.

Lemma kernel_run_keeps_data A (p : prog A) path n d :
  issues_only keeps_data p ->
  forall e fl s, holds s path n d ->
    holds (snd (res_env (run kernel p e (fl, s)))) path n d.
Proof.
  induction p as [a | c k IH | msg k IH | k IH | e' k IH | code | ];
    cbn [issues_only run]; intros Hp e fl s H; auto.
  - destruct Hp as [Hc Hk].
    destruct (kernel (fl, s) c) as [r st'] eqn:E.
    destruct (kernel_served _ _ _ _ _ E) as (s' & -> & Hs).
    cbn [traced res_env]. apply IH; auto.
    eapply served_keeps_data; eauto.
  - destruct Hp as [_ Hk]. cbn [traced res_env]. apply IH; auto.
Qed.

Lemma esp_filepath_found_any S (h : handler S) paths filename sz e s
  filepath :
  res_out (run h (get_esp_filepath_from paths filename sz) e s)
    = Returned (0, filepath) ->
  exists esp, In esp paths /\ filepath = (esp ++ filename)%string.
Proof.
  revert e s. induction paths as [|p paths IH]; intros e s; simpl.
  - intros H. discriminate H.
  - destruct (_ >=? _); unfold fprintf; simpl.
    + destruct (h s _) as [r s']. simpl. intros H. discriminate H.
    + destruct (h s _) as [r s']. simpl.
      destruct (rv r =? 0); simpl.
      * intros H. injection H as <-. eauto.
      * intros H. destruct (IH _ _ H) as (esp & Hin & ->). eauto.
Qed.

Lemma kernel_run_invariant A (p : prog A) (P : syscall -> bool)
  (I : fs -> Prop) :
  (forall c s r s', P c = true -> I s -> served s c r s' -> I s') ->
  issues_only P p ->
  forall e fl s, I s -> I (snd (res_env (run kernel p e (fl, s)))).
Proof.
  intros Step.
  induction p as [a | c k IH | msg k IH | k IH | e' k IH | code | ];
    cbn [issues_only run]; intros Hp e fl s Hs; auto.
  - destruct Hp as [Hc Hk].
    destruct (kernel (fl, s) c) as [r st'] eqn:E.
    destruct (kernel_served _ _ _ _ _ E) as (s' & -> & Hv).
    cbn [traced res_env]. apply IH; auto. eapply Step; eauto.
  - destruct Hp as [_ Hk]. cbn [traced res_env]. apply IH; auto.
Qed.

Lemma write_chunk_loops v out fuel fp buffer n t :
  issues_only (loop_call v out) (write_chunk fuel out fp buffer n t).
Proof.
  revert t. induction fuel as [|fuel IH]; intros t; simpl.
  - destruct (t <? n); simpl; auto.
  - destruct (t <? n); simpl; auto. split; [apply Z.eqb_refl|]. intros r.
    destruct (size_t (rv r) =? 0); simpl; auto.
Qed.

Lemma copy_loop_loops fuel v out fp buffer :
  issues_only (loop_call v out) (copy_loop fuel v out fp buffer).
Proof.
  revert buffer. induction fuel as [|fuel IH]; intros buffer.
  - exact I.
  - cbn [copy_loop]. apply issues_only_bind.
    + simpl. split; [apply Z.eqb_refl | auto].
    + intros r. destruct (size_t (rv r) >? 0); [|exact I].
      apply issues_only_bind. apply write_chunk_loops.
      intros []; [exact I | apply IH].
Qed.

Section KernelFrame.

Variables (path : string) (n : nat) (d : list byte).

Lemma served_fopen_wb s fp r s' :
  holds s path n d -> fp <> path ->
  served s (Fopen fp "wb") r s' ->
  holds s' path n d /\ (rv r <> 0 -> elsewhere n s' (rv r - 1)).
Proof.
  intros H Hne [E | k E | e0 _ -> ->].
  - cbn [posix] in E. eapply posix_fopen_wb; eauto.
  - cbn [posix shorten] in E. eapply posix_fopen_wb; eauto.
  - split; [exact H|]. cbn [refusal rv]. intros X. exfalso. apply X.
    reflexivity.
Qed.

Lemma served_loop_call v out c s r s' :
  loop_call v out c = true -> copy_inv path n d out s ->
  served s c r s' -> copy_inv path n d out s'.
Proof.
  intros L I [E | k E | e0 _ _ ->]; [| |exact I].
  all: destruct c; try discriminate L; cbn [loop_call] in L;
    cbn [posix shorten] in E.
  all: try (apply Z.eqb_eq in L; subst).
  - eapply posix_fread_inv; eauto.
  - eapply posix_fwrite_inv; eauto.
  - injection E as <- <-. exact I.
  - eapply posix_fread_inv; eauto.
  - eapply posix_fwrite_inv; eauto.
  - injection E as <- <-. exact I.
Qed.

End KernelFrame.

Ltac kx_intro :=
  lazymatch goal with
  | |- wp kernel (bind (sys _) _) _ _ _ => apply wp_bind_kernel
  | |- wp kernel (sys _) _ _ _ => apply wp_kernel_sys
  end.

(** One call that leaves the file system as it is, served or refused,
    and whose reply does not depend on the files. *)
Ltac kx_plain :=
  kx_intro;
  let r := fresh "r" in
  let s' := fresh "s" in
  let E := fresh "E" in
  intros r s' E;
  first
    [ apply served_calm in E; [|reflexivity];
      cbn [posix] in E; injection E as <- <-
    | apply served_uncut in E; [|intros; reflexivity];
      destruct E as [E | (? & _ & -> & ->)];
      [ cbn [posix] in E; injection E as <- <- | cbn [refusal] ] ];
  cbn [new_errno r_errno ok rv].

(** One call that keeps the files and, when it keeps the descriptor
    table too, the descriptors, however the kernel served it. *)
Ltac kx_track :=
  kx_intro;
  let r := fresh "r" in
  let s' := fresh "s" in
  let E := fresh "E" in
  intros r s' E;
  repeat match goal with
  | H : holds ?s _ _ _ |- _ =>
      lazymatch type of E with
      | served s ?c _ _ =>
          apply (served_keeps_data c _ _ _ _ _ _ eq_refl E) in H
      end
  | H : writes_to ?s _ _ _ |- _ =>
      lazymatch type of E with
      | served s ?c _ ?s1 =>
          apply (writes_to_fds s s1 _ _ _
                   (served_keeps_fds c _ _ _ eq_refl E)) in H
      end
  end;
  clear E.

Ltac kx_easy := first [ kx_plain | kx_track ].

Lemma kernel_write_file_keeps root fuel fp e fl s path n d :
  fp <> path -> holds s path n d ->
  holds (snd (res_env (run kernel (write_file root fuel fp) e (fl, s))))
    path n d.
Proof.
  intros Hne H.
  change (wp kernel (write_file root fuel fp) e (fl, s)
            (fun res => holds (snd (res_env res)) path n d)).
  unfold write_file, make_efivarfs_path, write_file_cleanup, fprintf, free.
  repeat px_branch. kx_plain; repeat px_branch.
  all: try (px_leaf; assumption).
  (* fopen(path, "rb") *)
  all: kx_track; repeat px_branch.
  all: try (repeat (first [ px_branch | kx_easy ]); unfold nonzero;
            repeat (first [ px_branch | kx_easy ]);
            px_leaf; assumption).
  (* fopen(filepath, "wb") *)
  all: apply wp_bind_kernel; intros o s1 E1;
    destruct (served_fopen_wb path n d _ _ _ _ H Hne E1) as [H1 J1];
    clear E1 H; repeat px_branch.
  all: try (repeat (first [ px_branch | kx_easy ]); unfold nonzero;
            repeat (first [ px_branch | kx_easy ]);
            px_leaf; assumption).
  all: assert (I1 : copy_inv path n d (rv o) s1)
         by (split; [exact H1|]; apply J1; boolfacts; assumption);
    clear H1 J1.
  (* fread of the attribute word *)
  all: apply wp_bind_kernel; intros hd s2 E2;
    pose proof (served_loop_call path n d _ _ _ _ _ _
                  (Z.eqb_refl _ : loop_call _ (rv o) (Fread _ 4) = true)
                  I1 E2) as I2;
    clear E2 I1; repeat px_branch.
  all: try (destruct I2 as [H2 _];
            repeat (first [ px_branch | kx_easy ]); unfold nonzero;
            repeat (first [ px_branch | kx_easy ]);
            px_leaf; assumption).
  (* the copy *)
  all: apply wp_bind; unfold wp at 1;
    match goal with
    | |- context [run kernel (copy_loop ?f ?v ?w ?p ?b) ?e' (?fl', ?s')] =>
        pose proof (kernel_run_invariant _ (copy_loop f v w p b)
                      (loop_call v w) (copy_inv path n d w)
                      (served_loop_call path n d v w)
                      (copy_loop_loops f v w p b) e' fl' s' I2) as [H3 _];
        destruct (run kernel (copy_loop f v w p b) e' (fl', s'))
          as [out e3 [fl3 s3] tr3]
    end;
    cbn [res_out res_env res_errno res_trace snd] in *;
    destruct out as [failed| |]; try assumption.
  all: repeat (first [ px_branch | kx_easy ]); unfold nonzero;
    repeat (first [ px_branch | kx_easy ]).
  all: px_leaf; assumption.
Qed.

Lemma kernel_sync_keeps_file root fuel e fl s path n d :
  not_under_esp path -> holds s path n d ->
  holds (snd (res_env (run kernel (efi_update_var_file root fuel) e (fl, s))))
    path n d.
Proof.
  intros Hesp H. unfold efi_update_var_file.
  rewrite run_bind. unfold then_run.
  pose proof (kernel_run_keeps_data _
                (get_esp_filename root (repeat x00 (Z.to_nat (PATH_MAX / 4)))
                   (PATH_MAX / 4)) path n d
                (issues_only_weaken _ _ _ _ reader_keeps_data
                   (esp_filename_reads root _ _)) e fl s H) as H1.
  destruct (run kernel (get_esp_filename root _ _) e (fl, s))
    as [o1 e1 [fl1 s1] tr1].
  cbn [res_out res_env res_errno res_trace snd] in *.
  destruct o1 as [[rc filename]| |]; cbn [res_env snd]; try assumption.
  destruct (rc <? 0); [cbn [run res_env snd]; assumption|].
  rewrite run_bind. unfold then_run.
  assert (Hname : issues_only keeps_data (read_cstring filename))
    by (unfold read_cstring; issues).
  pose proof (kernel_run_keeps_data _ _ path n d Hname e1 fl1 s1 H1) as H1'.
  destruct (run kernel (read_cstring filename) e1 (fl1, s1))
    as [o1' e1' [fl1' s1'] tr1'].
  cbn [res_out res_env res_errno res_trace snd] in *.
  destruct o1' as [name| |]; cbn [res_env snd]; try assumption.
  rewrite run_bind. unfold then_run, get_esp_filepath.
  pose proof (kernel_run_keeps_data _
                (get_esp_filepath_from esp_paths
                   (string_of_bytes name) PATH_MAX) path n d
                (issues_only_weaken _ _ _ _ reader_keeps_data
                   (esp_filepath_reads _ _ _)) e1' fl1' s1' H1') as H2.
  pose proof (esp_filepath_found_any _ kernel esp_paths
                (string_of_bytes name) PATH_MAX e1' (fl1', s1')) as Hfp.
  destruct (run kernel (get_esp_filepath_from esp_paths _ PATH_MAX) e1'
              (fl1', s1')) as [o2 e2 [fl2 s2] tr2].
  cbn [res_out res_env res_errno res_trace snd] in *.
  destruct o2 as [[rc' filepath]| |]; cbn [res_env snd]; try assumption.
  destruct (rc' =? 0) eqn:R.
  - apply Z.eqb_eq in R. subst rc'.
    destruct (Hfp filepath eq_refl) as (esp & Hin & ->).
    apply kernel_write_file_keeps; [|assumption].
    intros Heq. symmetry in Heq. revert Heq. apply Hesp. assumption.
  - apply (kernel_run_keeps_data _ (fprintf _) path n d); [|assumption].
    unfold fprintf. issues.
Qed.

(** ** set on the kernel *)

Lemma posix_open_excl s path flags mode n d :
  holds s path n d ->
  has_flag flags O_CREAT = true -> has_flag flags O_EXCL = true ->
  posix_open s path flags mode = (fail EEXIST, s).
Proof.
  intros H Hc He. destruct (holds_path_inode _ _ _ _ H) as (i & Hi & _).
  unfold posix_open. rewrite Hi, Hc, He. reflexivity.
Qed.

Lemma firstn_firstn_length (k : nat) (buf : list byte) :
  firstn (List.length (firstn k buf)) buf = firstn k buf.
Proof.
  rewrite length_firstn.
  destruct (Nat.le_ge_cases k (List.length buf)) as [L|L].
  - rewrite Nat.min_l by exact L. reflexivity.
  - rewrite Nat.min_r by exact L. rewrite firstn_all. symmetry.
    apply firstn_all2. exact L.
Qed.

(** A [write] through a descriptor opened on the file of [path], with
    the count of bytes it moved. *)
Lemma posix_write_moved s fd buf count r s' path n d app :
  holds s path n d -> writes_to s fd n app ->
  posix_write s fd buf count = (r, s') ->
  rv r = -1 \/
  rv r = Z.of_nat (List.length (firstn (Z.to_nat count) buf)) /\
  holds s' path n
    (overwrite d (if app then List.length d else O)
       (firstn (Z.to_nat count) buf)).
Proof.
  intros H (o & Ho & Hn & Hw & Ha & Hp) E.
  destruct H as [Hf (i & Hi & Hd)]. subst n app d.
  unfold posix_write, fd_inode in E. rewrite Ho, Hi, Hw in E.
  simpl in E. destruct (immutable i).
  - injection E as <- <-. left. reflexivity.
  - injection E as <- <-. right. split.
    + reflexivity.
    + rewrite Hp. split; simpl.
      * erewrite find_path_update; [exact Hf | exact Hi | reflexivity].
      * eexists. rewrite (nth_error_update_same _ _ _ _ i Hi).
        split; reflexivity.
Qed.

Lemma served_write_spec s fd buf count r s' path n d app :
  holds s path n d -> writes_to s fd n app ->
  served s (Write fd buf count) r s' ->
  rv r = -1 \/
  exists bs,
    rv r = Z.of_nat (List.length bs) /\
    bs = firstn (List.length bs) buf /\
    holds s' path n (overwrite d (if app then List.length d else O) bs).
Proof.
  intros H W [E | k E | e0 _ -> _].
  - cbn [posix] in E.
    destruct (posix_write_moved _ _ _ _ _ _ _ _ _ _ H W E) as [Hr|[Hr H']];
      [left; exact Hr|].
    right. eexists. split; [exact Hr|]. split; [|exact H'].
    symmetry. apply firstn_firstn_length.
  - cbn [posix shorten] in E.
    destruct (posix_write_moved _ _ _ _ _ _ _ _ _ _ H W E) as [Hr|[Hr H']];
      [left; exact Hr|].
    right. eexists. split; [exact Hr|]. split; [|exact H'].
    symmetry. apply firstn_firstn_length.
  - left. reflexivity.
Qed.

Ltac open_facts s p fl m r s' E :=
  lazymatch goal with
  | Habs : path_inode s p = None |- _ =>
      first
        [ rewrite (posix_open_absent s p fl m Habs eq_refl) in E;
          injection E as <- <-
        | let Hr := fresh "Hr" in
          let H := fresh "H" in
          let W := fresh "W" in
          destruct (posix_open_creates s p fl m r s' Habs eq_refl E)
            as (Hr & H & W);
          specialize (W eq_refl);
          let a := eval vm_compute in (has_flag fl O_APPEND) in
          change (has_flag fl O_APPEND) with a in W;
          clear E Habs ]
  | H : holds s p ?n ?d |- _ =>
      first
        [ rewrite (posix_open_excl s p fl m n d H eq_refl eq_refl) in E;
          injection E as <- <-
        | let Hr := fresh "Hr" in
          let Hi := fresh "Hi" in
          let Hfd := fresh "Hfd" in
          let H' := fresh "H" in
          let W := fresh "W" in
          pose proof (posix_open_keeps s p fl m r s' p n d eq_refl E H)
            as H';
          destruct (posix_open_existing s p fl m r s' n d H eq_refl eq_refl E)
            as [[Hr W] | (Hr & Hi & Hfd)];
          [ try discriminate W
          | let a := eval vm_compute in (has_flag fl O_APPEND) in
            try (assert (W : writes_to s' (rv r) n a)
                   by (eexists; split; [exact Hfd | repeat split])) ];
          clear E H ]
  end.

(** An [open]: refused, or served as by [posix]. *)
Ltac kx_open :=
  lazymatch goal with
  | |- wp kernel (bind (sys (Open ?p ?fl ?m)) _) _ (_, ?s) _ =>
      let r := fresh "r" in
      let s' := fresh "s" in
      let E := fresh "E" in
      apply wp_bind_kernel; intros r s' E;
      apply served_uncut in E; [|intros; reflexivity];
      destruct E as [E | (? & _ & -> & ->)];
      [ cbn [posix] in E; open_facts s p fl m r s' E | cbn [refusal] ]
  end.

(** A [write]: it failed, or moved the first bytes of the buffer. *)
Ltac kx_write :=
  lazymatch goal with
  | |- wp kernel (bind (sys (Write ?fd ?buf ?cnt)) _) _ (_, ?s) _ =>
      let r := fresh "r" in
      let s' := fresh "s" in
      let E := fresh "E" in
      apply wp_bind_kernel; intros r s' E;
      lazymatch goal with
      | H : holds s ?p ?n ?d, W : writes_to s fd ?n ?app |- _ =>
          let Hr := fresh "Hr" in
          let H' := fresh "H" in
          let bs := fresh "bs" in
          let Hb := fresh "Hb" in
          destruct (served_write_spec s fd buf cnt r s' p n d app H W E)
            as [Hr | (bs & Hr & Hb & H')];
          clear E H W
      end
  end.

(** The sync and the cleanup that follow a write that went through. *)
Lemma kernel_set_tail root fuel path rfd wfd restore orig e fl s n d :
  not_under_esp path -> holds s path n d ->
  wp kernel
    (l <- (efi_update_var_file root fuel;;
           Ret (SetLocals 0 rfd wfd restore orig));;
     set_cleanup path l)%prog e (fl, s)
    (fun res => res_out res = Returned 0 ->
                exists m, holds (snd (res_env res)) path m d).
Proof.
  intros Hesp H. apply wp_bind_assoc. apply wp_bind. unfold wp at 1.
  pose proof (kernel_sync_keeps_file root fuel e fl s path n d Hesp H) as H1.
  destruct (run kernel (efi_update_var_file root fuel) e (fl, s))
    as [o e1 [fl1 s1] tr1].
  cbn [res_out res_env res_errno res_trace snd] in *.
  destruct o as [[]| |]; try (intros X; discriminate X).
  unfold set_cleanup, free.
  repeat (first [ px_branch | kx_track ]).
  all: px_leaf; intros _; eauto.
Qed.

Ltac kx_tail Hesp :=
  lazymatch goal with
  | |- wp kernel (bind (bind (efi_update_var_file _ _) _) _) _ (_, ?s) _ =>
      lazymatch goal with
      | H : holds s _ _ _ |- _ =>
          eapply wp_conseq; [| eapply kernel_set_tail; [exact Hesp | exact H]]
      end
  end.

(** A body that failed: the cleanup returns -1. *)
Ltac kx_failed_body :=
  lazymatch goal with
  | |- wp kernel (set_cleanup _ _) _ _ _ =>
      unfold wp; wp_finish;
      rewrite ?res_out_traced, ?res_out_after, cleanup_returns;
      cbn [l_ret];
      let X := fresh in intros X; exfalso; discriminate X
  end.

Ltac kx_ret_fails :=
  lazymatch goal with
  | |- wp kernel (Ret (-1)) _ _ _ => wp_leaf; set_fails
  end.

Lemma full_buffer a (data bs : list byte) :
  bs = firstn (List.length bs)
         (encode_u32 a ++ firstn (Z.to_nat (Z.of_nat (List.length data))) data) ->
  Z.of_nat (List.length bs) = sizeof_attributes + Z.of_nat (List.length data) ->
  bs = encode_u32 a ++ data.
Proof.
  intros Hb Hl. rewrite Hb. rewrite Nat2Z.id, firstn_all.
  apply firstn_all2. rewrite length_app, encode_u32_length.
  unfold sizeof_attributes in Hl. lia.
Qed.

Lemma kernel_set_writes_file root fuel guid name data attributes mode e fl s :
  let p := var_path root guid name in
  not_under_esp p ->
  (file_data s p = None \/
   has_flag attributes EFI_VARIABLE_APPEND_WRITE = false /\
   exists old, file_data s p = Some old /\
               (List.length old <= 4 + List.length data)%nat) ->
  let res := run kernel
               (efivarfs_set_variable root fuel guid name data
                  (Z.of_nat (List.length data)) attributes mode) e (fl, s) in
  res_out res = Returned 0 ->
  forallb full_write (res_trace res) = true ->
  file_data (snd (res_env res)) p = Some (encode_u32 attributes ++ data).
Proof.
  intros p Hesp Hpre res.
  enough (Hm : res_out res = Returned 0 ->
               forallb full_write (res_trace res) = true ->
               exists m, holds (snd (res_env res)) p m
                           (encode_u32 attributes ++ data)).
  { intros Ho Hw. destruct (Hm Ho Hw) as (m & Hh).
    eapply holds_file_data; eauto. }
  wp_start res.
  unfold efivarfs_set_variable, make_efivarfs_path, set_body,
    set_write_phase, efivarfs_make_fd_mutable, memcpy_from.
  fold p.
  unfold has_flag in Hpre.
  destruct (nonzero (Z.land attributes EFI_VARIABLE_APPEND_WRITE)) eqn:App.
  all: cbv iota.
  all: destruct Hpre as [Habs | (Hb & old & Hold & Hlen)];
    try discriminate Hb.
  all: try apply file_data_none in Habs.
  all: try (apply file_data_holds in Hold; destruct Hold as (n & Hold)).
  all: repeat (first [ kx_tail Hesp | px_branch | kx_failed_body
                     | kx_ret_fails | kx_open | kx_write | kx_plain
                     | kx_track ]).
  all: intros res' Hres; wp_finish; intros X F;
    destruct (Hres X) as (m & Hm); exists m.
  all: repeat (cbn [forallb full_write fst snd andb] in F;
               try (apply andb_true_iff in F; destruct F as [Fw F])).
  all: apply Z.eqb_eq in Fw.
  all: match goal with
       | Hr : rv ?r = Z.of_nat (List.length ?bs),
         Hb : ?bs = firstn _ _ |- _ =>
           rewrite Hr in Fw;
           rewrite (full_buffer attributes data bs Hb Fw) in Hm
       end.
  all: cbn [List.length] in Hm.
  all: rewrite overwrite_start in Hm
         by (rewrite length_app, encode_u32_length; cbn [List.length]; lia).
  all: exact Hm.
Qed.

(** ** get on the kernel *)

Lemma served_open_read s path r s' n d :
  holds s path n d -> served s (Open path O_RDONLY 0) r s' ->
  (rv r = -1 \/ reads_from s' (rv r) n 0 /\ 0 <= rv r) /\
  holds s' path n d.
Proof.
  assert (P : forall r s', posix_open s path O_RDONLY 0 = (r, s') ->
              holds s path n d ->
              (rv r = -1 \/ reads_from s' (rv r) n 0 /\ 0 <= rv r) /\
              holds s' path n d).
  { intros r0 s0 E H. split.
    - destruct (posix_open_existing _ _ O_RDONLY _ _ _ _ _ H eq_refl eq_refl E)
        as [[_ W] | (Hr & Hi & Hfd)]; [discriminate W|].
      right. split; [eexists; eauto|]. rewrite Hr. lia.
    - eapply posix_open_keeps; [| exact E | exact H]; reflexivity. }
  intros H [E | k E | e0 _ -> ->].
  - apply P; assumption.
  - apply P; assumption.
  - split; [left; reflexivity | exact H].
Qed.

Lemma served_read_spec s fd count r s' path n d pos :
  holds s path n d -> reads_from s fd n pos ->
  served s (Read fd count) r s' ->
  holds s' path n d /\
  (rv r = -1 \/
   exists got,
     r = Reply (Z.of_nat (List.length got)) None got 0 0 0 0 /\
     (rv r = count -> got = firstn (Z.to_nat count) (skipn pos d)) /\
     reads_from s' fd n (pos + List.length got)).
Proof.
  intros H R [E | k E | e0 _ -> ->].
  - cbn [posix] in E.
    destruct (posix_read_spec _ _ _ _ _ _ _ _ _ H R E) as (-> & H2 & R2).
    split; [exact H2|]. right. eexists. split; [reflexivity|].
    split; [reflexivity | exact R2].
  - cbn [posix shorten] in E.
    destruct (posix_read_spec _ _ _ _ _ _ _ _ _ H R E) as (-> & H2 & R2).
    split; [exact H2|]. right. eexists. split; [reflexivity|].
    split; [|exact R2].
    cbn [rv]. rewrite length_firstn. intros Hc.
    assert (Hmin : Z.min count (Z.of_nat k) = count) by lia.
    rewrite Hmin. reflexivity.
  - split; [exact H | left; reflexivity].
Qed.

Lemma served_read_file_spec s fd r s' path n d pos :
  holds s path n d -> reads_from s fd n pos ->
  served s (ReadFile fd) r s' ->
  holds s' path n d /\
  (rv r = -1 \/ r = Reply 0 None (skipn pos d ++ [x00]) 0 0 0 0).
Proof.
  intros H R [E | k E | e0 _ -> ->].
  - cbn [posix] in E.
    destruct (posix_read_file_spec _ _ _ _ _ _ _ _ H R E) as (-> & H2).
    split; [exact H2 | right; reflexivity].
  - cbn [posix shorten] in E.
    destruct (posix_read_file_spec _ _ _ _ _ _ _ _ H R E) as (-> & H2).
    split; [exact H2 | right; reflexivity].
  - split; [exact H | left; reflexivity].
Qed.

(** A get that has failed. *)
Ltac get_fails :=
  repeat (first [ px_branch | kx_plain | kx_track ]);
  wp_leaf; wp_finish; eexists; (split; [reflexivity|]);
  let X := fresh in intros X; discriminate X.

(** What a get that succeeds hands back from a file holding a 4-byte
    word and a payload, when its read of the word was not cut short. *)
Lemma kernel_get_reads_file root guid name e fl s n hdr payload :
  holds s (var_path root guid name) n (hdr ++ payload) ->
  List.length hdr = 4%nat ->
  let res := run kernel (efivarfs_get_variable root guid name) e (fl, s) in
  exists out,
    res_out res = Returned out /\
    (g_ret out = 0 ->
     forallb full_read (res_trace res) = true ->
     out = GetOut 0 (decode_le hdr) (payload ++ [x00])
             (size_t (Z.of_nat (List.length (payload ++ [x00])) - 1))).
Proof.
  intros H Hh res. wp_start res.
  unfold efivarfs_get_variable, make_efivarfs_path, get_cleanup, read_file,
    free.
  kx_plain. repeat px_branch. kx_plain.
  all: repeat px_branch.
  all: try solve [get_fails].
  (* open *)
  apply wp_bind_kernel; intros r s0 E.
  destruct (served_open_read _ _ _ _ _ _ H E) as [[Hr | [R0 Hr]] H0];
    clear E H; repeat px_branch.
  all: try solve [get_fails].
  (* usleep *)
  kx_plain. repeat px_branch.
  (* read *)
  apply wp_bind_kernel; intros r2 s2 E.
  destruct (served_read_spec _ _ _ _ _ _ _ _ _ H0 R0 E)
    as [H2 [Hr2 | (got & -> & Hgot & R2)]]; clear E H0 R0; repeat px_branch.
  all: try solve [get_fails].
  (* usleep *)
  kx_plain. repeat px_branch.
  (* read_file *)
  apply wp_bind_kernel; intros r4 s4 E.
  destruct (served_read_file_spec _ _ _ _ _ _ _ _ H2 R2 E)
    as [H4 [Hr4 | ->]]; clear E H2 R2; repeat px_branch.
  all: try solve [get_fails].
  repeat (first [ px_branch | kx_plain | kx_track ]).
  all: wp_leaf; wp_finish; eexists; (split; [reflexivity|]); intros _ F.
  cbn [forallb full_read fst snd andb rv] in F.
  apply andb_true_iff in F. destruct F as [Fr _]. apply Z.eqb_eq in Fr.
  assert (Hgh : got = hdr).
  { rewrite (Hgot Fr). cbn [skipn].
    change (Z.to_nat sizeof_attributes) with 4%nat. rewrite <- Hh.
    rewrite firstn_app, Nat.sub_diag, firstn_all. cbn [firstn].
    apply app_nil_r. }
  subst got.
  rewrite Nat2Z.id, firstn_all, store_word by assumption.
  rewrite Nat.add_0_l, skipn_app, skipn_all, Nat.sub_diag.
  cbn [skipn app]. reflexivity.
Qed.

Lemma payload_size (data : list byte) :
  Z.of_nat (List.length data) <= SIZE_MAX - sizeof_attributes ->
  size_t (Z.of_nat (List.length (data ++ [x00])) - 1)
  = Z.of_nat (List.length data).
Proof.
  intros Hs. rewrite length_app. cbn [List.length].
  replace (Z.of_nat (List.length data + 1) - 1)
    with (Z.of_nat (List.length data)) by lia.
  apply size_t_small. unfold sizeof_attributes in Hs. lia.
Qed.

Lemma get_out_values a (data : list byte) out :
  0 <= a < 2 ^ 32 ->
  Z.of_nat (List.length data) <= SIZE_MAX - sizeof_attributes ->
  out = GetOut 0 (decode_le (encode_u32 a)) (data ++ [x00])
          (size_t (Z.of_nat (List.length (data ++ [x00])) - 1)) ->
  g_ret out = 0 /\ g_attributes out = a /\ g_payload out = data /\
  g_data_size out = Z.of_nat (List.length data).
Proof.
  intros Ha Hs ->. unfold g_payload.
  cbn [g_ret g_attributes g_data g_data_size].
  rewrite (payload_size data Hs), Nat2Z.id.
  split; [reflexivity|]. split; [apply decode_encode_u32; exact Ha|].
  split; [|reflexivity].
  rewrite firstn_app, firstn_all, Nat.sub_diag. cbn [firstn].
  apply app_nil_r.
Qed.

(** C1 (as amended): on a kernel that may refuse calls, for want of
    permission or for any other reason, and cut reads and writes short, a
    set that returns 0 and whose write moved the whole buffer, on a
    variable that had no file, or without the append attribute on a file
    not longer than the new content, leaves in the file the 4-byte
    attribute word followed by the data.  The get that follows returns;
    when no fault occurs it returns 0, and when no fault occurs, or it
    returns 0 and its read of the attribute word was not cut short, it
    hands back exactly that attribute word and that data.  The variable is
    not a file under a boot-partition mount point, the file the sync
    opens for writing is a plain name under such a mount point, and the
    attribute word fits 32 bits. *)
Theorem set_get_round_trip root fuel guid name data attributes mode e e' s
  faults faults' :
  let p := var_path root guid name in
  0 <= attributes < 2 ^ 32 ->
  not_under_esp p ->
  (file_data s p = None \/
   has_flag attributes EFI_VARIABLE_APPEND_WRITE = false /\
   exists old, file_data s p = Some old /\
               (List.length old <= 4 + List.length data)%nat) ->
  let set := run kernel
               (efivarfs_set_variable root fuel guid name data
                  (Z.of_nat (List.length data)) attributes mode) e
               (faults, s) in
  res_out set = Returned 0 ->
  forallb full_write (res_trace set) = true ->
  Forall plain_output (res_trace set) ->
  let s' := snd (res_env set) in
  file_data s' p = Some (encode_u32 attributes ++ data) /\
  let get := run kernel (efivarfs_get_variable root guid name) e'
               (faults', s') in
  exists out,
    res_out get = Returned out /\
    (faults' = [] -> g_ret out = 0) /\
    (faults' = [] \/
     g_ret out = 0 /\ forallb full_read (res_trace get) = true ->
     g_attributes out = attributes /\ g_payload out = data /\
     g_data_size out = Z.of_nat (List.length data)).
Proof.
  intros p Ha Hesp Hpre set Hset Hfull _ s'.
  pose proof (kernel_set_writes_file root fuel guid name data attributes mode
                e faults s Hesp Hpre Hset Hfull) as Hfile.
  fold set in Hfile. fold s' in Hfile. fold p in Hfile.
  split; [exact Hfile|].
  pose proof (set_success_size _ kernel root fuel guid name data _
                attributes mode e (faults, s) Hset) as Hs.
  destruct (file_data_holds _ _ _ Hfile) as (n & Hn).
  intros get.
  destruct (kernel_get_reads_file root guid name e' faults' s' n
              (encode_u32 attributes) data Hn eq_refl) as (out & Hout & Hval).
  fold get in Hout, Hval.
  assert (Hquiet : faults' = [] ->
            out = GetOut 0 (decode_le (encode_u32 attributes)) (data ++ [x00])
                    (size_t (Z.of_nat (List.length (data ++ [x00])) - 1))).
  { intros Hf. subst get. rewrite Hf, kernel_quiet_run in Hout.
    cbn [res_out] in Hout.
    destruct (get_reads_file root guid name e' s' n
                (encode_u32 attributes) data Hn eq_refl) as [Hget _].
    rewrite Hget in Hout. injection Hout as <-. reflexivity. }
  exists out. split; [exact Hout|]. split.
  - intros Hf.
    apply (get_out_values attributes data out Ha Hs (Hquiet Hf)).
  - intros [Hf | [G F]].
    + apply (get_out_values attributes data out Ha Hs (Hquiet Hf)).
    + apply (get_out_values attributes data out Ha Hs (Hval G F)).
Qed.

(** ** The theorems at concrete inputs *)

Lemma default_root_not_under_esp guid name :
  not_under_esp (var_path default_efivarfs_path guid name).
Proof.
  intros esp f [<-|[<-|[<-|[]]]] H; cbn in H; discriminate H.
Qed.

(** C8, on a name of 1025 bytes. *)
Lemma set_validates_first_witness :
  let res := run posix
               (efivarfs_set_variable default_efivarfs_path 0 zero_guid
                  "TestVar" [] SIZE_MAX 7 384) 0 empty_fs in
  SIZE_MAX > SIZE_MAX - sizeof_attributes /\
  res_out res = Returned (-1) /\ res_errno res = EOVERFLOW /\
  res_env res = empty_fs.
Proof.
  assert (H : SIZE_MAX > SIZE_MAX - sizeof_attributes) by reflexivity.
  split; [exact H|].
  destruct (@set_validates_first fs posix default_efivarfs_path 0 zero_guid
              "TestVar" [] SIZE_MAX 7 384 0 empty_fs (or_intror H))
    as (Ho & He & Hs & _).
  split; [exact Ho|]. split; [exact He | exact Hs].
Defined.

(** C2, on the race of [race_env]: the replacement file is left as it was. *)
Lemma set_race_aborts_witness :
  let res := run race_env
               (efivarfs_set_variable default_efivarfs_path 0 zero_guid
                  "TestVar" [x09] 1 7 384) 0 race_start in
  fstats (res_trace res)
    = [ (Fstat 3, Reply 0 None [] 0 0 7 0);
        (Fstat 4, Reply 0 None [] 0 1 1 0) ] /\
  res_out res = Returned (-1) /\ res_errno res = EINVAL /\
  writes (res_trace res) = [] /\
  file_data (snd (res_env res)) test_path = Some [x2a].
Proof.
  intros res.
  destruct (@set_race_aborts (nat * fs)%type race_env
              default_efivarfs_path 0 zero_guid "TestVar" [x09] 1 7 384 0
              race_start (ok 3) [(Open test_path O_WRONLY 384, ok 4)])
    as (sr & Hsr & K).
  - vm_compute. reflexivity.
  - discriminate.
  - fold res in Hsr, K.
    assert (Esr : sr = Reply 0 None [] 0 0 7 0)
      by (vm_compute in Hsr; congruence).
    subst sr.
    destruct K as (flags & wo & more' & Hm & K); [cbn; discriminate|].
    injection Hm as <- <- <-.
    destruct K as (sw & Hf & K); [cbn; discriminate|].
    assert (Esw : sw = Reply 0 None [] 0 1 1 0)
      by (vm_compute in Hf; congruence).
    subst sw.
    destruct K as [K _]; [cbn; discriminate|].
    destruct K as (Ho & He & Hw & _); [right; cbn; discriminate|].
    split; [exact Hf|]. split; [exact Ho|]. split; [exact He|].
    split; [exact Hw|]. vm_compute. reflexivity.
Defined.

(** C3, on an immutable variable file. *)
Lemma set_restores_cleared_flags_witness :
  let res := run posix
               (efivarfs_set_variable default_efivarfs_path 0 zero_guid
                  "TestVar" [x09] 1 7 384) 0 immutable_fs in
  res_out res = Returned 0 /\
  file_data (res_env res) test_path
    = Some [x07; x00; x00; x00; x09; x02; x03] /\
  file_flags (res_env res) test_path = Some FS_IMMUTABLE_FL /\
  exists mid r tail,
    skipn 6 (res_trace res)
      = mid ++ (IoctlSetFlags 3 FS_IMMUTABLE_FL, r) :: tail /\
    ioctls tail = [].
Proof.
  intros res.
  assert (Ho : res_out res = Returned 0) by (vm_compute; reflexivity).
  split; [exact Ho|]. split; [vm_compute; reflexivity|].
  split; [vm_compute; reflexivity|].
  apply (@set_restores_cleared_flags fs posix default_efivarfs_path 0 zero_guid
           "TestVar" [x09] 1 7 384 0 immutable_fs 0
           (firstn 4 (res_trace res)) 3
           (Reply 0 None [] 0 0 0 FS_IMMUTABLE_FL) (ok 0)
           (skipn 6 (res_trace res)) Ho).
  - vm_compute. reflexivity.
  - cbn. discriminate.
  - reflexivity.
  - cbn. discriminate.
Defined.


(** C9, on an empty file system. *)
Lemma append_creates_with_mode_0_witness :
  let res := run posix
               (efivarfs_append_variable default_efivarfs_path 0 zero_guid
                  "TestVar" [x09] 1 7) 0 empty_fs in
  res_out res = Returned 0 /\
  file_mode (res_env res) test_path = Some 0 /\
  Forall creates_with_mode_0 (res_trace res).
Proof.
  intros res.
  split; [vm_compute; reflexivity|]. split; [vm_compute; reflexivity|].
  apply (@append_creates_with_mode_0 fs posix default_efivarfs_path 0 zero_guid
           "TestVar" [x09] 1 7 0 empty_fs (fail ENOENT)
           (tl (opens (res_trace res)))).
  - vm_compute. reflexivity.
  - reflexivity.
Defined.

(** C10, on the payload [vars.bin] and the buffer of 1024 bytes. *)
Lemma esp_filename_copies_sz_bytes_witness :
  let s := esp_fs 0 [x07; x00; x00; x00; x4e; x45; x57] in
  let payload := bytes_of_string "vars.bin" in
  let res := run posix
               (get_esp_filename default_efivarfs_path
                  (repeat x00 1024) 1024) 0 s in
  exists copied,
    res_out res = Returned (0, copied) /\
    List.length copied = 1024%nat /\
    copied = payload ++ resize 1016 (x00 :: fs_beyond s) /\
    In (OobRead 1015) (map fst (res_trace res)) /\
    res_out (run posix (read_cstring copied) (res_errno res) (res_env res))
    = Returned payload.
Proof.
  intros s payload res.
  destruct (esp_filename_copies_sz_bytes default_efivarfs_path 0 s 1
              [x07; x00; x00; x00] payload (repeat x00 1024) 1024)
    as (copied & Ho & Hl & _ & Hshort & _ & _ & Hname).
  - split; [reflexivity|]. eexists. split; reflexivity.
  - reflexivity.
  - split; [vm_compute; discriminate | vm_compute; discriminate].
  - reflexivity.
  - exists copied. split; [exact Ho|]. split; [exact Hl|].
    assert (Hlt : Z.of_nat (List.length payload) < 1024) by reflexivity.
    destruct (Hshort Hlt) as [Hc Hoob]. split; [exact Hc|].
    split; [apply Hoob; reflexivity|].
    destruct (Hname eq_refl) as [Hn _]. exact (Hn Hlt).
Defined.

(** C10, counterexample to its last clause.  A payload that fills the
    array (1024 bytes, none of them NUL) is copied whole, yet the name
    used is not the payload: the array holds no NUL, the name is read past
    its end, and every [stat] of the search asks for the payload followed
    by the two bytes lying behind the array.  And a payload shorter than
    the array ([vars.bin]) gives a name equal to the payload. *)
Lemma esp_filename_full_array_overruns :
  let res := run posix
               (get_esp_filename default_efivarfs_path
                  (repeat x00 1024) 1024) 0 long_name_fs in
  let sync := run posix (efi_update_var_file default_efivarfs_path 8) 0
                long_name_fs in
  let short := run posix (efi_update_var_file default_efivarfs_path 8) 0
                 (esp_fs 0 [x07; x00; x00; x00; x4e; x45; x57]) in
  let used := string_of_bytes (long_name ++ [x42; x43]) in
  file_data long_name_fs rtsv_path
    = Some ([x07; x00; x00; x00] ++ long_name) /\
  List.length long_name = 1024%nat /\
  res_out res = Returned (0, long_name) /\
  In (OobRead 1) (map fst (res_trace sync)) /\
  stat_paths (res_trace sync)
    = map (fun esp => (esp ++ used)%string) esp_paths /\
  used <> string_of_bytes long_name /\
  file_data (esp_fs 0 [x07; x00; x00; x00; x4e; x45; x57]) rtsv_path
    = Some ([x07; x00; x00; x00] ++ bytes_of_string "vars.bin") /\
  stat_paths (res_trace short) = ["/boot/efi/vars.bin"].
Proof.
  cbv zeta.
  split; [vm_compute; reflexivity|]. split; [vm_compute; reflexivity|].
  split; [vm_compute; reflexivity|].
  split; [vm_compute; tauto|].
  split; [vm_compute; reflexivity|].
  split; [|split; vm_compute; reflexivity].
  intros H. apply (f_equal String.length) in H. vm_compute in H.
  discriminate H.
Qed.


Lemma vars_bin_is_plain r : plain_output (Fopen "/boot/efi/vars.bin" "wb", r).
Proof.
  intros _. exists "/boot/efi/", "vars.bin".
  split; [left; reflexivity|]. split; [reflexivity|].
  cbn. intuition discriminate.
Qed.

(** C1, on a variable that exists, with the persistence file on the ESP:
    the kernel refuses the flag query of set and serves its write and the
    read of get under a limit that they do not exceed. *)
Lemma set_get_round_trip_witness :
  let s := esp_fs 0 [x07; x00; x00; x00; x4e; x45; x57] in
  let set := run kernel
               (efivarfs_set_variable default_efivarfs_path 8 zero_guid
                  "TestVar" [x09; x08; x07] 3 7 384) 0
               ([Obliging; Obliging; Obliging; Obliging; Refuse EPERM;
                 Obliging; Obliging; Short 7], s) in
  let get := run kernel
               (efivarfs_get_variable default_efivarfs_path zero_guid
                  "TestVar") 0
               ([Obliging; Obliging; Obliging; Obliging; Short 4],
                snd (res_env set)) in
  res_out set = Returned 0 /\
  file_data (snd (res_env set)) test_path
    = Some [x07; x00; x00; x00; x09; x08; x07] /\
  file_data (snd (res_env set)) "/boot/efi/vars.bin"
    = Some (bytes_of_string "NEW") /\
  exists out,
    res_out get = Returned out /\
    g_attributes out = 7 /\ g_payload out = [x09; x08; x07] /\
    g_data_size out = 3.
Proof.
  intros s set get.
  assert (Ho : res_out set = Returned 0) by (vm_compute; reflexivity).
  split; [exact Ho|].
  destruct (set_get_round_trip default_efivarfs_path 8 zero_guid "TestVar"
              [x09; x08; x07] 7 384 0 0 s
              [Obliging; Obliging; Obliging; Obliging; Refuse EPERM;
               Obliging; Obliging; Short 7]
              [Obliging; Obliging; Obliging; Obliging; Short 4])
    as (Hfile & out & Hout & _ & Hval).
  - split; [discriminate | reflexivity].
  - apply default_root_not_under_esp.
  - right. split; [reflexivity|]. eexists. split; [reflexivity|].
    vm_compute. lia.
  - exact Ho.
  - vm_compute. reflexivity.
  - match goal with
    | |- Forall _ ?tr =>
        let t := eval vm_compute in tr in change (Forall plain_output t)
    end.
    repeat (apply Forall_cons;
            [first [ exact I | apply vars_bin_is_plain
                   | intros X; discriminate X ]|]).
    apply Forall_nil.
  - split; [exact Hfile|]. split; [vm_compute; reflexivity|].
    exists out. split; [exact Hout|].
    apply Hval. right. split.
    + revert Hout. vm_compute. intros X. injection X as <-. reflexivity.
    + vm_compute. reflexivity.
Defined.

(** What the conditions of C1 are for.  A write that the kernel cuts to 5
    bytes is a success to set, which returns 0, and the variable then holds
    one byte of data; and a get whose open the kernel refuses fails. *)
Lemma short_write_is_success_to_set :
  let set := run kernel
               (efivarfs_set_variable default_efivarfs_path 8 zero_guid
                  "TestVar" [x09; x08; x07] 3 7 384) 0
               ([Obliging; Obliging; Obliging; Obliging; Obliging; Short 5],
                empty_fs) in
  let get := run kernel
               (efivarfs_get_variable default_efivarfs_path zero_guid
                  "TestVar") 0 ([], snd (res_env set)) in
  let denied := run kernel
                  (efivarfs_get_variable default_efivarfs_path zero_guid
                     "TestVar") 0
                  ([Obliging; Obliging; Refuse EACCES], snd (res_env set)) in
  res_out set = Returned 0 /\
  forallb full_write (res_trace set) = false /\
  file_data (snd (res_env set)) test_path
    = Some [x07; x00; x00; x00; x09] /\
  (exists out, res_out get = Returned out /\ g_ret out = 0 /\
               g_attributes out = 7 /\ g_payload out = [x09]) /\
  (exists out, res_out denied = Returned out /\ g_ret out = -1) /\
  res_errno denied = EACCES.
Proof.
  cbv zeta.
  split; [vm_compute; reflexivity|]. split; [vm_compute; reflexivity|].
  split; [vm_compute; reflexivity|].
  split; [eexists; split; [vm_compute; reflexivity|];
          repeat split; reflexivity|].
  split; [eexists; split; [vm_compute; reflexivity|]; reflexivity|].
  vm_compute. reflexivity.
Qed.

(** * Further properties of the backend *)

(** ** In every environment *)

Lemma unlinks_sync tr :
  Forall (fun ev => sync_call (fst ev) = true) tr -> unlinks tr = [].
Proof.
  apply filter_sync_nil.
  intros [c r] H; destruct c; simpl in *; try reflexivity; discriminate H.
Qed.

Ltac filter_events f :=
  cbn [filter f fst]; rewrite ?filter_app; cbn [filter f fst app].

(** X1: in every environment, when efivarfs_del_variable returns, its return
    value is the return value of unlink(2) on the variable's path: once the
    path is formatted exactly one unlink is issued, also when clearing the
    immutable flag failed; when asprintf fails, del returns -1 after logging
    and issues no other call. *)
Theorem del_returns_unlink_status S (h : handler S) root fuel guid name e s
  ret :
  let res := run h (efivarfs_del_variable root fuel guid name) e s in
  res_out res = Returned ret ->
  (exists a msg,
     res_trace res = [(Asprintf (var_path root guid name), a);
                      (EfiError msg, no_reply)] /\
     rv a < 0 /\ ret = -1) \/
  (exists u,
     unlinks (res_trace res) = [(Unlink (var_path root guid name), u)] /\
     ret = rv u).
Proof.
  intros res. wp_start res.
  unfold efivarfs_del_variable, make_efivarfs_path, efivarfs_set_immutable,
    efivarfs_set_fd_immutable, free.
  wp_all h.
  all: intros Hout; try discriminate Hout; injection Hout as <-.
  all: try (left; do 2 eexists; split; [reflexivity|]; boolfacts; split;
            [assumption | reflexivity]).
  all: right; eexists; split; [|reflexivity].
  all: repeat match goal with
       | H : Forall (fun ev => sync_call (fst ev) = true) _ |- _ =>
           apply unlinks_sync in H
       end.
  all: unfold unlinks in *; filter_events is_unlink.
  all: repeat match goal with H : filter is_unlink _ = [] |- _ =>
         rewrite H; clear H end; cbn [app].
  all: reflexivity.
Qed.

(** X2: in every environment, efivarfs_set_variable unlinks nothing when its
    read-only open succeeded (the file was there before) or when it returns
    0; when the read-only open failed, the creating open succeeded and set
    then fails, it unlinks the variable's path, once. *)
Theorem set_unlinks_only_its_own_file S (h : handler S) root fuel guid name
  data data_size attributes mode e s ret ro rest :
  let p := var_path root guid name in
  let res := run h (efivarfs_set_variable root fuel guid name data data_size
                      attributes mode) e s in
  res_out res = Returned ret ->
  opens (res_trace res) = (Open p O_RDONLY 0, ro) :: rest ->
  (rv ro <> -1 \/ ret = 0 -> unlinks (res_trace res) = []) /\
  (rv ro = -1 -> ret <> 0 ->
   forall flags wo rest',
     rest = (Open p flags mode, wo) :: rest' -> rv wo <> -1 ->
     exists u, unlinks (res_trace res) = [(Unlink p, u)]).
Proof.
  intros p res. subst p. wp_start res.
  set_paths h.
  all: intros Hout; try discriminate Hout; injection Hout as <-.
  all: repeat match goal with
       | H : Forall (fun ev => sync_call (fst ev) = true) _ |- _ =>
           apply unlinks_sync in H
       end.
  all: unfold opens, unlinks in *;
    cbn [filter is_open is_unlink fst]; rewrite ?filter_app;
    cbn [filter is_open is_unlink fst app].
  all: repeat match goal with H : filter is_unlink _ = [] |- _ =>
         rewrite H; clear H end; cbn [app].
  all: intros Ho; try discriminate Ho; injection Ho as <- <-.
  all: boolfacts.
  all: split; [ intros [X|X]; first [ reflexivity | congruence ] |].
  all: intros Hro Hret; try congruence.
  all: intros flags wo rest' Hrest Hwo; try discriminate Hrest.
  all: try (injection Hrest as <- <- <-; try congruence).
  all: try (eexists; reflexivity).
Qed.
(** X3: in every environment, efivarfs_get_variable first calls geteuid, and
    every read it issues (the 4-byte read of the attribute word and
    read_file) comes right after a usleep: of 10000 microseconds when
    geteuid is not 0, of 0 when it is. *)
Theorem get_sleeps_before_each_read S (h : handler S) root guid name e s :
  let res := run h (efivarfs_get_variable root guid name) e s in
  exists u rest,
    res_trace res = (Geteuid, u) :: rest /\
    reads_delayed (if rv u =? 0 then 0 else 10000) rest = true.
Proof.
  intros res. wp_start res.
  unfold efivarfs_get_variable, make_efivarfs_path, get_cleanup, read_file,
    free.
  wp_all h.
  all: do 2 eexists; split; [reflexivity|].
  all: cbn [reads_delayed is_read_call negb andb].
  all: rewrite ?Z.eqb_refl; reflexivity.
Qed.


(** X5: in every environment, when the chmod(2) call of
    efivarfs_chmod_variable fails, errno on return is the value chmod left:
    the logging and the free that follow do not change it. *)
Theorem chmod_failure_keeps_errno S (h : handler S) root guid name mode e s
  pre c post :
  let res := run h (efivarfs_chmod_variable root guid name mode) e s in
  res_trace res = pre ++ (Chmod (var_path root guid name) mode, c) :: post ->
  rv c < 0 ->
  res_errno res = errno_after e (pre ++ [(Chmod (var_path root guid name) mode, c)]).
Proof.
  intros res. wp_start res.
  unfold efivarfs_chmod_variable, make_efivarfs_path, free.
  wp_all h.
  all: intros Htr Hc.
  all: destruct pre as [|x pre]; [discriminate Htr|].
  all: injection Htr as <- Htr.
  all: destruct pre as [|y pre]; try discriminate Htr.
  all: try (injection Htr as <- Htr; reflexivity).
  all: injection Htr as <- Htr.
  all: repeat (destruct pre as [|? pre]; try discriminate Htr;
               injection Htr as <- Htr).
Qed.

(** ** On the file system: the queries *)

Lemma posix_reader_inodes c s r s' :
  reader_call c = true -> posix s c = (r, s') -> fs_inodes s' = fs_inodes s.
Proof.
  intros K E. destruct c; simpl in K, E; try discriminate K;
    try (injection E as <- <-; reflexivity).
  - apply Z.eqb_eq in K. subst flags. unfold posix_open in E.
    change (has_flag O_RDONLY O_WRONLY) with false in E.
    change (has_flag O_RDONLY O_CREAT) with false in E.
    cbn [andb] in E. unfold new_fd in E.
    destruct (path_inode s path) as [[m i]|]; injection E as <- <-;
      reflexivity.
  - unfold posix_close in E. destruct (fd_lookup s fd);
      injection E as <- <-; reflexivity.
  - unfold posix_read in E. destruct (fd_inode s fd) as [[o i]|];
      [destruct (o_write o)|]; injection E as <- <-; reflexivity.
  - unfold posix_read_file in E. destruct (fd_inode s fd) as [[o i]|];
      [destruct (o_write o)|]; injection E as <- <-; reflexivity.
  - unfold posix_stat in E. destruct (path_inode s path) as [[m i]|];
      injection E as <- <-; reflexivity.
Qed.

Lemma run_reader_inodes A (p : prog A) :
  issues_only reader_call p ->
  forall e s, fs_inodes (res_env (run posix p e s)) = fs_inodes s.
Proof.
  induction p as [a | c k IH | msg k IH | k IH | e' k IH | code | ];
    simpl; intros Hp e s; auto.
  - destruct Hp as [Hc Hk]. destruct (posix s c) as [r s'] eqn:E. simpl.
    rewrite IH by auto. eapply posix_reader_inodes; eauto.
  - destruct Hp as [_ Hk]. simpl. apply IH; auto.
Qed.

Lemma get_reads root guid name :
  issues_only reader_call (efivarfs_get_variable root guid name).
Proof. unfold efivarfs_get_variable, get_cleanup. issues. Qed.

Lemma size_reads root guid name :
  issues_only reader_call (efivarfs_get_variable_size root guid name).
Proof. unfold efivarfs_get_variable_size, size_cleanup. issues. Qed.

Lemma attributes_reads root guid name :
  issues_only reader_call (efivarfs_get_variable_attributes root guid name).
Proof.
  unfold efivarfs_get_variable_attributes, efi_get_variable,
    efivarfs_get_variable, get_cleanup.
  issues.
Qed.

Lemma update_snoc A (l : list A) (x y : A) :
  update (l ++ [x]) (List.length l) y = l ++ [y].
Proof. induction l as [|a l IH]; simpl; congruence. Qed.

Lemma fd_lookup_borrowed s s0 fd :
  borrowed s s0 fd ->
  exists o i, fd_inode s0 fd = Some (o, i) /\ o_write o = false /\
              s0 = set_fds s (fs_fds s ++ [Some o]).
Proof.
  intros (-> & o & i & -> & Hi & Hw). exists o, i.
  unfold fd_inode. rewrite fd_lookup_new_fd. cbn [set_fds fs_inodes].
  rewrite Hi. auto.
Qed.

Lemma set_pos_borrowed s fd o pos :
  fd = Z.of_nat (List.length (fs_fds s)) ->
  set_pos (set_fds s (fs_fds s ++ [Some o])) fd o pos
  = set_fds s (fs_fds s ++ [Some (Ofd (o_ino o) pos (o_write o) (o_append o))]).
Proof.
  intros ->. unfold set_pos, set_fds. cbn [fs_fds fs_inodes fs_euid
    fs_has_flags fs_create_flags fs_beyond].
  rewrite Nat2Z.id, update_snoc. reflexivity.
Qed.

Lemma posix_open_borrows s path mode r s0 n i :
  path_inode s path = Some (n, i) ->
  posix_open s path O_RDONLY mode = (r, s0) ->
  rv r = Z.of_nat (List.length (fs_fds s)) /\ borrowed s s0 (rv r).
Proof.
  intros Hp E. unfold posix_open in E. rewrite Hp in E.
  change (has_flag O_RDONLY O_WRONLY) with false in E.
  change (has_flag O_RDONLY O_CREAT) with false in E.
  cbn [andb] in E. unfold new_fd in E. injection E as <- <-.
  split; [reflexivity|]. split; [reflexivity|].
  exists (Ofd n 0 false (has_flag O_RDONLY O_APPEND)), i.
  split; [reflexivity|]. split; [|reflexivity].
  unfold path_inode in Hp.
  destruct (find_path path (fs_inodes s)) as [m|]; [|discriminate].
  destruct (nth_error (fs_inodes s) m) as [j|] eqn:Hj; [|discriminate].
  injection Hp as <- <-. exact Hj.
Qed.

Lemma borrowed_read s s0 fd count r s1 :
  borrowed s s0 fd -> posix_read s0 fd count = (r, s1) -> borrowed s s1 fd.
Proof.
  intros B E. destruct (fd_lookup_borrowed _ _ _ B) as (o & i & F & W & ->).
  destruct B as (Hfd & _ & i0 & _ & _ & _).
  unfold posix_read in E. rewrite F, W in E. injection E as <- <-.
  rewrite set_pos_borrowed by exact Hfd.
  split; [exact Hfd|]. eexists _, i. split; [reflexivity|].
  cbn [o_ino o_write]. split; [|exact W].
  unfold fd_inode in F. rewrite Hfd, fd_lookup_new_fd in F.
  cbn [set_fds fs_inodes] in F.
  destruct (nth_error (fs_inodes s) (o_ino o)) as [j|]; [|discriminate].
  injection F as <-. reflexivity.
Qed.

Lemma borrowed_read_file s s0 fd r s1 :
  borrowed s s0 fd -> posix_read_file s0 fd = (r, s1) -> borrowed s s1 fd.
Proof.
  intros B E. destruct (fd_lookup_borrowed _ _ _ B) as (o & i & F & W & ->).
  destruct B as (Hfd & _ & i0 & _ & _ & _).
  unfold posix_read_file in E. rewrite F, W in E. injection E as <- <-.
  rewrite set_pos_borrowed by exact Hfd.
  split; [exact Hfd|]. eexists _, i. split; [reflexivity|].
  cbn [o_ino o_write]. split; [|exact W].
  unfold fd_inode in F. rewrite Hfd, fd_lookup_new_fd in F.
  cbn [set_fds fs_inodes] in F.
  destruct (nth_error (fs_inodes s) (o_ino o)) as [j|]; [|discriminate].
  injection F as <-. reflexivity.
Qed.

Lemma borrowed_close s s0 fd r s1 :
  borrowed s s0 fd -> posix_close s0 fd = (r, s1) ->
  r = ok 0 /\ s1 = used_fd s.
Proof.
  intros B E. destruct (fd_lookup_borrowed _ _ _ B) as (o & i & F & W & ->).
  destruct B as (Hfd & _).
  apply fd_inode_some in F. destruct F as [F _].
  unfold posix_close in E. rewrite F in E. injection E as <- <-.
  split; [reflexivity|]. unfold used_fd, set_fds. cbn [fs_fds fs_inodes
    fs_euid fs_has_flags fs_create_flags fs_beyond].
  rewrite Hfd, Nat2Z.id, update_snoc. reflexivity.
Qed.

(** A descriptor that was opened and closed again leaves every descriptor
    as it was. *)
Lemma fd_lookup_used_fd s fd : fd_lookup (used_fd s) fd = fd_lookup s fd.
Proof.
  unfold fd_lookup, used_fd. cbn [set_fds fs_fds].
  destruct (fd <? 0); [reflexivity|].
  destruct (Nat.lt_ge_cases (Z.to_nat fd) (List.length (fs_fds s))) as [L|L].
  - rewrite nth_error_app1 by exact L. reflexivity.
  - rewrite nth_error_app2 by exact L.
    replace (nth_error (fs_fds s) (Z.to_nat fd)) with (@None (option ofd))
      by (symmetry; apply nth_error_None; exact L).
    destruct (Z.to_nat fd - List.length (fs_fds s))%nat as [|[|k]];
      reflexivity.
Qed.

Ltac px_borrowed :=
  lazymatch goal with
  | |- wp posix (bind (sys ?c) _) _ ?s0 _ =>
      lazymatch goal with
      | B : borrowed ?s s0 ?fd |- _ =>
          let r := fresh "r" in
          let s' := fresh "s" in
          let E := fresh "E" in
          apply wp_bind_sys; intros r s' E; cbn [posix] in E;
          lazymatch c with
          | Read _ _ => apply (borrowed_read _ _ _ _ _ _ B) in E; clear B
          | ReadFile _ =>
              apply (borrowed_read_file _ _ _ _ _ B) in E; clear B
          | Close _ =>
              apply (borrowed_close _ _ _ _ _ B) in E;
              destruct E as [-> ->]; clear B
          | _ => injection E as <- <-
          end
      end
  end.

(** get closes the descriptor it opens, and changes nothing else. *)
Lemma get_leaves_fs root guid name e s :
  res_env (run posix (efivarfs_get_variable root guid name) e s)
  = if exists_path s (var_path root guid name) then used_fd s else s.
Proof.
  change (wp posix (efivarfs_get_variable root guid name) e s
            (fun res => res_env res
               = if exists_path s (var_path root guid name)
                 then used_fd s else s)).
  unfold exists_path.
  destruct (path_inode s (var_path root guid name)) as [[n i]|] eqn:P;
    unfold efivarfs_get_variable, make_efivarfs_path, get_cleanup,
      read_file, free;
    (px_plain; repeat px_branch; px_plain; repeat px_branch;
     apply wp_bind_sys; intros r s0 E; cbn [posix] in E).
  - destruct (posix_open_borrows _ _ _ _ _ _ _ P E) as [Hr Hb]. clear E.
    repeat (first [ px_branch | px_borrowed | px_plain ]).
    all: px_leaf; reflexivity.
  - rewrite (posix_open_absent s _ O_RDONLY 0 P eq_refl) in E.
    injection E as <- <-.
    repeat (first [ px_branch | px_plain ]).
    all: px_leaf; reflexivity.
Qed.

(** X6: on the file-system model, efivarfs_get_variable and
    efivarfs_get_variable_attributes leave every file as it was and close
    the one descriptor they open (the state is the initial one, with one
    used-up descriptor number when the file exists);
    efivarfs_get_variable_size leaves the state exactly as it was. *)
Theorem queries_leave_fs_as_found root guid name e s :
  let p := var_path root guid name in
  res_env (run posix (efivarfs_get_variable root guid name) e s)
    = (if exists_path s p then used_fd s else s) /\
  res_env (run posix (efivarfs_get_variable_attributes root guid name) e s)
    = (if exists_path s p then used_fd s else s) /\
  res_env (run posix (efivarfs_get_variable_size root guid name) e s) = s.
Proof.
  intros p. subst p.
  pose proof (get_leaves_fs root guid name e s) as G.
  split; [exact G|]. split.
  - unfold efivarfs_get_variable_attributes, efi_get_variable.
    rewrite run_bind. unfold then_run. rewrite run_bind. unfold then_run.
    destruct (run posix (efivarfs_get_variable root guid name) e s)
      as [o e1 s1 tr1].
    cbn [res_out res_env res_errno res_trace] in *. subst s1.
    destruct o as [out| |]; cbn [res_env]; try reflexivity.
    unfold when, free.
    destruct (g_ret out <? 0) eqn:G1;
      cbn [bind efi_error sys run posix traced res_out res_env res_errno
           res_trace];
      rewrite G1;
      cbn [bind efi_error sys run posix traced res_out res_env res_errno
           res_trace];
      reflexivity.
  - change (wp posix (efivarfs_get_variable_size root guid name) e s
              (fun res => res_env res = s)).
    unfold efivarfs_get_variable_size, make_efivarfs_path, size_cleanup, free.
    repeat px_branch. px_plain. repeat px_branch.
    apply wp_bind_sys; intros r s0 E; cbn [posix] in E.
    assert (s0 = s) as ->.
    { unfold posix_stat in E.
      destruct (path_inode s _) as [[n i]|]; injection E as <- <-;
        reflexivity. }
    clear E.
    repeat (first [ px_branch | px_plain ]).
    all: px_leaf; reflexivity.
Qed.

Lemma posix_stat_absent s path :
  path_inode s path = None -> posix_stat s path = (fail ENOENT, s).
Proof. intros H. unfold posix_stat. rewrite H. reflexivity. Qed.

Lemma posix_stat_holds s path n d :
  holds s path n d ->
  posix_stat s path
  = (Reply 0 None [] 0 (Z.of_nat n) (Z.of_nat (List.length d)) 0, s).
Proof.
  intros H. destruct (holds_path_inode _ _ _ _ H) as (i & Hi & <-).
  unfold posix_stat. rewrite Hi. reflexivity.
Qed.

(** X7: for a variable that has no backing file, get, get_variable_size and
    get_variable_attributes all return -1 with errno ENOENT, and the last
    two store nothing. *)
Theorem queries_of_missing_variable root guid name e s :
  file_data s (var_path root guid name) = None ->
  (let res := run posix (efivarfs_get_variable root guid name) e s in
   res_out res = Returned get_failed /\ res_errno res = ENOENT) /\
  (let res := run posix (efivarfs_get_variable_size root guid name) e s in
   res_out res = Returned (-1, None) /\ res_errno res = ENOENT) /\
  (let res := run posix (efivarfs_get_variable_attributes root guid name)
                e s in
   res_out res = Returned (-1, None) /\ res_errno res = ENOENT).
Proof.
  intros Habs. apply file_data_none in Habs. split; [|split].
  - intros res. wp_start res.
    unfold efivarfs_get_variable, make_efivarfs_path, get_cleanup, read_file,
      free.
    repeat (first [ px_branch | px_open | px_plain ]).
    all: px_leaf; split; reflexivity.
  - intros res. wp_start res.
    unfold efivarfs_get_variable_size, make_efivarfs_path, size_cleanup, free.
    repeat px_branch. px_plain. repeat px_branch.
    apply wp_bind_sys; intros r s0 E; cbn [posix] in E.
    rewrite (posix_stat_absent _ _ Habs) in E. injection E as <- <-.
    repeat (first [ px_branch | px_plain ]).
    all: px_leaf; split; reflexivity.
  - intros res. wp_start res.
    unfold efivarfs_get_variable_attributes, efi_get_variable,
      efivarfs_get_variable, make_efivarfs_path, get_cleanup, read_file, free.
    repeat (first [ px_branch | px_open | px_plain ]).
    all: px_leaf; split; reflexivity.
Qed.

(** The size query reports the length of the file less the four bytes of
    the attribute word, computed in [size_t]. *)
Lemma size_of_file root guid name e s d :
  file_data s (var_path root guid name) = Some d ->
  res_out (run posix (efivarfs_get_variable_size root guid name) e s)
  = Returned (0, Some (size_t (Z.of_nat (List.length d) - 4))).
Proof.
  intros Hd. destruct (file_data_holds _ _ _ Hd) as (n & H).
  change (wp posix (efivarfs_get_variable_size root guid name) e s
            (fun res => res_out res
               = Returned (0, Some (size_t (Z.of_nat (List.length d) - 4))))).
  unfold efivarfs_get_variable_size, make_efivarfs_path, size_cleanup, free.
  repeat px_branch. px_plain. repeat px_branch.
  apply wp_bind_sys; intros r s0 E; cbn [posix] in E.
  rewrite (posix_stat_holds _ _ _ _ H) in E. injection E as <- <-.
  repeat (first [ px_branch | px_plain ]).
  all: px_leaf; reflexivity.
Qed.

(** X8: for a variable file holding a 4-byte attribute word and a payload
    (of a length that fits size_t), efivarfs_get_variable_size returns 0 and
    reports the length of the payload (st_size - 4), which is also the data
    size efivarfs_get_variable reports. *)
Theorem size_agrees_with_get root guid name e e' s hdr payload :
  file_data s (var_path root guid name) = Some (hdr ++ payload) ->
  List.length hdr = 4%nat ->
  Z.of_nat (List.length payload) <= SIZE_MAX ->
  res_out (run posix (efivarfs_get_variable_size root guid name) e s)
    = Returned (0, Some (Z.of_nat (List.length payload))) /\
  exists out,
    res_out (run posix (efivarfs_get_variable root guid name) e' s)
      = Returned out /\
    g_ret out = 0 /\ g_data_size out = Z.of_nat (List.length payload).
Proof.
  intros Hd Hh Hmax. split.
  - rewrite (size_of_file _ _ _ _ _ _ Hd). rewrite length_app, Hh.
    replace (Z.of_nat (4 + List.length payload) - 4)
      with (Z.of_nat (List.length payload)) by lia.
    rewrite size_t_small by lia. reflexivity.
  - destruct (file_data_holds _ _ _ Hd) as (n & H).
    destruct (get_reads_file root guid name e' s n hdr payload H Hh)
      as [Hget _].
    eexists. split; [exact Hget|]. cbn [g_ret g_data_size].
    split; [reflexivity|].
    rewrite length_app. cbn [List.length].
    replace (Z.of_nat (List.length payload + 1) - 1)
      with (Z.of_nat (List.length payload)) by lia.
    apply size_t_small. lia.
Qed.

(** X9: for a variable file shorter than 4 bytes, efivarfs_get_variable_size
    still returns 0, and the size it stores wraps around to SIZE_MAX - 3 +
    the file length, since st_size - sizeof(uint32_t) is computed in size_t. *)
Theorem size_wraps_on_short_file root guid name e s d :
  file_data s (var_path root guid name) = Some d ->
  (List.length d < 4)%nat ->
  res_out (run posix (efivarfs_get_variable_size root guid name) e s)
    = Returned (0, Some (SIZE_MAX - 3 + Z.of_nat (List.length d))).
Proof.
  intros Hd Hlen. rewrite (size_of_file _ _ _ _ _ _ Hd).
  do 3 f_equal. unfold size_t, SIZE_MAX.
  rewrite <- (Z.mod_add _ 1) by lia.
  rewrite Z.mod_small by lia. lia.
Qed.

Lemma attributes_run_of_file root guid name e s hdr payload :
  file_data s (var_path root guid name) = Some (hdr ++ payload) ->
  List.length hdr = 4%nat ->
  res_out (run posix (efivarfs_get_variable_attributes root guid name) e s)
    = Returned (0, Some (decode_le hdr)).
Proof.
  intros Hd Hh. destruct (file_data_holds _ _ _ Hd) as (n & H).
  destruct (get_reads_file root guid name e s n hdr payload H Hh)
    as [Hget _].
  unfold efivarfs_get_variable_attributes, efi_get_variable.
  rewrite run_bind. unfold then_run. rewrite run_bind. unfold then_run.
  rewrite Hget.
  cbn [g_ret g_attributes when bind efi_error sys free run posix traced
       res_out res_env res_errno res_trace].
  reflexivity.
Qed.

(** X10: for a variable file holding a 4-byte attribute word and a payload,
    efivarfs_get_variable_attributes returns 0 and stores the attribute
    word, the little-endian value of the first four bytes, which is also
    what efivarfs_get_variable reports. *)
Theorem attributes_of_file root guid name e s hdr payload :
  file_data s (var_path root guid name) = Some (hdr ++ payload) ->
  List.length hdr = 4%nat ->
  res_out (run posix (efivarfs_get_variable_attributes root guid name) e s)
    = Returned (0, Some (decode_le hdr)) /\
  exists out,
    res_out (run posix (efivarfs_get_variable root guid name) e s)
      = Returned out /\
    g_ret out = 0 /\ g_attributes out = decode_le hdr.
Proof.
  intros Hd Hh. destruct (file_data_holds _ _ _ Hd) as (n & H).
  destruct (get_reads_file root guid name e s n hdr payload H Hh)
    as [Hget _].
  split; [|eexists; split; [exact Hget|]; split; reflexivity].
  apply (attributes_run_of_file root guid name e s hdr payload Hd Hh).
Qed.

(** The size query on the kernel: [stat] refused, or the length of the
    file less the four bytes of the attribute word. *)
Lemma kernel_size_of_file root guid name e fl s d :
  file_data s (var_path root guid name) = Some d ->
  exists ret,
    res_out (run kernel (efivarfs_get_variable_size root guid name) e (fl, s))
    = Returned ret /\
    (fst ret = 0 ->
     ret = (0, Some (size_t (Z.of_nat (List.length d) - 4)))).
Proof.
  intros Hd. destruct (file_data_holds _ _ _ Hd) as (n & H).
  change (wp kernel (efivarfs_get_variable_size root guid name) e (fl, s)
            (fun res => exists ret, res_out res = Returned ret /\
               (fst ret = 0 ->
                ret = (0, Some (size_t (Z.of_nat (List.length d) - 4)))))).
  unfold efivarfs_get_variable_size, make_efivarfs_path, size_cleanup, free.
  repeat px_branch. kx_plain. repeat px_branch.
  apply wp_bind_kernel; intros r s0 E.
  destruct E as [E | k E | e0 _ -> ->];
    try (cbn [posix shorten] in E;
         rewrite (posix_stat_holds _ _ _ _ H) in E; injection E as <- <-).
  all: repeat (first [ px_branch | kx_plain ]).
  all: px_leaf; eexists; (split; [reflexivity|]); cbn [fst].
  all: first [ reflexivity | intros X; discriminate X | idtac ].
Qed.

(** The attribute query on the kernel. *)
Lemma kernel_attributes_of_file root guid name e fl s n hdr payload :
  holds s (var_path root guid name) n (hdr ++ payload) ->
  List.length hdr = 4%nat ->
  let res := run kernel (efivarfs_get_variable_attributes root guid name) e
               (fl, s) in
  exists ret,
    res_out res = Returned ret /\
    (fst ret = 0 -> forallb full_read (res_trace res) = true ->
     ret = (0, Some (decode_le hdr))).
Proof.
  intros H Hh res. wp_start res.
  unfold efivarfs_get_variable_attributes, efi_get_variable.
  apply wp_bind_assoc. apply wp_bind. unfold wp at 1.
  destruct (kernel_get_reads_file root guid name e fl s n hdr payload H Hh)
    as (out & Hout & Hval).
  destruct (run kernel (efivarfs_get_variable root guid name) e (fl, s))
    as [o e1 [fl1 s1] tr1].
  cbn [res_out res_env res_errno res_trace] in *. subst o.
  unfold free.
  repeat (first [ px_branch | kx_plain ]).
  all: px_leaf; eexists; (split; [reflexivity|]); cbn [fst]; intros G F.
  - exfalso. boolfacts. lia.
  - rewrite forallb_app in F. apply andb_true_iff in F. destruct F as [F _].
    rewrite (Hval G F). reflexivity.
Qed.

(** X11: on a kernel that may refuse calls and cut reads and writes
    short, after an efivarfs_set_variable of a 32-bit attribute word that
    returned 0 and whose write moved the whole buffer (on a variable that
    had no file, or without the append attribute on a file not longer than
    the new content; the variable file is not under a boot-partition mount
    point, and the file the sync opens for writing is a plain name under
    one), both
    queries return; get_variable_size, when it returns 0, reports the
    length of the data written, and get_variable_attributes, when it
    returns 0 and its read of the attribute word was not cut short, the
    attribute word written.  Without faults both return 0 and report these
    values. *)
Theorem set_then_queries root fuel guid name data attributes mode e e1 e2 s
  faults faults1 faults2 :
  let p := var_path root guid name in
  0 <= attributes < 2 ^ 32 ->
  not_under_esp p ->
  (file_data s p = None \/
   has_flag attributes EFI_VARIABLE_APPEND_WRITE = false /\
   exists old, file_data s p = Some old /\
               (List.length old <= 4 + List.length data)%nat) ->
  let set := run kernel
               (efivarfs_set_variable root fuel guid name data
                  (Z.of_nat (List.length data)) attributes mode) e
               (faults, s) in
  res_out set = Returned 0 ->
  forallb full_write (res_trace set) = true ->
  Forall plain_output (res_trace set) ->
  let s' := snd (res_env set) in
  let size := run kernel (efivarfs_get_variable_size root guid name) e1
                (faults1, s') in
  let attr := run kernel (efivarfs_get_variable_attributes root guid name) e2
                (faults2, s') in
  (exists ret,
     res_out size = Returned ret /\
     (faults1 = [] \/ fst ret = 0 ->
      ret = (0, Some (Z.of_nat (List.length data))))) /\
  (exists ret,
     res_out attr = Returned ret /\
     (faults2 = [] \/
      fst ret = 0 /\ forallb full_read (res_trace attr) = true ->
      ret = (0, Some attributes))).
Proof.
  intros p Ha Hesp Hpre set Hset Hfull _ s' size attr.
  pose proof (kernel_set_writes_file root fuel guid name data attributes mode
                e faults s Hesp Hpre Hset Hfull) as Hfile.
  fold set in Hfile. fold s' in Hfile. fold p in Hfile.
  pose proof (set_success_size _ kernel root fuel guid name data _
                attributes mode e (faults, s) Hset) as Hs.
  unfold sizeof_attributes in Hs.
  assert (Hlen : size_t (Z.of_nat (List.length (encode_u32 attributes ++ data))
                         - 4) = Z.of_nat (List.length data)).
  { rewrite length_app, encode_u32_length.
    replace (Z.of_nat (4 + List.length data) - 4)
      with (Z.of_nat (List.length data)) by lia.
    apply size_t_small. lia. }
  split.
  - destruct (kernel_size_of_file root guid name e1 faults1 s' _ Hfile)
      as (ret & Hret & Hval).
    fold size in Hret. exists ret. split; [exact Hret|].
    intros [Hf | G].
    + subst size. rewrite Hf, kernel_quiet_run in Hret.
      cbn [res_out] in Hret.
      rewrite (size_of_file _ _ _ _ _ _ Hfile), Hlen in Hret.
      injection Hret as <-. reflexivity.
    + rewrite (Hval G), Hlen. reflexivity.
  - destruct (file_data_holds _ _ _ Hfile) as (n & Hn).
    destruct (kernel_attributes_of_file root guid name e2 faults2 s' n
                (encode_u32 attributes) data Hn eq_refl)
      as (ret & Hret & Hval).
    fold attr in Hret, Hval. exists ret. split; [exact Hret|].
    intros [Hf | [G F]].
    + subst attr. rewrite Hf, kernel_quiet_run in Hret.
      cbn [res_out] in Hret.
      rewrite (attributes_run_of_file root guid name e2 s'
                 (encode_u32 attributes) data Hfile eq_refl) in Hret.
      rewrite (decode_encode_u32 attributes Ha) in Hret.
      injection Hret as <-. reflexivity.
    + rewrite (Hval G F), (decode_encode_u32 attributes Ha). reflexivity.
Qed.

(** ** On the file system: the names of the files *)

Lemma find_path_names path l l' :
  map i_path l' = map i_path l -> find_path path l' = find_path path l.
Proof.
  revert l'. induction l as [|x l IH]; intros [|y l']; simpl;
    try discriminate; auto.
  intros H. injection H as Hp Hl. unfold is_path. rewrite Hp.
  rewrite (IH _ Hl). reflexivity.
Qed.

Lemma names_update l n x y :
  nth_error l n = Some y -> i_path x = i_path y ->
  map i_path (update l n x) = map i_path l.
Proof.
  revert n. induction l as [|z l IH]; intros n; simpl.
  - destruct n; discriminate.
  - destruct n as [|n]; simpl.
    + intros H Hp; injection H as ->. rewrite Hp. reflexivity.
    + intros H Hp. rewrite (IH n H Hp). reflexivity.
Qed.

Lemma path_inode_nth s path n i :
  path_inode s path = Some (n, i) -> nth_error (fs_inodes s) n = Some i.
Proof.
  unfold path_inode.
  destruct (find_path path (fs_inodes s)) as [m|]; [|discriminate].
  destruct (nth_error (fs_inodes s) m) as [j|] eqn:Hj; [|discriminate].
  intros H; injection H as <- <-. exact Hj.
Qed.

Lemma exists_path_names s s' path :
  names s' = names s -> exists_path s' path = exists_path s path.
Proof.
  unfold names, exists_path, path_inode. intros H.
  rewrite (find_path_names path _ _ H).
  destruct (find_path path (fs_inodes s)) as [n|] eqn:F; [|reflexivity].
  destruct (find_path_nth _ _ _ F) as (i & Hi & _). rewrite Hi.
  rewrite <- (find_path_names path _ _ H) in F.
  destruct (find_path_nth _ _ _ F) as (j & Hj & _). rewrite Hj. reflexivity.
Qed.

Lemma file_data_names s s' path :
  names s' = names s -> file_data s path = None -> file_data s' path = None.
Proof.
  intros H Hd. pose proof (exists_path_names s s' path H) as X.
  unfold exists_path, file_data in *.
  destruct (path_inode s path); [discriminate|].
  destruct (path_inode s' path); [discriminate|reflexivity].
Qed.

Lemma posix_open_names s path flags mode r s' :
  has_flag flags O_CREAT = false \/ exists_path s path = true ->
  posix_open s path flags mode = (r, s') -> names s' = names s.
Proof.
  intros H E. unfold posix_open, exists_path, new_fd in *.
  destruct (path_inode s path) as [[n i]|] eqn:P.
  - destruct (has_flag flags O_CREAT && has_flag flags O_EXCL);
      [injection E as <- <-; reflexivity|].
    destruct (has_flag flags O_WRONLY && immutable i);
      [injection E as <- <-; reflexivity|].
    destruct (has_flag flags O_WRONLY && has_flag flags O_TRUNC);
      injection E as <- <-; [|reflexivity].
    unfold names. simpl. apply names_update with (y := i).
    + eapply path_inode_nth; eauto.
    + reflexivity.
  - destruct H as [H|H]; [|discriminate H]. rewrite H in E.
    injection E as <- <-. reflexivity.
Qed.

Lemma posix_fopen_names s path mode r s' :
  String.eqb mode "rb" = true \/ exists_path s path = true ->
  posix_fopen s path mode = (r, s') -> names s' = names s.
Proof.
  intros H E. unfold posix_fopen in E.
  destruct (posix_open s path _ 438) as [r0 s0] eqn:O.
  assert (N : names s0 = names s).
  { eapply posix_open_names; [|exact O].
    destruct H as [H|H]; [left; rewrite H; reflexivity | right; exact H]. }
  destruct (rv r0 <? 0); injection E as <- <-; exact N.
Qed.

Lemma posix_write_names s fd buf count r s' :
  posix_write s fd buf count = (r, s') -> names s' = names s.
Proof.
  intros E. unfold posix_write in E.
  destruct (fd_inode s fd) as [[o i]|] eqn:F;
    [|injection E as <- <-; reflexivity].
  destruct (negb (o_write o)); [injection E as <- <-; reflexivity|].
  destruct (immutable i); injection E as <- <-; [reflexivity|].
  apply fd_inode_some in F. destruct F as [_ Hi].
  unfold names, set_pos. simpl. apply names_update with (y := i); auto.
Qed.

Lemma posix_keeps_names c s r s' :
  keeps_names c = true -> posix s c = (r, s') -> names s' = names s.
Proof.
  intros K E. destruct c; simpl in K, E; try discriminate K;
    try (injection E as <- <-; reflexivity).
  - apply negb_true_iff in K. eapply posix_open_names; eauto.
  - unfold posix_close in E. destruct (fd_lookup s fd);
      injection E as <- <-; reflexivity.
  - unfold posix_read in E. destruct (fd_inode s fd) as [[o i]|];
      [destruct (o_write o)|]; injection E as <- <-; reflexivity.
  - unfold posix_read_file in E. destruct (fd_inode s fd) as [[o i]|];
      [destruct (o_write o)|]; injection E as <- <-; reflexivity.
  - eapply posix_write_names; eauto.
  - unfold posix_fstat in E. destruct (fd_inode s fd) as [[o i]|];
      injection E as <- <-; reflexivity.
  - unfold posix_stat in E. destruct (path_inode s path) as [[m i]|];
      injection E as <- <-; reflexivity.
  - unfold posix_getflags in E. destruct (fd_inode s fd) as [[o i]|];
      [destruct (fs_has_flags s)|]; injection E as <- <-; reflexivity.
  - unfold posix_setflags in E.
    destruct (fd_inode s fd) as [[o i]|] eqn:F;
      [destruct (fs_has_flags s)|]; injection E as <- <-; try reflexivity.
    apply fd_inode_some in F. destruct F as [_ Hi].
    unfold names. simpl. apply names_update with (y := i); auto.
  - unfold posix_chmod in E.
    destruct (path_inode s path) as [[m i]|] eqn:P;
      [destruct (immutable i)|]; injection E as <- <-; try reflexivity.
    unfold names. simpl. apply names_update with (y := i); auto.
    eapply path_inode_nth; eauto.
  - eapply posix_fopen_names; eauto.
  - unfold posix_fread, posix_read in E.
    destruct (fd_inode s (stream - 1)) as [[o i]|];
      [destruct (o_write o)|]; simpl in E;
      try (injection E as <- <-; reflexivity).
    destruct (_ <? 0); injection E as <- <-; reflexivity.
  - unfold posix_fwrite in E.
    destruct (posix_write s (stream - 1) buf _) as [r0 s0] eqn:W.
    apply posix_write_names in W.
    destruct (rv r0 <? 0); injection E as <- <-; exact W.
  - unfold posix_close in E. destruct (fd_lookup s (stream - 1));
      injection E as <- <-; reflexivity.
Qed.

Lemma run_keeps_names A (p : prog A) :
  issues_only keeps_names p ->
  forall e s, names (res_env (run posix p e s)) = names s.
Proof.
  induction p as [a | c k IH | msg k IH | k IH | e' k IH | code | ];
    simpl; intros Hp e s; auto.
  - destruct Hp as [Hc Hk]. destruct (posix s c) as [r s'] eqn:E. simpl.
    rewrite IH by auto. eapply posix_keeps_names; eauto.
  - destruct Hp as [_ Hk]. simpl. apply IH; auto.
Qed.

Lemma reader_keeps_names c : reader_call c = true -> keeps_names c = true.
Proof.
  destruct c; simpl; try discriminate; auto.
  intros H. apply Z.eqb_eq in H. subst. reflexivity.
Qed.

Lemma copy_keeps_names c : copy_call c = true -> keeps_names c = true.
Proof. destruct c; simpl; try discriminate; auto. Qed.

Lemma write_chunk_copies fuel out fp buffer n t :
  issues_only copy_call (write_chunk fuel out fp buffer n t).
Proof.
  revert t. induction fuel as [|fuel IH]; intros t; simpl.
  - destruct (t <? n); simpl; auto.
  - destruct (t <? n); simpl; auto. split; auto. intros r.
    destruct (size_t (rv r) =? 0); simpl; auto.
Qed.

Lemma copy_loop_copies fuel v o fp buffer :
  issues_only copy_call (copy_loop fuel v o fp buffer).
Proof.
  revert buffer. induction fuel as [|fuel IH]; intros buffer.
  - exact I.
  - cbn [copy_loop]. apply issues_only_bind.
    + simpl; auto.
    + intros r. destruct (size_t (rv r) >? 0); [|exact I].
      apply issues_only_bind. apply write_chunk_copies.
      intros []; [exact I | apply IH].
Qed.

Lemma write_file_cleanup_copies v o failed :
  issues_only copy_call (write_file_cleanup v o failed).
Proof. unfold write_file_cleanup. issues. Qed.

(** What follows the two [fopen] of [write_file]. *)
Lemma write_file_names root fuel fp e s :
  exists_path s fp = true ->
  names (res_env (run posix (write_file root fuel fp) e s)) = names s.
Proof.
  intros Hfp.
  change (wp posix (write_file root fuel fp) e s
            (fun res => names (res_env res) = names s)).
  unfold write_file, make_efivarfs_path, fprintf.
  repeat px_branch. px_plain. repeat px_branch.
  (* fopen(path, "rb") *)
  apply wp_bind_sys; intros v s1 E1. cbn [posix] in E1.
  pose proof (posix_fopen_names s _ "rb" v s1 (or_introl eq_refl) E1) as N1.
  clear E1. repeat px_branch.
  { unfold wp; cbv beta; cbn [traced after res_env].
    rewrite run_keeps_names; [exact N1|].
    apply issues_only_bind; [simpl; auto|]. intros _.
    eapply issues_only_weaken; [exact copy_keeps_names|].
    apply write_file_cleanup_copies. }
  (* fopen(filepath, "wb") *)
  apply wp_bind_sys; intros o s2 E2. cbn [posix] in E2.
  assert (N2 : names s2 = names s).
  { rewrite <- N1. eapply posix_fopen_names; [|exact E2]. right.
    rewrite (exists_path_names s s1 fp N1). exact Hfp. }
  clear E2. unfold wp; cbv beta; cbn [traced after res_env].
  rewrite run_keeps_names; [exact N2|].
  eapply issues_only_weaken; [exact copy_keeps_names|].
  repeat px_branch.
  destruct (rv o =? 0).
  - apply issues_only_bind; [simpl; auto|]. intros _.
    apply write_file_cleanup_copies.
  - apply issues_only_bind; [simpl; auto|]. intros h.
    destruct (size_t (rv h) <? 4).
    + apply issues_only_bind; [simpl; auto|]. intros _.
      apply write_file_cleanup_copies.
    + apply issues_only_bind; [apply copy_loop_copies|]. intros failed.
      apply write_file_cleanup_copies.
Qed.

Lemma esp_filepath_stats paths filename sz e s :
  res_env (run posix (get_esp_filepath_from paths filename sz) e s) = s.
Proof.
  revert e. induction paths as [|p paths IH]; intros e; simpl; auto.
  destruct (_ >=? _); unfold fprintf; simpl; auto.
  unfold posix_stat. destruct (path_inode s _) as [[n i]|]; simpl.
  - reflexivity.
  - apply IH.
Qed.

Lemma esp_filepath_exists paths filename sz e s filepath :
  res_out (run posix (get_esp_filepath_from paths filename sz) e s)
    = Returned (0, filepath) ->
  exists_path s filepath = true.
Proof.
  revert e. induction paths as [|p paths IH]; intros e; simpl.
  - intros H. discriminate H.
  - destruct (_ >=? _); unfold fprintf; simpl.
    + intros H. discriminate H.
    + unfold posix_stat, exists_path in *.
      destruct (path_inode s (p ++ filename)) as [[n i]|] eqn:P; simpl.
      * intros H. injection H as <-. rewrite P. reflexivity.
      * apply IH.
Qed.

Lemma sync_keeps_names root fuel e s :
  names (res_env (run posix (efi_update_var_file root fuel) e s)) = names s.
Proof.
  unfold efi_update_var_file.
  rewrite run_bind. unfold then_run.
  pose proof (run_keeps_names _
                (get_esp_filename root (repeat x00 (Z.to_nat (PATH_MAX / 4)))
                   (PATH_MAX / 4))
                (issues_only_weaken _ _ _ _ reader_keeps_names
                   (esp_filename_reads root _ _)) e s) as H1.
  destruct (run posix (get_esp_filename root _ _) e s) as [o1 e1 s1 tr1].
  cbn [res_out res_env res_errno res_trace] in *.
  destruct o1 as [[rc filename]| |]; cbn [res_env]; try assumption.
  destruct (rc <? 0); [cbn [run res_env]; assumption|].
  rewrite run_bind. unfold then_run.
  destruct (read_cstring_posix filename e1 s1) as (name & trn & ->).
  cbn [res_out res_env res_errno res_trace].
  rewrite run_bind. unfold then_run, get_esp_filepath.
  pose proof (esp_filepath_stats esp_paths
                (string_of_bytes name) PATH_MAX e1 s1) as H2.
  pose proof (esp_filepath_exists esp_paths
                (string_of_bytes name) PATH_MAX e1 s1) as Hfp.
  destruct (run posix (get_esp_filepath_from esp_paths _ PATH_MAX) e1 s1)
    as [o2 e2 s2 tr2].
  cbn [res_out res_env res_errno res_trace] in *. subst s2.
  destruct o2 as [[rc' filepath]| |]; cbn [res_env]; try assumption.
  destruct (rc' =? 0) eqn:R.
  - apply Z.eqb_eq in R. subst rc'.
    rewrite write_file_names; [assumption|].
    apply Hfp. reflexivity.
  - unfold fprintf. cbn [bind sys run posix traced res_env]. assumption.
Qed.

Lemma wp_sync_names A root fuel (f : unit -> prog A) e s
  (Q : result fs A -> Prop) :
  (forall o e' s' tr,
      names s' = names s ->
      match o with
      | Returned a => wp posix (f a) e' s' (fun r' => Q (after tr r'))
      | Exited code => Q (Result (Exited code) e' s' tr)
      | OutOfFuel => Q (Result OutOfFuel e' s' tr)
      end) ->
  wp posix (bind (efi_update_var_file root fuel) f) e s Q.
Proof.
  intros H. apply wp_bind. unfold wp at 1.
  pose proof (sync_keeps_names root fuel e s) as Hs.
  destruct (run posix (efi_update_var_file root fuel) e s) as [o e' s' tr].
  specialize (H o e' s' tr Hs). simpl in *. destruct o; exact H.
Qed.

(** ** On the file system: one call at a time *)

Lemma path_inode_inodes s s' path :
  fs_inodes s' = fs_inodes s -> path_inode s' path = path_inode s path.
Proof. unfold path_inode. intros ->. reflexivity. Qed.

Lemma posix_open_rdonly s path mode n i :
  path_inode s path = Some (n, i) ->
  posix_open s path O_RDONLY mode
  = new_fd s (Ofd n 0 false false).
Proof.
  intros Hp. unfold posix_open. rewrite Hp. reflexivity.
Qed.

Lemma fd_inode_new_fd s o i :
  nth_error (fs_inodes s) (o_ino o) = Some i ->
  fd_inode (snd (new_fd s o)) (rv (fst (new_fd s o))) = Some (o, i).
Proof.
  intros Hi. unfold new_fd, fd_inode. cbn [fst snd rv ok].
  rewrite fd_lookup_new_fd. cbn [set_fds fs_inodes]. rewrite Hi. reflexivity.
Qed.

Lemma posix_getflags_at s fd o i :
  fd_inode s fd = Some (o, i) ->
  posix_getflags s fd
  = (if fs_has_flags s then Reply 0 None [] 0 0 0 (i_flags i)
     else fail ENOTTY, s).
Proof.
  intros F. unfold posix_getflags. rewrite F.
  destruct (fs_has_flags s); reflexivity.
Qed.

Lemma posix_setflags_at s fd o i flags :
  fd_inode s fd = Some (o, i) -> fs_has_flags s = true ->
  posix_setflags s fd flags
  = (ok 0, set_inodes s
             (update (fs_inodes s) (o_ino o)
                (Inode (i_path i) (i_data i) flags (i_mode i)))).
Proof.
  intros F H. unfold posix_setflags. rewrite F, H. reflexivity.
Qed.

Lemma path_inode_update s path n i x :
  path_inode s path = Some (n, i) -> i_path x = i_path i ->
  path_inode (set_inodes s (update (fs_inodes s) n x)) path = Some (n, x).
Proof.
  intros Hp Hx. pose proof (path_inode_nth _ _ _ _ Hp) as Hi.
  unfold path_inode in *. cbn [set_inodes fs_inodes].
  rewrite (find_path_update path _ n x i Hi Hx).
  destruct (find_path path (fs_inodes s)) as [m|]; [|discriminate].
  destruct (nth_error (fs_inodes s) m) as [j|] eqn:Hj; [|discriminate].
  injection Hp as -> ->.
  rewrite (nth_error_update_same _ _ _ x _ Hj). reflexivity.
Qed.

Lemma fd_inode_update s fd o i x :
  fd_inode s fd = Some (o, i) ->
  fd_inode (set_inodes s (update (fs_inodes s) (o_ino o) x)) fd = Some (o, x).
Proof.
  intros F. apply fd_inode_some in F. destruct F as [Fo Fi].
  unfold fd_inode.
  replace (fd_lookup (set_inodes s _) fd) with (fd_lookup s fd)
    by reflexivity.
  rewrite Fo. cbn [set_inodes fs_inodes].
  rewrite (nth_error_update_same _ _ _ x _ Fi). reflexivity.
Qed.

Lemma posix_close_at s fd o i :
  fd_inode s fd = Some (o, i) ->
  posix_close s fd = (ok 0, set_fds s (update (fs_fds s) (Z.to_nat fd) None)).
Proof.
  intros F. apply fd_inode_some in F. destruct F as [Fo _].
  unfold posix_close. rewrite Fo. reflexivity.
Qed.

Lemma posix_unlink_at s path n i :
  path_inode s path = Some (n, i) -> immutable i = false ->
  posix_unlink s path
  = (ok 0, set_inodes s
             (update (fs_inodes s) n
                (Inode None (i_data i) (i_flags i) (i_mode i)))).
Proof.
  intros Hp Hi. unfold posix_unlink. rewrite Hp, Hi. reflexivity.
Qed.

Lemma cleared_flag f :
  has_flag (Z.land f (Z.lnot FS_IMMUTABLE_FL)) FS_IMMUTABLE_FL = false.
Proof.
  unfold has_flag, nonzero.
  rewrite <- Z.land_assoc, (Z.land_comm (Z.lnot _)), Z.land_lnot_diag.
  rewrite Z.land_0_r. reflexivity.
Qed.

(** Taking the name of a file away leaves its path unused, when no other
    file has it. *)
Lemma find_path_unnamed path l n d f m :
  NoDup (flat_map (fun o => match o with Some p => [p] | None => [] end)
           (map i_path l)) ->
  find_path path l = Some n ->
  find_path path (update l n (Inode None d f m)) = None.
Proof.
  revert n. induction l as [|x l IH]; intros n; [discriminate|].
  cbn [map flat_map find_path]. intros ND.
  assert (ND' : NoDup (flat_map
                  (fun o => match o with Some p => [p] | None => [] end)
                  (map i_path l))).
  { destruct (i_path x); [|exact ND].
    cbn [app] in ND. apply NoDup_cons_iff in ND. tauto. }
  destruct (is_path path x) eqn:P.
  - intros H; injection H as <-.
    cbn [update find_path is_path i_path].
    destruct (find_path path l) as [k|] eqn:F; [|reflexivity].
    exfalso. unfold is_path in P.
    destruct (i_path x) as [q|]; [|discriminate].
    apply String.eqb_eq in P. subst q.
    cbn [app] in ND. apply NoDup_cons_iff in ND. destruct ND as [Hq _].
    apply Hq.
    destruct (find_path_nth _ _ _ F) as (i & Hi & Hp).
    apply in_flat_map. exists (Some path). split; [|simpl; auto].
    apply in_map_iff. exists i. split; [|eapply nth_error_In; eauto].
    unfold is_path in Hp. destruct (i_path i) as [q|]; [|discriminate].
    apply String.eqb_eq in Hp. congruence.
  - destruct (find_path path l) as [k|] eqn:F; [|discriminate].
    cbn [option_map]. intros H; injection H as <-.
    cbn [update find_path]. rewrite P.
    rewrite (IH k ND' eq_refl). reflexivity.
Qed.

Lemma unlinked_absent s path n i d f m :
  well_formed s -> path_inode s path = Some (n, i) ->
  file_data (set_inodes s (update (fs_inodes s) n (Inode None d f m))) path
  = None.
Proof.
  intros W Hp. unfold file_data, path_inode. cbn [set_inodes fs_inodes].
  unfold path_inode in Hp.
  destruct (find_path path (fs_inodes s)) as [k|] eqn:F; [|discriminate].
  destruct (nth_error (fs_inodes s) k); [|discriminate].
  injection Hp as -> _.
  rewrite (find_path_unnamed path _ n d f m W F). reflexivity.
Qed.

Lemma well_formed_names s s' :
  names s' = names s -> well_formed s -> well_formed s'.
Proof. unfold well_formed, file_names. intros ->. auto. Qed.

(** One call whose effect is known by an equation. *)
Ltac px_eq lem :=
  lazymatch goal with
  | |- wp _ (bind (sys _) _) _ _ _ => apply wp_bind_sys
  | |- wp _ (sys _) _ _ _ => apply wp_sys
  end;
  let r := fresh "r" in
  let s' := fresh "s" in
  let E := fresh "E" in
  intros r s' E; cbn [posix] in E; rewrite lem in E; injection E as <- <-.

Lemma file_flags_inode s path f :
  file_flags s path = Some f ->
  exists n i, path_inode s path = Some (n, i) /\ i_flags i = f.
Proof.
  unfold file_flags. destruct (path_inode s path) as [[n i]|]; [|discriminate].
  simpl. intros H; injection H as <-. eauto.
Qed.

Lemma posix_open_rdonly_spec s path mode r s0 n i :
  path_inode s path = Some (n, i) ->
  posix_open s path O_RDONLY mode = (r, s0) ->
  0 <= rv r /\ r_errno r = None /\
  fd_inode s0 (rv r) = Some (Ofd n 0 false false, i) /\
  fs_inodes s0 = fs_inodes s /\ fs_has_flags s0 = fs_has_flags s.
Proof.
  intros P E. rewrite (posix_open_rdonly s path mode n i P) in E.
  pose proof (fd_inode_new_fd s (Ofd n 0 false false) i
                (path_inode_nth _ _ _ _ P)) as F.
  rewrite E in F. cbn [fst snd] in F.
  unfold new_fd in E. injection E as <- <-.
  cbn [rv ok r_errno]. repeat split; auto. lia.
Qed.

Lemma posix_setflags_spec s fd o i flags r s' :
  fd_inode s fd = Some (o, i) -> fs_has_flags s = true ->
  posix_setflags s fd flags = (r, s') ->
  let i' := Inode (i_path i) (i_data i) flags (i_mode i) in
  r = ok 0 /\ fd_inode s' fd = Some (o, i') /\
  (forall path, path_inode s path = Some (o_ino o, i) ->
                path_inode s' path = Some (o_ino o, i')) /\
  names s' = names s /\ fs_has_flags s' = fs_has_flags s.
Proof.
  intros F H E i'. rewrite (posix_setflags_at s fd o i flags F H) in E.
  injection E as <- <-. split; [reflexivity|]. split.
  - apply (fd_inode_update s fd o i i' F).
  - split; [|split; [|reflexivity]].
    + intros path P.
      apply (path_inode_update s path (o_ino o) i i' P eq_refl).
    + apply fd_inode_some in F. destruct F as [_ Fi].
      unfold names. cbn [set_inodes fs_inodes].
      apply names_update with (y := i); auto.
Qed.

Lemma posix_close_spec s fd o i r s' :
  fd_inode s fd = Some (o, i) -> posix_close s fd = (r, s') ->
  r = ok 0 /\ fs_inodes s' = fs_inodes s.
Proof.
  intros F E. rewrite (posix_close_at s fd o i F) in E.
  injection E as <- <-. auto.
Qed.

Lemma posix_unlink_spec s path n i r s' :
  well_formed s -> path_inode s path = Some (n, i) -> immutable i = false ->
  posix_unlink s path = (r, s') ->
  r = ok 0 /\ file_data s' path = None.
Proof.
  intros W P I E. rewrite (posix_unlink_at s path n i P I) in E.
  injection E as <- <-. split; [reflexivity|].
  apply (unlinked_absent s path n i _ _ _ W P).
Qed.

Lemma well_formed_inodes s s' :
  fs_inodes s' = fs_inodes s -> well_formed s -> well_formed s'.
Proof. intros H. apply well_formed_names. unfold names. rewrite H. auto. Qed.

(** The end of del on a file that can be unlinked: [close], [unlink], the
    sync, [free]. *)
Ltac del_tail p :=
  lazymatch goal with
  | F : fd_inode ?s1 ?fd = Some (_, ?i1), P : path_inode ?s1 p = Some (_, ?i1),
    W : well_formed ?s1, I : immutable ?i1 = false
    |- wp posix _ _ ?s1 _ =>
      repeat px_branch;
      let c := fresh "c" in
      let s2 := fresh "s" in
      let E := fresh "E" in
      let I2 := fresh "I" in
      apply wp_bind_sys; intros c s2 E; cbn [posix] in E;
      destruct (posix_close_spec _ _ _ _ _ _ F E) as (-> & I2);
      clear E;
      rewrite <- (path_inode_inodes _ _ p I2) in P;
      apply (well_formed_inodes _ _ I2) in W;
      repeat px_branch;
      let u := fresh "u" in
      let s3 := fresh "s" in
      let D := fresh "D" in
      apply wp_bind_sys; intros u s3 E; cbn [posix] in E;
      destruct (posix_unlink_spec _ _ _ _ _ _ W P I E) as (-> & D);
      clear E;
      repeat px_branch;
      let o := fresh "o" in
      let N := fresh "N" in
      apply wp_sync_names; intros o ? ? ? N;
      apply (file_data_names _ _ p N) in D;
      destruct o as [[]| |];
      [ repeat (first [ px_branch | px_plain ]); px_leaf;
        split; [exact D | intros ? X; injection X as <-; reflexivity]
      | wp_finish; split; [exact D | intros ? X; discriminate X]
      | wp_finish; split; [exact D | intros ? X; discriminate X] ]
  end.

(** X12: on a file system where no two files share a path,
    efivarfs_del_variable on a variable whose file exists (and, when that
    file is immutable, on a file system that has the flag ioctls) leaves the
    variable without a file, whatever the outcome of the persistence sync,
    and returns 0 when it returns. *)
Theorem del_removes_variable root fuel guid name e s f :
  let p := var_path root guid name in
  well_formed s ->
  file_flags s p = Some f ->
  fs_has_flags s = true \/ has_flag f FS_IMMUTABLE_FL = false ->
  let res := run posix (efivarfs_del_variable root fuel guid name) e s in
  file_data (res_env res) p = None /\
  forall ret, res_out res = Returned ret -> ret = 0.
Proof.
  intros p W Hf Himm res.
  destruct (file_flags_inode _ _ _ Hf) as (n & i & P & <-). clear Hf.
  wp_start res.
  unfold efivarfs_del_variable, make_efivarfs_path, efivarfs_set_immutable,
    efivarfs_set_fd_immutable, free.
  fold p.
  repeat px_branch. px_plain. repeat px_branch.
  (* open *)
  apply wp_bind_sys; intros r s0 E; cbn [posix] in E.
  destruct (posix_open_rdonly_spec _ _ _ _ _ _ _ P E)
    as (Hfd & Hre & F0 & I0 & C0).
  clear E. unfold new_errno at 1. rewrite Hre.
  assert (P0 : path_inode s0 p = Some (n, i))
    by (rewrite (path_inode_inodes s s0 p I0); exact P).
  assert (W0 : well_formed s0) by (eapply well_formed_inodes; eauto).
  clear P W I0 Hre.
  repeat px_branch.
  (* FS_IOC_GETFLAGS *)
  px_eq (posix_getflags_at s0 (rv r) _ _ F0).
  destruct (fs_has_flags s) eqn:HF; rewrite C0.
  - (* the file system has the flags *)
    clear Himm. repeat px_branch.
    + (* immutable: clear the flag *)
      apply wp_bind_sys; intros c s1 E; cbn [posix] in E.
      destruct (posix_setflags_spec _ _ _ _ _ _ _ F0 C0 E)
        as (-> & F1 & P1 & N1 & C1).
      clear E. specialize (P1 p P0).
      apply (well_formed_names _ _ N1) in W0.
      assert (I1 : immutable
                     (Inode (i_path i) (i_data i)
                        (Z.land (i_flags i) (Z.lnot FS_IMMUTABLE_FL))
                        (i_mode i)) = false) by apply cleared_flag.
      clear F0 P0.
      del_tail p.
    + assert (I1 : immutable i = false) by assumption.
      del_tail p.
  - (* no flags: ENOTTY is let through *)
    destruct Himm as [X|Himm]; [discriminate X|].
    repeat px_branch.
    assert (I1 : immutable i = false) by exact Himm.
    del_tail p.
Qed.

Lemma posix_unlink_absent s path :
  path_inode s path = None -> posix_unlink s path = (fail ENOENT, s).
Proof. intros H. unfold posix_unlink. rewrite H. reflexivity. Qed.

(** X13: efivarfs_del_variable on a variable that has no file returns -1
    when it returns, and the variable still has no file afterwards, whatever
    the persistence sync did. *)
Theorem del_of_missing_variable root fuel guid name e s :
  let p := var_path root guid name in
  file_data s p = None ->
  let res := run posix (efivarfs_del_variable root fuel guid name) e s in
  file_data (res_env res) p = None /\
  forall ret, res_out res = Returned ret -> ret = -1.
Proof.
  intros p Hd res. pose proof (file_data_none _ _ Hd) as Habs.
  wp_start res.
  unfold efivarfs_del_variable, make_efivarfs_path, efivarfs_set_immutable,
    efivarfs_set_fd_immutable, free.
  fold p.
  repeat px_branch. px_plain. repeat px_branch.
  px_eq (posix_open_absent s p O_RDONLY 0 Habs eq_refl).
  repeat px_branch.
  px_eq (posix_unlink_absent s p Habs).
  repeat px_branch.
  apply wp_sync_names; intros o ? ? ? N.
  apply (file_data_names _ _ p N) in Hd.
  destruct o as [[]| |].
  - repeat (first [ px_branch | px_plain ]). px_leaf.
    split; [exact Hd | intros ? X; injection X as <-; reflexivity].
  - wp_finish. split; [exact Hd | intros ? X; discriminate X].
  - wp_finish. split; [exact Hd | intros ? X; discriminate X].
Qed.

(** ** The immutable flag *)

Lemma immutable_bit k : 0 <= k -> Z.testbit FS_IMMUTABLE_FL k = (k =? 4).
Proof.
  intros Hk. change FS_IMMUTABLE_FL with (2 ^ 4).
  rewrite Z.pow2_bits_eqb by lia. apply Z.eqb_sym.
Qed.

Lemma has_immutable_bit f :
  nonzero (Z.land f FS_IMMUTABLE_FL) = Z.testbit f 4.
Proof.
  assert (H : Z.land f FS_IMMUTABLE_FL
              = if Z.testbit f 4 then FS_IMMUTABLE_FL else 0).
  { apply Z.bits_inj'. intros k Hk.
    rewrite Z.land_spec, immutable_bit by exact Hk.
    destruct (Z.eqb_spec k 4) as [->|Ne].
    - destruct (Z.testbit f 4); reflexivity.
    - rewrite andb_false_r.
      destruct (Z.testbit f 4);
        [rewrite immutable_bit by exact Hk; symmetry; apply Z.eqb_neq; exact Ne
        | rewrite Z.bits_0; reflexivity]. }
  unfold nonzero. rewrite H. destruct (Z.testbit f 4); reflexivity.
Qed.

Lemma set_bit f k :
  0 <= k ->
  Z.testbit (Z.lor f FS_IMMUTABLE_FL) k
  = if k =? 4 then true else Z.testbit f k.
Proof.
  intros Hk. rewrite Z.lor_spec, immutable_bit by exact Hk.
  destruct (k =? 4); [apply orb_true_r | apply orb_false_r].
Qed.

Lemma clear_bit f k :
  0 <= k ->
  Z.testbit (Z.land f (Z.lnot FS_IMMUTABLE_FL)) k
  = if k =? 4 then false else Z.testbit f k.
Proof.
  intros Hk. rewrite Z.land_spec, Z.lnot_spec, immutable_bit by exact Hk.
  destruct (k =? 4); [apply andb_false_r | apply andb_true_r].
Qed.

Lemma same_bit f (b : bool) k :
  Z.testbit f 4 = b ->
  Z.testbit f k = if k =? 4 then b else Z.testbit f k.
Proof.
  intros H. destruct (Z.eqb_spec k 4) as [->|]; auto.
Qed.

(** X14: on a file system with the flag ioctls, efivarfs_set_immutable(path,
    immutable) on an existing file returns 0 and changes only bit 4
    (FS_IMMUTABLE_FL) of the file's flags, to the requested value: every
    other flag bit, the content, the mode and the path stay as they were. *)
Theorem set_immutable_changes_one_flag path (imm : bool) e s n i :
  path_inode s path = Some (n, i) ->
  fs_has_flags s = true ->
  let res := run posix (efivarfs_set_immutable path imm) e s in
  res_out res = Returned 0 /\
  exists flags,
    path_inode (res_env res) path
      = Some (n, Inode (i_path i) (i_data i) flags (i_mode i)) /\
    forall k, 0 <= k ->
      Z.testbit flags k = if k =? 4 then imm else Z.testbit (i_flags i) k.
Proof.
  intros P HF res. wp_start res.
  unfold efivarfs_set_immutable, efivarfs_set_fd_immutable.
  (* open *)
  apply wp_bind_sys; intros r s0 E; cbn [posix] in E.
  destruct (posix_open_rdonly_spec _ _ _ _ _ _ _ P E)
    as (Hfd & Hre & F0 & I0 & C0).
  clear E. unfold new_errno at 1. rewrite Hre.
  assert (P0 : path_inode s0 path = Some (n, i))
    by (rewrite (path_inode_inodes s s0 path I0); exact P).
  rewrite HF in C0. clear P I0 Hre.
  repeat px_branch.
  (* FS_IOC_GETFLAGS *)
  px_eq (posix_getflags_at s0 (rv r) _ _ F0).
  rewrite C0. rewrite has_immutable_bit.
  destruct imm; repeat px_branch.
  all: try (apply wp_bind_sys; intros c s1 E; cbn [posix] in E;
            destruct (posix_setflags_spec _ _ _ _ _ _ _ F0 C0 E)
              as (-> & F1 & P1 & N1 & C1);
            clear E; specialize (P1 path P0); clear F0 P0;
            repeat px_branch).
  all: apply wp_bind_sys; intros c' s2 E; cbn [posix] in E.
  all: match goal with
       | F : fd_inode _ _ = Some _ |- _ =>
           destruct (posix_close_spec _ _ _ _ _ _ F E) as (-> & I2)
       end; clear E.
  all: match goal with
       | Q : path_inode _ ?q = Some _ |- _ =>
           rewrite <- (path_inode_inodes _ _ q I2) in Q
       end.
  all: repeat px_branch; px_leaf.
  all: split; [reflexivity|].
  all: try (eexists; split; [eassumption|]).
  all: try (exists (i_flags i); split;
            [ destruct i; assumption |]).
  all: intros k Hk.
  all: first [ apply set_bit; exact Hk | apply clear_bit; exact Hk
             | apply same_bit; boolfacts; assumption
             | idtac ].
Qed.

(** X15: on a file system without the flag ioctls (FS_IOC_GETFLAGS fails
    with ENOTTY), efivarfs_set_immutable on an existing file returns 0 and
    changes no file. *)
Theorem set_immutable_tolerates_enotty path (imm : bool) e s n i :
  path_inode s path = Some (n, i) ->
  fs_has_flags s = false ->
  let res := run posix (efivarfs_set_immutable path imm) e s in
  res_out res = Returned 0 /\ fs_inodes (res_env res) = fs_inodes s.
Proof.
  intros P HF res. wp_start res.
  unfold efivarfs_set_immutable, efivarfs_set_fd_immutable.
  apply wp_bind_sys; intros r s0 E; cbn [posix] in E.
  destruct (posix_open_rdonly_spec _ _ _ _ _ _ _ P E)
    as (Hfd & Hre & F0 & I0 & C0).
  clear E. unfold new_errno at 1. rewrite Hre.
  rewrite HF in C0. clear P Hre.
  repeat px_branch.
  px_eq (posix_getflags_at s0 (rv r) _ _ F0).
  rewrite C0. repeat px_branch.
  apply wp_bind_sys; intros c' s2 E; cbn [posix] in E.
  destruct (posix_close_spec _ _ _ _ _ _ F0 E) as (-> & I2). clear E.
  repeat px_branch. px_leaf.
  split; [reflexivity | congruence].
Qed.

Lemma update_update A (l : list A) n x y :
  update (update l n x) n y = update l n y.
Proof.
  revert n. induction l as [|z l IH]; intros [|n]; simpl; congruence.
Qed.

Lemma update_same A (l : list A) n x :
  nth_error l n = Some x -> update l n x = l.
Proof.
  revert n. induction l as [|z l IH]; intros [|n]; simpl; try discriminate.
  - intros H; injection H as ->. reflexivity.
  - intros H. rewrite (IH n H). reflexivity.
Qed.

Lemma setflags_back s fd o i :
  fd_inode s fd = Some (o, i) -> fs_has_flags s = true ->
  snd (posix s (IoctlSetFlags fd (i_flags i))) = s.
Proof.
  intros F HF. cbn [posix]. rewrite (posix_setflags_at s fd o i _ F HF).
  cbn [snd]. apply fd_inode_some in F. destruct F as [_ Fi].
  replace (Inode (i_path i) (i_data i) (i_flags i) (i_mode i)) with i
    by (destruct i; reflexivity).
  rewrite (update_same _ _ _ _ Fi). destruct s; reflexivity.
Qed.

(** X16: on a file system with the flag ioctls, efivarfs_make_fd_mutable on
    an open descriptor returns 0 and hands back exactly the flags the file
    had; afterwards the file is not immutable, and an FS_IOC_SETFLAGS with
    the flags handed back puts the file system back exactly as it was. *)
Theorem make_mutable_then_restore fd e s o i :
  fd_inode s fd = Some (o, i) ->
  fs_has_flags s = true ->
  let res := run posix (efivarfs_make_fd_mutable fd) e s in
  res_out res = Returned (0, i_flags i) /\
  (exists i', fd_inode (res_env res) fd = Some (o, i') /\
              immutable i' = false) /\
  snd (posix (res_env res) (IoctlSetFlags fd (i_flags i))) = s.
Proof.
  intros F HF res. wp_start res.
  unfold efivarfs_make_fd_mutable.
  px_eq (posix_getflags_at s fd _ _ F).
  rewrite HF. repeat px_branch.
  - px_leaf. split; [reflexivity|]. split.
    + exists i. split; [exact F|]. unfold immutable, has_flag, nonzero.
      boolfacts. match goal with H : _ = 0 |- _ => rewrite H end. reflexivity.
    + apply (setflags_back s fd o i F HF).
  - apply wp_bind_sys; intros c s1 E; cbn [posix] in E.
    pose proof E as E'.
    rewrite (posix_setflags_at s fd o i _ F HF) in E'.
    destruct (posix_setflags_spec _ _ _ _ _ _ _ F HF E)
      as (-> & F1 & _ & _ & C1).
    injection E' as <-. clear E.
    repeat px_branch. px_leaf.
    split; [reflexivity|]. split.
    + eexists. split; [exact F1 | apply cleared_flag].
    + cbn [posix]. rewrite HF in C1.
      rewrite (posix_setflags_at _ fd o _ _ F1 C1). cbn [snd].
      cbn [set_inodes fs_inodes fs_fds fs_euid fs_has_flags fs_create_flags
           fs_beyond i_path i_data i_mode].
      rewrite update_update.
      apply fd_inode_some in F. destruct F as [_ Fi].
      replace (Inode (i_path i) (i_data i) (i_flags i) (i_mode i)) with i
        by (destruct i; reflexivity).
      rewrite (update_same _ _ _ _ Fi). destruct s; reflexivity.
Qed.

(** ** The copy of [write_file] *)

Lemma fd_lookup_set_pos_other s fd fd' o pos :
  fd <> fd' -> 0 <= fd -> 
  fd_lookup (set_pos s fd o pos) fd' = fd_lookup s fd'.
Proof.
  intros Ne Hfd. unfold fd_lookup, set_pos. cbn [set_fds fs_fds].
  destruct (fd' <? 0) eqn:N'; [reflexivity|].
  apply Z.ltb_ge in N'.
  rewrite nth_error_update_other; [reflexivity|].
  intros Heq. apply Ne. apply Z2Nat.inj; auto.
Qed.

Lemma fd_lookup_nonneg s fd o : fd_lookup s fd = Some o -> 0 <= fd.
Proof.
  unfold fd_lookup. destruct (fd <? 0) eqn:N; [discriminate|].
  intros _. apply Z.ltb_ge in N. exact N.
Qed.

(** A [fread] from the source: the bytes delivered, and what becomes of
    the two streams. *)
Lemma posix_fread_copy s v out nv nf d done pos count r s' :
  v <> out -> in_file s v nv d pos -> out_file s out nf done ->
  posix_fread s v count = (r, s') ->
  let got := firstn (Z.to_nat count) (skipn pos d) in
  rv r = Z.of_nat (List.length got) /\ r_data r = got /\
  in_file s' v nv d (pos + List.length got) /\ out_file s' out nf done.
Proof.
  intros Ne (o & i & Ho & Hn & Hw & Hp & Hi & Hd)
         (o' & i' & Ho' & Hn' & Hw' & Ha' & Hp' & Hi' & Hd' & Hm') E got.
  unfold posix_fread, posix_read, fd_inode in E.
  rewrite Ho, Hn, Hi, Hw, Hp, Hd in E. fold got in E.
  cbn [rv] in E.
  destruct (Z.of_nat (List.length got) <? 0) eqn:N;
    [apply Z.ltb_lt in N; lia|].
  injection E as <- <-. cbn [rv r_data].
  split; [reflexivity|]. split; [reflexivity|].
  pose proof (fd_lookup_nonneg _ _ _ Ho) as Hv.
  split.
  - exists (Ofd (o_ino o) (pos + List.length got) (o_write o) (o_append o)), i.
    rewrite (fd_lookup_set_pos _ _ _ _ Ho).
    cbn [o_ino o_write o_pos]. repeat split; auto.
  - exists o', i'. rewrite fd_lookup_set_pos_other; [|lia|lia].
    repeat split; auto.
Qed.

(** A [fwrite] to the output: everything is written, at the end. *)
Lemma posix_fwrite_copy s v out nv nf d done pos buf r s' :
  v <> out -> nv <> nf -> in_file s v nv d pos -> out_file s out nf done ->
  posix_fwrite s out buf = (r, s') ->
  rv r = Z.of_nat (List.length buf) /\
  in_file s' v nv d pos /\ out_file s' out nf (done ++ buf).
Proof.
  intros Ne Nn (o & i & Ho & Hn & Hw & Hp & Hi & Hd)
         (o' & i' & Ho' & Hn' & Hw' & Ha' & Hp' & Hi' & Hd' & Hm') E.
  unfold posix_fwrite, posix_write, fd_inode in E.
  rewrite Ho', Hn', Hi', Hw', Ha', Hp', Hm' in E. cbn [negb] in E.
  rewrite Nat2Z.id, firstn_all in E. cbn [rv ok] in E.
  destruct (Z.of_nat (List.length buf) <? 0) eqn:N;
    [apply Z.ltb_lt in N; lia|].
  injection E as <- <-. cbn [rv ok].
  split; [reflexivity|].
  pose proof (fd_lookup_nonneg _ _ _ Ho') as Hout.
  rewrite <- Hd'. rewrite overwrite_append.
  split.
  - exists o, i. rewrite fd_lookup_set_pos_other; [|lia|lia].
    replace (fd_lookup (set_inodes s _) (v - 1)) with (fd_lookup s (v - 1))
      by reflexivity.
    unfold set_pos. cbn [set_fds set_inodes fs_inodes].
    rewrite nth_error_update_other by congruence.
    repeat split; auto.
  - exists (Ofd (o_ino o') (List.length (i_data i') + List.length buf)
              (o_write o') (o_append o')),
           (Inode (i_path i') (i_data i' ++ buf) (i_flags i') (i_mode i')).
    rewrite fd_lookup_set_pos
      by (replace (fd_lookup (set_inodes s _) (out - 1))
            with (fd_lookup s (out - 1)) by reflexivity; exact Ho').
    unfold set_pos. cbn [set_fds set_inodes fs_inodes o_ino o_write o_append
      o_pos].
    rewrite Hn'.
    rewrite (nth_error_update_same _ _ _ _ _ Hi').
    cbn [i_data]. unfold immutable in *. cbn [i_flags].
    rewrite length_app. repeat split; auto.
Qed.

Lemma store_bytes_front (got buffer : list byte) :
  (List.length got <= List.length buffer)%nat ->
  List.length (store_bytes got buffer) = List.length buffer /\
  firstn (List.length got) (store_bytes got buffer) = got.
Proof.
  intros H. unfold store_bytes. rewrite firstn_all2 by exact H. split.
  - rewrite length_app, length_skipn. lia.
  - rewrite firstn_app, firstn_all, Nat.sub_diag. cbn [firstn].
    apply app_nil_r.
Qed.

Lemma firstn_skipn_length A n (l : list A) :
  firstn n l ++ skipn (List.length (firstn n l)) l = l.
Proof.
  rewrite length_firstn.
  destruct (Nat.le_ge_cases n (List.length l)) as [H|H].
  - rewrite Nat.min_l by exact H. apply firstn_skipn.
  - rewrite Nat.min_r by exact H.
    rewrite firstn_all2 by exact H. rewrite skipn_all. apply app_nil_r.
Qed.

Lemma size_t_nat (k : nat) : (k <= 1024)%nat -> size_t (Z.of_nat k) = Z.of_nat k.
Proof. intros H. apply size_t_small. unfold SIZE_MAX. lia. Qed.

Section Copy.

Variables (v out : Z) (nv nf : nat) (d : list byte) (fp : string).
Hypothesis streams : v <> out.
Hypothesis inodes : nv <> nf.

(** One chunk goes out in one [fwrite]. *)
Lemma write_chunk_writes fuel buffer (k : nat) done pos e s :
  (0 < k <= 1024)%nat -> (k <= List.length buffer)%nat ->
  in_file s v nv d pos -> out_file s out nf done ->
  let res := run posix (write_chunk (S fuel) out fp buffer (Z.of_nat k) 0)
               e s in
  res_out res = Returned false /\
  in_file (res_env res) v nv d pos /\
  out_file (res_env res) out nf (done ++ firstn k buffer).
Proof.
  intros Hk Hb I O. cbn [write_chunk].
  replace (0 <? Z.of_nat k) with true by (symmetry; apply Z.ltb_lt; lia).
  cbn [bind sys run posix].
  replace (Z.to_nat (Z.of_nat k - 0)) with k by lia.
  change (Z.to_nat 0) with 0%nat. cbn [skipn].
  destruct (posix_fwrite s out (firstn k buffer)) as [r s1] eqn:E.
  destruct (posix_fwrite_copy _ _ _ _ _ _ _ _ _ _ _ streams inodes I O E)
    as (Hrv & I1 & O1).
  rewrite length_firstn, Nat.min_l in Hrv by exact Hb.
  rewrite Hrv, size_t_nat by lia.
  replace (Z.of_nat k =? 0) with false by (symmetry; apply Z.eqb_neq; lia).
  replace (0 + Z.of_nat k) with (Z.of_nat k) by lia.
  rewrite size_t_nat by lia.
  assert (Hend : forall e',
            run posix (write_chunk fuel out fp buffer (Z.of_nat k)
                         (Z.of_nat k)) e' s1
            = Result (Returned false) e' s1 []).
  { intros e'. destruct fuel; cbn [write_chunk]; rewrite Z.ltb_irrefl;
      reflexivity. }
  rewrite Hend. cbn [traced res_out res_env]. auto.
Qed.

(** The copy loop moves what the source has left to the end of the
    output. *)
Lemma copy_loop_moves fuel :
  forall rest done buffer pos e s,
    List.length buffer = 1024%nat ->
    (List.length rest < fuel)%nat ->
    skipn pos d = rest ->
    in_file s v nv d pos -> out_file s out nf done ->
    let res := run posix (copy_loop fuel v out fp buffer) e s in
    res_out res = Returned false /\
    out_file (res_env res) out nf (done ++ rest) /\
    exists pos', in_file (res_env res) v nv d pos'.
Proof.
  induction fuel as [|fuel IH]; intros rest done buffer pos e s Hb Hf Hrest
    I O; [lia|].
  cbn [copy_loop bind sys run posix].
  destruct (posix_fread s v 1024) as [r s1] eqn:E.
  destruct (posix_fread_copy _ _ _ _ _ _ _ _ _ _ _ streams I O E)
    as (Hrv & Hdata & I1 & O1).
  rewrite Hrest in Hrv, Hdata, I1. clear E.
  change (Z.to_nat 1024) with 1024%nat in *.
  set (got := firstn 1024 rest) in *.
  assert (Hgot : (List.length got <= 1024)%nat)
    by (subst got; rewrite length_firstn; lia).
  rewrite Hrv, size_t_nat by exact Hgot.
  destruct (Nat.eq_dec (List.length rest) 0) as [R|R].
  - (* nothing left *)
    apply length_zero_iff_nil in R. subst got. rewrite R.
    cbn [firstn List.length].
    change (Z.of_nat 0 >? 0) with false. cbv iota.
    cbn [run traced res_out res_env]. rewrite app_nil_r. eauto.
  - assert (Hpos : (0 < List.length got)%nat)
      by (subst got; rewrite length_firstn; lia).
    replace (Z.of_nat (List.length got) >? 0) with true
      by (symmetry; rewrite Z.gtb_ltb; apply Z.ltb_lt; lia).
    cbv iota. rewrite Hdata.
    destruct (store_bytes_front got buffer ltac:(lia)) as [Hlen Hfront].
    rewrite run_bind. unfold then_run.
    pose proof (write_chunk_writes fuel (store_bytes got buffer)
                  (List.length got) done _ (new_errno e r) s1
                  ltac:(lia) ltac:(lia) I1 O1) as (Hout & I2 & O2).
    rewrite Hfront in O2.
    destruct (run posix (write_chunk (S fuel) out fp _ _ 0) _ s1)
      as [o2 e2 s2 tr2].
    cbn [res_out res_env res_errno res_trace] in *. subst o2.
    specialize (IH (skipn (List.length got) rest) (done ++ got)
                  (store_bytes got buffer) (pos + List.length got)%nat
                  e2 s2 ltac:(lia)).
    assert (Hshort : (List.length (skipn (List.length got) rest) < fuel)%nat).
    { rewrite length_skipn. lia. }
    assert (Hskip : skipn (pos + List.length got) d
                    = skipn (List.length got) rest).
    { rewrite <- Hrest, skipn_skipn. f_equal. lia. }
    destruct (IH Hshort Hskip I2 O2) as (Hres & O3 & I3).
    destruct (run posix (copy_loop fuel v out fp _) e2 s2) as [o3 e3 s3 tr3].
    cbn [res_out res_env res_errno res_trace traced] in *. subst o3.
    split; [reflexivity|]. split; [|exact I3].
    rewrite <- app_assoc in O3. subst got.
    rewrite firstn_skipn_length in O3. exact O3.
Qed.

End Copy.

Lemma fd_lookup_lt s fd o :
  fd_lookup s fd = Some o -> (Z.to_nat fd < List.length (fs_fds s))%nat.
Proof.
  unfold fd_lookup. destruct (fd <? 0); [discriminate|].
  destruct (nth_error (fs_fds s) (Z.to_nat fd)) eqn:N; [|discriminate].
  intros _. apply nth_error_Some. congruence.
Qed.

Lemma fd_lookup_more s fd o x :
  fd_lookup s fd = Some o -> fd_lookup (set_fds s (fs_fds s ++ [x])) fd = Some o.
Proof.
  intros H. pose proof (fd_lookup_lt _ _ _ H) as L.
  unfold fd_lookup in *. cbn [set_fds fs_fds].
  destruct (fd <? 0); [discriminate|].
  rewrite nth_error_app1 by exact L. exact H.
Qed.

Lemma posix_fopen_rb_spec s path r s' n i :
  path_inode s path = Some (n, i) ->
  posix_fopen s path "rb" = (r, s') ->
  rv r <> 0 /\ r_errno r = None /\
  rv r - 1 = Z.of_nat (List.length (fs_fds s)) /\
  in_file s' (rv r) n (i_data i) 0 /\
  fs_inodes s' = fs_inodes s.
Proof.
  intros P E. unfold posix_fopen in E.
  change (String.eqb "rb" "rb") with true in E. cbv iota in E.
  rewrite (posix_open_rdonly s path 438 n i P) in E.
  unfold new_fd in E. cbn [rv ok] in E.
  destruct (Z.of_nat (List.length (fs_fds s)) <? 0) eqn:N;
    [apply Z.ltb_lt in N; lia|].
  injection E as <- <-. cbn [rv ok r_errno].
  split; [lia|]. split; [reflexivity|]. split; [lia|]. split; [|reflexivity].
  exists (Ofd n 0 false false), i.
  replace (Z.of_nat (List.length (fs_fds s)) + 1 - 1)
    with (Z.of_nat (List.length (fs_fds s))) by lia.
  rewrite fd_lookup_new_fd. cbn [set_fds fs_inodes o_ino o_write o_pos].
  repeat split; auto. eapply path_inode_nth; eauto.
Qed.

Lemma posix_fopen_wb_spec s path r s' n i :
  path_inode s path = Some (n, i) -> immutable i = false ->
  posix_fopen s path "wb" = (r, s') ->
  rv r <> 0 /\
  rv r - 1 = Z.of_nat (List.length (fs_fds s)) /\
  out_file s' (rv r) n [] /\
  (forall v nv d pos, nv <> n -> in_file s v nv d pos ->
                      in_file s' v nv d pos).
Proof.
  intros P I E. pose proof (path_inode_nth _ _ _ _ P) as Hi.
  unfold posix_fopen in E.
  change (String.eqb "wb" "rb") with false in E. cbv iota in E.
  unfold posix_open in E. rewrite P in E.
  change (has_flag (Z.lor O_WRONLY (Z.lor O_CREAT O_TRUNC)) O_WRONLY)
    with true in E.
  change (has_flag (Z.lor O_WRONLY (Z.lor O_CREAT O_TRUNC)) O_CREAT)
    with true in E.
  change (has_flag (Z.lor O_WRONLY (Z.lor O_CREAT O_TRUNC)) O_EXCL)
    with false in E.
  change (has_flag (Z.lor O_WRONLY (Z.lor O_CREAT O_TRUNC)) O_TRUNC)
    with true in E.
  change (has_flag (Z.lor O_WRONLY (Z.lor O_CREAT O_TRUNC)) O_APPEND)
    with false in E.
  rewrite I in E. cbn [andb] in E. unfold new_fd in E. cbn [rv ok] in E.
  cbn [set_inodes fs_fds] in E.
  destruct (Z.of_nat (List.length (fs_fds s)) <? 0) eqn:N;
    [apply Z.ltb_lt in N; lia|].
  injection E as <- <-. cbn [rv ok].
  split; [lia|]. split; [lia|]. split.
  - exists (Ofd n 0 true false), (Inode (i_path i) [] (i_flags i) (i_mode i)).
    replace (Z.of_nat (List.length (fs_fds s)) + 1 - 1)
      with (Z.of_nat (List.length (fs_fds s))) by lia.
    change (fs_fds s) with (fs_fds (set_inodes s
      (update (fs_inodes s) n (Inode (i_path i) [] (i_flags i) (i_mode i)))))
      at 1 2.
    rewrite fd_lookup_new_fd.
    cbn [set_fds set_inodes fs_inodes o_ino o_write o_append o_pos i_data
         List.length].
    rewrite (nth_error_update_same _ _ _ _ _ Hi).
    repeat split; auto.
  - intros v nv d pos Nn (o & j & Ho & Hn & Hw & Hp & Hj & Hd).
    exists o, j.
    rewrite (fd_lookup_more
               (set_inodes s
                  (update (fs_inodes s) n
                     (Inode (i_path i) [] (i_flags i) (i_mode i))))
               (v - 1) o _ Ho).
    cbn [set_fds set_inodes fs_inodes].
    rewrite nth_error_update_other by congruence.
    repeat split; auto.
Qed.

Lemma cleanup_keeps_files v o e s :
  let res := run posix (write_file_cleanup v o false) e s in
  res_out res = Returned tt /\ fs_inodes (res_env res) = fs_inodes s.
Proof.
  unfold write_file_cleanup, free, when.
  cbn [bind sys run posix traced res_out res_env].
  destruct (nonzero v), (nonzero o);
    cbn [bind sys run posix traced res_out res_env]; unfold posix_close.
  - destruct (fd_lookup s (v - 1));
      cbn [set_fds fs_fds traced res_out res_env];
      match goal with |- context [fd_lookup ?s' (o - 1)] =>
        destruct (fd_lookup s' (o - 1)) end;
      cbn [traced res_out res_env]; auto.
  - destruct (fd_lookup s (v - 1)); cbn [traced res_out res_env]; auto.
  - destruct (fd_lookup s (o - 1)); cbn [traced res_out res_env]; auto.
  - auto.
Qed.

Lemma file_data_inode s path d :
  file_data s path = Some d ->
  exists n i, path_inode s path = Some (n, i) /\ i_data i = d.
Proof.
  unfold file_data. destruct (path_inode s path) as [[n i]|]; [|discriminate].
  simpl. intros H; injection H as <-. eauto.
Qed.

Lemma path_inode_find s path n i :
  path_inode s path = Some (n, i) -> find_path path (fs_inodes s) = Some n.
Proof.
  unfold path_inode.
  destruct (find_path path (fs_inodes s)) as [m|]; [|discriminate].
  destruct (nth_error (fs_inodes s) m); [|discriminate].
  intros H; injection H as <- _. reflexivity.
Qed.

Lemma file_data_at s s0 path n i i' :
  path_inode s0 path = Some (n, i) -> names s = names s0 ->
  nth_error (fs_inodes s) n = Some i' ->
  file_data s path = Some (i_data i').
Proof.
  intros P N Hi. apply path_inode_find in P.
  unfold file_data, path_inode.
  rewrite (find_path_names path _ _ N), P, Hi. reflexivity.
Qed.

Lemma write_file_copies root fuel fp e s hdr payload flags :
  let src := var_path root GUID_FILE_STORE_VARS "VarToFile" in
  fp <> src ->
  file_data s src = Some (hdr ++ payload) -> List.length hdr = 4%nat ->
  file_flags s fp = Some flags -> has_flag flags FS_IMMUTABLE_FL = false ->
  (List.length payload < fuel)%nat ->
  let res := run posix (write_file root fuel fp) e s in
  res_out res = Returned tt /\
  file_data (res_env res) fp = Some payload /\
  file_data (res_env res) src = Some (hdr ++ payload).
Proof.
  intros src Hne Hsrc Hh Hff Hmut Hfuel res.
  destruct (file_data_inode _ _ _ Hsrc) as (nv & iv & Psrc & Dv).
  destruct (file_flags_inode _ _ _ Hff) as (nf & jf & Pfp & Ff).
  assert (Imm : immutable jf = false) by (unfold immutable; congruence).
  assert (Nn : nv <> nf).
  { intros ->. apply Hne. symmetry.
    eapply find_path_inj; eapply path_inode_find; eauto. }
  assert (Hnames : names (res_env res) = names s).
  { apply write_file_names. unfold exists_path. rewrite Pfp. reflexivity. }
  enough (Hrun : res_out res = Returned tt /\
                 (exists i, nth_error (fs_inodes (res_env res)) nf = Some i /\
                            i_data i = payload) /\
                 (exists i, nth_error (fs_inodes (res_env res)) nv = Some i /\
                            i_data i = hdr ++ payload)).
  { destruct Hrun as (Hout & (i1 & Hi1 & <-) & (i2 & Hi2 & <-)).
    split; [exact Hout|]. split; eapply file_data_at; eauto. }
  clear Hnames Hsrc Hff. wp_start res.
  unfold write_file, make_efivarfs_path, fprintf. fold src.
  repeat px_branch. px_plain. repeat px_branch.
  (* fopen(path, "rb") *)
  apply wp_bind_sys; intros v s1 E; cbn [posix] in E.
  destruct (posix_fopen_rb_spec _ _ _ _ _ _ Psrc E)
    as (Hv & Hve & Hvfd & I1 & In1).
  clear E. unfold new_errno at 1. rewrite Hve. rewrite Dv in I1.
  rewrite <- (path_inode_inodes s s1 fp In1) in Pfp.
  clear Psrc In1 Hve.
  repeat px_branch.
  (* fopen(filepath, "wb") *)
  apply wp_bind_sys; intros o s2 E; cbn [posix] in E.
  destruct (posix_fopen_wb_spec _ _ _ _ _ _ Pfp Imm E)
    as (Ho & Hofd & O2 & Keep).
  clear E. pose proof (Keep _ _ _ _ Nn I1) as I2.
  assert (Ne : rv v <> rv o).
  { destruct I1 as (ov & _ & Hov & _).
    apply fd_lookup_lt in Hov.
    pose proof (fd_lookup_nonneg s2 (rv v - 1)) as X.
    destruct I2 as (ov' & _ & Hov' & _). specialize (X _ Hov'). lia. }
  clear Keep I1 Pfp Hofd Hvfd.
  repeat px_branch.
  (* fread of the attribute word *)
  apply wp_bind_sys; intros h s3 E; cbn [posix] in E.
  destruct (posix_fread_copy _ _ _ _ _ _ _ _ _ _ _ Ne I2 O2 E)
    as (Hrv & Hdata & I3 & O3).
  clear E I2 O2.
  cbn [skipn] in Hrv, Hdata, I3.
  change (Z.to_nat 4) with 4%nat in *.
  rewrite firstn_app, <- Hh, firstn_all, Nat.sub_diag in Hrv, Hdata, I3.
  cbn [firstn] in Hrv, Hdata, I3. rewrite app_nil_r in Hrv, Hdata, I3.
  cbn [Nat.add] in I3. rewrite Hrv, Hh.
  change (size_t (Z.of_nat 4) <? 4) with false. cbv iota.
  (* the copy *)
  apply wp_bind. unfold wp at 1.
  match goal with
  | |- context [run posix (copy_loop fuel ?a ?b ?p ?buf) ?e' ?s'] =>
      destruct (copy_loop_moves a b nv nf (hdr ++ payload) p Ne Nn fuel
                  payload [] buf (List.length hdr) e' s')
        as (Hout & O4 & (pos' & I4));
      [ unfold store_bytes; rewrite length_app, length_firstn, length_skipn,
          repeat_length, length_firstn; lia
      | exact Hfuel
      | rewrite skipn_app, skipn_all, Nat.sub_diag; reflexivity
      | exact I3 | exact O3 |];
      destruct (run posix (copy_loop fuel a b p buf) e' s')
        as [o4 e4 s4 tr4]
  end.
  cbn [res_out res_env res_errno res_trace] in *. subst o4.
  (* the cleanup *)
  unfold wp.
  destruct (cleanup_keeps_files (rv v) (rv o) e4 s4) as (Hc & Ic).
  destruct (run posix (write_file_cleanup (rv v) (rv o) false) e4 s4)
    as [o5 e5 s5 tr5].
  cbn [res_out res_env res_errno res_trace] in *. subst o5.
  wp_finish. split; [reflexivity|]. rewrite Ic.
  destruct O4 as (_ & i4 & _ & _ & _ & _ & _ & Hi4 & Hd4 & _).
  destruct I4 as (_ & j4 & _ & _ & _ & _ & Hj4 & Hdj4).
  split; eauto.
Qed.

(** X17: write_file(filepath) copies the content of VarToFile after its
    first 4 bytes into filepath: when filepath exists, is not immutable and
    is not VarToFile itself, and the loops get more turns than the payload
    has bytes, write_file returns, filepath then holds exactly the payload,
    and VarToFile is unchanged. *)
Theorem write_file_copies_payload root fuel fp e s hdr payload flags :
  let src := var_path root GUID_FILE_STORE_VARS "VarToFile" in
  fp <> src ->
  file_data s src = Some (hdr ++ payload) -> List.length hdr = 4%nat ->
  file_flags s fp = Some flags -> has_flag flags FS_IMMUTABLE_FL = false ->
  (List.length payload < fuel)%nat ->
  let res := run posix (write_file root fuel fp) e s in
  res_out res = Returned tt /\
  file_data (res_env res) fp = Some payload /\
  file_data (res_env res) src = Some (hdr ++ payload).
Proof. exact (write_file_copies root fuel fp e s hdr payload flags). Qed.

Lemma failed_cleanup_keeps_files v o e s :
  let res := run posix (write_file_cleanup v o true) e s in
  res_out res = Exited 1 /\ fs_inodes (res_env res) = fs_inodes s.
Proof.
  unfold write_file_cleanup, free, when.
  cbn [bind sys run posix traced res_out res_env].
  destruct (nonzero v), (nonzero o);
    cbn [bind sys run posix traced res_out res_env]; unfold posix_close.
  - destruct (fd_lookup s (v - 1));
      cbn [set_fds fs_fds traced res_out res_env];
      match goal with |- context [fd_lookup ?s' (o - 1)] =>
        destruct (fd_lookup s' (o - 1)) end;
      cbn [traced res_out res_env]; auto.
  - destruct (fd_lookup s (v - 1)); cbn [traced res_out res_env]; auto.
  - destruct (fd_lookup s (o - 1)); cbn [traced res_out res_env]; auto.
  - auto.
Qed.

(** X18: when VarToFile holds fewer than 4 bytes, write_file on an existing
    target that is not immutable and not VarToFile itself ends the process
    with exit(1), and the target, opened with mode wb before the header is
    read, is left empty; VarToFile is unchanged. *)
Theorem write_file_short_source root fuel fp e s d flags :
  let src := var_path root GUID_FILE_STORE_VARS "VarToFile" in
  fp <> src ->
  file_data s src = Some d -> (List.length d < 4)%nat ->
  file_flags s fp = Some flags -> has_flag flags FS_IMMUTABLE_FL = false ->
  let res := run posix (write_file root fuel fp) e s in
  res_out res = Exited 1 /\
  file_data (res_env res) fp = Some [] /\
  file_data (res_env res) src = Some d.
Proof.
  intros src Hne Hsrc Hlen Hff Hmut res.
  destruct (file_data_inode _ _ _ Hsrc) as (nv & iv & Psrc & Dv).
  destruct (file_flags_inode _ _ _ Hff) as (nf & jf & Pfp & Ff).
  assert (Imm : immutable jf = false) by (unfold immutable; congruence).
  assert (Nn : nv <> nf).
  { intros ->. apply Hne. symmetry.
    eapply find_path_inj; eapply path_inode_find; eauto. }
  assert (Hnames : names (res_env res) = names s).
  { apply write_file_names. unfold exists_path. rewrite Pfp. reflexivity. }
  enough (Hrun : res_out res = Exited 1 /\
                 (exists i, nth_error (fs_inodes (res_env res)) nf = Some i /\
                            i_data i = []) /\
                 (exists i, nth_error (fs_inodes (res_env res)) nv = Some i /\
                            i_data i = d)).
  { destruct Hrun as (Hout & (i1 & Hi1 & H1) & (i2 & Hi2 & <-)).
    split; [exact Hout|]. split.
    - rewrite <- H1. eapply file_data_at; eauto.
    - eapply file_data_at; eauto. }
  clear Hnames Hsrc Hff. wp_start res.
  unfold write_file, make_efivarfs_path, fprintf. fold src.
  repeat px_branch. px_plain. repeat px_branch.
  apply wp_bind_sys; intros v s1 E; cbn [posix] in E.
  destruct (posix_fopen_rb_spec _ _ _ _ _ _ Psrc E)
    as (Hv & Hve & Hvfd & I1 & In1).
  clear E. unfold new_errno at 1. rewrite Hve. rewrite Dv in I1.
  rewrite <- (path_inode_inodes s s1 fp In1) in Pfp.
  clear Psrc In1 Hve.
  repeat px_branch.
  apply wp_bind_sys; intros o s2 E; cbn [posix] in E.
  destruct (posix_fopen_wb_spec _ _ _ _ _ _ Pfp Imm E)
    as (Ho & Hofd & O2 & Keep).
  clear E. pose proof (Keep _ _ _ _ Nn I1) as I2.
  assert (Ne : rv v <> rv o).
  { destruct I1 as (ov & _ & Hov & _).
    apply fd_lookup_lt in Hov.
    pose proof (fd_lookup_nonneg s2 (rv v - 1)) as X.
    destruct I2 as (ov' & _ & Hov' & _). specialize (X _ Hov'). lia. }
  clear Keep I1 Pfp Hofd Hvfd.
  repeat px_branch.
  apply wp_bind_sys; intros h s3 E; cbn [posix] in E.
  destruct (posix_fread_copy _ _ _ _ _ _ _ _ _ _ _ Ne I2 O2 E)
    as (Hrv & Hdata & I3 & O3).
  clear E I2 O2.
  cbn [skipn] in Hrv, Hdata, I3.
  change (Z.to_nat 4) with 4%nat in *.
  rewrite firstn_all2 in Hrv, Hdata, I3 by lia.
  rewrite Hrv, size_t_nat by lia.
  replace (Z.of_nat (List.length d) <? 4) with true
    by (symmetry; apply Z.ltb_lt; lia).
  cbv iota. repeat px_branch. px_plain. repeat px_branch.
  unfold wp.
  match goal with
  | |- context [run posix (write_file_cleanup ?a ?b true) ?e' ?s'] =>
      destruct (failed_cleanup_keeps_files a b e' s') as (Hc & Ic);
      destruct (run posix (write_file_cleanup a b true) e' s')
        as [o5 e5 s5 tr5]
  end.
  cbn [res_out res_env res_errno res_trace] in *. subst o5.
  wp_finish. split; [reflexivity|]. rewrite Ic.
  destruct O3 as (_ & i4 & _ & _ & _ & _ & _ & Hi4 & Hd4 & _).
  destruct I3 as (_ & j4 & _ & _ & _ & _ & Hj4 & Hdj4).
  split; eauto.
Qed.

(** X19: when VarToFile does not exist, write_file returns normally, never
    opens the target for writing and leaves every file as it was. *)
Theorem write_file_missing_source root fuel fp e s :
  file_data s (var_path root GUID_FILE_STORE_VARS "VarToFile") = None ->
  let res := run posix (write_file root fuel fp) e s in
  res_out res = Returned tt /\ fs_inodes (res_env res) = fs_inodes s /\
  ~ In (Fopen fp "wb") (map fst (res_trace res)).
Proof.
  intros Hsrc res. apply file_data_none in Hsrc.
  wp_start res.
  unfold write_file, make_efivarfs_path, fprintf.
  repeat px_branch. px_plain. repeat px_branch.
  apply wp_bind_sys; intros v s1 E; cbn [posix] in E.
  unfold posix_fopen in E.
  change (String.eqb "rb" "rb") with true in E. cbv iota in E.
  rewrite (posix_open_absent s _ O_RDONLY 438 Hsrc eq_refl) in E.
  cbn [rv fail] in E. change (-1 <? 0) with true in E. cbv iota in E.
  injection E as <- <-.
  repeat px_branch. px_plain. repeat px_branch.
  unfold wp.
  match goal with
  | |- context [run posix (write_file_cleanup ?a ?b false) ?e' ?s'] =>
      change (run posix (write_file_cleanup a b false) e' s')
        with (Result (Returned tt) e' s' [(Free, ok 0)])
  end.
  wp_finish. split; [reflexivity|]. split; [reflexivity|].
  intros [X|[X|[X|[X|[]]]]]; cbn [fst] in X; discriminate X.
Qed.

(** ** The search on the boot partition *)

Lemma strlen_append a b : strlen (a ++ b) = strlen a + strlen b.
Proof.
  unfold strlen. induction a as [|c a IH]; cbn [String.append String.length].
  - lia.
  - rewrite !Nat2Z.inj_succ, IH. lia.
Qed.

Lemma posix_stat_exists s path :
  posix_stat s path = (fst (posix_stat s path), s) /\
  (rv (fst (posix_stat s path)) =? 0) = exists_path s path.
Proof.
  unfold posix_stat, exists_path.
  destruct (path_inode s path) as [[n i]|]; split; reflexivity.
Qed.

Lemma esp_filepath_from_result paths filename sz e s :
  (forall esp, In esp paths -> strlen esp + strlen filename < sz) ->
  res_out (run posix (get_esp_filepath_from paths filename sz) e s)
  = Returned
      match find (fun esp => exists_path s (esp ++ filename)) paths with
      | Some esp => (0, (esp ++ filename)%string)
      | None => (-1, EmptyString)
      end.
Proof.
  revert e. induction paths as [|p paths IH]; intros e Hlen; [reflexivity|].
  cbn [get_esp_filepath_from find].
  rewrite strlen_append.
  replace (strlen p + strlen filename >=? sz) with false
    by (symmetry; rewrite Z.geb_leb; apply Z.leb_gt; apply Hlen; left;
        reflexivity).
  cbn [bind sys run posix].
  destruct (posix_stat_exists s (p ++ filename)) as [E X]. rewrite E.
  rewrite X. cbn [traced res_out].
  destruct (exists_path s (p ++ filename)); [reflexivity|].
  apply IH. intros esp Hin. apply Hlen. right. exact Hin.
Qed.

(** X20: get_esp_filepath returns -1 without a single stat when the file
    name does not fit under /boot/efi/ (sz <= strlen(filename) + 10),
    although the shorter mount points might fit; otherwise it returns the
    path under the first of /boot/efi/, /boot/, /efi/ at which the file
    exists, and -1 when it exists under none. *)
Theorem esp_filepath_search filename sz e s :
  let res := run posix (get_esp_filepath filename sz) e s in
  (sz <= strlen filename + 10 ->
   res_out res = Returned (-1, EmptyString) /\
   forall path, ~ In (Stat path) (map fst (res_trace res))) /\
  (strlen filename + 10 < sz ->
   res_out res
   = Returned
       match find (fun esp => exists_path s (esp ++ filename)) esp_paths with
       | Some esp => (0, (esp ++ filename)%string)
       | None => (-1, EmptyString)
       end).
Proof.
  intros res. split.
  - intros Hsz. subst res. unfold get_esp_filepath, esp_paths.
    cbn [get_esp_filepath_from]. rewrite strlen_append.
    change (strlen "/boot/efi/") with 10.
    replace (10 + strlen filename >=? sz) with true
      by (symmetry; rewrite Z.geb_leb; apply Z.leb_le; lia).
    unfold fprintf. cbn [bind sys run posix traced res_out res_trace map fst].
    split; [reflexivity|].
    intros path [X|[]]. discriminate X.
  - intros Hsz. apply esp_filepath_from_result.
    intros esp Hin. unfold esp_paths in Hin.
    destruct Hin as [<-|[<-|[<-|[]]]]; unfold strlen at 1;
      cbn [String.length Z.of_nat]; lia.
Qed.

(** ** PersistenceSync, end to end *)

Lemma string_of_bytes_of_string f : string_of_bytes (bytes_of_string f) = f.
Proof.
  unfold string_of_bytes, bytes_of_string. rewrite map_map.
  rewrite (map_ext _ (fun a => a)) by apply ascii_of_byte_of_ascii.
  rewrite map_id. apply string_of_list_ascii_of_string.
Qed.

Lemma cstring_resize (bs tail : list byte) n :
  ~ In x00 bs -> (List.length bs < n)%nat ->
  cstring (resize n (bs ++ x00 :: tail)) = bs.
Proof.
  revert n. induction bs as [|b bs IH]; intros n Hin Hlen.
  - destruct n; [simpl in Hlen; lia|]. reflexivity.
  - destruct n; [simpl in Hlen; lia|].
    cbn [app resize cstring].
    destruct (Byte.eqb b x00) eqn:B.
    + apply Byte.byte_dec_bl in B. exfalso. apply Hin. left. exact B.
    + rewrite IH; [reflexivity | |simpl in Hlen; lia].
      intros X. apply Hin. right. exact X.
Qed.

(** What [get_esp_filename] hands back when the payload of the reserved
    variable fits the buffer. *)
Lemma esp_filename_result root e s hdr payload filename sz :
  file_data s (var_path root GUID_FILE_STORE_VARS NAME_RTSV)
    = Some (hdr ++ payload) ->
  List.length hdr = 4%nat ->
  Z.of_nat (List.length payload) <= sz <= SIZE_MAX - 1 ->
  List.length filename = Z.to_nat sz ->
  let res := run posix (get_esp_filename root filename sz) e s in
  res_out res
    = Returned (0, resize (Z.to_nat sz) (payload ++ x00 :: fs_beyond s)) /\
  fs_inodes (res_env res) = fs_inodes s.
Proof.
  intros Hd Hh Hsz Hf res.
  split; [|apply run_reader_inodes, esp_filename_reads].
  destruct (file_data_holds _ _ _ Hd) as (n & H).
  destruct (get_reads_file root GUID_FILE_STORE_VARS NAME_RTSV e s n hdr
              payload H Hh) as [Hout Hs].
  pose proof (run_config _ (efivarfs_get_variable root GUID_FILE_STORE_VARS
                              NAME_RTSV) e s) as (_ & _ & _ & Hbeyond).
  remember (run posix
              (efivarfs_get_variable root GUID_FILE_STORE_VARS NAME_RTSV) e s)
    as g eqn:Hg.
  set (len := List.length payload) in *.
  assert (Hlen : size_t (Z.of_nat (List.length (payload ++ [x00])) - 1)
                 = Z.of_nat len).
  { rewrite length_app. simpl. fold len.
    replace (Z.of_nat (len + 1) - 1) with (Z.of_nat len) by lia.
    apply size_t_small. lia. }
  rewrite Hlen in Hout.
  wp_start res.
  unfold get_esp_filename, efi_get_variable, memcpy_from, free.
  apply wp_bind_assoc.
  eapply wp_bind_known; [rewrite <- Hg; exact Hout|]. rewrite <- Hg.
  repeat px_branch.
  all: rewrite length_app in B0; cbn [List.length] in B0; fold len in B0.
  - px_plain. repeat px_branch. wp_leaf. wp_finish.
    boolfacts.
    rewrite store_bytes_full
      by (rewrite length_firstn, length_app; cbn [List.length]; lia).
    change (payload ++ x00 :: fs_beyond s)
      with (payload ++ [x00] ++ fs_beyond s).
    rewrite app_assoc, resize_firstn
      by (rewrite length_app; cbn [List.length]; lia).
    reflexivity.
  - px_plain. repeat px_branch.
    px_plain. repeat px_branch. wp_leaf. wp_finish.
    cbn [r_data]. rewrite Hbeyond.
    boolfacts. rewrite !length_app. cbn [List.length]. fold len.
    rewrite store_bytes_full
      by (rewrite length_app, length_app, resize_length;
          cbn [List.length]; lia).
    change (payload ++ x00 :: fs_beyond s)
      with (payload ++ [x00] ++ fs_beyond s).
    rewrite app_assoc, resize_app
      by (rewrite length_app; cbn [List.length]; lia).
    rewrite length_app. cbn [List.length]. fold len.
    do 3 f_equal. f_equal. lia.
Qed.

Lemma find_same A (f g : A -> bool) (l : list A) :
  (forall a, f a = g a) -> find f l = find g l.
Proof.
  intros H. induction l as [|a l IH]; simpl; [reflexivity|].
  rewrite H, IH. reflexivity.
Qed.

Lemma file_data_inodes s s' path :
  fs_inodes s' = fs_inodes s -> file_data s' path = file_data s path.
Proof. intros H. unfold file_data. rewrite (path_inode_inodes _ _ _ H). auto. Qed.

Lemma file_flags_inodes s s' path :
  fs_inodes s' = fs_inodes s -> file_flags s' path = file_flags s path.
Proof. intros H. unfold file_flags. rewrite (path_inode_inodes _ _ _ H). auto. Qed.

Lemma exists_path_inodes s s' path :
  fs_inodes s' = fs_inodes s -> exists_path s' path = exists_path s path.
Proof. intros H. unfold exists_path. rewrite (path_inode_inodes _ _ _ H). auto. Qed.

(** X21: end to end, efi_update_var_file copies the payload of VarToFile
    into the file the reserved variable names: when the reserved variable
    holds a file name (no NUL byte, shorter than 1024), that file exists
    under a boot-partition mount point, is not immutable and is not
    VarToFile, and VarToFile holds a 4-byte word and a payload, then with
    enough loop turns the sync returns and the file under the first such
    mount point holds exactly the payload. *)
Theorem sync_mirrors_var_to_file root fuel e s hdr0 fname hdr payload flags
  esp :
  let rtsv := var_path root GUID_FILE_STORE_VARS NAME_RTSV in
  let src := var_path root GUID_FILE_STORE_VARS "VarToFile" in
  let target := (esp ++ fname)%string in
  file_data s rtsv = Some (hdr0 ++ bytes_of_string fname) ->
  List.length hdr0 = 4%nat ->
  ~ In x00 (bytes_of_string fname) -> strlen fname < 1024 ->
  find (fun esp => exists_path s (esp ++ fname)) esp_paths = Some esp ->
  target <> src ->
  file_data s src = Some (hdr ++ payload) -> List.length hdr = 4%nat ->
  file_flags s target = Some flags ->
  has_flag flags FS_IMMUTABLE_FL = false ->
  (List.length payload < fuel)%nat ->
  let res := run posix (efi_update_var_file root fuel) e s in
  res_out res = Returned tt /\
  file_data (res_env res) target = Some payload.
Proof.
  intros rtsv src target Hr Hh0 Hnul Hlen Hfind Hne Hsrc Hh Hff Hmut Hfuel res.
  subst rtsv src target.
  assert (Hbytes : List.length (bytes_of_string fname) = Z.to_nat (strlen fname)).
  { unfold bytes_of_string, strlen. rewrite length_map, Nat2Z.id.
    clear. induction fname; simpl; congruence. }
  subst res. unfold efi_update_var_file.
  rewrite run_bind. unfold then_run.
  destruct (esp_filename_result root e s hdr0 (bytes_of_string fname)
              (repeat x00 (Z.to_nat (PATH_MAX / 4))) (PATH_MAX / 4) Hr Hh0)
    as [Hout1 Hin1].
  { change (PATH_MAX / 4) with 1024. unfold SIZE_MAX. rewrite Hbytes.
    unfold strlen in *. lia. }
  { apply repeat_length. }
  destruct (run posix (get_esp_filename root _ _) e s) as [o1 e1 s1 tr1].
  cbn [res_out res_env res_errno res_trace] in *. subst o1.
  change (0 <? 0) with false. cbv iota.
  rewrite run_bind. unfold then_run.
  rewrite read_cstring_terminated
    by (apply resize_terminated; rewrite Hbytes;
        change (Z.to_nat (PATH_MAX / 4)) with 1024%nat;
        unfold strlen in *; lia).
  cbn [res_out res_env res_errno res_trace].
  change (Z.to_nat (PATH_MAX / 4)) with 1024%nat.
  rewrite cstring_resize by (auto; rewrite Hbytes; unfold strlen in *; lia).
  rewrite string_of_bytes_of_string.
  rewrite run_bind. unfold then_run, get_esp_filepath.
  pose proof (esp_filepath_stats esp_paths fname PATH_MAX e1 s1) as Hs2.
  pose proof (esp_filepath_from_result esp_paths fname PATH_MAX e1 s1) as Ho2.
  rewrite (find_same _ _ (fun esp => exists_path s (esp ++ fname))) in Ho2
    by (intros a; apply exists_path_inodes; exact Hin1).
  rewrite Hfind in Ho2.
  destruct (run posix (get_esp_filepath_from esp_paths fname PATH_MAX) e1 s1)
    as [o2 e2 s2 tr2].
  cbn [res_out res_env res_errno res_trace] in *. subst s2.
  rewrite Ho2.
  2:{ intros p Hin. unfold esp_paths in Hin. unfold PATH_MAX.
      destruct Hin as [<-|[<-|[<-|[]]]]; unfold strlen at 1;
        cbn [String.length Z.of_nat]; lia. }
  change (0 =? 0) with true. cbv iota.
  rewrite <- (file_data_inodes s s1 _ Hin1) in Hsrc.
  rewrite <- (file_flags_inodes s s1 _ Hin1) in Hff.
  destruct (write_file_copies root fuel (esp ++ fname) e2 s1 hdr payload
              flags Hne Hsrc Hh Hff Hmut Hfuel) as (Hout3 & Hd3 & _).
  destruct (run posix (write_file root fuel (esp ++ fname)) e2 s1)
    as [o3 e3 s3 tr3].
  cbn [res_out res_env res_errno res_trace] in *. subst o3.
  split; [reflexivity | exact Hd3].
Qed.

(** X22: when the reserved variable RTStorageVolatile has no file,
    efi_update_var_file returns without changing the file system at all and
    without printing anything to stderr. *)
Theorem sync_without_reserved_variable root fuel e s :
  file_data s (var_path root GUID_FILE_STORE_VARS NAME_RTSV) = None ->
  let res := run posix (efi_update_var_file root fuel) e s in
  res_out res = Returned tt /\ res_env res = s /\
  forall msg, ~ In (Fprintf msg) (map fst (res_trace res)).
Proof.
  intros Hd res. apply file_data_none in Hd. wp_start res.
  unfold efi_update_var_file, get_esp_filename, efi_get_variable,
    efivarfs_get_variable, make_efivarfs_path, get_cleanup, read_file,
    read_cstring, free.
  repeat (first [ px_branch | px_open | px_plain ]).
  all: px_leaf.
  all: split; [reflexivity|]; split; [reflexivity|].
  all: intros msg X; cbn [map fst In] in X.
  all: repeat (destruct X as [X|X]; [discriminate X|]); exact X.
Qed.

(** ** More on the single operations *)

(** X23: on an existing variable file that is not immutable,
    efivarfs_chmod_variable sets the mode of the file to the requested one,
    leaves its content and flags alone, and still returns -1. *)
Theorem chmod_changes_the_mode root guid name mode e s flags :
  let p := var_path root guid name in
  file_flags s p = Some flags -> has_flag flags FS_IMMUTABLE_FL = false ->
  let res := run posix (efivarfs_chmod_variable root guid name mode) e s in
  res_out res = Returned (-1) /\
  file_mode (res_env res) p = Some mode /\
  file_data (res_env res) p = file_data s p /\
  file_flags (res_env res) p = Some flags.
Proof.
  intros p Hff Hmut res.
  destruct (file_flags_inode _ _ _ Hff) as (n & i & P & Ff).
  assert (Imm : immutable i = false) by (unfold immutable; congruence).
  wp_start res.
  unfold efivarfs_chmod_variable, make_efivarfs_path, free. fold p.
  repeat px_branch. px_plain. repeat px_branch.
  apply wp_bind_sys; intros c s1 E; cbn [posix] in E.
  unfold posix_chmod in E. rewrite P, Imm in E. injection E as <- <-.
  repeat (first [ px_branch | px_plain ]).
  px_leaf. split; [reflexivity|].
  pose proof (path_inode_update s p n i
                (Inode (i_path i) (i_data i) (i_flags i) mode) P eq_refl)
    as P'.
  unfold file_mode, file_data, file_flags. rewrite P', P. cbn. 
  rewrite Ff. auto.
Qed.

(** X24: when the payload of the reserved variable is longer than the buffer
    (size > sz), get_esp_filename returns -1, leaves the caller's buffer as
    it was and changes no file. *)
Theorem esp_filename_refuses_long_payload root e s hdr payload filename sz :
  file_data s (var_path root GUID_FILE_STORE_VARS NAME_RTSV)
    = Some (hdr ++ payload) ->
  List.length hdr = 4%nat ->
  sz < Z.of_nat (List.length payload) <= SIZE_MAX ->
  let res := run posix (get_esp_filename root filename sz) e s in
  res_out res = Returned (-1, filename) /\
  fs_inodes (res_env res) = fs_inodes s.
Proof.
  intros Hd Hh Hsz res.
  split; [|apply run_reader_inodes, esp_filename_reads].
  destruct (file_data_holds _ _ _ Hd) as (n & H).
  destruct (get_reads_file root GUID_FILE_STORE_VARS NAME_RTSV e s n hdr
              payload H Hh) as [Hout Hs].
  remember (run posix
              (efivarfs_get_variable root GUID_FILE_STORE_VARS NAME_RTSV) e s)
    as g eqn:Hg.
  assert (Hlen : size_t (Z.of_nat (List.length (payload ++ [x00])) - 1)
                 = Z.of_nat (List.length payload)).
  { rewrite length_app. cbn [List.length].
    replace (Z.of_nat (List.length payload + 1) - 1)
      with (Z.of_nat (List.length payload)) by lia.
    apply size_t_small. lia. }
  rewrite Hlen in Hout.
  wp_start res.
  unfold get_esp_filename, efi_get_variable, memcpy_from, free, fprintf.
  apply wp_bind_assoc.
  eapply wp_bind_known; [rewrite <- Hg; exact Hout|]. rewrite <- Hg.
  repeat px_branch.
  replace (Z.of_nat (List.length payload) >? sz) with true
    by (symmetry; rewrite Z.gtb_ltb; apply Z.ltb_lt; lia).
  repeat (first [ px_branch | px_plain ]).
  px_leaf. reflexivity.
Qed.

(** ** The inner loop of [write_file] *)

Lemma firstn_plus A (k j : nat) (l : list A) :
  firstn (k + j) l = firstn k l ++ firstn j (skipn k l).
Proof.
  revert l. induction k as [|k IH]; intros l; [reflexivity|].
  destruct l as [|x l]; cbn [Nat.add firstn skipn app].
  - destruct j; reflexivity.
  - rewrite IH. reflexivity.
Qed.

Lemma firstn_split A (k m : nat) (l : list A) :
  (k <= m)%nat ->
  firstn k (firstn m l) ++ firstn (m - k) (skipn k l) = firstn m l.
Proof.
  intros H. rewrite firstn_firstn, Nat.min_l by exact H.
  replace m with (k + (m - k))%nat at 2 by lia.
  symmetry. apply firstn_plus.
Qed.

(** X25: the inner loop of write_file resumes after short fwrite calls: with
    an fwrite that never reports more bytes than it was given, and a chunk
    that lies within the buffer, when the loop reports success the bytes
    accepted by the successive fwrite calls are exactly the bytes of the
    chunk not yet written, in order and each once; and the loop ends within
    as many turns as bytes are left. *)
Theorem write_chunk_resumes S (h : handler S) out fp buffer n fuel :
  fwrite_sane h out ->
  n <= Z.of_nat (List.length buffer) -> n <= SIZE_MAX ->
  forall total e s,
    0 <= total <= n ->
    let res := run h (write_chunk fuel out fp buffer n total) e s in
    (res_out res = Returned false ->
     accepted (res_trace res)
     = firstn (Z.to_nat (n - total)) (skipn (Z.to_nat total) buffer)) /\
    ((Z.to_nat (n - total) <= fuel)%nat ->
     exists failed, res_out res = Returned failed).
Proof.
  intros Hsane Hn Hmax.
  induction fuel as [|fuel IH]; intros total e s Ht.
  - cbn [write_chunk]. destruct (total <? n) eqn:L.
    + cbn [run res_out]. split; [intros X; discriminate X|].
      apply Z.ltb_lt in L. intros X. lia.
    + apply Z.ltb_ge in L. cbn [run res_out res_trace accepted flat_map].
      replace (n - total) with 0 by lia. split; [reflexivity | eauto].
  - cbn [write_chunk]. destruct (total <? n) eqn:L.
    + apply Z.ltb_lt in L. cbn [bind sys run].
      destruct (h s (Fwrite out _)) as [w s1] eqn:E.
      pose proof (Hsane _ _ _ _ E) as Hw.
      rewrite length_firstn, length_skipn in Hw.
      assert (Hsmall : size_t (rv w) = rv w)
        by (apply size_t_small; lia).
      rewrite Hsmall.
      destruct (rv w =? 0) eqn:Z0.
      * unfold fprintf. cbn [bind sys run].
        destruct (h s1 (Fprintf _)) as [r2 s2].
        cbn [run traced res_out]. split; [intros X; discriminate X | eauto].
      * apply Z.eqb_neq in Z0.
        assert (Hsum : size_t (total + rv w) = total + rv w)
          by (apply size_t_small; lia).
        rewrite Hsum.
        specialize (IH (total + rv w) (new_errno e w) s1 ltac:(lia)).
        destruct IH as [IH1 IH2].
        destruct (run h (write_chunk fuel out fp buffer n (total + rv w))
                    (new_errno e w) s1) as [o3 e3 s3 tr3].
        cbn [traced res_out res_trace] in *. split.
        -- intros X. unfold accepted. cbn [flat_map fst snd].
           fold (accepted tr3). rewrite (IH1 X).
           etransitivity;
             [|apply (firstn_split _ (Z.to_nat (rv w))
                        (Z.to_nat (n - total))); lia].
           f_equal. rewrite skipn_skipn.
           replace (Z.to_nat (n - total) - Z.to_nat (rv w))%nat
             with (Z.to_nat (n - (total + rv w))) by lia.
           replace (Z.to_nat (rv w) + Z.to_nat total)%nat
             with (Z.to_nat (total + rv w)) by lia.
           reflexivity.
        -- intros X. apply IH2. lia.
    + apply Z.ltb_ge in L. cbn [run res_out res_trace accepted flat_map].
      replace (n - total) with 0 by lia. split; [reflexivity | eauto].
Qed.

(** ** On the file system: paths, flags and modes; the descriptor table *)

Lemma map_update A B (f : A -> B) (l : list A) n x y :
  nth_error l n = Some y -> f x = f y -> map f (update l n x) = map f l.
Proof.
  revert n. induction l as [|z l IH]; intros n; simpl.
  - destruct n; discriminate.
  - destruct n as [|n]; simpl.
    + intros H Hp; injection H as ->. rewrite Hp. reflexivity.
    + intros H Hp. rewrite (IH n H Hp). reflexivity.
Qed.

Lemma names_metas s s' : metas s' = metas s -> names s' = names s.
Proof.
  unfold metas, names. intros H.
  assert (E : forall l, map i_path l = map (fun m => fst (fst m)) (map meta l)).
  { intros l. rewrite map_map. reflexivity. }
  rewrite !E, H. reflexivity.
Qed.

Lemma metas_set_fds s l : metas (set_fds s l) = metas s.
Proof. reflexivity. Qed.

Lemma posix_open_metas s path flags mode r s' :
  has_flag flags O_CREAT = false \/ exists_path s path = true ->
  posix_open s path flags mode = (r, s') -> metas s' = metas s.
Proof.
  intros H E. unfold posix_open, exists_path, new_fd in *.
  destruct (path_inode s path) as [[n i]|] eqn:P.
  - destruct (has_flag flags O_CREAT && has_flag flags O_EXCL);
      [injection E as <- <-; reflexivity|].
    destruct (has_flag flags O_WRONLY && immutable i);
      [injection E as <- <-; reflexivity|].
    destruct (has_flag flags O_WRONLY && has_flag flags O_TRUNC);
      injection E as <- <-; [|reflexivity].
    unfold metas. simpl. apply map_update with (y := i).
    + eapply path_inode_nth; eauto.
    + reflexivity.
  - destruct H as [H|H]; [|discriminate H]. rewrite H in E.
    injection E as <- <-. reflexivity.
Qed.

Lemma posix_fopen_metas s path mode r s' :
  String.eqb mode "rb" = true \/ exists_path s path = true ->
  posix_fopen s path mode = (r, s') -> metas s' = metas s.
Proof.
  intros H E. unfold posix_fopen in E.
  destruct (posix_open s path _ 438) as [r0 s0] eqn:O.
  assert (N : metas s0 = metas s).
  { eapply posix_open_metas; [|exact O].
    destruct H as [H|H]; [left; rewrite H; reflexivity | right; exact H]. }
  destruct (rv r0 <? 0); injection E as <- <-; exact N.
Qed.

Lemma posix_write_metas s fd buf count r s' :
  posix_write s fd buf count = (r, s') -> metas s' = metas s.
Proof.
  intros E. unfold posix_write in E.
  destruct (fd_inode s fd) as [[o i]|] eqn:F;
    [|injection E as <- <-; reflexivity].
  destruct (negb (o_write o)); [injection E as <- <-; reflexivity|].
  destruct (immutable i); injection E as <- <-; [reflexivity|].
  apply fd_inode_some in F. destruct F as [_ Hi].
  unfold metas, set_pos. simpl. apply map_update with (y := i); auto.
Qed.

Lemma posix_keeps_metas c s r s' :
  keeps_metas c = true -> posix s c = (r, s') -> metas s' = metas s.
Proof.
  intros K E. destruct c; simpl in K, E; try discriminate K;
    try (injection E as <- <-; reflexivity).
  - apply negb_true_iff in K. eapply posix_open_metas; eauto.
  - unfold posix_close in E. destruct (fd_lookup s fd);
      injection E as <- <-; reflexivity.
  - unfold posix_read in E. destruct (fd_inode s fd) as [[o i]|];
      [destruct (o_write o)|]; injection E as <- <-; reflexivity.
  - unfold posix_read_file in E. destruct (fd_inode s fd) as [[o i]|];
      [destruct (o_write o)|]; injection E as <- <-; reflexivity.
  - eapply posix_write_metas; eauto.
  - unfold posix_fstat in E. destruct (fd_inode s fd) as [[o i]|];
      injection E as <- <-; reflexivity.
  - unfold posix_stat in E. destruct (path_inode s path) as [[m i]|];
      injection E as <- <-; reflexivity.
  - unfold posix_getflags in E. destruct (fd_inode s fd) as [[o i]|];
      [destruct (fs_has_flags s)|]; injection E as <- <-; reflexivity.
  - eapply posix_fopen_metas; eauto.
  - unfold posix_fread, posix_read in E.
    destruct (fd_inode s (stream - 1)) as [[o i]|];
      [destruct (o_write o)|]; simpl in E;
      try (injection E as <- <-; reflexivity).
    destruct (_ <? 0); injection E as <- <-; reflexivity.
  - unfold posix_fwrite in E.
    destruct (posix_write s (stream - 1) buf _) as [r0 s0] eqn:W.
    apply posix_write_metas in W.
    destruct (rv r0 <? 0); injection E as <- <-; exact W.
  - unfold posix_close in E. destruct (fd_lookup s (stream - 1));
      injection E as <- <-; reflexivity.
Qed.

(** What every call of a program keeps, its run keeps. *)
Lemma run_invariant A (p : prog A) (P : syscall -> bool) (I : fs -> Prop) :
  (forall c s r s', P c = true -> I s -> posix s c = (r, s') -> I s') ->
  issues_only P p ->
  forall e s, I s -> I (res_env (run posix p e s)).
Proof.
  intros Step.
  induction p as [a | c k IH | msg k IH | k IH | e' k IH | code | ];
    simpl; intros Hp e s Hs; auto.
  - destruct Hp as [Hc Hk]. destruct (posix s c) as [r s'] eqn:E. simpl.
    apply IH; auto. eapply Step; eauto.
  - destruct Hp as [_ Hk]. simpl. apply IH; auto.
Qed.

Lemma plain_call_same c s r s' :
  plain_call c = true -> posix s c = (r, s') -> s' = s.
Proof.
  destruct c; try discriminate; intros _ E; simpl in E;
    try (injection E as <- <-; reflexivity).
  unfold posix_stat in E. destruct (path_inode s path) as [[m i]|];
    injection E as <- <-; reflexivity.
Qed.

Lemma run_plain A (p : prog A) e s :
  issues_only plain_call p -> res_env (run posix p e s) = s.
Proof.
  intros Hp.
  apply (run_invariant A p plain_call (fun s' => s' = s)); auto.
  intros c s0 r s' Hc -> E. eapply plain_call_same; eauto.
Qed.

Lemma update_app A (l t : list A) k x :
  update (l ++ t) (List.length l + k) x = l ++ update t k x.
Proof.
  induction l as [|a l IH]; simpl.
  - reflexivity.
  - rewrite IH. reflexivity.
Qed.

Lemma nth_error_app_length A (l t : list A) k :
  nth_error (l ++ t) (List.length l + k) = nth_error t k.
Proof. induction l as [|a l IH]; simpl; auto. Qed.

Lemma fd_lookup_tail s l t k :
  fs_fds s = l ++ t ->
  fd_lookup s (Z.of_nat (List.length l) + Z.of_nat k)
  = match nth_error t k with
    | Some (Some o) => Some o
    | _ => None
    end.
Proof.
  intros H. unfold fd_lookup. rewrite H.
  destruct (_ <? 0) eqn:N; [apply Z.ltb_lt in N; lia|].
  replace (Z.to_nat (Z.of_nat (List.length l) + Z.of_nat k))
    with (List.length l + k)%nat by lia.
  rewrite nth_error_app_length. reflexivity.
Qed.

Lemma set_fds_set_fds s l l' : set_fds (set_fds s l) l' = set_fds s l'.
Proof. reflexivity. Qed.

(** What an [open] does to the descriptor table. *)
Lemma posix_open_fds s path flags mode r s' :
  posix_open s path flags mode = (r, s') ->
  (rv r = -1 /\ s' = s) \/
  (rv r = Z.of_nat (List.length (fs_fds s)) /\
   exists o, fs_fds s' = fs_fds s ++ [Some o]).
Proof.
  intros E. unfold posix_open, new_fd in E.
  destruct (path_inode s path) as [[n i]|].
  - destruct (_ && _); [injection E as <- <-; left; auto|].
    destruct (_ && _); [injection E as <- <-; left; auto|].
    destruct (_ && _); injection E as <- <-; right; split; try reflexivity;
      eexists; reflexivity.
  - destruct (has_flag flags O_CREAT); injection E as <- <-.
    + right. split; [reflexivity|]. eexists; reflexivity.
    + left. auto.
Qed.

Lemma posix_fopen_fds s path mode r s' :
  posix_fopen s path mode = (r, s') ->
  (rv r = 0 /\ s' = s) \/
  (rv r = Z.of_nat (List.length (fs_fds s)) + 1 /\
   exists o, fs_fds s' = fs_fds s ++ [Some o]).
Proof.
  intros E. unfold posix_fopen in E.
  destruct (posix_open s path _ 438) as [r0 s0] eqn:O.
  destruct (posix_open_fds _ _ _ _ _ _ O) as [[R ->] | (R & o & T)].
  - rewrite R in E. change (-1 <? 0) with true in E. cbv iota in E.
    injection E as <- <-. left. auto.
  - rewrite R in E.
    destruct (Z.of_nat (List.length (fs_fds s)) <? 0) eqn:N;
      [apply Z.ltb_lt in N; lia|].
    injection E as <- <-. right. split; [reflexivity|]. exists o. exact T.
Qed.

(** ** The copy of [write_file] keeps to its two streams *)

Lemma set_pos_tail s l t k o pos :
  fs_fds s = l ++ t ->
  fs_fds (set_pos s (Z.of_nat (List.length l) + Z.of_nat k) o pos)
  = l ++ update t k (Some (Ofd (o_ino o) pos (o_write o) (o_append o))).
Proof.
  intros H. unfold set_pos. cbn [set_fds fs_fds]. rewrite H.
  replace (Z.to_nat (Z.of_nat (List.length l) + Z.of_nat k))
    with (List.length l + k)%nat by lia.
  apply update_app.
Qed.

Lemma loop_call_copying fds m v out c s r s' :
  v = Z.of_nat (List.length fds) + 1 ->
  out = Z.of_nat (List.length fds) + 2 ->
  loop_call v out c = true ->
  copying fds m s -> posix s c = (r, s') -> copying fds m s'.
Proof.
  intros Hv Hout L (M & ov & oo & T) E.
  destruct c; try discriminate L; cbn [loop_call] in L; cbn [posix] in E.
  - (* fread *)
    apply Z.eqb_eq in L. subst stream.
    unfold posix_fread, posix_read in E.
    destruct (fd_inode s (v - 1)) as [[o i]|] eqn:F.
    + destruct (o_write o).
      * simpl in E. injection E as <- <-. split; eauto.
      * cbn [rv] in E.
        destruct (_ <? 0); injection E as <- <-.
        all: split; [exact M|].
        all: replace (v - 1)
               with (Z.of_nat (List.length fds) + Z.of_nat 0) by lia.
        all: rewrite (set_pos_tail s fds _ 0 o _ T); cbn [update]; eauto.
    + simpl in E. injection E as <- <-. split; eauto.
  - (* fwrite *)
    apply Z.eqb_eq in L. subst stream.
    unfold posix_fwrite, posix_write in E.
    destruct (fd_inode s (out - 1)) as [[o i]|] eqn:F.
    + destruct (negb (o_write o)).
      { simpl in E. injection E as <- <-. split; eauto. }
      destruct (immutable i).
      { simpl in E. injection E as <- <-. split; eauto. }
      cbn [rv ok] in E.
      apply fd_inode_some in F. destruct F as [_ Hi].
      destruct (_ <? 0); injection E as <- <-.
      all: split;
        [ rewrite <- M; unfold metas, set_pos; simpl;
          apply map_update with (y := i); auto |].
      all: replace (out - 1)
             with (Z.of_nat (List.length fds) + Z.of_nat 1) by lia.
      all: match goal with
           | |- context [set_pos ?s1 _ _ _] =>
               rewrite (set_pos_tail s1 fds [Some ov; Some oo] 1 o _ T)
           end; cbn [update]; eauto.
    + simpl in E. injection E as <- <-. split; eauto.
  - (* fprintf *)
    injection E as <- <-. split; eauto.
Qed.

(** The loops of [write_file] do not end the process. *)
Lemma write_chunk_no_exit St (h : handler St) fuel out fp buffer n t e s code :
  res_out (run h (write_chunk fuel out fp buffer n t) e s) <> Exited code.
Proof.
  revert t e s. induction fuel as [|fuel IH]; intros t e s; simpl.
  - destruct (t <? n); simpl; discriminate.
  - destruct (t <? n); simpl; [|discriminate].
    destruct (h s _) as [r s']. simpl.
    destruct (size_t (rv r) =? 0); simpl.
    + destruct (h s' _) as [r1 s1]. simpl. discriminate.
    + apply IH.
Qed.

Lemma copy_loop_no_exit St (h : handler St) fuel v out fp buffer e s code :
  res_out (run h (copy_loop fuel v out fp buffer) e s) <> Exited code.
Proof.
  revert buffer e s. induction fuel as [|fuel IH]; intros buffer e s.
  - simpl. discriminate.
  - cbn [copy_loop]. rewrite run_bind. unfold then_run.
    cbn [sys run]. destruct (h s _) as [r s'].
    cbn [traced res_out res_env res_errno res_trace].
    destruct (size_t (rv r) >? 0); [|simpl; discriminate].
    rewrite run_bind. unfold then_run.
    pose proof (write_chunk_no_exit St h (S fuel) out fp
                  (store_bytes (r_data r) buffer) (size_t (rv r)) 0
                  (new_errno e r) s' code) as W.
    destruct (run h (write_chunk (S fuel) out fp _ _ 0) _ s')
      as [o1 e1 s1 tr1].
    cbn [res_out res_env res_errno res_trace] in *.
    destruct o1 as [[]| |]; cbn [res_out run]; try discriminate;
      try exact W.
    apply IH.
Qed.

Lemma posix_close_tail s l t k o :
  fs_fds s = l ++ t -> nth_error t k = Some (Some o) ->
  posix_close s (Z.of_nat (List.length l) + Z.of_nat k)
  = (ok 0, set_fds s (l ++ update t k None)).
Proof.
  intros H N. unfold posix_close.
  rewrite (fd_lookup_tail s l t k H), N.
  replace (Z.to_nat (Z.of_nat (List.length l) + Z.of_nat k))
    with (List.length l + k)%nat by lia.
  rewrite H, update_app. reflexivity.
Qed.

Lemma no_leak_refl s : no_leak s s.
Proof. exists 0%nat. simpl. rewrite app_nil_r. reflexivity. Qed.

Lemma no_leak_trans s s1 s2 : no_leak s s1 -> no_leak s1 s2 -> no_leak s s2.
Proof.
  intros (k1 & H1) (k2 & H2). exists (k1 + k2)%nat.
  rewrite H2, H1, <- app_assoc, repeat_app. reflexivity.
Qed.

Lemma no_leak_used_fd s : no_leak s (used_fd s).
Proof. exists 1%nat. reflexivity. Qed.

(** The [err] label of [write_file] closes the two streams. *)
Lemma cleanup_closes fds m v out failed e s :
  v = Z.of_nat (List.length fds) + 1 ->
  out = Z.of_nat (List.length fds) + 2 ->
  copying fds m s ->
  let res := run posix (write_file_cleanup v out failed) e s in
  metas (res_env res) = m /\ fs_fds (res_env res) = fds ++ [None; None].
Proof.
  intros Hv Hout (M & ov & oo & T).
  unfold write_file_cleanup, free, when.
  assert (Nv : nonzero v = true)
    by (unfold nonzero; apply negb_true_iff, Z.eqb_neq; lia).
  assert (No : nonzero out = true)
    by (unfold nonzero; apply negb_true_iff, Z.eqb_neq; lia).
  rewrite Nv, No.
  cbn [bind sys run posix traced res_out res_env].
  replace (v - 1) with (Z.of_nat (List.length fds) + Z.of_nat 0) by lia.
  rewrite (posix_close_tail s fds _ 0 ov T eq_refl).
  cbn [update traced res_out res_env bind sys run posix].
  replace (out - 1) with (Z.of_nat (List.length fds) + Z.of_nat 1) by lia.
  match goal with
  | |- context [posix_close ?s1 _] =>
      rewrite (posix_close_tail s1 fds [None; Some oo] 1 oo eq_refl eq_refl)
  end.
  cbn [update].
  destruct failed; cbn [traced res_out res_env bind sys run posix];
    split; auto.
Qed.

(** [write_file] on a file that exists: no path, flag or mode changes, and
    the streams it opens are closed when it is over. *)
Lemma write_file_frame root fuel fp e s :
  exists_path s fp = true ->
  let res := run posix (write_file root fuel fp) e s in
  metas (res_env res) = metas s /\
  (res_out res <> OutOfFuel -> no_leak s (res_env res)).
Proof.
  intros Hfp res. wp_start res.
  unfold write_file, make_efivarfs_path, fprintf.
  repeat px_branch. px_plain. repeat px_branch.
  (* fopen(path, "rb") *)
  apply wp_bind_sys; intros v s1 E1. cbn [posix] in E1.
  pose proof (posix_fopen_metas s _ "rb" v s1 (or_introl eq_refl) E1) as N1.
  destruct (posix_fopen_fds _ _ _ _ _ E1) as [[V ->] | (V & ov & T1)];
    clear E1.
  { rewrite V. repeat px_branch. px_plain.
    unfold write_file_cleanup, free, when.
    repeat (first [ px_branch | px_plain ]).
    px_leaf. wp_finish. split; [reflexivity|]. intros _. apply no_leak_refl. }
  assert (V0 : (rv v =? 0) = false) by (apply Z.eqb_neq; lia).
  rewrite V0. repeat px_branch.
  (* fopen(filepath, "wb") *)
  apply wp_bind_sys; intros o s2 E2. cbn [posix] in E2.
  assert (N2 : metas s2 = metas s).
  { rewrite <- N1. eapply posix_fopen_metas; [|exact E2]. right.
    rewrite (exists_path_names s s1 fp (names_metas _ _ N1)). exact Hfp. }
  destruct (posix_fopen_fds _ _ _ _ _ E2) as [[O ->] | (O & oo & T2)];
    clear E2.
  { rewrite O. repeat px_branch. px_plain.
    unfold write_file_cleanup, free, when.
    assert (Nv : nonzero (rv v) = true)
      by (unfold nonzero; rewrite V0; reflexivity).
    rewrite Nv. change (nonzero 0) with false.
    repeat (first [ px_branch | px_plain ]).
    apply wp_bind_sys; intros c s3 E3. cbn [posix] in E3.
    replace (rv v - 1)
      with (Z.of_nat (List.length (fs_fds s)) + Z.of_nat 0) in E3 by lia.
    rewrite (posix_close_tail s1 _ _ 0 ov T1 eq_refl) in E3.
    injection E3 as <- <-.
    repeat (first [ px_branch | px_plain ]).
    px_leaf. wp_finish. split; [exact N1|]. intros _.
    exists 1%nat. reflexivity. }
  assert (O0 : (rv o =? 0) = false) by (apply Z.eqb_neq; lia).
  rewrite O0. repeat px_branch.
  assert (C : copying (fs_fds s) (metas s) s2).
  { split; [exact N2|]. exists ov, oo. rewrite T2, T1, <- app_assoc.
    reflexivity. }
  assert (Hv : rv v = Z.of_nat (List.length (fs_fds s)) + 1) by exact V.
  assert (Ho : rv o = Z.of_nat (List.length (fs_fds s)) + 2).
  { rewrite O, T1, length_app. cbn [List.length]. lia. }
  clear N1 N2 T1 T2 V O.
  (* fread of the four bytes *)
  apply wp_bind_sys; intros h s3 E3.
  apply (loop_call_copying (fs_fds s) (metas s) (rv v) (rv o)
           (Fread (rv v) 4) s2 h s3 Hv Ho (Z.eqb_refl _) C) in E3.
  clear C. repeat px_branch.
  - apply wp_bind_sys; intros c s4 E4. cbn [posix] in E4.
    injection E4 as <- <-.
    repeat px_branch.
    lazymatch goal with
    | |- wp posix (write_file_cleanup ?a ?b ?f) ?e0 ?s0 _ =>
        destruct (cleanup_closes _ _ a b f e0 s0 Hv Ho E3) as [M F]
    end.
    unfold wp. wp_finish. split; [exact M|]. intros _.
    exists 2%nat. exact F.
  - apply wp_bind. unfold wp at 1.
    lazymatch goal with
    | |- context [run posix (copy_loop ?f ?a ?b ?p ?buf) ?e0 s3] =>
        pose proof (run_invariant _ (copy_loop f a b p buf) _ _
                      (fun c s r s' => loop_call_copying _ _ _ _ c s r s'
                                         Hv Ho)
                      (copy_loop_loops _ _ _ _ _) e0 s3 E3) as C;
        pose proof (copy_loop_no_exit _ posix f a b p buf e0 s3) as X
    end.
    destruct (run posix (copy_loop _ _ _ _ _) _ s3) as [o1 e1 s4 tr1].
    cbn [res_out res_env res_errno res_trace] in *.
    destruct o1 as [failed|code|].
    + destruct (cleanup_closes _ _ _ _ failed e1 s4 Hv Ho C) as [M F].
      unfold wp. wp_finish. split; [exact M|]. intros _.
      exists 2%nat. exact F.
    + exfalso. exact (X code eq_refl).
    + wp_finish. destruct C as [M _]. split; [exact M|].
      intros A. exfalso. apply A. reflexivity.
Qed.

Lemma esp_filename_env root filename sz e s :
  res_env (run posix (get_esp_filename root filename sz) e s)
  = if exists_path s (var_path root GUID_FILE_STORE_VARS NAME_RTSV)
    then used_fd s else s.
Proof.
  rewrite <- (get_leaves_fs root GUID_FILE_STORE_VARS NAME_RTSV e s).
  unfold get_esp_filename, efi_get_variable.
  rewrite run_bind. unfold then_run at 1.
  rewrite run_bind. unfold then_run.
  destruct (run posix (efivarfs_get_variable root _ _) e s) as [o e1 s1 tr1].
  cbn [res_out res_env res_errno res_trace].
  destruct o as [out| |]; cbn [res_out res_env]; try reflexivity.
  unfold when.
  destruct (g_ret out <? 0) eqn:G;
    cbn [bind efi_error run traced res_out res_env res_errno res_trace];
    rewrite G; cbn [run res_env]; try reflexivity.
  destruct (g_data_size out >? sz).
  - apply run_plain. unfold fprintf, free. issues.
  - apply run_plain. unfold memcpy_from, free. issues.
Qed.

(** PersistenceSync changes no path, flag or mode, and closes what it
    opens. *)
Lemma sync_frame root fuel e s :
  let res := run posix (efi_update_var_file root fuel) e s in
  metas (res_env res) = metas s /\
  (res_out res <> OutOfFuel -> no_leak s (res_env res)).
Proof.
  unfold efi_update_var_file.
  rewrite run_bind. unfold then_run.
  pose proof (esp_filename_env root (repeat x00 (Z.to_nat (PATH_MAX / 4)))
                (PATH_MAX / 4) e s) as H1.
  destruct (run posix (get_esp_filename root _ _) e s) as [o1 e1 s1 tr1].
  cbn [res_out res_env res_errno res_trace] in *.
  assert (M1 : metas s1 = metas s)
    by (rewrite H1; destruct (exists_path s _); reflexivity).
  assert (L1 : no_leak s s1).
  { rewrite H1. destruct (exists_path s _);
      [apply no_leak_used_fd | apply no_leak_refl]. }
  clear H1.
  destruct o1 as [[rc filename]| |]; cbn [res_out res_env]; auto.
  destruct (rc <? 0); [cbn [run res_out res_env]; auto|].
  rewrite run_bind. unfold then_run.
  destruct (read_cstring_posix filename e1 s1) as (name & trn & ->).
  cbn [res_out res_env res_errno res_trace].
  rewrite run_bind. unfold then_run, get_esp_filepath.
  pose proof (esp_filepath_stats esp_paths
                (string_of_bytes name) PATH_MAX e1 s1) as H2.
  pose proof (esp_filepath_exists esp_paths
                (string_of_bytes name) PATH_MAX e1 s1) as Hfp.
  destruct (run posix (get_esp_filepath_from esp_paths _ PATH_MAX) e1 s1)
    as [o2 e2 s2 tr2].
  cbn [res_out res_env res_errno res_trace] in *. subst s2.
  destruct o2 as [[rc' filepath]| |]; cbn [res_out res_env]; auto.
  destruct (rc' =? 0) eqn:R.
  - apply Z.eqb_eq in R. subst rc'.
    destruct (write_file_frame root fuel filepath e2 s1 (Hfp _ eq_refl))
      as [M2 L2].
    split; [rewrite M2; exact M1|].
    intros X. eapply no_leak_trans; [exact L1 | exact (L2 X)].
  - unfold fprintf. cbn [bind sys run posix traced res_out res_env]. auto.
Qed.

(** ** The calls of set on the file of the variable *)

Lemma map_update_f A B (f : A -> B) (l : list A) n x :
  map f (update l n x) = update (map f l) n (f x).
Proof.
  revert n. induction l as [|z l IH]; intros [|n]; simpl; auto.
  rewrite IH. reflexivity.
Qed.

Lemma nth_error_update_lt A (l : list A) n x :
  (n < List.length l)%nat -> nth_error (update l n x) n = Some x.
Proof.
  intros H. destruct (nth_error l n) as [y|] eqn:E.
  - eapply nth_error_update_same; eauto.
  - apply nth_error_None in E. lia.
Qed.

Lemma update_app_l A (t u : list A) k x :
  (k < List.length t)%nat -> update (t ++ u) k x = update t k x ++ u.
Proof.
  revert k. induction t as [|a t IH]; intros [|k] H; simpl in *; try lia.
  - reflexivity.
  - rewrite IH by lia. reflexivity.
Qed.

Section SetState.

Variables (path : string) (n : nat) (md : Z)
  (ms : list (option string * Z * Z)) (fds : list (option ofd)) (hf : bool).

Lemma set_state_inode fl t u s :
  set_state path n md fl ms fds t u hf s ->
  exists i, nth_error (fs_inodes s) n = Some i /\
            meta i = (Some path, fl, md) /\
            path_inode s path = Some (n, i).
Proof.
  intros (F & L & M & _).
  assert (N : nth_error (metas s) n = Some (Some path, fl, md))
    by (rewrite M; apply nth_error_update_lt; exact L).
  unfold metas in N. rewrite nth_error_map in N.
  destruct (nth_error (fs_inodes s) n) as [i|] eqn:I; [|discriminate N].
  assert (Mi : meta i = (Some path, fl, md))
    by (injection N; intros; unfold meta; congruence).
  exists i. split; [reflexivity|]. split; [exact Mi|].
  unfold path_inode. rewrite F, I. reflexivity.
Qed.

Lemma set_state_fd fl t u s k o :
  set_state path n md fl ms fds t u hf s -> nth_error t k = Some (Some o) ->
  fd_lookup s (Z.of_nat (List.length fds + k)) = Some o.
Proof.
  intros (_ & _ & _ & T & _) N. unfold fd_lookup.
  destruct (_ <? 0) eqn:B; [apply Z.ltb_lt in B; lia|].
  rewrite Nat2Z.id, T, nth_error_app_length.
  rewrite nth_error_app1 by (apply nth_error_Some; congruence).
  rewrite N. reflexivity.
Qed.

Lemma set_state_fd_inode fl t u s k pos w a :
  set_state path n md fl ms fds t u hf s -> nth_error t k = Some (Some (Ofd n pos w a)) ->
  exists i, fd_inode s (Z.of_nat (List.length fds + k))
            = Some (Ofd n pos w a, i) /\
            nth_error (fs_inodes s) n = Some i /\
            meta i = (Some path, fl, md).
Proof.
  intros St N. destruct (set_state_inode _ _ _ _ St) as (i & I & M & _).
  exists i. split; [|auto]. unfold fd_inode.
  rewrite (set_state_fd _ _ _ _ _ _ St N). cbn [o_ino]. rewrite I.
  reflexivity.
Qed.

Lemma set_state_set_fds fl t u t' u' s :
  set_state path n md fl ms fds t u hf s ->
  set_state path n md fl ms fds t' u' hf (set_fds s (fds ++ t' ++ u')).
Proof.
  intros (F & L & M & T & H). repeat split; auto.
Qed.

Lemma set_state_update fl fl' t u s i x :
  set_state path n md fl ms fds t u hf s ->
  nth_error (fs_inodes s) n = Some i -> i_path x = i_path i ->
  meta x = (Some path, fl', md) ->
  set_state path n md fl' ms fds t u hf (set_inodes s (update (fs_inodes s) n x)).
Proof.
  intros (F & L & M & T & H) I P X. repeat split; auto.
  - cbn [set_inodes fs_inodes].
    rewrite (find_path_update path _ n x i I P). exact F.
  - unfold metas in *. cbn [set_inodes fs_inodes].
    rewrite map_update_f, M, update_update, X. reflexivity.
Qed.

Lemma state_fstat fl t u s k pos w a fd r s' :
  set_state path n md fl ms fds t u hf s ->
  nth_error t k = Some (Some (Ofd n pos w a)) ->
  fd = Z.of_nat (List.length fds + k) ->
  posix s (Fstat fd) = (r, s') ->
  s' = s /\ exists size, r = Reply 0 None [] 0 (Z.of_nat n) size 0.
Proof.
  intros St N -> E.
  destruct (set_state_fd_inode _ _ _ _ _ _ _ _ St N) as (i & F & _).
  cbn [posix] in E. unfold posix_fstat in E. rewrite F in E.
  injection E as <- <-. split; [reflexivity|]. eexists. reflexivity.
Qed.

Lemma state_getflags fl t u s k pos w a fd r s' :
  set_state path n md fl ms fds t u hf s ->
  nth_error t k = Some (Some (Ofd n pos w a)) ->
  fd = Z.of_nat (List.length fds + k) ->
  posix s (IoctlGetFlags fd) = (r, s') ->
  s' = s /\ r = if hf then Reply 0 None [] 0 0 0 fl else fail ENOTTY.
Proof.
  intros St N -> E.
  destruct (set_state_fd_inode _ _ _ _ _ _ _ _ St N) as (i & F & _ & M).
  cbn [posix] in E. rewrite (posix_getflags_at _ _ _ _ F) in E.
  destruct St as (_ & _ & _ & _ & H). rewrite H in E.
  injection E as <- <-. split; [reflexivity|].
  injection M as _ <- _. reflexivity.
Qed.

Lemma state_setflags fl fl' t u s k pos w a fd r s' :
  set_state path n md fl ms fds t u hf s -> hf = true ->
  nth_error t k = Some (Some (Ofd n pos w a)) ->
  fd = Z.of_nat (List.length fds + k) ->
  posix s (IoctlSetFlags fd fl') = (r, s') ->
  r = ok 0 /\ set_state path n md fl' ms fds t u hf s'.
Proof.
  intros St Hf N -> E.
  destruct (set_state_fd_inode _ _ _ _ _ _ _ _ St N) as (i & F & I & M).
  cbn [posix] in E.
  assert (H : fs_has_flags s = true)
    by (destruct St as (_ & _ & _ & _ & H); congruence).
  rewrite (posix_setflags_at _ _ _ _ fl' F H) in E. cbn [o_ino] in E.
  injection E as <- <-. split; [reflexivity|].
  apply (set_state_update _ _ _ _ _ _ _ St I); [reflexivity|].
  unfold meta in *. cbn [i_path i_flags i_mode]. congruence.
Qed.

(** The ioctl that restores the flags, when there is nothing to restore. *)
Lemma setflags_nothing s fd flags r s' :
  fd = -1 \/ fs_has_flags s = false ->
  posix s (IoctlSetFlags fd flags) = (r, s') -> s' = s.
Proof.
  intros H E. cbn [posix] in E. unfold posix_setflags in E.
  destruct H as [-> | H].
  - cbn in E. injection E as <- <-. reflexivity.
  - rewrite H in E. destruct (fd_inode s fd) as [[o i]|];
      injection E as <- <-; reflexivity.
Qed.

Lemma state_open fl t s flags mode r s' :
  set_state path n md fl ms fds t [] hf s ->
  has_flag flags O_CREAT = false -> has_flag flags O_TRUNC = false ->
  posix s (Open path flags mode) = (r, s') ->
  (has_flag flags O_WRONLY && has_flag fl FS_IMMUTABLE_FL = true /\
   r = fail EPERM /\ s' = s) \/
  (has_flag flags O_WRONLY && has_flag fl FS_IMMUTABLE_FL = false /\
   r = ok (Z.of_nat (List.length fds + List.length t)) /\
   set_state path n md fl ms fds
     (t ++ [Some (Ofd n 0 (has_flag flags O_WRONLY)
                      (has_flag flags O_APPEND))]) [] hf s').
Proof.
  intros St C Tr E.
  destruct (set_state_inode _ _ _ _ St) as (i & I & M & P).
  cbn [posix] in E. unfold posix_open in E. rewrite P, C, Tr in E.
  cbn [andb] in E. rewrite andb_false_r in E.
  assert (Im : immutable i = has_flag fl FS_IMMUTABLE_FL).
  { unfold immutable. injection M as _ <- _. reflexivity. }
  rewrite Im in E.
  destruct (has_flag flags O_WRONLY && has_flag fl FS_IMMUTABLE_FL).
  - injection E as <- <-. left. auto.
  - unfold new_fd in E. injection E as <- <-. right.
    split; [reflexivity|].
    pose proof St as (_ & _ & _ & T & _). rewrite app_nil_r in T.
    split; [rewrite T, length_app; reflexivity|].
    match goal with
    | |- set_state _ _ _ _ _ _ ?t' _ _ (set_fds _ ?l) =>
        replace l with (fds ++ t' ++ [])
          by (rewrite T, app_nil_r, app_assoc; reflexivity)
    end.
    apply set_state_set_fds with (t := t) (u := []). exact St.
Qed.

Lemma state_write fl t u s k pos a fd buf count r s' :
  set_state path n md fl ms fds t u hf s ->
  nth_error t k = Some (Some (Ofd n pos true a)) ->
  fd = Z.of_nat (List.length fds + k) ->
  posix s (Write fd buf count) = (r, s') ->
  (has_flag fl FS_IMMUTABLE_FL = true /\ r = fail EPERM /\ s' = s) \/
  (has_flag fl FS_IMMUTABLE_FL = false /\
   (exists c, r = ok (Z.of_nat c)) /\
   exists pos', set_state path n md fl ms fds (update t k (Some (Ofd n pos' true a))) u hf
                  s').
Proof.
  intros St N -> E.
  destruct (set_state_fd_inode _ _ _ _ _ _ _ _ St N) as (i & F & I & M).
  cbn [posix] in E. unfold posix_write in E. rewrite F in E.
  cbn [o_write o_ino o_append o_pos negb] in E.
  assert (Im : immutable i = has_flag fl FS_IMMUTABLE_FL).
  { unfold immutable. injection M as _ <- _. reflexivity. }
  rewrite Im in E.
  destruct (has_flag fl FS_IMMUTABLE_FL).
  - injection E as <- <-. left. auto.
  - injection E as <- <-. right. split; [reflexivity|].
    split; [eexists; reflexivity|].
    eexists.
    pose proof (set_state_update fl fl t u s i
                  (Inode (i_path i)
                     (overwrite (i_data i)
                        (if a then List.length (i_data i) else pos)
                        (firstn (Z.to_nat count) buf))
                     (i_flags i) (i_mode i)) St I eq_refl M) as St'.
    unfold set_pos. cbn [o_ino o_write o_append set_inodes fs_fds].
    pose proof St as (_ & _ & _ & T & _). rewrite T.
    rewrite Nat2Z.id, update_app.
    rewrite update_app_l by (apply nth_error_Some; congruence).
    apply (set_state_set_fds _ t u _ u _ St').
Qed.

(** Another file than the one set writes keeps its content. *)
Lemma state_write_other fl t u s k pos w a fd buf count r s' q m d :
  set_state path n md fl ms fds t u hf s ->
  nth_error t k = Some (Some (Ofd n pos w a)) ->
  fd = Z.of_nat (List.length fds + k) ->
  m <> n ->
  posix s (Write fd buf count) = (r, s') ->
  holds s q m d -> holds s' q m d.
Proof.
  intros St N -> Ne E H. cbn [posix] in E.
  refine (proj1 (posix_write_elsewhere q m d s _ buf count r s' H _ E)).
  exists (Ofd n pos w a). split.
  - eapply set_state_fd; eauto.
  - cbn [o_ino]. congruence.
Qed.

Lemma state_close fl t u s k o fd r s' :
  set_state path n md fl ms fds t u hf s ->
  nth_error t k = Some (Some o) ->
  fd = Z.of_nat (List.length fds + k) ->
  posix s (Close fd) = (r, s') ->
  r = ok 0 /\ set_state path n md fl ms fds (update t k None) u hf s'.
Proof.
  intros St N -> E. cbn [posix] in E. unfold posix_close in E.
  rewrite (set_state_fd _ _ _ _ _ _ St N) in E. injection E as <- <-.
  split; [reflexivity|].
  pose proof St as (_ & _ & _ & T & _). rewrite T.
  rewrite Nat2Z.id, update_app.
  rewrite update_app_l by (apply nth_error_Some; congruence).
  apply (set_state_set_fds _ t u _ u _ St).
Qed.

Lemma state_unlink fl t u s r s' :
  set_state path n md fl ms fds t u hf s -> has_flag fl FS_IMMUTABLE_FL = true ->
  posix s (Unlink path) = (r, s') -> s' = s.
Proof.
  intros St Im E.
  destruct (set_state_inode _ _ _ _ St) as (i & I & M & P).
  cbn [posix] in E. unfold posix_unlink in E. rewrite P in E.
  assert (X : immutable i = true).
  { unfold immutable. injection M as _ -> _. exact Im. }
  rewrite X in E. injection E as <- <-. reflexivity.
Qed.

(** PersistenceSync leaves set its file and its descriptors. *)
Lemma state_sync fl t s root fuel e :
  set_state path n md fl ms fds t [] hf s ->
  let res := run posix (efi_update_var_file root fuel) e s in
  res_out res <> OutOfFuel ->
  exists k, set_state path n md fl ms fds t (repeat None k) hf (res_env res).
Proof.
  intros St res X.
  destruct (sync_frame root fuel e s) as [M L]. fold res in M, L.
  destruct (L X) as (k & T). exists k.
  pose proof St as (F & Ln & Ms & Ts & H).
  repeat split; auto.
  - rewrite (find_path_names path _ _ (names_metas _ _ M)). exact F.
  - rewrite M. exact Ms.
  - rewrite T, Ts, app_nil_r, <- app_assoc. reflexivity.
  - pose proof (run_config _ (efi_update_var_file root fuel) e s) as C.
    fold res in C. destruct C as (_ & C & _). congruence.
Qed.

End SetState.

(** The state of set right when it starts on a file that exists. *)
Lemma set_state_start s path n i :
  path_inode s path = Some (n, i) ->
  set_state path n (i_mode i) (i_flags i) (metas s) (fs_fds s) [] []
    (fs_has_flags s) s /\
  nth_error (metas s) n = Some (Some path, i_flags i, i_mode i).
Proof.
  intros P. pose proof (path_inode_nth _ _ _ _ P) as I.
  assert (F : find_path path (fs_inodes s) = Some n).
  { unfold path_inode in P.
    destruct (find_path path (fs_inodes s)) as [m|]; [|discriminate].
    destruct (nth_error (fs_inodes s) m); [|discriminate].
    injection P as -> _. reflexivity. }
  assert (Pi : i_path i = Some path).
  { destruct (find_path_nth _ _ _ F) as (j & J & Pj).
    rewrite I in J. injection J as <-. unfold is_path in Pj.
    destruct (i_path i) as [q|]; [|discriminate].
    apply String.eqb_eq in Pj. congruence. }
  assert (N : nth_error (metas s) n = Some (Some path, i_flags i, i_mode i)).
  { unfold metas. rewrite nth_error_map, I. unfold meta. cbn [option_map].
    rewrite Pi. reflexivity. }
  split; [|exact N]. repeat split; auto.
  - apply nth_error_Some. congruence.
  - symmetry. apply update_same. exact N.
  - rewrite app_nil_r. reflexivity.
Qed.

(** The state of set right after it created the file. *)
Lemma set_state_created s path flags mode r s' :
  path_inode s path = None -> has_flag flags O_CREAT = true ->
  posix s (Open path flags mode) = (r, s') ->
  r = ok (Z.of_nat (List.length (fs_fds s) + 0)) /\
  set_state path (List.length (fs_inodes s)) mode (fs_create_flags s)
    (metas s ++ [(Some path, fs_create_flags s, mode)]) (fs_fds s)
    [Some (Ofd (List.length (fs_inodes s)) 0 (has_flag flags O_WRONLY)
               (has_flag flags O_APPEND))] []
    (fs_has_flags s) s'.
Proof.
  intros P C E. cbn [posix] in E. unfold posix_open in E.
  rewrite P, C in E. unfold new_fd in E. injection E as <- <-.
  split; [rewrite Nat.add_0_r; reflexivity|].
  repeat split.
  - cbn [set_fds set_inodes fs_inodes].
    apply find_path_app_new; [apply path_inode_none; exact P|].
    unfold is_path. cbn [i_path]. apply String.eqb_refl.
  - rewrite length_app. unfold metas. rewrite length_map.
    cbn [List.length]. lia.
  - unfold metas. cbn [set_fds set_inodes fs_inodes].
    rewrite map_app. cbn [map meta i_path i_flags i_mode].
    replace (List.length (fs_inodes s))
      with (List.length (map meta (fs_inodes s)) + 0)%nat
      by (rewrite length_map; lia).
    rewrite update_app. reflexivity.
Qed.

(** ** set, call by call *)

Lemma wp_sync_state A root fuel (f : unit -> prog A) e s
  (Q : result fs A -> Prop) path n md fl ms fds t hf :
  set_state path n md fl ms fds t [] hf s ->
  (forall o e' s' tr,
      match o with
      | Returned a =>
          forall k, set_state path n md fl ms fds t (repeat None k) hf s' ->
          wp posix (f a) e' s' (fun r' => Q (after tr r'))
      | Exited code => Q (Result (Exited code) e' s' tr)
      | OutOfFuel => Q (Result OutOfFuel e' s' tr)
      end) ->
  wp posix (bind (efi_update_var_file root fuel) f) e s Q.
Proof.
  intros St H. apply wp_bind. unfold wp at 1.
  pose proof (state_sync _ _ _ _ _ _ _ _ _ root fuel e St) as Hs.
  cbv zeta in Hs.
  destruct (run posix (efi_update_var_file root fuel) e s) as [o e' s' tr].
  specialize (H o e' s' tr). cbn [res_out res_env res_errno res_trace] in *.
  destruct o as [[]| |]; try exact H.
  destruct Hs as (k & Hk); [discriminate|]. exact (H k Hk).
Qed.

Lemma wp_sync_state_keeps A root fuel (f : unit -> prog A) e s
  (Q : result fs A -> Prop) path n md fl ms fds t hf q m d :
  set_state path n md fl ms fds t [] hf s ->
  not_under_esp q -> holds s q m d ->
  (forall o e' s' tr,
      holds s' q m d ->
      match o with
      | Returned a =>
          forall k, set_state path n md fl ms fds t (repeat None k) hf s' ->
          wp posix (f a) e' s' (fun r' => Q (after tr r'))
      | Exited code => Q (Result (Exited code) e' s' tr)
      | OutOfFuel => Q (Result OutOfFuel e' s' tr)
      end) ->
  wp posix (bind (efi_update_var_file root fuel) f) e s Q.
Proof.
  intros St Hesp Hq H. apply wp_bind. unfold wp at 1.
  pose proof (state_sync _ _ _ _ _ _ _ _ _ root fuel e St) as Hs.
  pose proof (sync_keeps_file root fuel e s q m d Hesp Hq) as Hk.
  cbv zeta in Hs.
  destruct (run posix (efi_update_var_file root fuel) e s) as [o e' s' tr].
  specialize (H o e' s' tr). cbn [res_out res_env res_errno res_trace] in *.
  specialize (H Hk).
  destruct o as [[]| |]; try exact H.
  destruct Hs as (k & Hs); [discriminate|]. exact (H k Hs).
Qed.

(** The files that a call leaves alone. *)
Ltac keep_other E :=
  repeat match goal with
  | H : holds ?s _ _ _ |- _ =>
      lazymatch type of E with
      | posix s ?c = _ =>
          apply (posix_keeps_data c _ _ _ _ _ _ eq_refl E) in H
      end
  end.

(** Whether the file of the variable is immutable at the moment. *)
Ltac flag_facts :=
  repeat match goal with
  | H : context [has_flag (Z.land _ (Z.lnot FS_IMMUTABLE_FL)) FS_IMMUTABLE_FL]
    |- _ => rewrite cleared_flag in H
  | H : (Z.land ?f FS_IMMUTABLE_FL =? 0) = _,
    W : context [has_flag ?f FS_IMMUTABLE_FL] |- _ =>
      unfold has_flag, nonzero in W; rewrite H in W; cbn [negb] in W
  end;
  try discriminate.

(** One call of set on one of its descriptors, the [k]-th. *)
Ltac sx_at k :=
  lazymatch goal with
  | St : set_state ?p ?n ?md ?fl ?ms ?fds ?t ?u ?hf ?s
    |- wp posix (bind (sys ?c) _) _ ?s _ =>
      let r := fresh "r" in
      let s' := fresh "s" in
      let E := fresh "E" in
      apply wp_bind_sys; intros r s' E;
      lazymatch c with
      | Write ?fd ?buf ?count =>
          try match goal with
          | H : holds s ?q ?m ?d, Ne : ?m <> n |- _ =>
              apply (state_write_other p n md ms fds hf fl t u s k _ _ _ fd
                       buf count r s' q m d St eq_refl eq_refl Ne E) in H
          end
      | _ => keep_other E
      end;
      lazymatch c with
      | Fstat ?fd =>
          let size := fresh "size" in
          destruct (state_fstat p n md ms fds hf fl t u s k _ _ _ fd r s'
                      St eq_refl eq_refl E) as (-> & size & ->)
      | IoctlGetFlags ?fd =>
          destruct (state_getflags p n md ms fds hf fl t u s k _ _ _ fd r s'
                      St eq_refl eq_refl E) as (-> & ->)
      | IoctlSetFlags ?fd ?fl' =>
          let St' := fresh "St" in
          destruct (state_setflags p n md ms fds hf fl fl' t u s k _ _ _ fd
                      r s' St eq_refl eq_refl eq_refl E) as (-> & St');
          clear St
      | Write ?fd ?buf ?count =>
          let W := fresh "W" in
          let c := fresh "c" in
          let pos := fresh "pos" in
          let St' := fresh "St" in
          destruct (state_write p n md ms fds hf fl t u s k _ _ fd buf count
                      r s' St eq_refl eq_refl E)
            as [(W & -> & ->) | (W & (c & ->) & pos & St')];
          [| cbn [update] in St'; clear St]
      | Close ?fd =>
          let St' := fresh "St" in
          destruct (state_close p n md ms fds hf fl t u s k _ fd r s'
                      St eq_refl eq_refl E) as (-> & St');
          cbn [update] in St'; clear St
      end;
      clear E
  end.

Ltac sx :=
  lazymatch goal with
  | |- wp posix (bind (sys (IoctlSetFlags (if ?b then _ else _) _)) _) _ _ _ =>
      unfold nonzero;
      match goal with
      | H : (?x =? 0) = _ |- context [negb (?x =? 0)] =>
          rewrite H; cbn [negb]; cbv iota
      end
  | St : set_state ?p ?n ?md ?fl ?ms ?fds ?t ?u ?hf ?s
    |- wp posix (bind (sys ?c) _) _ ?s _ =>
      lazymatch c with
      | Open _ ?flags ?mode =>
          let r := fresh "r" in
          let s' := fresh "s" in
          let E := fresh "E" in
          let W := fresh "W" in
          let St' := fresh "St" in
          apply wp_bind_sys; intros r s' E; keep_other E;
          destruct (state_open p n md ms fds hf fl t s flags mode r s'
                      St eq_refl eq_refl E)
            as [(W & -> & ->) | (W & -> & St')];
          [| cbn [app List.length] in St'; clear St];
          (let b := eval vm_compute in (has_flag flags O_WRONLY) in
           change (has_flag flags O_WRONLY) with b in *);
          (let b := eval vm_compute in (has_flag flags O_APPEND) in
           change (has_flag flags O_APPEND) with b in * );
          cbn [andb] in W; clear E
      | IoctlSetFlags (-1) _ =>
          let r := fresh "r" in
          let s' := fresh "s" in
          let E := fresh "E" in
          apply wp_bind_sys; intros r s' E;
          apply (setflags_nothing _ _ _ _ _ (or_introl eq_refl)) in E;
          subst s'
      | Unlink _ =>
          let r := fresh "r" in
          let s' := fresh "s" in
          let E := fresh "E" in
          apply wp_bind_sys; intros r s' E;
          apply (state_unlink p n md ms fds hf fl t u s r s' St) in E;
          [subst s' | assumption]
      | _ => first [ sx_at 0%nat | sx_at 1%nat ]
      end
  | St : set_state ?p ?n ?md ?fl ?ms ?fds ?t [] ?hf ?s
    |- wp posix (bind (efi_update_var_file _ _) _) _ ?s _ =>
      let o := fresh "o" in
      let k := fresh "k" in
      let St' := fresh "St" in
      first
        [ lazymatch goal with
          | H : holds s ?q ?m ?d, Hesp : not_under_esp ?q |- _ =>
              let H' := fresh "H" in
              apply (wp_sync_state_keeps _ _ _ _ _ _ _ _ _ _ _ _ _ _ _ _ _ _
                       St Hesp H);
              intros o ? ? ? H'; clear H
          end
        | apply (wp_sync_state _ _ _ _ _ _ _ _ _ _ _ _ _ _ _ St);
          intros o ? ? ? ];
      destruct o as [[]| |]; [intros k St'; clear St | |]
  end.

(** At the end of set: its descriptors are closed, and the file of the
    variable has its flags back. *)
Ltac set_done N :=
  lazymatch goal with
  | |- no_leak ?s ?s /\ _ => split; [apply no_leak_refl | reflexivity]
  | St : set_state _ _ _ _ _ _ ?t ?u _ ?sf |- no_leak _ ?sf /\ _ =>
      let M := fresh "M" in
      let T := fresh "T" in
      destruct St as (_ & _ & M & T & _); split;
      [ lazymatch u with
        | repeat None ?k => exists (List.length t + k)%nat; exact T
        | [] => exists (List.length t); exact T
        end
      | rewrite M; apply update_same; exact N ]
  end.

Lemma set_frame_existing root fuel guid name data data_size attributes mode
  e s n i ret :
  let p := var_path root guid name in
  path_inode s p = Some (n, i) ->
  let res := run posix
               (efivarfs_set_variable root fuel guid name data data_size
                  attributes mode) e s in
  res_out res = Returned ret ->
  no_leak s (res_env res) /\ metas (res_env res) = metas s.
Proof.
  intros p P res.
  destruct (set_state_start s p n i P) as [St N].
  wp_start res.
  unfold efivarfs_set_variable, make_efivarfs_path, set_body, set_cleanup,
    set_write_phase, efivarfs_make_fd_mutable, memcpy_from, free.
  fold p.
  destruct (nonzero (Z.land attributes EFI_VARIABLE_APPEND_WRITE)) eqn:App;
    cbv iota.
  all: destruct (fs_has_flags s) eqn:HF.
  all: repeat (first [ px_branch | sx | px_plain ]).
  all: flag_facts.
  all: px_leaf; intros _; set_done N.
Qed.

Lemma set_frame_missing root fuel guid name data data_size attributes mode
  e s ret :
  let p := var_path root guid name in
  path_inode s p = None ->
  let res := run posix
               (efivarfs_set_variable root fuel guid name data data_size
                  attributes mode) e s in
  res_out res = Returned ret ->
  no_leak s (res_env res) /\
  (ret = 0 ->
   metas (res_env res) = metas s ++ [(Some p, fs_create_flags s, mode)]) /\
  (metas (res_env res) = metas s \/
   metas (res_env res) = metas s ++ [(Some p, fs_create_flags s, mode)]).
Proof.
  intros p P res.
  assert (N : nth_error (metas s ++ [(Some p, fs_create_flags s, mode)])
                (List.length (fs_inodes s))
              = Some (Some p, fs_create_flags s, mode)).
  { replace (List.length (fs_inodes s)) with (List.length (metas s))
      by apply length_map.
    apply nth_error_snoc. }
  wp_start res.
  unfold efivarfs_set_variable, make_efivarfs_path, set_body, set_cleanup,
    set_write_phase, efivarfs_make_fd_mutable, memcpy_from, free.
  fold p.
  destruct (nonzero (Z.land attributes EFI_VARIABLE_APPEND_WRITE)) eqn:App;
    cbv iota.
  all: destruct (fs_has_flags s) eqn:HF.
  all: repeat (first [ px_branch | px_plain ]).
  all: try (px_leaf; intros X; injection X as <-;
            split; [apply no_leak_refl|];
            split; [intros X; discriminate X | left; reflexivity]).
  (* the read-only open fails *)
  all: apply wp_bind_sys; intros r s1 E; cbn [posix] in E;
    rewrite (posix_open_absent s p O_RDONLY 0 P eq_refl) in E;
    injection E as <- <-.
  all: repeat (first [ px_branch | px_plain ]).
  (* the file is created *)
  all: apply wp_bind_sys; intros w s1 E;
    lazymatch type of E with
    | posix _ (Open _ ?flags _) = _ =>
        destruct (set_state_created s p flags mode w s1 P eq_refl E)
          as (-> & St);
        (let b := eval vm_compute in (has_flag flags O_WRONLY) in
         change (has_flag flags O_WRONLY) with b in St);
        (let b := eval vm_compute in (has_flag flags O_APPEND) in
         change (has_flag flags O_APPEND) with b in St)
    end;
    rewrite HF in St; clear E.
  all: repeat (first [ px_branch | sx | px_plain ]).
  all: flag_facts.
  all: px_leaf; intros X; injection X as <-.
  all: lazymatch goal with
       | St : set_state _ _ _ _ _ _ ?t ?u _ ?sf |- no_leak _ ?sf /\ _ =>
           let M := fresh "M" in
           let T := fresh "T" in
           destruct St as (_ & _ & M & T & _); split;
           [ lazymatch u with
             | repeat None ?k => exists (List.length t + k)%nat; exact T
             | [] => exists (List.length t); exact T
             end
           | split;
             [ intros X; first [ discriminate X
                               | rewrite M; apply update_same; exact N ]
             | right; rewrite M; apply update_same; exact N ] ]
       end.
Qed.

(** ** What a path resolves to, from the paths, flags and modes *)

Lemma path_inode_metas l path :
  option_map (fun n => option_map meta (nth_error l n)) (find_path path l)
  = option_map Some
      (find (fun m => match fst (fst m) with
                      | Some q => String.eqb q path
                      | None => false
                      end) (map meta l)).
Proof.
  induction l as [|i l IH]; [reflexivity|].
  cbn [find_path map find meta fst is_path]. unfold is_path.
  destruct (i_path i) as [q|] eqn:Q; [destruct (String.eqb q path)|];
    try reflexivity.
  all: rewrite <- IH; destruct (find_path path l); reflexivity.
Qed.

Lemma file_meta s path :
  option_map (fun x => meta (snd x)) (path_inode s path)
  = find (fun m => match fst (fst m) with
                   | Some q => String.eqb q path
                   | None => false
                   end) (metas s).
Proof.
  pose proof (path_inode_metas (fs_inodes s) path) as H.
  unfold path_inode, metas.
  destruct (find_path path (fs_inodes s)) as [n|] eqn:F.
  - destruct (find_path_nth _ _ _ F) as (i & I & _).
    cbn [option_map] in H. rewrite I. rewrite I in H.
    cbn [option_map snd] in *.
    destruct (find _ (map meta (fs_inodes s))) as [m|]; [|discriminate H].
    injection H as H. rewrite H. reflexivity.
  - cbn [option_map] in *.
    destruct (find _ (map meta (fs_inodes s))); [discriminate H|].
    reflexivity.
Qed.

Lemma file_flags_meta s path :
  file_flags s path
  = option_map (fun m => snd (fst m))
      (option_map (fun x => meta (snd x)) (path_inode s path)).
Proof. unfold file_flags. destruct (path_inode s path); reflexivity. Qed.

Lemma file_mode_meta s path :
  file_mode s path
  = option_map snd (option_map (fun x => meta (snd x)) (path_inode s path)).
Proof. unfold file_mode. destruct (path_inode s path); reflexivity. Qed.

Lemma find_append A (f : A -> bool) (l l' : list A) :
  find f (l ++ l')
  = match find f l with
    | Some x => Some x
    | None => find f l'
    end.
Proof.
  induction l as [|x l IH]; simpl; [reflexivity|].
  destruct (f x); auto.
Qed.

Lemma same_metas_same_files s s' path :
  metas s' = metas s ->
  file_flags s' path = file_flags s path /\
  file_mode s' path = file_mode s path.
Proof.
  intros M. rewrite !file_flags_meta, !file_mode_meta, !file_meta, M. auto.
Qed.

(** X26: efi_update_var_file never creates, removes or renames a file, and
    changes no flags and no mode: after it, however it ends, exactly the
    same paths exist as before, each with the flags and the mode it had. *)
Theorem sync_keeps_paths_flags_and_modes root fuel e s path :
  let s' := res_env (run posix (efi_update_var_file root fuel) e s) in
  exists_path s' path = exists_path s path /\
  file_flags s' path = file_flags s path /\
  file_mode s' path = file_mode s path.
Proof.
  intros s'. destruct (sync_frame root fuel e s) as [M _]. fold s' in M.
  split.
  - apply exists_path_names, names_metas. exact M.
  - apply same_metas_same_files. exact M.
Qed.

(** ** set: paths, flags and modes *)

(** X27: when efivarfs_set_variable returns, on the file-system model,
    every path other than the variable's has the flags and the mode it
    had.  If the variable's file existed, it has the flags and the mode it
    had too: an immutable variable file is immutable again, and the mode
    argument is ignored.  If it did not exist, the path afterwards names no
    file, or a file with the flags that new files get; it names such a
    file when set returned 0.  The mode of a new file is not stated: the
    model has no umask. *)
Theorem set_keeps_flags_and_modes root fuel guid name data data_size
  attributes mode e s ret :
  let p := var_path root guid name in
  let res := run posix
               (efivarfs_set_variable root fuel guid name data data_size
                  attributes mode) e s in
  res_out res = Returned ret ->
  (forall q, q <> p ->
             file_flags (res_env res) q = file_flags s q /\
             file_mode (res_env res) q = file_mode s q) /\
  (exists_path s p = true ->
   file_flags (res_env res) p = file_flags s p /\
   file_mode (res_env res) p = file_mode s p) /\
  (exists_path s p = false ->
   (exists_path (res_env res) p = false \/
    file_flags (res_env res) p = Some (fs_create_flags s)) /\
   (ret = 0 -> file_flags (res_env res) p = Some (fs_create_flags s))).
Proof.
  intros p res Ho. unfold exists_path at 1 2.
  destruct (path_inode s p) as [[n i]|] eqn:P.
  - destruct (set_frame_existing root fuel guid name data data_size
                attributes mode e s n i ret P Ho) as [_ M].
    split; [|split].
    + intros q _. apply same_metas_same_files. exact M.
    + intros _. apply same_metas_same_files. exact M.
    + intros X. discriminate X.
  - destruct (set_frame_missing root fuel guid name data data_size
                attributes mode e s ret P Ho) as (_ & M0 & Mor).
    fold res in M0, Mor. fold p in M0, Mor.
    assert (A : find (fun m => match fst (fst m) with
                               | Some q => String.eqb q p
                               | None => false
                               end) (metas s) = None).
    { rewrite <- file_meta, P. reflexivity. }
    assert (New : metas (res_env res)
                  = metas s ++ [(Some p, fs_create_flags s, mode)] ->
                  file_flags (res_env res) p = Some (fs_create_flags s)).
    { intros M. rewrite file_flags_meta, file_meta, M, find_append, A.
      cbn [find fst]. rewrite String.eqb_refl. reflexivity. }
    split; [|split].
    + intros q Hq. destruct Mor as [M|M].
      * apply same_metas_same_files. exact M.
      * rewrite !file_flags_meta, !file_mode_meta, !file_meta, M, find_append.
        apply String.eqb_neq in Hq. cbn [find fst].
        rewrite String.eqb_sym, Hq.
        match goal with
        | |- context [find ?f (metas s)] => destruct (find f (metas s))
        end; auto.
    + intros X. discriminate X.
    + intros _. split.
      * destruct Mor as [M|M].
        -- left. rewrite (exists_path_names _ _ _ (names_metas _ _ M)).
           unfold exists_path. rewrite P. reflexivity.
        -- right. apply New. exact M.
      * intros ->. apply New. apply M0. reflexivity.
Qed.

(** ** Descriptors *)

Lemma wp_sync_leak A root fuel (f : unit -> prog A) e s
  (Q : result fs A -> Prop) s0 :
  no_leak s0 s ->
  (forall o e' s' tr,
      match o with
      | Returned a =>
          no_leak s0 s' -> wp posix (f a) e' s' (fun r' => Q (after tr r'))
      | Exited code => Q (Result (Exited code) e' s' tr)
      | OutOfFuel => Q (Result OutOfFuel e' s' tr)
      end) ->
  wp posix (bind (efi_update_var_file root fuel) f) e s Q.
Proof.
  intros L H. apply wp_bind. unfold wp at 1.
  destruct (sync_frame root fuel e s) as [_ Hs].
  destruct (run posix (efi_update_var_file root fuel) e s) as [o e' s' tr].
  specialize (H o e' s' tr). cbn [res_out res_env res_errno res_trace] in *.
  destruct o as [[]| |]; try exact H.
  apply H. eapply no_leak_trans; [exact L|]. apply Hs. discriminate.
Qed.

(** From the [unlink] of del to its end. *)
Lemma del_tail_frame root fuel p e s s0 ret :
  no_leak s0 s ->
  wp posix
    (u <- sys (Unlink p);;
     when (rv u <? 0) (efi_error "unlink failed");;
     efi_update_var_file root fuel;;
     errno_value <- get_errno;;
     free;; set_errno errno_value;; Ret (rv u))
    e s
    (fun res => res_out res = Returned ret -> no_leak s0 (res_env res)).
Proof.
  intros (k & L). unfold free.
  apply wp_bind_sys; intros u s1 E.
  apply (posix_keeps_fds (Unlink p) _ _ _ eq_refl) in E.
  assert (L1 : no_leak s0 s1) by (exists k; congruence).
  repeat px_branch.
  all: apply (wp_sync_leak _ _ _ _ _ _ _ s0 L1);
    intros o e' s' tr; destruct o as [[]| |]; [intros L2 | |];
    repeat (first [ px_branch | px_plain ]);
    try px_leaf; wp_finish; intros X; try discriminate X; exact L2.
Qed.

Lemma del_frame root fuel guid name e s ret :
  let res := run posix (efivarfs_del_variable root fuel guid name) e s in
  res_out res = Returned ret -> no_leak s (res_env res).
Proof.
  intros res. wp_start res.
  unfold efivarfs_del_variable, make_efivarfs_path, efivarfs_set_immutable,
    efivarfs_set_fd_immutable.
  set (p := var_path root guid name).
  destruct (path_inode s p) as [[n i]|] eqn:P.
  - destruct (set_state_start s p n i P) as [St _].
    destruct (fs_has_flags s) eqn:HF.
    all: repeat (first [ px_branch | sx | px_plain ]).
    all: (eapply wp_conseq;
          [| apply (del_tail_frame root fuel p _ _ s ret);
             match goal with
             | St : set_state _ _ _ _ _ _ _ _ _ _ |- _ =>
                 destruct St as (_ & _ & _ & T & _); exists 1%nat; exact T
             end]);
      intros r; wp_finish; auto.
  - repeat (first [ px_branch | px_plain ]).
    apply wp_bind_sys; intros r s1 E; cbn [posix] in E.
    rewrite (posix_open_absent s p O_RDONLY 0 P eq_refl) in E.
    injection E as <- <-.
    repeat (first [ px_branch | px_plain ]).
    all: (eapply wp_conseq;
          [| apply (del_tail_frame root fuel p _ _ s ret);
             apply no_leak_refl]);
      intros r; wp_finish; auto.
Qed.

(** X28: on the file-system model, a set or a del that returns, and a
    persistence sync that ends (it returns or exits, its copy loop is not
    cut short by the fuel of the model), leave the descriptor table as it
    was, followed by closed descriptors only: every descriptor they opened
    is closed again, and no descriptor of the caller is touched. *)
Theorem operations_close_their_descriptors root fuel guid name data
  data_size attributes mode e s :
  (forall ret,
     res_out (run posix
                (efivarfs_set_variable root fuel guid name data data_size
                   attributes mode) e s) = Returned ret ->
     no_leak s (res_env (run posix
                           (efivarfs_set_variable root fuel guid name data
                              data_size attributes mode) e s))) /\
  (forall ret,
     res_out (run posix (efivarfs_del_variable root fuel guid name) e s)
       = Returned ret ->
     no_leak s (res_env (run posix
                           (efivarfs_del_variable root fuel guid name) e s)))
  /\
  (res_out (run posix (efi_update_var_file root fuel) e s) <> OutOfFuel ->
   no_leak s (res_env (run posix (efi_update_var_file root fuel) e s))).
Proof.
  split; [|split].
  - intros ret Ho.
    destruct (path_inode s (var_path root guid name)) as [[n i]|] eqn:P.
    + exact (proj1 (set_frame_existing root fuel guid name data data_size
                      attributes mode e s n i ret P Ho)).
    + exact (proj1 (set_frame_missing root fuel guid name data data_size
                      attributes mode e s ret P Ho)).
  - intros ret. apply del_frame.
  - apply sync_frame.
Qed.

(** ** The other files *)

Lemma find_path_update_other q l n x y :
  nth_error l n = Some y -> is_path q y = false -> is_path q x = false ->
  find_path q (update l n x) = find_path q l.
Proof.
  revert n. induction l as [|z l IH]; intros n; simpl.
  - destruct n; discriminate.
  - destruct n as [|n]; simpl.
    + intros H Hy Hx; injection H as ->. rewrite Hx, Hy. reflexivity.
    + intros H Hy Hx. rewrite (IH n H Hy Hx). reflexivity.
Qed.

Lemma posix_unlink_other s p r s' q m d :
  q <> p -> posix s (Unlink p) = (r, s') ->
  holds s q m d -> holds s' q m d.
Proof.
  intros Ne E [F (j & J & D)]. cbn [posix] in E. unfold posix_unlink in E.
  destruct (path_inode s p) as [[n i]|] eqn:P;
    [|injection E as <- <-; split; eauto].
  destruct (immutable i); injection E as <- <-; [split; eauto|].
  pose proof (path_inode_nth _ _ _ _ P) as I.
  assert (Fp : find_path p (fs_inodes s) = Some n).
  { unfold path_inode in P.
    destruct (find_path p (fs_inodes s)) as [k|]; [|discriminate].
    destruct (nth_error (fs_inodes s) k); [|discriminate].
    injection P as -> _. reflexivity. }
  destruct (find_path_nth _ _ _ Fp) as (i' & I' & Pi).
  rewrite I in I'. injection I' as <-.
  assert (Qi : is_path q i = false).
  { destruct (is_path q i) eqn:X; [|reflexivity].
    exfalso. apply Ne. eapply is_path_inj; eauto. }
  assert (Nm : n <> m).
  { intros ->. destruct (find_path_nth _ _ _ F) as (j' & J' & Pj).
    rewrite I in J'. injection J' as <-. congruence. }
  split; cbn [set_inodes fs_inodes].
  - rewrite (find_path_update_other q _ n
               (Inode None (i_data i) (i_flags i) (i_mode i)) i I Qi eq_refl).
    exact F.
  - exists j. rewrite nth_error_update_other by exact Nm. auto.
Qed.

(** From the [unlink] of del to its end. *)
Lemma del_tail_keeps root fuel p e s q m d :
  q <> p -> not_under_esp q -> holds s q m d ->
  wp posix
    (u <- sys (Unlink p);;
     when (rv u <? 0) (efi_error "unlink failed");;
     efi_update_var_file root fuel;;
     errno_value <- get_errno;;
     free;; set_errno errno_value;; Ret (rv u))
    e s
    (fun res => holds (res_env res) q m d).
Proof.
  intros Ne Hesp H. unfold free.
  apply wp_bind_sys; intros u s1 E.
  apply (posix_unlink_other _ _ _ _ _ _ _ Ne E) in H. clear E.
  repeat px_branch.
  all: apply wp_bind; unfold wp at 1;
    match goal with
    | |- context [run posix (efi_update_var_file _ _) ?e1 ?s0] =>
        pose proof (sync_keeps_file root fuel e1 s0 q m d Hesp H) as H1;
        destruct (run posix (efi_update_var_file root fuel) e1 s0)
          as [o e2 s2 tr]
    end;
    cbn [res_out res_env res_errno res_trace] in *;
    destruct o as [[]| |]; try exact H1;
    repeat (first [ px_branch | px_keep ]);
    px_leaf; exact H1.
Qed.

Lemma del_keeps_other root fuel guid name e s q m d :
  q <> var_path root guid name -> not_under_esp q -> holds s q m d ->
  holds (res_env (run posix (efivarfs_del_variable root fuel guid name) e s))
    q m d.
Proof.
  intros Ne Hesp H.
  change (wp posix (efivarfs_del_variable root fuel guid name) e s
            (fun res => holds (res_env res) q m d)).
  unfold efivarfs_del_variable, make_efivarfs_path, efivarfs_set_immutable,
    efivarfs_set_fd_immutable.
  set (p := var_path root guid name) in *.
  destruct (path_inode s p) as [[n i]|] eqn:P.
  - destruct (set_state_start s p n i P) as [St _].
    destruct (fs_has_flags s) eqn:HF.
    all: repeat (first [ px_branch | sx | px_plain ]).
    all: (eapply wp_conseq;
          [| apply (del_tail_keeps root fuel p _ _ q m d Ne Hesp);
             assumption]);
      intros r; wp_finish; auto.
  - repeat (first [ px_branch | px_plain ]).
    apply wp_bind_sys; intros r s1 E; cbn [posix] in E.
    rewrite (posix_open_absent s p O_RDONLY 0 P eq_refl) in E.
    injection E as <- <-.
    repeat (first [ px_branch | px_plain ]).
    all: (eapply wp_conseq;
          [| apply (del_tail_keeps root fuel p _ _ q m d Ne Hesp);
             assumption]);
      intros r; wp_finish; auto.
Qed.

Lemma set_keeps_other root fuel guid name data data_size attributes mode
  e s q m d :
  q <> var_path root guid name -> not_under_esp q -> holds s q m d ->
  holds (res_env (run posix
                    (efivarfs_set_variable root fuel guid name data
                       data_size attributes mode) e s)) q m d.
Proof.
  intros Ne Hesp H.
  change (wp posix
            (efivarfs_set_variable root fuel guid name data data_size
               attributes mode) e s
            (fun res => holds (res_env res) q m d)).
  unfold efivarfs_set_variable, make_efivarfs_path, set_body, set_cleanup,
    set_write_phase, efivarfs_make_fd_mutable, memcpy_from, free.
  set (p := var_path root guid name) in *.
  destruct (nonzero (Z.land attributes EFI_VARIABLE_APPEND_WRITE)) eqn:App;
    cbv iota.
  all: destruct (fs_has_flags s) eqn:HF.
  all: destruct (path_inode s p) as [[n i]|] eqn:P.
  all: try (destruct (set_state_start s p n i P) as [St _];
            assert (Nm : m <> n)
              by (intros ->; apply Ne;
                  destruct H as [F _];
                  destruct St as [Fp _];
                  eapply find_path_inj; eauto);
            rewrite ?HF in St).
  all: repeat (first [ px_branch | sx | px_plain ]).
  all: flag_facts.
  all: try (px_leaf; assumption).
  (* the variable has no file: the read-only open fails *)
  all: apply wp_bind_sys; intros r s1 E; cbn [posix] in E;
    rewrite (posix_open_absent s p O_RDONLY 0 P eq_refl) in E;
    injection E as <- <-.
  all: repeat (first [ px_branch | px_plain ]).
  (* the file is created *)
  all: assert (Nm : m <> List.length (fs_inodes s))
         by (destruct H as [_ (j & J & _)];
             assert (m < List.length (fs_inodes s))%nat
               by (apply nth_error_Some; congruence);
             lia).
  all: apply wp_bind_sys; intros w s1 E;
    lazymatch type of E with
    | posix _ (Open _ ?flags _) = _ =>
        apply (posix_keeps_data (Open p flags mode) _ _ _ _ _ _ eq_refl E)
          in H;
        destruct (set_state_created s p flags mode w s1 P eq_refl E)
          as (-> & St);
        (let b := eval vm_compute in (has_flag flags O_WRONLY) in
         change (has_flag flags O_WRONLY) with b in St);
        (let b := eval vm_compute in (has_flag flags O_APPEND) in
         change (has_flag flags O_APPEND) with b in St)
    end;
    rewrite HF in St; clear E.
  all: repeat (first [ px_branch | sx | px_plain ]).
  all: flag_facts.
  all: px_leaf; assumption.
Qed.

(** X29: on the file-system model, set and del change the content of no
    other file: a file that is not the variable's own and not under a
    boot-partition mount point (/boot/efi/, /boot/, /efi/) holds after the
    call exactly what it held before, however the call ends, in every run
    in which the file that the sync opens for writing is a plain name
    directly under a mount point.  The model names each file by one path,
    compared as spelled, and has no links; a reserved name with [/] or
    [..] in it can lead [fopen] to any file, and such runs are left out. *)
Theorem set_and_del_change_no_other_file root fuel guid name data data_size
  attributes mode e s q d :
  let set := run posix
               (efivarfs_set_variable root fuel guid name data data_size
                  attributes mode) e s in
  let del := run posix (efivarfs_del_variable root fuel guid name) e s in
  q <> var_path root guid name -> not_under_esp q ->
  file_data s q = Some d ->
  (Forall plain_output (res_trace set) ->
   file_data (res_env set) q = Some d) /\
  (Forall plain_output (res_trace del) ->
   file_data (res_env del) q = Some d).
Proof.
  intros set del Ne Hesp Hd. apply file_data_holds in Hd.
  destruct Hd as (m & H).
  split; intros _; eapply holds_file_data.
  - apply set_keeps_other; eauto.
  - apply del_keeps_other; eauto.
Qed.

(** ** The probe *)

(** X30: efivarfs_probe, in a library that has not resolved its path yet and
    with strdup succeeding, probes the value of
    secure_getenv(EFIVARFS_PATH), or /sys/firmware/efi/efivars/ when that is
    unset, and returns 0 or 1. If getenv(EFIVARFS_PATH) is that very path,
    it returns 1 exactly when statfs succeeds, whatever the file-system
    type, and the error log is empty when the type was another one;
    otherwise it returns 1 exactly when statfs reports EFIVARFS_MAGIC. The
    path stays cached: get_efivarfs_path returns it from then on, whatever
    the environment. *)
Theorem probe_verdict h errors :
  h_strdup h = true ->
  let path := match h_secure_getenv h with
              | Some value => value
              | None => default_efivarfs_path
              end in
  let out := fst (efivarfs_probe h (Library None errors)) in
  let l := snd (efivarfs_probe h (Library None errors)) in
  (h_getenv h = Some path ->
   (out = Returned 1 <-> h_statfs h path <> None) /\
   (forall f_type, h_statfs h path = Some f_type ->
                   f_type <> EFIVARFS_MAGIC -> lib_errors l = [])) /\
  (h_getenv h <> Some path ->
   (out = Returned 1 <-> h_statfs h path = Some EFIVARFS_MAGIC)) /\
  (out = Returned 1 \/ out = Returned 0) /\
  forall h', get_efivarfs_path h' l = (Returned path, l).
Proof.
  intros Hs path out l. subst out l.
  unfold efivarfs_probe, get_efivarfs_path. cbn [lib_path lib_errors].
  rewrite Hs. fold path.
  destruct (h_statfs h path) as [f_type|] eqn:St.
  - destruct (f_type =? EFIVARFS_MAGIC) eqn:M.
    + apply Z.eqb_eq in M. subst f_type. cbn [fst snd lib_path].
      repeat split; auto; try discriminate; try congruence.
    + apply Z.eqb_neq in M.
      destruct (h_getenv h) as [tmp|] eqn:G.
      * destruct (String.eqb tmp path) eqn:T; cbn [fst snd lib_path lib_errors].
        -- apply String.eqb_eq in T. subst tmp.
           repeat split; auto; try discriminate; try congruence.
        -- apply String.eqb_neq in T.
           repeat split; auto; try discriminate; try congruence.
      * cbn [fst snd lib_path lib_errors].
        repeat split; auto; try discriminate; try congruence.
  - cbn [fst snd lib_path lib_errors].
    repeat split; auto; try discriminate; try congruence.
Qed.

(** ** The further properties at concrete inputs *)

(** X1, on the file system holding [TestVar]. *)
Lemma del_returns_unlink_status_witness :
  let res := run posix
               (efivarfs_del_variable default_efivarfs_path 0 zero_guid
                  "TestVar") 0 testvar_fs in
  res_out res = Returned 0 /\
  exists u, unlinks (res_trace res) = [(Unlink test_path, u)] /\ 0 = rv u.
Proof.
  intros res.
  assert (Ho : res_out res = Returned 0) by (vm_compute; reflexivity).
  split; [exact Ho|].
  destruct (@del_returns_unlink_status fs posix default_efivarfs_path 0
              zero_guid "TestVar" 0 testvar_fs 0 Ho)
    as [(a & msg & Htr & _) | H].
  - exfalso. vm_compute in Htr. discriminate Htr.
  - exact H.
Defined.

(** X2, on a run where the file is created and [write] fails. *)
Lemma set_unlinks_only_its_own_file_witness :
  let res := run scripted
               (efivarfs_set_variable default_efivarfs_path 0 zero_guid
                  "TestVar" [x09] 1 7 384) 0 failing_write in
  res_out res = Returned (-1) /\
  exists u, unlinks (res_trace res) = [(Unlink test_path, u)].
Proof.
  intros res.
  assert (Ho : res_out res = Returned (-1)) by (vm_compute; reflexivity).
  split; [exact Ho|].
  destruct (@set_unlinks_only_its_own_file (list reply) scripted
              default_efivarfs_path 0 zero_guid "TestVar" [x09] 1 7 384 0
              failing_write (-1) (fail ENOENT) (tl (opens (res_trace res)))
              Ho) as [_ H].
  - vm_compute. reflexivity.
  - apply (H eq_refl ltac:(discriminate)
             (Z.lor O_WRONLY (Z.lor O_CREAT O_EXCL)) (ok 5) []).
    + vm_compute. reflexivity.
    + discriminate.
Defined.


(** X5, on a variable that has no file. *)
Lemma chmod_failure_keeps_errno_witness :
  let res := run posix
               (efivarfs_chmod_variable default_efivarfs_path zero_guid
                  "TestVar" 420) 0 empty_fs in
  res_errno res = ENOENT.
Proof.
  intros res.
  apply (@chmod_failure_keeps_errno fs posix default_efivarfs_path zero_guid
           "TestVar" 420 0 empty_fs
           [(Asprintf test_path, ok (strlen test_path))] (fail ENOENT)
           (skipn 2 (res_trace res))).
  - vm_compute. reflexivity.
  - reflexivity.
Defined.

Lemma short_writer_sane out : fwrite_sane short_writer out.
Proof.
  intros s buf r s' E. cbn in E. injection E as <- <-. cbn [rv ok]. lia.
Qed.

(** X25, on an [fwrite] that takes one byte at a time. *)
Lemma write_chunk_resumes_witness :
  let res := run short_writer
               (write_chunk 3 7 "f" [x01; x02; x03; x04] 3 0) 0 tt in
  res_out res = Returned false /\
  List.length (res_trace res) = 3%nat /\
  accepted (res_trace res) = [x01; x02; x03].
Proof.
  intros res.
  assert (Ho : res_out res = Returned false) by (vm_compute; reflexivity).
  split; [exact Ho|]. split; [vm_compute; reflexivity|].
  apply (proj1 (@write_chunk_resumes unit short_writer 7 "f"
                  [x01; x02; x03; x04] 3 3 (short_writer_sane 7)
                  ltac:(cbn; lia) ltac:(unfold SIZE_MAX; lia)
                  0 0 tt ltac:(lia)) Ho).
Defined.

(** X7, on an empty file system. *)
Lemma queries_of_missing_variable_witness :
  let res := run posix
               (efivarfs_get_variable default_efivarfs_path zero_guid
                  "TestVar") 7 empty_fs in
  res_out res = Returned get_failed /\ res_errno res = ENOENT.
Proof.
  apply (proj1 (queries_of_missing_variable default_efivarfs_path zero_guid
                  "TestVar" 7 empty_fs eq_refl)).
Defined.

(** X8, on [TestVar], three bytes of data. *)
Lemma size_agrees_with_get_witness :
  res_out (run posix
             (efivarfs_get_variable_size default_efivarfs_path zero_guid
                "TestVar") 0 testvar_fs)
  = Returned (0, Some 3).
Proof.
  apply (proj1 (size_agrees_with_get default_efivarfs_path zero_guid
                  "TestVar" 0 0 testvar_fs [x07; x00; x00; x00]
                  [x01; x02; x03] eq_refl eq_refl
                  ltac:(unfold SIZE_MAX; cbn; lia))).
Defined.

(** X9, on a file of two bytes. *)
Lemma size_wraps_on_short_file_witness :
  res_out (run posix
             (efivarfs_get_variable_size default_efivarfs_path zero_guid
                "TestVar") 0 short_fs)
  = Returned (0, Some (SIZE_MAX - 1)).
Proof.
  apply (size_wraps_on_short_file default_efivarfs_path zero_guid "TestVar"
           0 short_fs [x07; x00] eq_refl ltac:(cbn; lia)).
Defined.

(** X10, on [TestVar], attributes 7. *)
Lemma attributes_of_file_witness :
  res_out (run posix
             (efivarfs_get_variable_attributes default_efivarfs_path
                zero_guid "TestVar") 0 testvar_fs)
  = Returned (0, Some 7).
Proof.
  apply (proj1 (attributes_of_file default_efivarfs_path zero_guid "TestVar"
                  0 testvar_fs [x07; x00; x00; x00] [x01; x02; x03]
                  eq_refl eq_refl)).
Defined.

(** X11, on a variable that exists, with the persistence file on the ESP;
    the kernel refuses the flag query of set, and serves the write of set
    and the read of the attribute query under a limit that they do not
    exceed. *)
Lemma set_then_queries_witness :
  let s := esp_fs 0 [x07; x00; x00; x00; x4e; x45; x57] in
  let set := run kernel
               (efivarfs_set_variable default_efivarfs_path 8 zero_guid
                  "TestVar" [x09; x08; x07] 3 7 384) 0
               ([Obliging; Obliging; Obliging; Obliging; Refuse EPERM;
                 Obliging; Obliging; Short 7], s) in
  let size := run kernel
                (efivarfs_get_variable_size default_efivarfs_path zero_guid
                   "TestVar") 0 ([Obliging; Short 1], snd (res_env set)) in
  let attr := run kernel
                (efivarfs_get_variable_attributes default_efivarfs_path
                   zero_guid "TestVar") 0
                ([Obliging; Obliging; Obliging; Obliging; Short 4],
                 snd (res_env set)) in
  res_out set = Returned 0 /\
  res_out size = Returned (0, Some 3) /\
  res_out attr = Returned (0, Some 7).
Proof.
  intros s set size attr.
  assert (Ho : res_out set = Returned 0) by (vm_compute; reflexivity).
  split; [exact Ho|].
  destruct (set_then_queries default_efivarfs_path 8 zero_guid "TestVar"
              [x09; x08; x07] 7 384 0 0 0 s
              [Obliging; Obliging; Obliging; Obliging; Refuse EPERM;
               Obliging; Obliging; Short 7]
              [Obliging; Short 1]
              [Obliging; Obliging; Obliging; Obliging; Short 4])
    as [(r1 & Hr1 & Hv1) (r2 & Hr2 & Hv2)].
  - split; [discriminate | reflexivity].
  - apply default_root_not_under_esp.
  - right. split; [reflexivity|]. eexists. split; [reflexivity|].
    vm_compute. lia.
  - exact Ho.
  - vm_compute. reflexivity.
  - match goal with
    | |- Forall _ ?tr =>
        let t := eval vm_compute in tr in change (Forall plain_output t)
    end.
    repeat (apply Forall_cons;
            [first [ exact I | apply vars_bin_is_plain
                   | intros X; discriminate X ]|]).
    apply Forall_nil.
  - change (res_out size = Returned r1) in Hr1.
    change (res_out attr = Returned r2) in Hr2.
    split.
    + rewrite Hr1. f_equal. apply Hv1. right.
      revert Hr1. vm_compute. intros X. injection X as <-. reflexivity.
    + rewrite Hr2. f_equal. apply Hv2. right. split.
      * revert Hr2. vm_compute. intros X. injection X as <-. reflexivity.
      * vm_compute. reflexivity.
Defined.

Lemma immutable_fs_well_formed : well_formed immutable_fs.
Proof. repeat constructor. intros []. Qed.

(** X12, on an immutable variable file. *)
Lemma del_removes_variable_witness :
  let res := run posix
               (efivarfs_del_variable default_efivarfs_path 0 zero_guid
                  "TestVar") 0 immutable_fs in
  file_data immutable_fs test_path
    = Some [x07; x00; x00; x00; x01; x02; x03] /\
  file_data (res_env res) test_path = None /\
  res_out res = Returned 0.
Proof.
  intros res. split; [reflexivity|].
  destruct (del_removes_variable default_efivarfs_path 0 zero_guid "TestVar"
              0 immutable_fs FS_IMMUTABLE_FL immutable_fs_well_formed
              eq_refl (or_introl eq_refl)) as [Hd _].
  split; [exact Hd | vm_compute; reflexivity].
Defined.

(** X13, on an empty file system. *)
Lemma del_of_missing_variable_witness :
  let res := run posix
               (efivarfs_del_variable default_efivarfs_path 0 zero_guid
                  "TestVar") 0 empty_fs in
  file_data (res_env res) test_path = None /\ res_out res = Returned (-1).
Proof.
  intros res.
  destruct (del_of_missing_variable default_efivarfs_path 0 zero_guid
              "TestVar" 0 empty_fs eq_refl) as [Hd _].
  split; [exact Hd | vm_compute; reflexivity].
Defined.

(** X14, setting the flag on [TestVar]. *)
Lemma set_immutable_changes_one_flag_witness :
  let res := run posix (efivarfs_set_immutable test_path true) 0 testvar_fs in
  res_out res = Returned 0 /\
  file_flags (res_env res) test_path = Some FS_IMMUTABLE_FL.
Proof.
  intros res.
  destruct (set_immutable_changes_one_flag test_path true 0 testvar_fs 0
              (Inode (Some test_path) [x07; x00; x00; x00; x01; x02; x03]
                 0 384) eq_refl eq_refl) as [Ho _].
  split; [exact Ho | vm_compute; reflexivity].
Defined.

(** X15, on a file system without the flag ioctls. *)
Lemma set_immutable_tolerates_enotty_witness :
  let res := run posix (efivarfs_set_immutable test_path true) 0 plain_fs in
  res_out res = Returned 0 /\ fs_inodes (res_env res) = fs_inodes plain_fs.
Proof.
  apply (set_immutable_tolerates_enotty test_path true 0 plain_fs 0
           (Inode (Some test_path) [x07; x00; x00; x00; x01; x02; x03]
              0 384) eq_refl eq_refl).
Defined.

(** X16, on a descriptor open on an immutable file. *)
Lemma make_mutable_then_restore_witness :
  let res := run posix (efivarfs_make_fd_mutable 3) 0 opened_fs in
  res_out res = Returned (0, FS_IMMUTABLE_FL) /\
  file_flags (res_env res) test_path = Some 0 /\
  snd (posix (res_env res) (IoctlSetFlags 3 FS_IMMUTABLE_FL)) = opened_fs.
Proof.
  intros res.
  destruct (make_mutable_then_restore 3 0 opened_fs
              (Ofd 0 0 false false)
              (Inode (Some test_path) [x07; x00; x00; x00; x01; x02; x03]
                 FS_IMMUTABLE_FL 384) eq_refl eq_refl) as (Ho & _ & Hs).
  split; [exact Ho|]. split; [vm_compute; reflexivity | exact Hs].
Defined.

(** X17, copying [NEW] over [OLD]. *)
Lemma write_file_copies_payload_witness :
  let s := esp_fs 0 [x07; x00; x00; x00; x4e; x45; x57] in
  let res := run posix (write_file default_efivarfs_path 8
                          "/boot/efi/vars.bin") 0 s in
  file_data s "/boot/efi/vars.bin" = Some (bytes_of_string "OLD") /\
  res_out res = Returned tt /\
  file_data (res_env res) "/boot/efi/vars.bin" = Some [x4e; x45; x57].
Proof.
  intros s res. split; [reflexivity|].
  destruct (write_file_copies_payload default_efivarfs_path 8
              "/boot/efi/vars.bin" 0 s [x07; x00; x00; x00] [x4e; x45; x57]
              0) as (Ho & Hd & _).
  - discriminate.
  - reflexivity.
  - reflexivity.
  - reflexivity.
  - reflexivity.
  - cbn. lia.
  - split; [exact Ho | exact Hd].
Defined.

(** X18, on a [VarToFile] of two bytes. *)
Lemma write_file_short_source_witness :
  let s := esp_fs 0 [x07; x00] in
  let res := run posix (write_file default_efivarfs_path 8
                          "/boot/efi/vars.bin") 0 s in
  res_out res = Exited 1 /\
  file_data (res_env res) "/boot/efi/vars.bin" = Some [].
Proof.
  intros s res.
  destruct (write_file_short_source default_efivarfs_path 8
              "/boot/efi/vars.bin" 0 s [x07; x00] 0) as (Ho & Hd & _).
  - discriminate.
  - reflexivity.
  - cbn. lia.
  - reflexivity.
  - reflexivity.
  - split; [exact Ho | exact Hd].
Defined.

(** X19, on a file system without [VarToFile]. *)
Lemma write_file_missing_source_witness :
  let res := run posix (write_file default_efivarfs_path 8
                          "/boot/efi/vars.bin") 0 testvar_fs in
  res_out res = Returned tt /\ fs_inodes (res_env res) = fs_inodes testvar_fs.
Proof.
  intros res.
  destruct (write_file_missing_source default_efivarfs_path 8
              "/boot/efi/vars.bin" 0 testvar_fs eq_refl) as (Ho & Hi & _).
  split; [exact Ho | exact Hi].
Defined.

(** X20, on [vars.bin] under /boot/efi/. *)
Lemma esp_filepath_search_witness :
  let s := esp_fs 0 [x07; x00; x00; x00; x4e; x45; x57] in
  res_out (run posix (get_esp_filepath "vars.bin" PATH_MAX) 0 s)
  = Returned (0, "/boot/efi/vars.bin").
Proof.
  intros s.
  apply (proj2 (esp_filepath_search "vars.bin" PATH_MAX 0 s)).
  reflexivity.
Defined.

(** X21, on [vars.bin] under /boot/efi/. *)
Lemma sync_mirrors_var_to_file_witness :
  let s := esp_fs 0 [x07; x00; x00; x00; x4e; x45; x57] in
  let res := run posix (efi_update_var_file default_efivarfs_path 8) 0 s in
  res_out res = Returned tt /\
  file_data (res_env res) "/boot/efi/vars.bin" = Some [x4e; x45; x57].
Proof.
  intros s.
  apply (sync_mirrors_var_to_file default_efivarfs_path 8 0 s
           [x07; x00; x00; x00] "vars.bin" [x07; x00; x00; x00]
           [x4e; x45; x57] 0 "/boot/efi/").
  - reflexivity.
  - reflexivity.
  - cbn. intuition discriminate.
  - reflexivity.
  - reflexivity.
  - discriminate.
  - reflexivity.
  - reflexivity.
  - reflexivity.
  - reflexivity.
  - cbn. lia.
Defined.

(** X22, on a file system without the reserved variable. *)
Lemma sync_without_reserved_variable_witness :
  let res := run posix (efi_update_var_file default_efivarfs_path 8) 0
               testvar_fs in
  res_out res = Returned tt /\ res_env res = testvar_fs.
Proof.
  intros res.
  destruct (sync_without_reserved_variable default_efivarfs_path 8 0
              testvar_fs eq_refl) as (Ho & Hs & _).
  split; [exact Ho | exact Hs].
Defined.

(** X23, from mode 0600 to 0644. *)
Lemma chmod_changes_the_mode_witness :
  let res := run posix
               (efivarfs_chmod_variable default_efivarfs_path zero_guid
                  "TestVar" 420) 0 testvar_fs in
  file_mode testvar_fs test_path = Some 384 /\
  res_out res = Returned (-1) /\ file_mode (res_env res) test_path = Some 420.
Proof.
  intros res. split; [reflexivity|].
  destruct (chmod_changes_the_mode default_efivarfs_path zero_guid "TestVar"
              420 0 testvar_fs 0 eq_refl eq_refl) as (Ho & Hm & _).
  split; [exact Ho | exact Hm].
Defined.

(** X24, on a buffer of four bytes. *)
Lemma esp_filename_refuses_long_payload_witness :
  let s := esp_fs 0 [x07; x00; x00; x00; x4e; x45; x57] in
  res_out (run posix (get_esp_filename default_efivarfs_path
                        [x01; x02; x03; x04] 4) 0 s)
  = Returned (-1, [x01; x02; x03; x04]).
Proof.
  intros s.
  apply (proj1 (esp_filename_refuses_long_payload default_efivarfs_path 0 s
                  [x07; x00; x00; x00] (bytes_of_string "vars.bin")
                  [x01; x02; x03; x04] 4 eq_refl eq_refl
                  ltac:(unfold SIZE_MAX; cbn; lia))).
Defined.

(** X27, on an immutable variable file and another mode, and on a
    variable that has no file. *)
Lemma set_keeps_flags_and_modes_witness :
  let res := run posix
               (efivarfs_set_variable default_efivarfs_path 5 zero_guid
                  "TestVar" [x09] 1 7 420) 0 immutable_fs in
  let new := run posix
               (efivarfs_set_variable default_efivarfs_path 5 zero_guid
                  "TestVar" [x09] 1 7 420) 0 empty_fs in
  res_out res = Returned 0 /\
  file_flags (res_env res) test_path = Some FS_IMMUTABLE_FL /\
  file_mode (res_env res) test_path = Some 384 /\
  res_out new = Returned 0 /\
  file_flags (res_env new) test_path = Some 0.
Proof.
  intros res new.
  assert (Ho : res_out res = Returned 0) by (vm_compute; reflexivity).
  assert (Hn : res_out new = Returned 0) by (vm_compute; reflexivity).
  split; [exact Ho|].
  destruct (set_keeps_flags_and_modes default_efivarfs_path 5 zero_guid
              "TestVar" [x09] 1 7 420 0 immutable_fs 0 Ho) as (_ & H & _).
  destruct (set_keeps_flags_and_modes default_efivarfs_path 5 zero_guid
              "TestVar" [x09] 1 7 420 0 empty_fs 0 Hn) as (_ & _ & H').
  destruct (H eq_refl) as [Hf Hm].
  split; [exact Hf|]. split; [exact Hm|]. split; [exact Hn|].
  exact (proj2 (H' eq_refl) eq_refl).
Defined.

(** X28, on a set of [TestVar]. *)
Lemma operations_close_their_descriptors_witness :
  let res := run posix
               (efivarfs_set_variable default_efivarfs_path 5 zero_guid
                  "TestVar" [x09] 1 7 384) 0 testvar_fs in
  res_out res = Returned 0 /\ no_leak testvar_fs (res_env res).
Proof.
  intros res.
  assert (Ho : res_out res = Returned 0) by (vm_compute; reflexivity).
  split; [exact Ho|].
  exact (proj1 (operations_close_their_descriptors default_efivarfs_path 5
                  zero_guid "TestVar" [x09] 1 7 384 0 testvar_fs) 0 Ho).
Defined.

(** X29, on the reserved variable, whose file set and del of [TestVar]
    leave alone while the sync rewrites [vars.bin]. *)
Lemma set_and_del_change_no_other_file_witness :
  let s := esp_fs 0 [x07; x00; x00; x00; x4e; x45; x57] in
  let set := run posix
               (efivarfs_set_variable default_efivarfs_path 5 zero_guid
                  "TestVar" [x09] 1 7 384) 0 s in
  let del := run posix
               (efivarfs_del_variable default_efivarfs_path 5 zero_guid
                  "TestVar") 0 s in
  file_data (res_env set) "/boot/efi/vars.bin"
    = Some (bytes_of_string "NEW") /\
  file_data (res_env set) rtsv_path
    = Some ([x07; x00; x00; x00] ++ bytes_of_string "vars.bin") /\
  file_data (res_env del) rtsv_path
    = Some ([x07; x00; x00; x00] ++ bytes_of_string "vars.bin").
Proof.
  intros s set del.
  split; [vm_compute; reflexivity|].
  destruct (set_and_del_change_no_other_file default_efivarfs_path 5
              zero_guid "TestVar" [x09] 1 7 384 0 s rtsv_path
              ([x07; x00; x00; x00] ++ bytes_of_string "vars.bin"))
    as [Hs Hd].
  - intros X. vm_compute in X. discriminate X.
  - apply default_root_not_under_esp.
  - reflexivity.
  - split; [apply Hs | apply Hd].
    all: match goal with
         | |- Forall _ ?tr =>
             let t := eval vm_compute in tr in change (Forall plain_output t)
         end.
    all: repeat (apply Forall_cons;
                 [first [ exact I | apply vars_bin_is_plain
                        | intros X; discriminate X ]|]).
    all: apply Forall_nil.
Defined.

(** X30, in secure mode, on a file system of another type. *)
Lemma probe_verdict_witness :
  h_strdup secure_host = true /\
  fst (efivarfs_probe secure_host (Library None ["earlier"])) = Returned 1 /\
  lib_errors (snd (efivarfs_probe secure_host (Library None ["earlier"])))
  = [].
Proof.
  split; [reflexivity|].
  destruct (probe_verdict secure_host ["earlier"] eq_refl) as [H _].
  destruct (H eq_refl) as [[_ Ho] He].
  split.
  - apply Ho. discriminate.
  - apply (He 0x01021994); [reflexivity | discriminate].
Defined.

